(* ===== verification/_CoqProject ===== *)
-Q . S2P
Prelude.v
Bytes.v
Text.v
StdMap.v
MD5.v
BinaryReader.v
Buffer.v
MsgCacheManager.v
Framing.v
Double.v
Json.v
JsonReader.v
JsonWriter.v
JsonStrings.v
JsonRoundtrip.v
JsonTotal.v
Field.v
QueryResult.v
MySQLTool.v
MySqlManager.v
Database.v
UserManager.v
UserManagerProofs.v
UserManagerLoad.v
Conn.v
Timestamp.v
Date.v
TimeZone.v
TimeZoneProofs.v
TimeZoneFile.v
TimerQueue.v
TimerProofs.v
TimerRuns.v
Channel.v
EventLoop.v
Client.v
Monitor.v
Queues.v
ThreadPool.v
LoopThreads.v
AsyncLogging.v
LogStream.v
TimeText.v
Logging.v
Poller.v
EPollPoller.v
PollPoller.v
Pollers.v
Http.v
HttpProofs.v
TcpConnection.v
TcpServer.v
TcpProofs.v
TcpRefinement.v
Hosted.v
HttpServer.v
Sessions.v
World.v
ClientSession.v
IMServer.v
Delivery.v
Room.v
ChatLogin.v
ChatDelivery.v
Requests.v
ChatRequests.v
Later.v
Frame.v
Isolation.v
FileManager.v
LogFile.v
FileSession.v
FileTransfer.v
FileServer.v
FileShare.v
Startup.v
Network.v
