(* ===== verification/Prelude.v ===== *)
(** * EdoyumIMServer: a verification library for the chat and file servers

    The program is an instant-messaging server (src/EdoyumIMServer) on the muduo network library,
    and a file server beside it (src/EdoyumIMServer/FileServer). A client's connection has a
    session; its [OnRead] cuts the input buffer into packets, [Process] reads a command, a
    sequence number and a text from each and calls the handler; handlers call the user manager,
    which keeps users in memory and writes them to MySQL, the cache of messages for users that
    are offline, and the sessions of other users; replies go out as packets.

    ** Files

    - Prelude: outcomes ([Ok], [Throw], [Undef]: a C++ exception, undefined behaviour), the state
      and outcome monad [M], loops, the [len] and [run] automation.
    - Bytes, Text, StdMap: integers at their width, byte order, decimal text and C strings,
      [std::map] and [std::set] as sorted association lists.
    - MD5: FileServer/MD5.cpp.
    - BinaryReader: BinaryReader.h/.cpp, the fields of a message.
    - Buffer: net/Buffer.h/.cc, the input buffer.
    - MsgCacheManager: MsgCacheManager.h/.cpp.
    - Framing: the packets of both servers, [TcpSession::Send] and the [OnRead] loops, over a
      [Format] with the two widths of the size.
    - Double: the doubles of the values and of the time stamps, on [SpecFloat].
    - Json, JsonReader, JsonWriter: newJson/jsoncpp.cpp, as far as the server uses it: the value
      operations, [Json::Reader] and the styled writer. The class [JsonText] is the interface
      between documents and their text; the handlers are written against it. JsonStrings,
      JsonRoundtrip and JsonTotal have the proofs on strings, documents and termination.
    - Field, QueryResult, MySQLTool, MySqlManager: the files of these names. The client library
      of MySQL is the class [MySQL]: its calls on an abstract state.
    - Database: the class [Database], what the user manager needs of MySqlManager, with that
      instance and a journal of statements for the witnesses.
    - UserManager, UserManagerProofs, UserManagerLoad: UserManager.h/.cpp.
    - Conn: a connection as the servers see it (its state, the bytes handed to it), the calls a
      callback makes on it, and the machine of connection events [Peers] that both servers run on.
    - Channel, TcpConnection, TcpServer: net/Channel.h/.cc, net/TcpConnection.h/.cc, and
      net/TcpServer.cc with the accept handler of net/Acceptor.cc and one turn of the loop of
      net/EventLoop.cc. The program on top is a [Conn.reaction], an argument of the model.
      TcpProofs has the invariant of the connections, TcpRefinement the properties.
    - EventLoop: net/EventLoop.h/.cc once more, as a machine of interleaved threads: what other
      threads queue and how they wake the loop up.
    - Monitor: base/Mutex.h and base/Condition.h, threads that share an object under its mutex,
      with a proof rule against lost wake-ups. Queues: base/BlockingQueue.h,
      base/BoundedBlockingQueue.h, base/CountDownLatch.cc. ThreadPool: base/ThreadPool.h/.cc.
      LoopThreads: net/EventLoopThread.h/.cc and net/EventLoopThreadPool.h/.cc.
      AsyncLogging: base/AsyncLogging.h/.cc, with FixedBuffer of base/LogStream.h.
    - LogStream, Logging, LogFile: base/LogStream.h/.cc, base/Logging.h/.cc, and base/LogFile.h/.cc
      with AppendFile of base/FileUtil.cc: the line that a log statement makes, and the files that
      lines end up in, on the files of FileManager. What [fwrite] takes and passes on is input.
    - Date, TimeZone, TimeZoneProofs, TimeZoneFile, TimeText: base/Date.h/.cc, base/TimeZone.h/.cc
      and the texts of base/Timestamp.cc: the calendar, civil time, the transitions of a zone, the
      reader of zone files (a file is its bytes), and dates and times as text.
    - Poller, EPollPoller, PollPoller, Pollers: net/Poller.h and net/poller/. The class [Poller]
      is what the loop calls, [PollerSpec] what it promises about an abstract table of channels;
      the system's [epoll] and [poll] are classes, with what their manual pages say. Pollers has
      the properties, proved for both from the promise.
    - Timestamp, TimerQueue: base/Timestamp.h, net/TimerQueue.h/.cc, net/Timer.h/.cc and the
      clock calls of the loop. TimerProofs has the invariant of the two sets, TimerRuns the
      properties of runs of calls and alarms.
    - Sessions: the invariant that a session exists exactly while its connection does, for any
      server that keeps a map of sessions.
    - World, ClientSession, IMServer: the state of the chat server (users, cache, sessions under
      the text of their connection's address, connections), the handlers of ClientSession.cpp
      one by one, and IMServer.cpp as a step relation on connection events.
    - Delivery: handlers as equations. Room: a small concrete server. ChatLogin, ChatDelivery,
      Requests, ChatRequests: what requests do. Later: messages to a user who is away, until the
      user's next login. Frame: what every handler keeps, for any relation
      that the single changes keep. Isolation: the frame of a session, and the invariant of
      sessions and connections.
    - FileManager, FileSession, FileTransfer: the file server's table, session and transfers, on
      a model of files and [stdio] streams. FileServer: FileServer.cpp, its sessions as a step
      relation on connection events. FileShare: a file from one client to another.
    - Http, HttpProofs, HttpServer: net/http/: the parser of requests over the input buffer, the
      response, and the server as a reaction on connection events, put on the network loop.
    - Hosted, Network: a server that is a machine on connection events as a user of the network
      library's loop, for any such server, and the two servers as instances.
    - Startup: [main] of both servers, and what holds of the users in every run of the chat
      server from there.

    ** What the theorems show

    - Transport: the buffer is a byte queue; packets come out whole and in order however the
      bytes are cut; numbers and strings are read back as written; bad sizes and lengths make
      the process crash or stall.
    - Network: a turn of the loop, with the pending functors, the channels and the system calls
      of a connection, is a run of the abstract machine of connection events that the servers
      are proved on; it never meets a failed assertion or a destroyed connection; what a
      connection is given to send is what goes out on its socket, in order. So each server, put
      on the loop, runs as the machine it is proved as, with what it sends going out.
    - Threads: the loop runs every functor that any thread queues, once and in order, and does
      not sleep over one. Queues are first in, first out, whatever threads share them, and
      nobody sleeps over what is there for him; a stopped pool comes to its end, in a bounded
      number of steps; the log is what was logged, in order.
    - Pollers: both pollers watch exactly what an abstract table of channels says after any calls
      that keep to the rules of use, and report watched channels that are ready, each once.
    - Timers: the two sets of timers stay one set, the descriptor is armed for the earliest;
      an alarm runs the timers that are due, in order, and puts the repeating ones back; a
      cancelled timer does not run again.
    - The client: in runs that keep to two rules of use ([Client.by_the_rules]), no assertion
      fails, no socket is lost, there is one attempt at a time; what happens in others.
    - HTTP: requests, in whatever pieces they come, are answered once each and in order; after a
      bad line the answer is 400, and another byte aborts the process.
    - Log text: a statement makes one line with its head, of whole items, within the buffer; the
      files of a log hold exactly the lines, in order, under names that are all different.
    - Dates: day numbers are the calendar; a local time is taken back to its second; what a zone
      file says is loaded, and no query on what was loaded leaves its arrays; the search of
      transitions that are out of order, and the last second before one at the end of 64 bits, are
      the two things that can go wrong.
    - JSON: every input is parsed in finitely many steps; what the writer prints is parsed back,
      up to the tags of integers and the holes of arrays; deep nesting throws.
    - Users: the invariant of the user list, in every run of the server from its start on; what
      each operation does in memory and in the database, what loading from the database gives, and
      what goes wrong after a restart.
    - Chat: login, registration, passwords, friend requests, messages to users and groups, from
      the bytes of the request to the bytes on the connections; messages to a user who is away
      come, all and in order, with that user's next login; no handler touches another session;
      a session exists exactly while its connection does.
    - Files: uploads and downloads end with the right bytes, and what one client uploads another
      downloads; MD5 in pieces is MD5.

    ** Bounds and fuel

    Loops that are not structural have fuel: one turn per readable byte in [OnRead]
    ([OnRead_loop_fuel]), per remaining character in the JSON reader ([parse_ends]), per row left
    in a query result, per byte in the block loops. A loop out of fuel is [Undef Diverges] or a
    [None] that theorems speak about; it is never a normal result. Messages are limited to what
    their [int] sizes hold ([fits], [file_fits]).

    ** Not modelled

    System calls, whose results are inputs of the steps; calls on a connection from other threads
    (both servers run their handlers in one loop thread; the pool of the file server is never
    attached), [forceCloseWithDelay], TcpServer with several loops and its destructor, socket
    options, the destructors of the connector and the client; the text of doubles in the log,
    console output, signals and the daemon's fork; the unused parts of jsoncpp and its older
    copies; the inspector, the RPC and protobuf parts of muduo, which need generated code or a
    running process, and which no server uses; the start of threads and what
    base/ProcessInfo.cc and base/Exception.cc read from the system; the test client. The text of a
    double in JSON goes through [SpecFloat]; comments of values inside a document are dropped,
    those of the root are kept.
    Allocation always succeeds, but for timers. *)

From Stdlib Require Export ZArith Lia Bool.
From Stdlib Require Export Strings.Byte Strings.String Sorting.Sorted.
From stdpp Require Export base tactics list gmap.

#[global] Open Scope Z_scope.
#[global] Set Default Goal Selector "!".

(** ** Bytes: the contents of a [std::string] or a [char] buffer *)

Abbreviation byte := Byte.byte.
Abbreviation bytes := (list Byte.byte).

(** The bytes of a literal. *)
Definition bs (s : String.string) : bytes := String.list_byte_of_string s.

#[export] Instance byte_eq_dec : EqDecision byte := Byte.byte_eq_dec.

(** [size()], as the unbounded integer the machine-width expressions start from. *)
Definition len {A} (l : list A) : Z := Z.of_nat (length l).

(** ** Faults

    What a C++ call may do instead of returning: throw, or reach behaviour the language
    leaves undefined (which includes a failed [assert], compiled into the program). *)

Inductive exn : Type :=
| LengthError            (* std::length_error, from std::string *)
| LogicError             (* std::logic_error and its heirs, where the program catches it *)
| JsonLogicError         (* Json::LogicError, from JSON_ASSERT_MESSAGE *)
| JsonRuntimeError       (* Json::RuntimeError, from throwRuntimeError *)
| BadAlloc.              (* std::bad_alloc, where allocation is looked at *)

Inductive ub : Type :=
| NullDeref              (* a null pointer dereferenced, or handed to a C function *)
| Dangling               (* an object used after its destruction *)
| OutOfBounds            (* a read or write outside an object *)
| Uninitialised          (* an indeterminate value read *)
| SignedOverflow         (* a signed result or conversion that does not fit *)
| AssertFailed           (* an assert() that does not hold *)
| Precondition           (* a library's algorithm on input that its preconditions exclude *)
| Aborted                (* LOG_FATAL or LOG_SYSFATAL: abort() *)
| Diverges.              (* a loop that does not end; a model's loop out of fuel *)

Inductive outcome (A : Type) : Type :=
| Ok (a : A)
| Throw (e : exn)
| Undef (u : ub).
Arguments Ok {A} a.
Arguments Throw {A} e.
Arguments Undef {A} u.

#[export] Instance exn_eq_dec : EqDecision exn.
Proof. solve_decision. Defined.
#[export] Instance ub_eq_dec : EqDecision ub.
Proof. solve_decision. Defined.
#[export] Instance outcome_eq_dec {A} `{EqDecision A} : EqDecision (outcome A).
Proof. solve_decision. Defined.

#[export] Instance outcome_ret : MRet outcome := fun A a => Ok a.
#[export] Instance outcome_bind : MBind outcome := fun A B k m =>
  match m with
  | Ok a => k a
  | Throw e => Throw e
  | Undef u => Undef u
  end.

(** Code that threads the program's mutable state. An exception that leaves a handler is
    caught nowhere and ends the process, so a fault carries no state. *)
Definition M (S A : Type) : Type := S -> outcome (A * S).

#[export] Instance M_ret {S} : MRet (M S) := fun A a s => Ok (a, s).
#[export] Instance M_bind {S} : MBind (M S) := fun A B k m s =>
  match m s with
  | Ok (a, s') => k a s'
  | Throw e => Throw e
  | Undef u => Undef u
  end.

Definition throw {S A} (e : exn) : M S A := fun _ => Throw e.
Definition undef {S A} (u : ub) : M S A := fun _ => Undef u.
Definition gets {S A} (f : S -> A) : M S A := fun s => Ok (f s, s).
Definition modify {S} (f : S -> S) : M S unit := fun s => Ok (tt, f s).
Definition lift {S A} (o : outcome A) : M S A := fun s =>
  match o with
  | Ok a => Ok (a, s)
  | Throw e => Throw e
  | Undef u => Undef u
  end.

(** Running code on a part of the state. *)
Definition zoom {S T A} (get : S -> T) (put : T -> S -> S) (m : M T A) : M S A := fun s =>
  match m (get s) with
  | Ok (a, t) => Ok (a, put t s)
  | Throw e => Throw e
  | Undef u => Undef u
  end.

(** [for (const auto& x : l) f(x);] *)
Fixpoint for_each {S A} (f : A -> M S unit) (l : list A) : M S unit :=
  match l with
  | [] => mret tt
  | x :: l' => _ ← f x; for_each f l'
  end.

(** A loop body that carries a local variable. *)
Fixpoint for_fold {S A B} (f : B -> A -> M S B) (b : B) (l : list A) : M S B :=
  match l with
  | [] => mret b
  | x :: l' => b' ← f b x; for_fold f b' l'
  end.

Lemma outcome_bind_ok {A B} (k : A -> outcome B) a : (Ok a ≫= k) = k a.
Proof. done. Qed.

Section monad_laws.
Context {S : Type}.

Lemma ret_bind {A B} (a : A) (k : A -> M S B) : (mret a ≫= k) = k a.
Proof. done. Qed.

Lemma lift_bind {A B} (a : A) (k : A -> M S B) : (lift (Ok a) ≫= k) = k a.
Proof. done. Qed.

Lemma bind_ok {A B} (m : M S A) (k : A -> M S B) s a s' :
  m s = Ok (a, s') -> (m ≫= k) s = k a s'.
Proof. unfold mbind, M_bind. by intros ->. Qed.

Lemma bind_inv {A B} (m : M S A) (k : A -> M S B) s b s' :
  (m ≫= k) s = Ok (b, s') -> exists a t, m s = Ok (a, t) /\ k a t = Ok (b, s').
Proof.
  unfold mbind, M_bind. destruct (m s) as [[a t]| |] eqn:E; [|done|done]. eauto.
Qed.

Lemma for_fold_app {A B} (f : B -> A -> M S B) b l1 l2 s :
  for_fold f b (l1 ++ l2) s = (b' ← for_fold f b l1; for_fold f b' l2) s.
Proof.
  revert b s. induction l1 as [|x l1 IH]; intros b s; simpl; [done|].
  unfold mbind, M_bind in *. destruct (f b x s) as [[b' t]| |]; [|done|done]. apply IH.
Qed.

Lemma for_each_app {A} (f : A -> M S unit) l1 l2 s :
  for_each f (l1 ++ l2) s = (_ ← for_each f l1; for_each f l2) s.
Proof.
  revert s. induction l1 as [|x l1 IH]; intros s; simpl; [done|].
  unfold mbind, M_bind in *. destruct (f x s) as [[[] t]| |]; [|done|done]. apply IH.
Qed.
End monad_laws.

Lemma alter_some {V} (f : V -> V) (k : Z) (m : gmap Z V) v : m !! k = Some v -> alter f k m = <[k := f v]> m.
Proof.
  intros E. apply map_eq. intros j. destruct (decide (k = j)) as [<-|Ne].
  - by rewrite lookup_alter_eq, lookup_insert_eq, E.
  - by rewrite lookup_alter_ne, lookup_insert_ne.
Qed.

(** ** Automation *)

(** Unfolds the monad's plumbing. *)
Ltac run := unfold mret, mbind, M_ret, M_bind, outcome_ret, outcome_bind, gets, modify,
  throw, undef, lift, zoom in *; simpl in *.

(** Runs the first call of a sequence by an equation. *)
Ltac step L := rewrite (bind_ok _ _ _ _ _ L); cbv beta iota zeta.

(** Runs a first call that only reads or changes the state. *)
Ltac look := cbv beta iota zeta;
  match goal with
  | |- context [(gets ?f ≫= ?k) ?s] => change ((gets f ≫= k) s) with (k (f s) s)
  | |- context [(modify ?f ≫= ?k) ?s] => change ((modify f ≫= k) s) with (k tt (f s))
  end; cbv beta iota zeta.

(** Takes an equation between two results apart. *)
Ltac inj H := injection H; clear H; intros; subst; simpl in *.

(** Splits the next [match] or [if] of a hypothesis about a run. *)
Ltac run_case H :=
  match type of H with
  | context [match ?x with _ => _ end] => destruct x eqn:?; try discriminate H
  end.

(** [lia] with quotients and remainders. *)
Ltac dlia := Z.to_euclidean_division_equations; lia.

Create HintDb im discriminated.
Create Rewrite HintDb len.

(** ** Lists *)

Section lists.
Context {A : Type}.
Implicit Types l : list A.

Lemma len_nil : len (@nil A) = 0. Proof. done. Qed.
Lemma len_cons (x : A) l : len (x :: l) = 1 + len l.
Proof. unfold len. simpl. lia. Qed.
Lemma len_app l1 l2 : len (l1 ++ l2) = len l1 + len l2.
Proof. unfold len. rewrite length_app. lia. Qed.
Lemma len_nonneg l : 0 <= len l.
Proof. unfold len. lia. Qed.
Lemma len_0 l : len l = 0 -> l = [].
Proof. unfold len. destruct l; simpl; [done|lia]. Qed.
Lemma len_to_nat l : Z.to_nat (len l) = length l.
Proof. unfold len. lia. Qed.

(** [take]/[drop] at the boundary of an append, with lengths in [Z]. *)
Lemma take_len_app l1 l2 : take (Z.to_nat (len l1)) (l1 ++ l2) = l1.
Proof. rewrite len_to_nat. apply take_app_length. Qed.
Lemma drop_len_app l1 l2 : drop (Z.to_nat (len l1)) (l1 ++ l2) = l2.
Proof. rewrite len_to_nat. apply drop_app_length. Qed.
End lists.

#[export] Hint Rewrite @len_nil @len_cons @len_app @len_to_nat : len.

Ltac len := autorewrite with len in *.
