(* ===== verification/Bytes.v ===== *)
(** * Bytes and machine integers

    The x86-64 Linux conventions the program relies on: eight-bit bytes, little-endian
    two's-complement integers, [int] of 32 bits and [long]/[int64_t] of 64, and the network
    byte order of [htonl]/[htons]; and the decimal text of [operator<<(int)], [%d] and
    [atoi]. *)

From S2P Require Import Prelude.

(** ** Bytes as numbers *)

Definition b2z (b : byte) : Z := Z.of_N (Byte.to_N b).

(** [(char)z]: the low eight bits. *)
Definition z2b (z : Z) : byte :=
  match Byte.of_N (Z.to_N (z mod 256)) with
  | Some b => b
  | None => Byte.x00
  end.

Lemma b2z_range b : 0 <= b2z b < 256.
Proof. unfold b2z. pose proof (Byte.to_N_bounded b). lia. Qed.

Lemma z2b_b2z b : z2b (b2z b) = b.
Proof.
  unfold z2b, b2z. rewrite Z.mod_small by (pose proof (b2z_range b); unfold b2z in *; lia).
  rewrite N2Z.id, Byte.of_to_N. done.
Qed.

Lemma b2z_z2b z : b2z (z2b z) = z mod 256.
Proof.
  unfold z2b. pose proof (Z.mod_pos_bound z 256 ltac:(lia)) as B.
  destruct (Byte.of_N (Z.to_N (z mod 256))) as [b|] eqn:E.
  - apply Byte.to_of_N in E. unfold b2z. rewrite E. lia.
  - apply Byte.of_N_None_iff in E. lia.
Qed.

Lemma b2z_inj b1 b2 : b2z b1 = b2z b2 -> b1 = b2.
Proof. intros E. rewrite <- (z2b_b2z b1), <- (z2b_b2z b2). by rewrite E. Qed.

Lemma z2b_mod z : z2b (z mod 256) = z2b z.
Proof. apply b2z_inj. rewrite !b2z_z2b. apply Z.mod_mod. lia. Qed.

(** Bytes are keys of finite maps. *)
#[export] Instance byte_countable : Countable byte.
Proof. exact (inj_countable' b2z z2b z2b_b2z). Defined.

(** ** Integers at their width *)

Definition to_u (w z : Z) : Z := z mod 2 ^ w.
Definition to_i (w z : Z) : Z := (z + 2 ^ (w - 1)) mod 2 ^ w - 2 ^ (w - 1).

Abbreviation to_u16 := (to_u 16).
Abbreviation to_u32 := (to_u 32).
Abbreviation to_u64 := (to_u 64).
Abbreviation to_i32 := (to_i 32).
Abbreviation to_i64 := (to_i 64).

Definition INT_MAX : Z := 2147483647.
Definition INT_MIN : Z := -2147483648.

(** The values of an [int32_t]. *)
Definition is_i32 (z : Z) : Prop := INT_MIN <= z <= INT_MAX.
Definition is_i64 (z : Z) : Prop := - 2 ^ 63 <= z < 2 ^ 63.
#[export] Instance is_i32_dec z : Decision (is_i32 z).
Proof. unfold is_i32. apply _. Defined.

#[export] Instance is_i64_dec z : Decision (is_i64 z).
Proof. unfold is_i64. apply _. Defined.

(** The powers of two of the two widths, as literals. *)
Lemma to_i32_lit z : to_i32 z = (z + 2147483648) mod 4294967296 - 2147483648.
Proof. done. Qed.
Lemma to_i64_lit z :
  to_i64 z = (z + 9223372036854775808) mod 18446744073709551616 - 9223372036854775808.
Proof. done. Qed.
Lemma is_i64_lit z : is_i64 z <-> -9223372036854775808 <= z < 9223372036854775808.
Proof. done. Qed.

Lemma to_i32_id z : is_i32 z -> to_i32 z = z.
Proof. rewrite to_i32_lit. unfold is_i32, INT_MIN, INT_MAX. intros. rewrite Z.mod_small; lia. Qed.

Lemma to_i64_id z : is_i64 z -> to_i64 z = z.
Proof. rewrite to_i64_lit, is_i64_lit. intros. rewrite Z.mod_small; lia. Qed.

Lemma to_i32_range z : is_i32 (to_i32 z).
Proof.
  rewrite to_i32_lit. unfold is_i32, INT_MIN, INT_MAX.
  pose proof (Z.mod_pos_bound (z + 2147483648) 4294967296 ltac:(lia)). lia.
Qed.

(** Reading an integer back from the bits another width left. *)
Lemma to_i_mod w z : 0 < w -> to_i w (z mod 2 ^ w) = to_i w z.
Proof. intros. unfold to_i. by rewrite Zplus_mod_idemp_l. Qed.

(** [int + int]: undefined when it does not fit. *)
Definition int_add (a b : Z) : outcome Z :=
  if decide (is_i32 (a + b)) then Ok (a + b) else Undef SignedOverflow.

(** The same with 64 bits. *)
Definition long_add (a b : Z) : outcome Z :=
  if decide (is_i64 (a + b)) then Ok (a + b) else Undef SignedOverflow.

(** ** Little-endian memory *)

Fixpoint le_bytes (n : nat) (z : Z) : bytes :=
  match n with
  | O => []
  | S n' => z2b z :: le_bytes n' (z / 256)
  end.

Fixpoint le_val (l : bytes) : Z :=
  match l with
  | [] => 0
  | b :: l' => b2z b + 256 * le_val l'
  end.

Lemma length_le_bytes n z : length (le_bytes n z) = n.
Proof. revert z. induction n as [|n IH]; intros z; simpl; by rewrite ?IH. Qed.

Lemma len_le_bytes n z : len (le_bytes n z) = Z.of_nat n.
Proof. unfold len. by rewrite length_le_bytes. Qed.
#[export] Hint Rewrite len_le_bytes length_le_bytes : len.

Lemma le_val_range l : 0 <= le_val l < 256 ^ len l.
Proof.
  induction l as [|b l IH]; simpl le_val; [done|].
  rewrite len_cons, Z.pow_add_r by (pose proof (len_nonneg l); lia).
  pose proof (b2z_range b). lia.
Qed.

Lemma le_val_le_bytes n z : le_val (le_bytes n z) = z mod 256 ^ Z.of_nat n.
Proof.
  revert z. induction n as [|n IH]; intros z.
  { simpl. by rewrite Z.mod_1_r. }
  change (le_val (le_bytes (S n) z)) with (b2z (z2b z) + 256 * le_val (le_bytes n (z / 256))).
  rewrite IH, b2z_z2b, Nat2Z.inj_succ, Z.pow_succ_r by lia.
  rewrite Z.rem_mul_r by lia. lia.
Qed.

Lemma le_bytes_le_val l : le_bytes (length l) (le_val l) = l.
Proof.
  induction l as [|b l IH]; [done|]. simpl.
  replace ((b2z b + 256 * le_val l) / 256) with (le_val l).
  2: { pose proof (b2z_range b).
       rewrite Z.mul_comm, Z.div_add, Z.div_small by lia. lia. }
  rewrite IH. f_equal. apply b2z_inj. rewrite b2z_z2b.
  pose proof (b2z_range b).
  rewrite Z.mul_comm, Z.mod_add by lia. by rewrite Z.mod_small by lia.
Qed.

Lemma le_bytes_mod n z : le_bytes n (z mod 256 ^ Z.of_nat n) = le_bytes n z.
Proof.
  rewrite <- le_val_le_bytes.
  rewrite <- (length_le_bytes n z) at 1. apply le_bytes_le_val.
Qed.

(** ** Network byte order

    On the little-endian host [htonl] reverses the bytes in memory. *)

Definition bswap (n : nat) (z : Z) : Z := le_val (rev (le_bytes n z)).
Definition htonl (z : Z) : Z := bswap 4 z.
Definition htons (z : Z) : Z := bswap 2 z.

(** The bytes of an integer, most significant first. *)
Definition be_bytes (n : nat) (z : Z) : bytes := rev (le_bytes n z).
Definition be_val (l : bytes) : Z := le_val (rev l).

Lemma le_bytes_bswap n z : le_bytes n (bswap n z) = be_bytes n z.
Proof.
  unfold bswap, be_bytes.
  rewrite <- (length_le_bytes n z) at 1.
  rewrite <- length_rev. apply le_bytes_le_val.
Qed.

Lemma length_be_bytes n z : length (be_bytes n z) = n.
Proof. unfold be_bytes. by rewrite length_rev, length_le_bytes. Qed.
Lemma len_be_bytes n z : len (be_bytes n z) = Z.of_nat n.
Proof. unfold len. by rewrite length_be_bytes. Qed.
#[export] Hint Rewrite length_be_bytes len_be_bytes : len.

Lemma be_val_be_bytes n z : be_val (be_bytes n z) = z mod 256 ^ Z.of_nat n.
Proof. unfold be_val, be_bytes. rewrite rev_involutive. apply le_val_le_bytes. Qed.

Lemma be_val_bytes_i32 z : is_i32 z -> to_i32 (be_val (be_bytes 4 z)) = z.
Proof.
  intros. rewrite be_val_be_bytes. change (256 ^ Z.of_nat 4) with (2 ^ 32).
  rewrite to_i_mod by lia. by apply to_i32_id.
Qed.

Lemma le_val_bytes_i32 z : is_i32 z -> to_i32 (le_val (le_bytes 4 z)) = z.
Proof.
  intros. rewrite le_val_le_bytes. change (256 ^ Z.of_nat 4) with (2 ^ 32).
  rewrite to_i_mod by lia. by apply to_i32_id.
Qed.

Lemma le_val_bytes_i64 z : is_i64 z -> to_i64 (le_val (le_bytes 8 z)) = z.
Proof.
  intros. rewrite le_val_le_bytes. change (256 ^ Z.of_nat 8) with (2 ^ 64).
  rewrite to_i_mod by lia. by apply to_i64_id.
Qed.

#[global] Arguments le_bytes : simpl never.
#[global] Arguments be_bytes : simpl never.
#[global] Arguments le_val : simpl never.
