(* ===== verification/Text.v ===== *)
(** * Text: C strings and the decimal and hexadecimal text of numbers

    What the program uses of the C and C++ libraries' text functions: [c_str()] seen as a C
    string, [snprintf] into a fixed array, [operator<<(int)] and [%d], [operator<<(void* )],
    and [atoi]/[atoll]. *)

From S2P Require Import Prelude Bytes.

Definition chr (z : Z) : byte := z2b z.

(** The C string a [const char*] denotes: up to the first NUL. *)
Fixpoint c_str (s : bytes) : bytes :=
  match s with
  | [] => []
  | b :: s' => if decide (b = Byte.x00) then [] else b :: c_str s'
  end.

(** [snprintf(buf, n, ...)] leaves at most [n - 1] characters of the formatted text. *)
Definition snprintf (n : nat) (s : bytes) : bytes := take (n - 1) s.

Lemma c_str_id s : Byte.x00 ∉ s -> c_str s = s.
Proof.
  induction s as [|b s IH]; intros H; simpl; [done|].
  rewrite decide_False by set_solver. f_equal. apply IH. set_solver.
Qed.

Lemma length_c_str s : (length (c_str s) <= length s)%nat.
Proof. induction s as [|b s IH]; simpl; [done|]. case_decide; simpl; lia. Qed.

Lemma c_str_no_nul s : Byte.x00 ∉ c_str s.
Proof.
  induction s as [|b s IH]; simpl; [set_solver|].
  case_decide; [set_solver|]. apply not_elem_of_cons. auto.
Qed.

(** ** Decimal *)

(** The digits of [n], most significant first; [fuel] bounds their number. *)
Fixpoint dec_digits (fuel : nat) (n : Z) (acc : bytes) : bytes :=
  match fuel with
  | O => acc
  | S f =>
      let acc' := chr (48 + n mod 10) :: acc in
      if decide (n / 10 = 0) then acc' else dec_digits f (n / 10) acc'
  end.

(** Twenty digits hold any 64-bit value. *)
Definition to_dec (z : Z) : bytes :=
  if decide (z < 0) then chr 45 :: dec_digits 20 (- z) [] else dec_digits 20 z [].

Definition is_digit (b : byte) : bool := (48 <=? b2z b) && (b2z b <=? 57).
Definition is_space (b : byte) : bool := (b2z b =? 32) || ((9 <=? b2z b) && (b2z b <=? 13)).

Fixpoint skip_spaces (s : bytes) : bytes :=
  match s with
  | b :: s' => if is_space b then skip_spaces s' else s
  | [] => []
  end.

Fixpoint read_digits (acc : Z) (s : bytes) : Z :=
  match s with
  | b :: s' => if is_digit b then read_digits (10 * acc + (b2z b - 48)) s' else acc
  | [] => acc
  end.

(** glibc's [strtol] and [strtoll] in base 10, [long] being 64 bits wide: saturating. *)
Definition strtol (s : bytes) : Z :=
  let v :=
    match skip_spaces s with
    | b :: s' =>
        if decide (b2z b = 45) then - read_digits 0 s'
        else if decide (b2z b = 43) then read_digits 0 s'
        else read_digits 0 (b :: s')
    | [] => 0
    end in
  Z.max (- 2 ^ 63) (Z.min (2 ^ 63 - 1) v).

(** [atoi] casts [strtol]'s result to [int]. *)
Definition atoi (s : bytes) : Z := to_i32 (strtol s).
Definition atoll (s : bytes) : Z := strtol s.

Lemma b2z_chr_digit n : 0 <= n < 10 -> b2z (chr (48 + n)) = 48 + n.
Proof. intros. unfold chr. rewrite b2z_z2b, Z.mod_small; lia. Qed.

Lemma is_digit_chr n : 0 <= n < 10 -> is_digit (chr (48 + n)) = true.
Proof. intros. unfold is_digit. rewrite b2z_chr_digit by done. lia. Qed.

(** Reading back what [dec_digits] wrote. *)
Lemma read_dec_digits fuel n acc a :
  0 <= n < 10 ^ Z.of_nat fuel -> (0 < fuel)%nat ->
  exists k, read_digits a (dec_digits fuel n acc) = read_digits (a * 10 ^ k + n) acc /\ 0 <= k.
Proof.
  revert n acc a. induction fuel as [|f IH]; intros n acc a Hn Hf; [lia|].
  simpl. pose proof (Z.mod_pos_bound n 10 ltac:(lia)) as Hm.
  pose proof (Z.div_mod n 10 ltac:(lia)) as Hd.
  case_decide as Hz.
  - exists 1. split; [|lia]. simpl. rewrite is_digit_chr, b2z_chr_digit by lia.
    f_equal. lia.
  - rewrite Nat2Z.inj_succ, Z.pow_succ_r in Hn by lia.
    destruct f as [|f]; [simpl in Hn; lia|].
    destruct (IH (n / 10) (chr (48 + n mod 10) :: acc) a) as (k & E & Hk); [|lia|].
    { split; [apply Z.div_pos; lia|apply Z.div_lt_upper_bound; lia]. }
    exists (k + 1). split; [|lia]. rewrite E. simpl.
    rewrite is_digit_chr, b2z_chr_digit by lia. f_equal.
    rewrite Z.pow_add_r by lia. lia.
Qed.

Lemma read_to_dec n : 0 <= n < 10 ^ 20 -> read_digits 0 (dec_digits 20 n []) = n.
Proof.
  intros Hn. destruct (read_dec_digits 20 n [] 0 Hn ltac:(lia)) as (k & -> & _). simpl. lia.
Qed.

(** Every character of [dec_digits] is a digit; there is at least one. *)
Lemma dec_digits_digits fuel n acc :
  0 <= n -> Forall (fun b => is_digit b = true) acc ->
  Forall (fun b => is_digit b = true) (dec_digits fuel n acc).
Proof.
  revert n acc. induction fuel as [|f IH]; intros n acc Hn Ha; simpl; [done|].
  pose proof (Z.mod_pos_bound n 10 ltac:(lia)).
  assert (Forall (fun b => is_digit b = true) (chr (48 + n mod 10) :: acc)).
  { constructor; [apply is_digit_chr; lia|done]. }
  case_decide; [done|]. apply IH; [apply Z.div_pos; lia|done].
Qed.

Lemma dec_digits_cons f n : exists b l, dec_digits (S f) n [] = b :: l.
Proof.
  assert (forall fuel m b acc, exists c l, dec_digits fuel m (b :: acc) = c :: l) as H.
  { induction fuel as [|g IH]; intros m b acc; simpl; [eauto|]. case_decide; eauto. }
  simpl. case_decide; eauto.
Qed.

Lemma is_digit_not_space b : is_digit b = true -> is_space b = false.
Proof. unfold is_digit, is_space. lia. Qed.

(** As many digits as the value needs. *)
Lemma length_dec_digits fuel n acc k : 0 <= n < 10 ^ Z.of_nat (S k) ->
  (length (dec_digits fuel n acc) <= S k + length acc)%nat.
Proof.
  revert n acc k. induction fuel as [|f IH]; intros n acc k Hn; simpl; [lia|].
  case_decide as H0; [simpl; lia|]. destruct k as [|k].
  - exfalso. apply H0. apply Z.div_small. done.
  - pose proof (IH (n / 10) (chr (48 + n mod 10) :: acc) k) as I. cbn [length] in I.
    rewrite Nat2Z.inj_succ, Z.pow_succ_r in Hn by lia.
    enough (0 <= n / 10 < 10 ^ Z.of_nat (S k)) as J by (specialize (I J); lia).
    split; [apply Z.div_pos; lia|]. apply Z.div_lt_upper_bound; lia.
Qed.

#[global] Arguments dec_digits : simpl never.

(** The text of a 64-bit integer reads back as the integer. *)
Lemma strtol_to_dec z : is_i64 z -> strtol (to_dec z) = z.
Proof.
  rewrite is_i64_lit. intros Hz. unfold strtol, to_dec.
  change (2 ^ 63) with 9223372036854775808.
  case_decide as Hneg.
  - assert (b2z (chr 45) = 45) as E by reflexivity.
    cbn [skip_spaces]. unfold is_space. rewrite E. simpl.
    rewrite ?decide_True by done. rewrite read_to_dec; lia.
  - destruct (dec_digits_cons 19 z) as (b & l & E). rewrite E.
    pose proof (dec_digits_digits 20 z [] ltac:(lia) ltac:(constructor)) as F.
    rewrite E in F. apply Forall_cons in F as [Fb _].
    cbn [skip_spaces]. rewrite (is_digit_not_space _ Fb).
    unfold is_digit in Fb. rewrite !decide_False by lia.
    rewrite <- E, read_to_dec; lia.
Qed.

Lemma atoi_to_dec z : is_i32 z -> atoi (to_dec z) = z.
Proof.
  intros Hz. unfold atoi. rewrite strtol_to_dec; [by apply to_i32_id|].
  apply is_i64_lit. unfold is_i32, INT_MIN, INT_MAX in Hz. lia.
Qed.

Lemma length_to_dec z : is_i32 z -> (length (to_dec z) <= 11)%nat.
Proof.
  unfold is_i32, INT_MIN, INT_MAX, to_dec. intros Hz. case_decide; cbn [length].
  - pose proof (length_dec_digits 20 (- z) [] 9). cbn [length] in *.
    change (10 ^ Z.of_nat 10) with 10000000000 in *. lia.
  - pose proof (length_dec_digits 20 z [] 9). cbn [length] in *.
    change (10 ^ Z.of_nat 10) with 10000000000 in *. lia.
Qed.

Lemma to_dec_no_nul z : is_i64 z -> Byte.x00 ∉ to_dec z.
Proof.
  intros Hz Hin. unfold to_dec in Hin.
  assert (forall n, 0 <= n -> Byte.x00 ∉ dec_digits 20 n []) as H.
  { intros n Hn Hi.
    pose proof (dec_digits_digits 20 n [] Hn ltac:(constructor)) as F.
    rewrite Forall_forall in F. by apply F in Hi. }
  case_decide; [|by apply (H z); [lia|]].
  apply elem_of_cons in Hin as [Hin|Hin]; [done|]. by apply (H (- z)); [lia|].
Qed.

(** ** Hexadecimal: the text of a pointer *)

Definition hex_char (d : Z) : byte := if decide (d < 10) then chr (48 + d) else chr (87 + d).

Fixpoint hex_digits (fuel : nat) (n : Z) (acc : bytes) : bytes :=
  match fuel with
  | O => acc
  | S f =>
      let acc' := hex_char (n mod 16) :: acc in
      if decide (n / 16 = 0) then acc' else hex_digits f (n / 16) acc'
  end.

(** [ss << (void* )p]: libstdc++ prints a null pointer as 0. *)
Definition ptr_text (p : Z) : bytes :=
  if decide (p = 0) then bs "0" else bs "0x" ++ hex_digits 16 p [].

Definition hex_value (b : byte) : Z := if decide (b2z b < 58) then b2z b - 48 else b2z b - 87.

Definition read_hex (acc : Z) (s : bytes) : Z := fold_left (fun a b => 16 * a + hex_value b) s acc.

Lemma hex_value_char d : 0 <= d < 16 -> hex_value (hex_char d) = d.
Proof.
  intros. unfold hex_value, hex_char, chr.
  destruct (decide (d < 10)); rewrite b2z_z2b, Z.mod_small by lia; case_decide; lia.
Qed.

Lemma read_hex_digits fuel n acc a :
  0 <= n < 16 ^ Z.of_nat fuel -> (0 < fuel)%nat ->
  exists k, read_hex a (hex_digits fuel n acc) = read_hex (a * 16 ^ k + n) acc /\ 0 <= k.
Proof.
  revert n acc a. induction fuel as [|f IH]; intros n acc a Hn Hf; [lia|].
  simpl. pose proof (Z.mod_pos_bound n 16 ltac:(lia)) as Hm.
  pose proof (Z.div_mod n 16 ltac:(lia)) as Hd.
  case_decide as Hz.
  - exists 1. split; [|lia]. simpl. rewrite hex_value_char by lia. f_equal. lia.
  - rewrite Nat2Z.inj_succ, Z.pow_succ_r in Hn by lia.
    destruct f as [|f]; [simpl in Hn; lia|].
    destruct (IH (n / 16) (hex_char (n mod 16) :: acc) a) as (k & E & Hk); [|lia|].
    { split; [apply Z.div_pos; lia|apply Z.div_lt_upper_bound; lia]. }
    exists (k + 1). split; [|lia]. rewrite E. simpl. rewrite hex_value_char by lia.
    f_equal. rewrite Z.pow_add_r by lia. lia.
Qed.

#[global] Arguments hex_digits : simpl never.

(** Distinct objects have distinct pointer texts. *)
Lemma ptr_text_inj p q : 0 <= p < 2 ^ 64 -> 0 <= q < 2 ^ 64 -> ptr_text p = ptr_text q -> p = q.
Proof.
  intros Hp Hq. unfold ptr_text.
  assert (forall n, 0 <= n < 2 ^ 64 -> read_hex 0 (hex_digits 16 n []) = n) as R.
  { intros n Hn. destruct (read_hex_digits 16 n [] 0) as (k & -> & _); [done|lia|].
    unfold read_hex. simpl. lia. }
  case_decide; case_decide; intros E; [lia|done|done|].
  apply app_inv_head in E. rewrite <- (R p), <- (R q) by done. by rewrite E.
Qed.
