(* ===== verification/StdMap.v ===== *)
(** * [std::map] and [std::set]: ordered containers

    Iteration runs in key order, which the program depends on (the first matching session,
    the columns of a CREATE TABLE, the members of a JSON object), so a map is its list of
    nodes in iteration order, strictly sorted by key. [std::string] keys compare as
    [std::char_traits<char>] does, lexicographically on unsigned bytes. *)

From S2P Require Import Prelude Bytes.

(** ** Ordered keys *)

Class KeyOrd (K : Type) := {
  kcmp : K -> K -> comparison;
  kcmp_eq : forall a b, kcmp a b = Eq <-> a = b;
  kcmp_opp : forall a b, kcmp b a = CompOpp (kcmp a b);
  kcmp_trans : forall a b c, kcmp a b = Lt -> kcmp b c = Lt -> kcmp a c = Lt;
}.

Definition klt {K} `{KeyOrd K} (a b : K) : Prop := kcmp a b = Lt.

#[export] Program Instance Z_key : KeyOrd Z := {| kcmp := Z.compare |}.
Next Obligation. intros a b. apply Z.compare_eq_iff. Qed.
Next Obligation. intros a b. apply Z.compare_antisym. Qed.
Next Obligation. intros a b c. rewrite !Z.compare_lt_iff. lia. Qed.

Fixpoint bytes_cmp (a b : bytes) : comparison :=
  match a, b with
  | [], [] => Eq
  | [], _ :: _ => Lt
  | _ :: _, [] => Gt
  | x :: a', y :: b' =>
      match Z.compare (b2z x) (b2z y) with
      | Eq => bytes_cmp a' b'
      | c => c
      end
  end.

#[export] Program Instance bytes_key : KeyOrd bytes := {| kcmp := bytes_cmp |}.
Next Obligation.
  induction a as [|x a IH]; intros [|y b]; simpl; [done..|].
  destruct (Z.compare_spec (b2z x) (b2z y)) as [E|E|E].
  - apply b2z_inj in E as ->. rewrite IH. naive_solver.
  - split; [done|]. intros [= -> ->]. lia.
  - split; [done|]. intros [= -> ->]. lia.
Qed.
Next Obligation.
  induction a as [|x a IH]; intros [|y b]; simpl; [done..|].
  rewrite (Z.compare_antisym (b2z x) (b2z y)).
  destruct (Z.compare (b2z x) (b2z y)); simpl; auto.
Qed.
Next Obligation.
  induction a as [|x a IH]; intros [|y b] [|z c]; simpl; try done.
  destruct (Z.compare_spec (b2z x) (b2z y)) as [E1|E1|E1]; [..|done];
    destruct (Z.compare_spec (b2z y) (b2z z)) as [E2|E2|E2]; try done;
    intros H1 H2; destruct (Z.compare_spec (b2z x) (b2z z)); try done; try lia; eauto.
Qed.

Section keys.
Context {K : Type} `{KeyOrd K}.

Lemma kcmp_refl a : kcmp a a = Eq.
Proof. by apply kcmp_eq. Qed.
Lemma kcmp_gt a b : kcmp a b = Gt <-> klt b a.
Proof. unfold klt. rewrite (kcmp_opp a b). destruct (kcmp a b); naive_solver. Qed.
Lemma klt_irrefl a : ~ klt a a.
Proof. unfold klt. by rewrite kcmp_refl. Qed.
#[export] Instance klt_trans : Transitive klt.
Proof. intros a b c. apply kcmp_trans. Qed.
End keys.

(** ** [std::map] *)

Section map.
Context {K V : Type} `{KeyOrd K} `{EqDecision K}.
Implicit Types (m : list (K * V)) (k j : K) (v : V).

(** [find] *)
Fixpoint mfind k m : option V :=
  match m with
  | [] => None
  | (k', v) :: m' => if decide (k = k') then Some v else mfind k m'
  end.

(** [insert(pair)]: leaves an existing node alone. *)
Fixpoint minsert k v m : list (K * V) :=
  match m with
  | [] => [(k, v)]
  | (k', v') :: m' =>
      match kcmp k k' with
      | Lt => (k, v) :: m
      | Eq => m
      | Gt => (k', v') :: minsert k v m'
      end
  end.

(** [m[k] = v] *)
Fixpoint mset k v m : list (K * V) :=
  match m with
  | [] => [(k, v)]
  | (k', v') :: m' =>
      match kcmp k k' with
      | Lt => (k, v) :: m
      | Eq => (k, v) :: m'
      | Gt => (k', v') :: mset k v m'
      end
  end.

(** [erase(k)] *)
Fixpoint merase k m : list (K * V) :=
  match m with
  | [] => []
  | (k', v) :: m' => if decide (k = k') then m' else (k', v) :: merase k m'
  end.

Definition mkeys m : list K := m.*1.
Definition sorted_map m : Prop := StronglySorted klt (mkeys m).

Lemma mfind_mset j k v m : mfind j (mset k v m) = if decide (j = k) then Some v else mfind j m.
Proof.
  induction m as [|[k' v'] m IH]; simpl; [done|].
  destruct (kcmp k k') eqn:C; simpl; [| done |].
  - apply kcmp_eq in C as ->. by repeat case_decide.
  - rewrite IH. repeat case_decide; subst; done || by apply kcmp_gt, klt_irrefl in C.
Qed.

Lemma mfind_mset_eq k v m : mfind k (mset k v m) = Some v.
Proof. rewrite mfind_mset. by rewrite decide_True. Qed.
Lemma mfind_mset_ne j k v m : j <> k -> mfind j (mset k v m) = mfind j m.
Proof. intros. rewrite mfind_mset. by rewrite decide_False. Qed.

Lemma mset_mset k v v' m : mset k v (mset k v' m) = mset k v m.
Proof.
  induction m as [|[j x] m IH]; simpl; [by rewrite kcmp_refl|].
  destruct (kcmp k j) eqn:E; simpl; rewrite ?kcmp_refl, ?E; [done|done|by rewrite IH].
Qed.

Lemma mfind_elem k v m : mfind k m = Some v -> (k, v) ∈ m.
Proof.
  induction m as [|[k' v'] m IH]; simpl; [done|].
  case_decide; intros; [simplify_eq; by left | right; auto].
Qed.

Lemma mfind_key k m : k ∈ mkeys m <-> is_Some (mfind k m).
Proof.
  induction m as [|[k' v'] m IH]; simpl.
  { split; [set_solver | by intros [? ?]]. }
  change (mkeys ((k', v') :: m)) with (k' :: mkeys m). rewrite elem_of_cons, IH.
  case_decide; naive_solver.
Qed.

Lemma mfind_None k m : mfind k m = None <-> k ∉ mkeys m.
Proof. rewrite mfind_key, <- eq_None_not_Some. done. Qed.

(** A key below every key of a sorted map is not in it. *)
Lemma below_not_in k m : Forall (klt k) (mkeys m) -> k ∉ mkeys m.
Proof. intros F Hin. rewrite Forall_forall in F. by apply F, klt_irrefl in Hin. Qed.

Lemma mkeys_minsert_sub k v m x : x ∈ mkeys (minsert k v m) -> x = k \/ x ∈ mkeys m.
Proof.
  unfold mkeys. induction m as [|[k' v'] m IH]; simpl; [|destruct (kcmp k k'); simpl];
    rewrite ?elem_of_cons, ?elem_of_nil; naive_solver.
Qed.

Lemma mkeys_mset_sub k v m x : x ∈ mkeys (mset k v m) -> x = k \/ x ∈ mkeys m.
Proof.
  unfold mkeys. induction m as [|[k' v'] m IH]; simpl; [|destruct (kcmp k k'); simpl];
    rewrite ?elem_of_cons, ?elem_of_nil; naive_solver.
Qed.

Lemma mkeys_merase_sub k m x : x ∈ mkeys (merase k m) -> x ∈ mkeys m.
Proof.
  unfold mkeys. induction m as [|[k' v'] m IH]; simpl; [|case_decide; simpl];
    rewrite ?elem_of_cons; naive_solver.
Qed.

Lemma sorted_cons k v m : sorted_map ((k, v) :: m) <-> sorted_map m /\ Forall (klt k) (mkeys m).
Proof.
  unfold sorted_map, mkeys. simpl. split; [inversion 1; auto | intros []; by constructor].
Qed.

Lemma Forall_klt_trans j k m : klt j k -> Forall (klt k) (mkeys m) -> Forall (klt j) (mkeys m).
Proof. intros L F. eapply Forall_impl; [done|]. intros x. by apply klt_trans. Qed.

Lemma sorted_minsert k v m : sorted_map m -> sorted_map (minsert k v m).
Proof.
  induction m as [|[k' v'] m IH]; intros S; simpl; [repeat constructor|].
  pose proof S as [S' F]%sorted_cons.
  destruct (kcmp k k') eqn:C; [done|apply sorted_cons..]; [|split; [auto|]].
  - split; [done|]. change (mkeys ((k', v') :: m)) with (k' :: mkeys m).
    constructor; [done|]. by eapply Forall_klt_trans.
  - apply Forall_forall. intros x [->|Hx]%mkeys_minsert_sub; [by apply kcmp_gt|].
    rewrite Forall_forall in F. auto.
Qed.

Lemma sorted_mset k v m : sorted_map m -> sorted_map (mset k v m).
Proof.
  induction m as [|[k' v'] m IH]; intros S; simpl; [repeat constructor|].
  pose proof S as [S' F]%sorted_cons.
  destruct (kcmp k k') eqn:C; apply sorted_cons.
  - apply kcmp_eq in C as ->. done.
  - split; [done|]. change (mkeys ((k', v') :: m)) with (k' :: mkeys m).
    constructor; [done|]. by eapply Forall_klt_trans.
  - split; [auto|]. apply Forall_forall. intros x [->|Hx]%mkeys_mset_sub; [by apply kcmp_gt|].
    rewrite Forall_forall in F. auto.
Qed.

(** A key above all others goes to the end. *)
Lemma mset_above k v m : Forall (fun j => klt j k) (mkeys m) -> mset k v m = m ++ [(k, v)].
Proof.
  induction m as [|[j u] m IH]; [done|]. cbn [mkeys fmap list_fmap fst]. intros [Hj F]%Forall_cons. cbn [mset app].
  destruct (kcmp k j) eqn:E.
  - exfalso. apply kcmp_eq in E. subst. by eapply klt_irrefl.
  - exfalso. eapply (klt_irrefl k). by etransitivity; [exact E|].
  - by rewrite IH.
Qed.

Lemma sorted_merase k m : sorted_map m -> sorted_map (merase k m).
Proof.
  induction m as [|[k' v'] m IH]; intros S; simpl; [done|].
  pose proof S as [S' F]%sorted_cons. case_decide; [done|].
  apply sorted_cons. split; [auto|]. apply Forall_forall.
  intros x Hx%mkeys_merase_sub. rewrite Forall_forall in F. auto.
Qed.

Lemma mfind_minsert j k v m : sorted_map m ->
  mfind j (minsert k v m) = if decide (j = k) then Some (default v (mfind k m)) else mfind j m.
Proof.
  induction m as [|[k' v'] m IH]; intros S; simpl; [by case_decide|].
  pose proof S as [S' F]%sorted_cons.
  destruct (kcmp k k') eqn:C; simpl.
  - apply kcmp_eq in C as ->. by repeat case_decide.
  - assert (k ∉ mkeys m) as Hk.
    { apply below_not_in. by eapply Forall_klt_trans. }
    apply mfind_None in Hk. rewrite Hk.
    repeat case_decide; subst; try done. by apply klt_irrefl in C.
  - rewrite IH by done. repeat case_decide; subst; done || by apply kcmp_gt, klt_irrefl in C.
Qed.

Lemma mfind_merase j k m : sorted_map m ->
  mfind j (merase k m) = if decide (j = k) then None else mfind j m.
Proof.
  induction m as [|[k' v'] m IH]; intros S; simpl; [by case_decide|].
  pose proof S as [S' F]%sorted_cons.
  destruct (decide (k = k')) as [->|Hk]; simpl.
  - case_decide; [subst|done]. apply mfind_None. by apply below_not_in.
  - rewrite IH by done. repeat case_decide; subst; done.
Qed.

Lemma mkeys_mset_in k v m : k ∈ mkeys m -> sorted_map m -> mkeys (mset k v m) = mkeys m.
Proof.
  induction m as [|[k' v'] m IH]; intros Hin S; simpl; [set_solver|].
  pose proof S as [S' F]%sorted_cons.
  change (mkeys ((k', v') :: m)) with (k' :: mkeys m) in *.
  destruct (kcmp k k') eqn:C.
  - apply kcmp_eq in C as ->. done.
  - exfalso. apply elem_of_cons in Hin as [->|Hin]; [by apply klt_irrefl in C|].
    rewrite Forall_forall in F. apply F in Hin.
    eapply klt_irrefl. by eapply klt_trans.
  - apply elem_of_cons in Hin as [->|Hin]; [apply kcmp_gt, klt_irrefl in C; done|].
    unfold mkeys in *. simpl. f_equal. auto.
Qed.

Lemma elem_mfind k v m : sorted_map m -> (k, v) ∈ m -> mfind k m = Some v.
Proof.
  induction m as [|[k' v'] m IH]; intros S Hin; [set_solver|].
  pose proof S as [S' F]%sorted_cons. simpl.
  apply elem_of_cons in Hin as [[= -> ->]|Hin]; [by rewrite decide_True|].
  rewrite decide_False; [auto|]. intros ->.
  rewrite Forall_forall in F. eapply klt_irrefl, F. unfold mkeys.
  apply list_elem_of_fmap. by exists (k', v).
Qed.
End map.

(** ** [std::set] *)

Section set.
Context {K : Type} `{KeyOrd K} `{EqDecision K}.
Implicit Types (s : list K) (x y : K).

(** [insert]: leaves an equal element alone. *)
Fixpoint sinsert x s : list K :=
  match s with
  | [] => [x]
  | y :: s' =>
      match kcmp x y with
      | Lt => x :: s
      | Eq => s
      | Gt => y :: sinsert x s'
      end
  end.

(** [erase(x)] *)
Fixpoint serase x s : list K :=
  match s with
  | [] => []
  | y :: s' => if decide (x = y) then s' else y :: serase x s'
  end.

(** [lower_bound(x)]: the elements before it and those from it on. *)
Fixpoint lower_bound x s : list K * list K :=
  match s with
  | [] => ([], [])
  | y :: s' =>
      match kcmp y x with
      | Lt => let '(a, b) := lower_bound x s' in (y :: a, b)
      | _ => ([], s)
      end
  end.

Definition sorted_set s : Prop := StronglySorted klt s.

Lemma elem_of_sinsert x y s : y ∈ sinsert x s <-> y = x \/ y ∈ s.
Proof.
  induction s as [|z s IH]; simpl; [set_solver|].
  destruct (kcmp x z) eqn:E; [apply kcmp_eq in E; set_solver|set_solver..].
Qed.

Lemma elem_of_serase x y s : sorted_set s -> y ∈ serase x s <-> y <> x /\ y ∈ s.
Proof.
  induction s as [|z s IH]; intros S; simpl; [set_solver|].
  inversion S as [|? ? S' F]; subst. rewrite Forall_forall in F.
  case_decide; subst.
  - split; [|set_solver]. intros Hy. split; [|set_solver]. intros ->. by eapply klt_irrefl, F.
  - rewrite !elem_of_cons, IH by done. naive_solver.
Qed.

Lemma sorted_sinsert x s : sorted_set s -> sorted_set (sinsert x s).
Proof.
  induction 1 as [|y s S IH F]; simpl; [repeat constructor|].
  destruct (kcmp x y) eqn:E; [by constructor| |].
  - constructor; [by constructor|]. constructor; [done|].
    eapply Forall_impl; [exact F|]. intros z. by apply klt_trans.
  - constructor; [done|]. apply Forall_forall. intros z. rewrite elem_of_sinsert.
    rewrite Forall_forall in F. intros [->|Hz]; [by apply kcmp_gt|auto].
Qed.

Lemma serase_sub x y s : y ∈ serase x s -> y ∈ s.
Proof. induction s as [|z s IH]; simpl; [done|]. case_decide; set_solver. Qed.

Lemma sorted_serase x s : sorted_set s -> sorted_set (serase x s).
Proof.
  induction 1 as [|y s S IH F]; simpl; [constructor|].
  case_decide; [done|]. constructor; [done|].
  apply Forall_forall. intros z Hz%serase_sub. rewrite Forall_forall in F. auto.
Qed.

Lemma sorted_set_NoDup s : sorted_set s -> NoDup s.
Proof.
  induction 1 as [|y s S IH F]; constructor; [|done]. intros Hy. rewrite Forall_forall in F.
  by eapply klt_irrefl, F.
Qed.

Lemma lower_bound_app x s : (lower_bound x s).1 ++ (lower_bound x s).2 = s.
Proof.
  induction s as [|y s IH]; simpl; [done|]. destruct (kcmp y x); [done| |done].
  destruct (lower_bound x s) as [a b]. simpl in *. by rewrite IH.
Qed.

Lemma lower_bound_spec x s : sorted_set s ->
  Forall (fun y => klt y x) (lower_bound x s).1 /\ Forall (fun y => ~ klt y x) (lower_bound x s).2.
Proof.
  induction 1 as [|y s S IH F]; simpl; [done|]. destruct (kcmp y x) eqn:E.
  - split; [done|]. apply kcmp_eq in E as ->. constructor; [apply klt_irrefl|].
    eapply Forall_impl; [exact F|]. intros z Hz Hx. exact (klt_irrefl x (klt_trans _ _ _ Hz Hx)).
  - destruct (lower_bound x s) as [a b]. simpl in *. destruct IH as [IHa IHb].
    split; [by constructor|done].
  - split; [done|]. apply kcmp_gt in E. constructor.
    + intros Hy. exact (klt_irrefl x (klt_trans _ _ _ E Hy)).
    + eapply Forall_impl; [exact F|]. intros z Hz Hx.
      exact (klt_irrefl x (klt_trans _ _ _ E (klt_trans _ _ _ Hz Hx))).
Qed.
End set.

(** [std::pair], first components first. *)
Definition pair_cmp {A B} `{KeyOrd A} `{KeyOrd B} (a b : A * B) : comparison :=
  match kcmp a.1 b.1 with Eq => kcmp a.2 b.2 | c => c end.

#[export] Program Instance pair_key {A B} `{KeyOrd A} `{KeyOrd B} : KeyOrd (A * B) := {| kcmp := pair_cmp |}.
Next Obligation.
  intros A B ? ? [a1 a2] [b1 b2]; unfold pair_cmp; simpl. destruct (kcmp a1 b1) eqn:E.
  - apply kcmp_eq in E as ->. split; [by intros ->%kcmp_eq|]. intros [= ->]. apply kcmp_refl.
  - split; [done|]. intros [= -> ->]. by rewrite kcmp_refl in E.
  - split; [done|]. intros [= -> ->]. by rewrite kcmp_refl in E.
Qed.
Next Obligation.
  intros A B ? ? [a1 a2] [b1 b2]; unfold pair_cmp; simpl. rewrite (kcmp_opp a1 b1). destruct (kcmp a1 b1); simpl; [|done..].
  apply kcmp_opp.
Qed.
Next Obligation.
  intros A B ? ? [a1 a2] [b1 b2] [c1 c2]; unfold pair_cmp; simpl.
  destruct (kcmp a1 b1) eqn:E1; [| |done]; (destruct (kcmp b1 c1) eqn:E2; [| |done]); intros H1 H2.
  - apply kcmp_eq in E1 as ->. rewrite E2. by eapply kcmp_trans.
  - apply kcmp_eq in E1 as ->. by rewrite E2.
  - apply kcmp_eq in E2 as ->. by rewrite E1.
  - by rewrite (kcmp_trans _ _ _ E1 E2).
Qed.

#[export] Hint Resolve sorted_minsert sorted_mset sorted_merase sorted_sinsert sorted_serase : im.
