(* ===== verification/MD5.v ===== *)
(** * MD5 (FileServer/MD5.h, FileServer/MD5.cpp)

    The digest that names the files of the file server, with the streaming [update] over the
    64-byte buffer, and its agreement with the digest of a whole message. *)

From S2P Require Import Prelude Bytes Text.

(** ** The basic functions, on 32-bit words *)

Definition not32 (x : Z) : Z := 0xffffffff - x.
Definition F (x y z : Z) : Z := Z.lor (Z.land x y) (Z.land (not32 x) z).
Definition G (x y z : Z) : Z := Z.lor (Z.land x z) (Z.land y (not32 z)).
Definition H (x y z : Z) : Z := Z.lxor (Z.lxor x y) z.
Definition I (x y z : Z) : Z := Z.lxor y (Z.lor x (not32 z)).

Definition ROTATE_LEFT (x n : Z) : Z := Z.lor (to_u32 (Z.shiftl x n)) (Z.shiftr x (32 - n)).

(** The four words of the state. *)
Record State := { sa : Z; sb : Z; sc : Z; sd : Z }.

Definition init_state : State :=
  {| sa := 0x67452301; sb := 0xefcdab89; sc := 0x98badcfe; sd := 0x10325476 |}.

(** [FF], [GG], [HH] and [II], by their function. The calls name the words in turn as
    [(a, b, c, d)], [(d, a, b, c)], [(c, d, a, b)] and [(b, c, d, a)]: here the words move one
    place on after each step instead. *)
Definition step (f : Z -> Z -> Z -> Z) (x : list Z) (s : State) (p : nat * Z * Z) : State :=
  let '(k, n, ac) := p in
  let a := to_u32 (sa s + (f (sb s) (sc s) (sd s) + nth k x 0 + ac)) in
  let a := ROTATE_LEFT a n in
  {| sa := sd s; sb := to_u32 (a + sb s); sc := sb s; sd := sc s |}.

(** The steps of the four rounds: the word, the shift and the constant. *)
Definition FF_steps : list (nat * Z * Z) := [
   (0%nat, 7, 0xd76aa478); (1%nat, 12, 0xe8c7b756); (2%nat, 17, 0x242070db); (3%nat, 22, 0xc1bdceee);
   (4%nat, 7, 0xf57c0faf); (5%nat, 12, 0x4787c62a); (6%nat, 17, 0xa8304613); (7%nat, 22, 0xfd469501);
   (8%nat, 7, 0x698098d8); (9%nat, 12, 0x8b44f7af); (10%nat, 17, 0xffff5bb1); (11%nat, 22, 0x895cd7be);
   (12%nat, 7, 0x6b901122); (13%nat, 12, 0xfd987193); (14%nat, 17, 0xa679438e); (15%nat, 22, 0x49b40821)].

Definition GG_steps : list (nat * Z * Z) := [
   (1%nat, 5, 0xf61e2562); (6%nat, 9, 0xc040b340); (11%nat, 14, 0x265e5a51); (0%nat, 20, 0xe9b6c7aa);
   (5%nat, 5, 0xd62f105d); (10%nat, 9, 0x2441453); (15%nat, 14, 0xd8a1e681); (4%nat, 20, 0xe7d3fbc8);
   (9%nat, 5, 0x21e1cde6); (14%nat, 9, 0xc33707d6); (3%nat, 14, 0xf4d50d87); (8%nat, 20, 0x455a14ed);
   (13%nat, 5, 0xa9e3e905); (2%nat, 9, 0xfcefa3f8); (7%nat, 14, 0x676f02d9); (12%nat, 20, 0x8d2a4c8a)].

Definition HH_steps : list (nat * Z * Z) := [
   (5%nat, 4, 0xfffa3942); (8%nat, 11, 0x8771f681); (11%nat, 16, 0x6d9d6122); (14%nat, 23, 0xfde5380c);
   (1%nat, 4, 0xa4beea44); (4%nat, 11, 0x4bdecfa9); (7%nat, 16, 0xf6bb4b60); (10%nat, 23, 0xbebfbc70);
   (13%nat, 4, 0x289b7ec6); (0%nat, 11, 0xeaa127fa); (3%nat, 16, 0xd4ef3085); (6%nat, 23, 0x4881d05);
   (9%nat, 4, 0xd9d4d039); (12%nat, 11, 0xe6db99e5); (15%nat, 16, 0x1fa27cf8); (2%nat, 23, 0xc4ac5665)].

Definition II_steps : list (nat * Z * Z) := [
   (0%nat, 6, 0xf4292244); (7%nat, 10, 0x432aff97); (14%nat, 15, 0xab9423a7); (5%nat, 21, 0xfc93a039);
   (12%nat, 6, 0x655b59c3); (3%nat, 10, 0x8f0ccc92); (10%nat, 15, 0xffeff47d); (1%nat, 21, 0x85845dd1);
   (8%nat, 6, 0x6fa87e4f); (15%nat, 10, 0xfe2ce6e0); (6%nat, 15, 0xa3014314); (13%nat, 21, 0x4e0811a1);
   (4%nat, 6, 0xf7537e82); (11%nat, 10, 0xbd3af235); (2%nat, 15, 0x2ad7d2bb); (9%nat, 21, 0xeb86d391)].

(** ** Words and bytes *)

(** [encode], a word at a time. *)
Definition encode_word (w : Z) : bytes :=
  [z2b (Z.land w 0xff); z2b (Z.land (Z.shiftr w 8) 0xff); z2b (Z.land (Z.shiftr w 16) 0xff);
   z2b (Z.land (Z.shiftr w 24) 0xff)].
Definition encode (l : list Z) : bytes := l ≫= encode_word.

(** [decode]: [length] bytes, four to a word. *)
Fixpoint decode (l : bytes) : list Z :=
  match l with
  | b0 :: b1 :: b2 :: b3 :: l' =>
      Z.lor (Z.lor (Z.lor (b2z b0) (Z.shiftl (b2z b1) 8)) (Z.shiftl (b2z b2) 16)) (Z.shiftl (b2z b3) 24)
      :: decode l'
  | _ => []
  end.

(** [transform], on the first 64 bytes of [block]. *)
Definition transform (s : State) (block : bytes) : State :=
  let x := decode (take 64 block) in
  let t := fold_left (step F x) FF_steps s in
  let t := fold_left (step G x) GG_steps t in
  let t := fold_left (step H x) HH_steps t in
  let t := fold_left (step I x) II_steps t in
  {| sa := to_u32 (sa s + sa t); sb := to_u32 (sb s + sb t);
     sc := to_u32 (sc s + sc t); sd := to_u32 (sd s + sd t) |}.

(** ** The object *)

Record MD5 := {
  _state : State;
  count0 : Z;          (* _count: the number of bits, low word first *)
  count1 : Z;
  _buffer : bytes;     (* 64 bytes *)
  _digest : bytes;     (* 16 bytes *)
  _finished : bool;
}.

(** [reset]: the two arrays keep what they hold. *)
Definition reset (m : MD5) : MD5 := {|
  _state := init_state; count0 := 0; count1 := 0; _buffer := _buffer m; _digest := _digest m;
  _finished := false |}.

(** [memcpy(&_buffer[index], input, n)] *)
Definition put (index : nat) (l : bytes) (buffer : bytes) : bytes :=
  take index buffer ++ l ++ drop (index + length l) buffer.

(** The loop of [update] over the whole blocks of the input, from offset [i]; the test is on
    32-bit words. *)
Fixpoint blocks (fuel : nat) (input : bytes) (i : Z) (s : State) : State * Z :=
  match fuel with
  | O => (s, i)
  | S fuel' =>
      if decide (to_u32 (i + 63) < len input) then
        blocks fuel' input (to_u32 (i + 64)) (transform s (drop (Z.to_nat i) input))
      else (s, i)
  end.

Definition update (m : MD5) (input : bytes) : MD5 :=
  let length := len input in
  let index := Z.land (Z.shiftr (count0 m) 3) 0x3f in
  let bits := to_u32 (Z.shiftl (to_u32 length) 3) in
  let c0 := to_u32 (count0 m + bits) in
  let c1 := if decide (c0 < bits) then to_u32 (count1 m + 1) else count1 m in
  let c1 := to_u32 (c1 + Z.shiftr (to_u32 length) 29) in
  let partLen := 64 - index in
  let '(s, i, index, buffer) :=
    if decide (length >= partLen) then
      let buffer := put (Z.to_nat index) (take (Z.to_nat partLen) input) (_buffer m) in
      let s := transform (_state m) buffer in
      let '(s, i) := blocks (List.length input) input partLen s in
      (s, i, 0, buffer)
    else (_state m, 0, index, _buffer m) in
  {| _state := s; count0 := c0; count1 := c1;
     _buffer := put (Z.to_nat index) (drop (Z.to_nat i) input) buffer;
     _digest := _digest m; _finished := false |}.

Definition PADDING : bytes := chr 0x80 :: replicate 63 (chr 0).

Definition final (m : MD5) : MD5 :=
  let bits := encode [count0 m; count1 m] in
  let index := Z.land (Z.shiftr (count0 m) 3) 0x3f in
  let padLen := if decide (index < 56) then 56 - index else 120 - index in
  let m1 := update m (take (Z.to_nat padLen) PADDING) in
  let m2 := update m1 bits in
  {| _state := _state m; count0 := count0 m; count1 := count1 m; _buffer := _buffer m2;
     _digest := encode [sa (_state m2); sb (_state m2); sc (_state m2); sd (_state m2)];
     _finished := _finished m2 |}.

(** [digest]: [update], called by [final], clears [_finished] again. *)
Definition digest (m : MD5) : bytes * MD5 :=
  let m := if _finished m then m
           else final {| _state := _state m; count0 := count0 m; count1 := count1 m;
                         _buffer := _buffer m; _digest := _digest m; _finished := true |} in
  (_digest m, m).

(** [HEX[t / 16]] and [HEX[t % 16]] *)
Definition HEX : bytes := bs "0123456789abcdef".
Definition bytesToHexString (input : bytes) : bytes :=
  input ≫= (fun c => [nth (Z.to_nat (b2z c / 16)) HEX (chr 0); nth (Z.to_nat (b2z c mod 16)) HEX (chr 0)]).

Definition toString (m : MD5) : bytes * MD5 :=
  let '(d, m) := digest m in (bytesToHexString d, m).

(** [update(ifstream&)]: reads of [BUFFER_SIZE] bytes until one comes short; [None] is a stream
    that did not open. *)
Definition BUFFER_SIZE : nat := 1024.
Fixpoint read_file (fuel : nat) (m : MD5) (rest : bytes) : MD5 :=
  match fuel with
  | O => m
  | S fuel' =>
      let buffer := take BUFFER_SIZE rest in
      let m := match buffer with [] => m | _ => update m buffer end in
      if decide (length buffer < BUFFER_SIZE)%nat then m
      else read_file fuel' m (drop BUFFER_SIZE rest)
  end.
Definition update_file (m : MD5) (file : option bytes) : MD5 :=
  match file with
  | None => m
  | Some content => read_file (S (length content)) m content
  end.

(** The object before [reset] has run on it. *)
Definition raw (buffer dig : bytes) : MD5 :=
  {| _state := init_state; count0 := 0; count1 := 0; _buffer := buffer; _digest := dig; _finished := false |}.
Definition MD5_new (buffer dig : bytes) : MD5 := reset (raw buffer dig).
Definition MD5_of (buffer dig input : bytes) : MD5 := update (MD5_new buffer dig) input.

(** ** The digest of a message *)

(** [n] whole blocks. *)
Fixpoint absorb (n : nat) (m : bytes) (s : State) : State :=
  match n with
  | O => s
  | S n' => absorb n' (drop 64 m) (transform s m)
  end.

(** A bit, zeros up to eight bytes short of a block, the number of bits. *)
Definition padding (m : bytes) : bytes :=
  chr 0x80 :: replicate (Z.to_nat ((55 - len m) mod 64)) (chr 0) ++ le_bytes 8 (8 * len m).

Definition md5 (m : bytes) : bytes :=
  let p := m ++ padding m in
  let s := absorb (length p / 64) p init_state in
  encode [sa s; sb s; sc s; sd s].

(** *** Absorbing *)

Lemma transform_take s l : transform s (take 64 l) = transform s l.
Proof. unfold transform. by rewrite take_take, Nat.min_id. Qed.

Lemma transform_app s a b : length a = 64%nat -> transform s (a ++ b) = transform s a.
Proof. intros L. rewrite <- (transform_take s (a ++ b)). by rewrite take_app_length' by lia. Qed.

Lemma absorb_add a b m s : absorb (a + b) m s = absorb b (drop (64 * a) m) (absorb a m s).
Proof.
  revert m s. induction a as [|a IH]; intros m s; [by rewrite Nat.mul_0_r|].
  change (S a + b)%nat with (S (a + b)). cbn [absorb]. rewrite IH, drop_drop. do 3 f_equal. lia.
Qed.

Lemma absorb_app n m x s : (64 * n <= length m)%nat -> absorb n (m ++ x) s = absorb n m s.
Proof.
  revert m s. induction n as [|n IH]; intros m s L; [done|]. cbn [absorb].
  rewrite drop_app_le by lia. rewrite IH by (rewrite length_drop; lia). f_equal.
  rewrite <- (take_drop 64 m), <- app_assoc. rewrite !transform_app; [done|rewrite length_take; lia..].
Qed.

Lemma blocks_ok fuel input i s : len input < 2 ^ 32 - 64 -> (i <= length input)%nat ->
  (length input < fuel + i + 64)%nat ->
  blocks fuel input (Z.of_nat i) s
  = (absorb ((length input - i) / 64) (drop i input) s, Z.of_nat (i + 64 * ((length input - i) / 64))).
Proof.
  intros L. unfold len in L. change (2 ^ 32) with 4294967296 in L.
  revert i s. induction fuel as [|fuel IH]; intros i s Hi Hf; cbn [blocks]; unfold len, to_u.
  - rewrite Nat.div_small by lia. simpl. do 2 f_equal. lia.
  - change (2 ^ 32) with 4294967296. rewrite !Z.mod_small by lia. case_decide as Hd.
    + replace (Z.of_nat i + 64) with (Z.of_nat (i + 64)) by lia.
      rewrite IH by lia. replace ((length input - i) / 64)%nat with (S ((length input - (i + 64)) / 64)).
      * cbn [absorb]. rewrite drop_drop, Nat2Z.id. f_equal. lia.
      * replace (length input - i)%nat with (length input - (i + 64) + 1 * 64)%nat by lia.
        rewrite Nat.div_add by lia. lia.
    + rewrite Nat.div_small by lia. simpl. do 2 f_equal. lia.
Qed.

(** ** What the object holds after a message *)

Record absorbed (m : bytes) (d : MD5) : Prop := {
  ab_state : _state d = absorb (length m / 64) m init_state;
  ab_count0 : count0 d = (8 * len m) mod 2 ^ 32;
  ab_count1 : count1 d = (8 * len m / 2 ^ 32) mod 2 ^ 32;
  ab_length : length (_buffer d) = 64%nat;
  ab_buffer : take (length m mod 64) (_buffer d) = drop (64 * (length m / 64)) m;
}.

Lemma index_ok m d : absorbed m d ->
  Z.land (Z.shiftr (count0 d) 3) 0x3f = Z.of_nat (length m mod 64).
Proof.
  intros A. rewrite (ab_count0 m d A), Z.shiftr_div_pow2 by lia.
  change 0x3f with (Z.ones 6). rewrite Z.land_ones by lia. unfold len.
  rewrite Nat2Z.inj_mod. change (2 ^ 32) with 4294967296. change (2 ^ 3) with 8. change (2 ^ 6) with 64.
  change 4294967296 with (8 * 536870912). rewrite Z.mul_mod_distr_l by lia.
  rewrite (Z.mul_comm 8), Z.div_mul by lia.
  rewrite Z.mod_mod_divide; [done|by exists 8388608].
Qed.

(** The two words of the count are one counter of 64 bits. *)
Lemma count_ok m d l : absorbed m d -> 0 <= l < 2 ^ 32 ->
  let bits := to_u32 (Z.shiftl (to_u32 l) 3) in
  let c0 := to_u32 (count0 d + bits) in
  let c1 := if decide (c0 < bits) then to_u32 (count1 d + 1) else count1 d in
  c0 = (8 * (len m + l)) mod 2 ^ 32
  /\ to_u32 (c1 + Z.shiftr (to_u32 l) 29) = (8 * (len m + l) / 2 ^ 32) mod 2 ^ 32.
Proof.
  intros A Hl bits c0 c1. pose proof (len_nonneg m).
  assert (bits = (8 * l) mod 4294967296) as Eb.
  { unfold bits, to_u. rewrite Z.shiftl_mul_pow2 by lia. change (2 ^ 32) with 4294967296 in *.
    rewrite (Z.mod_small l) by lia. f_equal. change (2 ^ 3) with 8. lia. }
  assert (Z.shiftr (to_u32 l) 29 = l / 536870912) as Eh.
  { unfold to_u. rewrite Z.shiftr_div_pow2 by lia. change (2 ^ 32) with 4294967296 in *.
    rewrite (Z.mod_small l) by lia. done. }
  rewrite Eh. unfold c1, c0. clearbody bits. clear c0 c1. subst bits.
  rewrite (ab_count0 m d A), (ab_count1 m d A). unfold to_u. change (2 ^ 32) with 4294967296 in *.
  generalize dependent (len m). intros L HL. split; [rewrite <- Zplus_mod; f_equal; lia|].
  set (M := 4294967296) in *. set (q := 8 * L / M). set (h := l / 536870912).
  assert (8 * L = M * q + (8 * L) mod M) as EL by (apply Z.div_mod; done).
  assert (8 * l / M = h) as Eq by (unfold M, h; change 4294967296 with (8 * 536870912);
    by apply Z.div_mul_cancel_l).
  assert (8 * l = M * h + (8 * l) mod M) as El by (rewrite <- Eq; by apply Z.div_mod).
  set (r := (8 * L) mod M) in *. set (b := (8 * l) mod M) in *.
  assert (0 <= r < M /\ 0 <= b < M) as [Hr Hb] by (split; by apply Z.mod_pos_bound).
  clear Eq. clearbody r b q h.
  assert (8 * (L + l) / M = q + h + (r + b) / M) as ->.
  { replace (8 * (L + l)) with (r + b + (q + h) * M)
      by (rewrite Z.mul_add_distr_l, EL, El; ring). rewrite Z.div_add by done. apply Z.add_comm. }
  assert (forall x, (x mod M + h) mod M = (x + h) mod M) as Ex by (intros; by rewrite Zplus_mod_idemp_l).
  case_decide as Hc.
  - assert (M <= r + b) by (destruct (decide (r + b < M)); [rewrite Z.mod_small in Hc|]; lia).
    rewrite (Z.div_unique (r + b) M 1 (r + b - M)) by lia. rewrite Ex, <- Z.add_assoc, Zplus_mod_idemp_l.
    f_equal. lia.
  - assert (r + b < M) by (destruct (decide (r + b < M)); [done|]; destruct Hc;
      rewrite <- (Z.mod_unique (r + b) M 1 (r + b - M)); lia).
    rewrite (Z.div_small (r + b)) by lia. rewrite Ex. f_equal. lia.
Qed.

Lemma put_take index l buffer : (index <= length buffer)%nat ->
  take (index + length l) (put index l buffer) = take index buffer ++ l.
Proof.
  intros Hi. unfold put. rewrite app_assoc. apply take_app_length'.
  rewrite length_app, length_take. lia.
Qed.

Lemma put_length index l buffer : (index + length l <= length buffer)%nat ->
  length (put index l buffer) = length buffer.
Proof. intros Hi. unfold put. rewrite !length_app, length_take, length_drop. lia. Qed.
Lemma blocks_of n : (n = 64 * (n / 64) + n mod 64)%nat /\ (n mod 64 < 64)%nat.
Proof. split; [by apply Nat.div_mod_eq|by apply Nat.mod_upper_bound]. Qed.

Lemma drop_tail_length (m : bytes) : length (drop (64 * (length m / 64)) m) = (length m mod 64)%nat.
Proof. rewrite length_drop. destruct (blocks_of (length m)). lia. Qed.

(** The quotient of a longer message, by what the buffer has room for. *)
Lemma div_short a b : (a mod 64 + b < 64)%nat -> ((a + b) / 64 = a / 64)%nat /\ ((a + b) mod 64 = a mod 64 + b)%nat.
Proof.
  intros L. destruct (blocks_of a) as [E _].
  split; [symmetry; apply (Nat.div_unique _ _ _ (a mod 64 + b))|symmetry; apply (Nat.mod_unique _ _ (a / 64))]; lia.
Qed.

Lemma div_long a b : (64 <= a mod 64 + b)%nat ->
  let p := (64 - a mod 64)%nat in
  ((a + b) / 64 = a / 64 + S ((b - p) / 64))%nat /\ ((a + b) mod 64 = (b - p) mod 64)%nat.
Proof.
  intros L p. destruct (blocks_of a) as [E La]. destruct (blocks_of (b - p)) as [Eb Lb]. unfold p in *.
  split; [symmetry; apply (Nat.div_unique _ _ _ ((b - (64 - a mod 64)) mod 64))
         |symmetry; apply (Nat.mod_unique _ _ (a / 64 + S ((b - (64 - a mod 64)) / 64)))]; lia.
Qed.

(** An input that fits in the buffer is kept there; one that does not fills it, and the whole
    blocks that follow are taken where they are. *)
Lemma update_ok m d input : absorbed m d -> len input < 2 ^ 32 - 64 -> absorbed (m ++ input) (update d input).
Proof.
  intros A L. pose proof (count_ok m d (len input) A) as C.
  destruct C as [C0 C1]; [pose proof (len_nonneg input); lia|].
  unfold update. rewrite (index_ok m d A). set (r := (length m mod 64)%nat) in *.
  destruct (blocks_of (length m)) as [Em Hr]. fold r in Em, Hr.
  replace (Z.to_nat (64 - Z.of_nat r)) with (64 - r)%nat by lia. rewrite Nat2Z.id.
  pose proof (ab_length m d A) as Lb. pose proof (ab_buffer m d A) as B. fold r in B.
  cbv zeta. cbv zeta in C1. set (c1 := to_u32 (_ + Z.shiftr _ 29)) in *. clearbody c1.
  case_decide as Hd; unfold len in Hd.
  - (* the buffer fills up *)
    destruct (div_long (length m) (length input)) as [D M]; [fold r; lia|]. fold r in D, M.
    set (first := take (64 - r) input). set (buffer := put r first (_buffer d)).
    assert (length first = (64 - r)%nat) as Lf by (unfold first; rewrite length_take; lia).
    assert (length buffer = 64%nat) as Lbuf by (unfold buffer; rewrite put_length; lia).
    assert (buffer = drop (64 * (length m / 64)) m ++ first) as Eb.
    { rewrite <- (take_ge buffer 64) by lia. replace 64%nat with (r + length first)%nat at 1 by lia.
      unfold buffer. rewrite put_take by lia. by rewrite B. }
    replace (64 - Z.of_nat r) with (Z.of_nat (64 - r)) by lia. rewrite blocks_ok by lia.
    change (Z.to_nat 0) with 0%nat. rewrite !Nat2Z.id.
    set (k := ((length input - (64 - r)) / 64)%nat) in *. set (rest := drop (64 - r) input).
    assert (length rest = length input - (64 - r))%nat as Lrest by (unfold rest; by rewrite length_drop).
    assert (drop (64 * (length m / 64)) (m ++ input) = buffer ++ rest) as Et.
    { rewrite drop_app_le by lia. rewrite Eb, <- app_assoc. f_equal. unfold first, rest. by rewrite take_drop. }
    assert (drop (64 * (length (m ++ input) / 64)) (m ++ input) = drop (64 * k) rest) as Ed.
    { rewrite length_app, D. replace (64 * (length m / 64 + S k))%nat with (64 * (length m / 64) + (64 + 64 * k))%nat by lia.
      rewrite <- drop_drop, Et, <- drop_drop. f_equal. by rewrite drop_app_length' by lia. }
    assert (length (drop (64 * k) rest) = (length (m ++ input) mod 64)%nat) as Lt.
    { rewrite <- Ed. apply drop_tail_length. }
    split; cbn [_state count0 count1 _buffer].
    + rewrite length_app, D, absorb_add, absorb_app, Et by lia. rewrite <- (ab_state m d A). cbn [absorb].
      rewrite (transform_app _ buffer) by lia. f_equal. symmetry. by apply drop_app_length'.
    + by rewrite len_app.
    + by rewrite len_app.
    + rewrite put_length; [lia|]. rewrite <- drop_drop. fold rest. rewrite Lt.
      destruct (blocks_of (length (m ++ input))). lia.
    + rewrite <- drop_drop. fold rest. rewrite <- Lt. change (length (drop (64 * k) rest))
        with (0 + length (drop (64 * k) rest))%nat. rewrite put_take by lia. by rewrite Ed.
  - (* it does not *)
    destruct (div_short (length m) (length input)) as [D M]; [fold r; lia|]. fold r in M.
    change (Z.to_nat 0) with 0%nat. rewrite drop_0.
    split; cbn [_state count0 count1 _buffer].
    + rewrite length_app, D, absorb_app by lia. apply (ab_state m d A).
    + by rewrite len_app.
    + by rewrite len_app.
    + rewrite put_length by lia. lia.
    + rewrite length_app, M, D, drop_app_le by lia. rewrite Nat2Z.id, put_take by lia. by rewrite B.
Qed.

Lemma MD5_new_absorbed buffer dig : length buffer = 64%nat -> absorbed [] (MD5_new buffer dig).
Proof. by split. Qed.

Lemma updates_ok inputs m d : absorbed m d -> Forall (fun i => len i < 2 ^ 32 - 64) inputs ->
  absorbed (m ++ concat inputs) (fold_left update inputs d).
Proof.
  intros A F. revert m d A. induction F as [|i l Hi F IH]; intros m d A; simpl; [by rewrite app_nil_r|].
  rewrite app_assoc. by apply IH, update_ok.
Qed.

Lemma update_open d i : _finished (update d i) = false.
Proof. unfold update. by repeat case_match. Qed.

Lemma updates_open inputs d : _finished d = false -> _finished (fold_left update inputs d) = false.
Proof.
  revert d. induction inputs as [|i l IH]; intros d E; [done|]. cbn [fold_left]. apply IH, update_open.
Qed.

Lemma le_bytes_app n k z : le_bytes (n + k) z = le_bytes n z ++ le_bytes k (z / 256 ^ Z.of_nat n).
Proof.
  revert z. induction n as [|n IH]; intros z; [simpl; by rewrite Z.div_1_r|].
  change (z2b z :: le_bytes (n + k) (z / 256)
    = z2b z :: le_bytes n (z / 256) ++ le_bytes k (z / 256 ^ Z.of_nat (S n))).
  rewrite IH. do 3 f_equal.
  rewrite Nat2Z.inj_succ, Z.pow_succ_r by lia. by rewrite Z.div_div by lia.
Qed.

Lemma encode_word_le w : encode_word w = le_bytes 4 w.
Proof.
  unfold encode_word. rewrite !Z.shiftr_div_pow2 by lia. change 0xff with (Z.ones 8). rewrite !Z.land_ones by lia.
  change (2 ^ 8) with 256. rewrite !z2b_mod.
  change (le_bytes 4 w) with [z2b w; z2b (w / 256); z2b (w / 256 / 256); z2b (w / 256 / 256 / 256)].
  change (2 ^ 16) with (256 * 256). change (2 ^ 24) with (256 * 256 * 256).
  by rewrite <- !Z.div_div by lia.
Qed.

(** The eight bytes of the count. *)
Lemma bits_ok m d : absorbed m d -> encode [count0 d; count1 d] = le_bytes 8 (8 * len m).
Proof.
  intros A. change (encode [count0 d; count1 d]) with (encode_word (count0 d) ++ encode_word (count1 d) ++ []).
  rewrite app_nil_r, !encode_word_le, (ab_count0 m d A), (ab_count1 m d A).
  change (2 ^ 32) with (256 ^ Z.of_nat 4). rewrite !le_bytes_mod.
  symmetry. apply (le_bytes_app 4 4).
Qed.

Lemma take_PADDING n : (0 < n <= 64)%nat -> take n PADDING = chr 0x80 :: replicate (n - 1) (chr 0).
Proof.
  intros Hn. unfold PADDING. destruct n as [|n]; [lia|]. rewrite firstn_cons, take_replicate. do 2 f_equal. lia.
Qed.

Lemma padding_zeros q r L : L = Z.of_nat (64 * q + r) -> (r < 64)%nat ->
  (55 - L) mod 64 = if decide (Z.of_nat r < 56) then 55 - Z.of_nat r else 119 - Z.of_nat r.
Proof.
  intros -> Hr. symmetry. case_decide.
  - apply (Z.mod_unique _ _ (- Z.of_nat q)); lia.
  - apply (Z.mod_unique _ _ (- Z.of_nat q - 1)); lia.
Qed.

(** [final] absorbs the padding. *)
Lemma final_absorbs m d : absorbed m d -> exists d', absorbed (m ++ padding m) d'
  /\ final d = {| _state := _state d; count0 := count0 d; count1 := count1 d; _buffer := _buffer d';
                  _digest := encode [sa (_state d'); sb (_state d'); sc (_state d'); sd (_state d')];
                  _finished := _finished d' |}.
Proof.
  intros A. unfold final. rewrite (index_ok m d A), (bits_ok m d A).
  destruct (blocks_of (length m)) as [Em Hr]. set (r := (length m mod 64)%nat) in *.
  set (pad := Z.to_nat (if decide (Z.of_nat r < 56) then 56 - Z.of_nat r else 120 - Z.of_nat r)).
  assert (0 < pad <= 64)%nat as Hp by (unfold pad; case_decide; lia).
  rewrite take_PADDING by done. set (d' := update _ _). exists d'. split; [|done].
  assert (m ++ padding m = (m ++ chr 0x80 :: replicate (pad - 1) (chr 0)) ++ le_bytes 8 (8 * len m)) as ->.
  { unfold padding. rewrite <- app_assoc. cbn [app]. rewrite (padding_zeros (length m / 64) r (len m)) by (unfold len; lia).
    assert (Z.to_nat (if decide (Z.of_nat r < 56) then 55 - Z.of_nat r else 119 - Z.of_nat r) = (pad - 1)%nat) as ->
      by (unfold pad; case_decide; lia). done. }
  unfold d'. apply update_ok; [apply update_ok; [done|]|rewrite len_le_bytes; lia].
  unfold len. simpl. rewrite length_replicate. lia.
Qed.

(** What is left in the buffer. *)
Lemma update_buffer m d input : absorbed m d -> len input < 2 ^ 32 - 64 ->
  let r := (length m mod 64)%nat in
  _buffer (update d input)
  = if decide (r + length input < 64)%nat then put r input (_buffer d)
    else put 0 (drop (64 - r + 64 * ((length input - (64 - r)) / 64)) input)
           (put r (take (64 - r) input) (_buffer d)).
Proof.
  intros A L r. unfold update. rewrite (index_ok m d A). fold r. cbv zeta.
  destruct (blocks_of (length m)) as [_ Hr]. fold r in Hr.
  replace (Z.to_nat (64 - Z.of_nat r)) with (64 - r)%nat by lia. rewrite Nat2Z.id.
  destruct (decide (r + length input < 64)%nat) as [Hs|Hs].
  - rewrite decide_False by (unfold len; lia). cbn [_buffer]. by rewrite Nat2Z.id.
  - rewrite decide_True by (unfold len; lia). replace (64 - Z.of_nat r) with (Z.of_nat (64 - r)) by lia.
    rewrite blocks_ok by lia. cbn [_buffer]. change (Z.to_nat 0) with 0%nat. by rewrite Nat2Z.id.
Qed.

Lemma put_nil buffer : put 0 [] buffer = buffer.
Proof. done. Qed.

Lemma put_below index l buffer k : (k <= index <= length buffer)%nat -> take k (put index l buffer) = take k buffer.
Proof.
  intros Hk. unfold put. rewrite take_app_le by (rewrite length_take; lia). by rewrite take_take, Nat.min_l by lia.
Qed.

(** What the buffer holds of a message after its digest: the same bytes if the padding fitted in
    the last block, and parts of the padding if not. *)
Definition left_over (m : bytes) : bytes :=
  let r := (length m mod 64)%nat in
  if decide (r < 56)%nat then drop (64 * (length m / 64)) m
  else take r (replicate 56 (chr 0) ++ le_bytes 8 (8 * len m)).

Lemma final_buffer m d : absorbed m d -> take (length m mod 64) (_buffer (final d)) = left_over m.
Proof.
  intros A. unfold final. rewrite (index_ok m d A), (bits_ok m d A). cbn [_buffer].
  destruct (blocks_of (length m)) as [Em Hr]. unfold left_over. set (r := (length m mod 64)%nat) in *.
  pose proof (ab_length m d A) as Lb. pose proof (ab_buffer m d A) as B. fold r in B.
  set (bits := le_bytes 8 _). assert (length bits = 8%nat) as Lbits by apply length_le_bytes.
  set (pad := Z.to_nat _). assert (0 < pad <= 64)%nat as Hp by (unfold pad; case_decide; lia).
  rewrite take_PADDING by done. set (zeros := chr 0x80 :: _).
  assert (length zeros = pad) as Lz by (unfold zeros; simpl; rewrite length_replicate; lia).
  assert (absorbed (m ++ zeros) (update d zeros)) as A1 by (apply update_ok; [done|unfold len; lia]).
  rewrite (update_buffer _ _ bits A1) by (unfold len; lia).
  rewrite (update_buffer _ _ zeros A) by (unfold len; lia). fold r. rewrite length_app, Lz, Lbits.
  assert (((length m + pad) mod 64)%nat = 56%nat) as ->.
  { symmetry. unfold pad. case_decide; [apply (Nat.mod_unique _ _ (length m / 64))
      |apply (Nat.mod_unique _ _ (S (length m / 64)))]; lia. }
  rewrite (decide_False (P := (56 + 8 < 64)%nat)) by lia.
  change (64 - 56)%nat with 8%nat. change ((8 - 8) / 64)%nat with 0%nat.
  rewrite (drop_ge bits), put_nil, (take_ge bits) by lia.
  destruct (decide (r < 56)%nat) as [H56|H56].
  - rewrite decide_True by (unfold pad; rewrite decide_True by lia; lia).
    rewrite put_below by (rewrite put_length; rewrite ?Lz; unfold pad; rewrite ?decide_True by lia; lia).
    by rewrite put_below by lia.
  - assert (pad = 120 - r)%nat as Ep by (unfold pad; rewrite decide_False by lia; lia).
    rewrite decide_False by lia. replace ((pad - (64 - r)) / 64)%nat with 0%nat by (rewrite Ep, Nat.div_small; lia).
    rewrite Nat.mul_0_r, Nat.add_0_r. set (buf := put r _ _).
    assert (length buf = 64%nat) as Lbuf by (unfold buf; rewrite put_length; rewrite ?length_take; lia).
    assert (drop (64 - r) zeros = replicate 56 (chr 0)) as ->.
    { unfold zeros. destruct (64 - r)%nat as [|k] eqn:Ek; [lia|]. rewrite skipn_cons, drop_replicate. f_equal. lia. }
    set (b0 := put 0 _ buf). assert (take 56 b0 = replicate 56 (chr 0)) as E0.
    { unfold b0. apply (put_take 0 (replicate 56 (chr 0)) buf). lia. }
    assert (length b0 = 64%nat) as L0 by (unfold b0; rewrite put_length; rewrite ?length_replicate; lia).
    rewrite <- E0. pose proof (put_take 56 bits b0 ltac:(lia)) as E1. rewrite <- E1.
    by rewrite take_take, Nat.min_l by lia.
Qed.

(** ** Properties *)

(** C20: The digest of an object that was fed a message in pieces, however it was cut, is the MD5
    digest of the message: the message padded to whole 64-byte blocks with a bit, zeros and its
    length in bits, and the blocks absorbed in order. What the buffer held before does not
    matter, and the 64-bit count of bits wraps as it should. *)
Theorem digest_of_pieces buffer dig inputs : length buffer = 64%nat ->
  Forall (fun i => len i < 2 ^ 32 - 64) inputs ->
  (digest (fold_left update inputs (MD5_new buffer dig))).1 = md5 (concat inputs).
Proof.
  intros Lb F. pose proof (updates_ok inputs [] _ (MD5_new_absorbed buffer dig Lb) F) as A. cbn [app] in A.
  set (d := fold_left _ _ _) in *. assert (_finished d = false) as Ef by (by apply updates_open).
  unfold digest. rewrite Ef. set (d1 := {| _state := _state d; _finished := true |}).
  assert (absorbed (concat inputs) d1) as A1 by (destruct A; by split).
  destruct (final_absorbs _ d1 A1) as (d' & A' & ->). cbn [fst _digest]. unfold md5.
  by rewrite (ab_state _ d' A').
Qed.

(** [final] clears [_finished], because the [update]s it makes do, so every call of [digest]
    computes the digest anew. State and count are restored and the buffer is not: after a
    message of fewer than 56 bytes past a block the next call gives the same digest, after any
    other the digest of a message whose end is zeros and the length in bits. *)
Theorem digest_again m d : absorbed m d -> _finished d = false ->
  let m' := take (64 * (length m / 64)) m ++ left_over m in
  (digest d).1 = md5 m /\ (digest (digest d).2).1 = md5 m'
  /\ absorbed m' (digest d).2 /\ ((length m mod 64 < 56)%nat -> m' = m).
Proof.
  intros A Ef m'. destruct (blocks_of (length m)) as [Em Hr].
  assert (forall n e, absorbed n e -> _finished e = false -> (digest e).1 = md5 n) as D.
  { intros n e An En. unfold digest. rewrite En. set (e1 := {| _state := _state e; _finished := true |}).
    assert (absorbed n e1) as A1 by (destruct An; by split).
    destruct (final_absorbs _ e1 A1) as (d' & A' & ->). cbn [fst _digest]. unfold md5. by rewrite (ab_state _ d' A'). }
  set (d1 := {| _state := _state d; count0 := count0 d; count1 := count1 d; _buffer := _buffer d;
                _digest := _digest d; _finished := true |}).
  assert ((digest d).2 = final d1) as E2 by (unfold digest; by rewrite Ef).
  assert (absorbed m d1) as A1 by (destruct A; by split).
  assert (_finished (final d1) = false) as Eo by apply update_open.
  assert (length (left_over m) = (length m mod 64)%nat) as Ll.
  { unfold left_over. case_decide; [apply drop_tail_length|].
    rewrite length_take, length_app, length_replicate, length_le_bytes. lia. }
  assert (length m' = length m) as Lm by (unfold m'; rewrite length_app, length_take, Ll; lia).
  assert (absorbed m' (final d1)) as A'.
  { destruct A1 as [S C0 C1 L _]. pose proof (final_buffer m d1 ltac:(by destruct A; split)) as Fb.
    destruct (final_absorbs m d1 ltac:(by destruct A; split)) as (d2 & A2 & Ed2).
    unfold len in *. split; rewrite ?Lm; unfold len; rewrite ?Lm; [|by rewrite Ed2..| |].
    - rewrite Ed2. cbn [_state]. rewrite S. unfold m'. rewrite absorb_app by (rewrite length_take; lia).
      rewrite <- (take_drop (64 * (length m / 64)) m) at 2. by rewrite absorb_app by (rewrite length_take; lia).
    - rewrite Ed2. apply (ab_length _ _ A2).
    - rewrite Fb. unfold m'. symmetry. apply drop_app_length'. rewrite length_take. lia. }
  split; [by apply D|]. rewrite E2. split; [by apply D|]. split; [done|].
  intros H56. unfold m', left_over. rewrite decide_True by done. apply take_drop.
Qed.

(** ** Test vectors, and the witnesses *)

Definition fresh : MD5 := MD5_new (replicate 64 (chr 7)) [].

Example md5_empty : (toString fresh).1 = bs "d41d8cd98f00b204e9800998ecf8427e".
Proof. vm_compute. reflexivity. Qed.

Example md5_abc : (toString (update fresh (bs "abc"))).1 = bs "900150983cd24fb0d6963f7d28e17f72".
Proof. vm_compute. reflexivity. Qed.

Lemma digest_of_pieces_witness :
  bytesToHexString (digest (update (update fresh (replicate 70 (chr 97))) (replicate 30 (chr 97)))).1
  = bs "36a92cc94a9e0fa21f625f8bfb007adf".
Proof.
  refine (eq_trans (f_equal bytesToHexString (digest_of_pieces (replicate 64 (chr 7)) []
    [replicate 70 (chr 97); replicate 30 (chr 97)] eq_refl _)) _).
  - repeat constructor; vm_compute; reflexivity.
  - vm_compute. reflexivity.
Defined.

(** Sixty bytes, digested twice. *)
Definition sixty : MD5 := update fresh (replicate 60 (chr 97)).

Lemma digest_again_witness : (digest (digest sixty).2).1 <> (digest sixty).1.
Proof.
  assert (absorbed (replicate 60 (chr 97)) sixty) as A.
  { apply (update_ok [] fresh); [by apply MD5_new_absorbed|vm_compute; reflexivity]. }
  destruct (digest_again (replicate 60 (chr 97)) sixty A eq_refl) as (E1 & E2 & _). rewrite E1, E2.
  vm_compute. discriminate.
Defined.
