(* ===== verification/BinaryReader.v ===== *)
(** * BinaryReader and BinaryWriter (BinaryReader.h, BinaryReader.cpp)

    The serialization of every message of both servers: integers in network order, strings
    behind a length in base 128, most significant group first. *)

From S2P Require Import Prelude Bytes.

(** ** The reader *)

Record BinaryReader := {
  r_buffer : bytes;      (* m_buffer *)
  r_index : Z;           (* m_index, a uint32_t *)
}.

(** [BinaryReader(const string& buffer)], [UpdateBuffer] *)
Definition BinaryReader_of (buffer : bytes) : BinaryReader :=
  {| r_buffer := buffer; r_index := 0 |}.
Definition UpdateBuffer (r : BinaryReader) (buffer : bytes) : BinaryReader :=
  {| r_buffer := buffer; r_index := 0 |}.

Definition Reset (r : BinaryReader) : BinaryReader :=
  {| r_buffer := r_buffer r; r_index := 0 |}.

Definition reader_Size (r : BinaryReader) : Z := len (r_buffer r).

(** [n] bytes of the buffer from offset [off]. *)
Definition slice (off n : Z) (l : bytes) : bytes := take (Z.to_nat n) (drop (Z.to_nat off) l).

Definition seek (r : BinaryReader) (i : Z) : BinaryReader :=
  {| r_buffer := r_buffer r; r_index := to_u32 i |}.

(** [ReadInt32]: host byte order; [None] is the return value [false]. *)
Definition ReadInt32 (r : BinaryReader) : option (Z * BinaryReader) :=
  if decide (r_index r + 4 >= len (r_buffer r)) then None
  else Some (to_i32 (le_val (slice (r_index r) 4 (r_buffer r))), seek r (r_index r + 4)).

(** [ReadData<T>] for an integer type of [n] bytes: the bytes are copied in reverse. *)
Definition ReadData (n : Z) (r : BinaryReader) : option (Z * BinaryReader) :=
  if decide (r_index r + n > len (r_buffer r)) then None
  else Some (be_val (slice (r_index r) n (r_buffer r)), seek r (r_index r + n)).

(** [ReadData<int>] *)
Definition ReadData_int (r : BinaryReader) : option (Z * BinaryReader) :=
  match ReadData 4 r with
  | Some (v, r') => Some (to_i32 v, r')
  | None => None
  end.

(** The loop of [ReadData(string&)] over [pcur]: the accumulated length, and [i] when the
    loop ends, by its [break] or at the end of the buffer. *)
Fixpoint read_length (lenght i : Z) (pcur : bytes) : Z * Z :=
  match pcur with
  | [] => (lenght, i)
  | c :: pcur' =>
      let lenght := Z.lor (to_i32 (Z.shiftl lenght 7)) (Z.land (b2z c) 127) in
      if decide (Z.land (b2z c) 128 = 0) then (lenght, i)
      else read_length lenght (i + 1) pcur'
  end.

(** [ReadData(string&)]. It never returns [false]: reading from an index past the end, or a
    length past the terminating NUL, leaves the buffer; a negative length throws. *)
Definition ReadData_string (r : BinaryReader) : outcome (bytes * BinaryReader) :=
  if decide (len (r_buffer r) < r_index r) then Undef OutOfBounds
  else
    let '(lenght, i) := read_length 0 0 (drop (Z.to_nat (r_index r)) (r_buffer r)) in
    let r1 := seek r (r_index r + i + 1) in
    if decide (lenght < 0) then Throw LengthError
    else if decide (len (r_buffer r) + 1 < r_index r1 + lenght) then Undef OutOfBounds
    else Ok (slice (r_index r1) lenght (r_buffer r ++ [Byte.x00]), seek r1 (r_index r1 + lenght)).

(** ** The writer *)

Record BinaryWriter := {
  w_buffer : bytes;
  w_index : Z;           (* m_index, a uint32_t *)
}.

Definition BinaryWriter_new : BinaryWriter := {| w_buffer := []; w_index := 0 |}.

(** [operator=(const string&)]: the index stays zero. *)
Definition writer_assign (w : BinaryWriter) (BW : bytes) : BinaryWriter :=
  {| w_buffer := BW; w_index := 0 |}.

Definition Clear (w : BinaryWriter) : BinaryWriter := {| w_buffer := []; w_index := 0 |}.
Definition writer_Size (w : BinaryWriter) : Z := w_index w.
Definition toString (w : BinaryWriter) : bytes := w_buffer w.

(** [std::string::resize] *)
Definition resize (n : nat) (l : bytes) : bytes := take n l ++ replicate (n - length l) Byte.x00.

(** [WriteData<T>] for an integer type of [n] bytes: the object's memory at [m_index]. *)
Definition WriteData (n : nat) (w : BinaryWriter) (data : Z) : BinaryWriter :=
  let buf := resize (Z.to_nat (w_index w) + n) (w_buffer w) in
  {| w_buffer := take (Z.to_nat (w_index w)) buf ++ le_bytes n data;
     w_index := to_u32 (w_index w + Z.of_nat n) |}.

(** [Compress]: seven bits per byte, the high bit set on all but the last. The loop runs
    [i] from 4 down to 0; [k] is [i + 1]. *)
Fixpoint Compress_loop (k : nat) (n : Z) (out : bytes) : bytes :=
  match k with
  | O => out
  | S i =>
      let c := Z.land (Z.shiftr n (7 * Z.of_nat i)) 127 in
      if decide (c = 0 /\ len out = 0) then Compress_loop i n out
      else
        let c := if decide (0 < Z.of_nat i) then Z.lor c 128 else c in
        Compress_loop i n (out ++ [z2b c])
  end.

Definition Compress (n : Z) (out : bytes) : bytes :=
  if decide (n < 128) then out ++ [z2b (Z.land n 127)] else Compress_loop 5 n out.

(** [WriteData(const string&)] *)
Definition WriteData_string (w : BinaryWriter) (data : bytes) : BinaryWriter :=
  let out := Compress (len data) [] in
  let w1 := {| w_buffer := w_buffer w ++ out; w_index := to_u32 (w_index w + len out) |} in
  if decide (len data > 0)
  then {| w_buffer := w_buffer w1 ++ data; w_index := to_u32 (w_index w1 + len data) |}
  else w1.

(** ** Arithmetic of the seven-bit groups *)

Lemma land_127 n : Z.land n 127 = n mod 128.
Proof. change 127 with (Z.ones 7). rewrite Z.land_ones by lia. done. Qed.

Lemma land_128_last c : 0 <= c < 128 -> Z.land c 128 = 0.
Proof.
  intros. change 128 with (2 ^ 7). apply Z.bits_inj. intros i.
  rewrite Z.land_spec, Z.bits_0, Z.pow2_bits_eqb by lia.
  destruct (Z.eqb_spec 7 i); [subst|by rewrite andb_false_r].
  rewrite andb_true_r. apply Z.testbit_false; [lia|]. change (2 ^ 7) with 128.
  by rewrite (Z.div_small c 128) by lia.
Qed.

Lemma lor_128 c : 0 <= c < 128 -> Z.lor c 128 = c + 128.
Proof. intros. symmetry. apply Z.add_nocarry_lor. by apply land_128_last. Qed.

Lemma land_128_flag c : 0 <= c < 128 -> Z.land (c + 128) 128 = 128.
Proof.
  intros. rewrite <- lor_128 by done. rewrite Z.land_lor_distr_l, Z.land_diag.
  by rewrite land_128_last.
Qed.

Lemma lor_shift7 l c : 0 <= c < 128 -> Z.lor (Z.shiftl l 7) c = l * 128 + c.
Proof.
  intros. rewrite Z.shiftl_mul_pow2 by lia. change (2 ^ 7) with 128.
  symmetry. apply Z.add_nocarry_lor. rewrite Z.land_comm.
  apply Z.bits_inj. intros i. rewrite Z.land_spec, Z.bits_0.
  destruct (Z.testbit c i) eqn:E; [|done]. simpl.
  destruct (Z.lt_ge_cases i 0) as [Hi|Hi]; [by rewrite Z.testbit_neg_r|].
  destruct (Z.lt_ge_cases i 7) as [H7|H7].
  - change 128 with (2 ^ 7). by rewrite Z.mul_pow2_bits_low by lia.
  - rewrite Z.testbit_true in E by lia.
    assert (2 ^ 7 <= 2 ^ i) by (apply Z.pow_le_mono_r; lia).
    change (2 ^ 7) with 128 in *. by rewrite (Z.div_small c (2 ^ i)) in E by lia.
Qed.

(** ** [Compress] and [read_length] *)

(** The bytes the loop emits once its output is not empty. *)
Fixpoint groups (k : nat) (n : Z) : bytes :=
  match k with
  | O => []
  | S i =>
      let c := Z.land (Z.shiftr n (7 * Z.of_nat i)) 127 in
      z2b (if decide (0 < Z.of_nat i) then Z.lor c 128 else c) :: groups i n
  end.

Lemma shiftr_7 n i : Z.shiftr n (7 * Z.of_nat i) = n / 128 ^ Z.of_nat i.
Proof. rewrite Z.shiftr_div_pow2 by lia. f_equal. change 128 with (2 ^ 7). by rewrite Z.pow_mul_r by lia. Qed.

Lemma Compress_loop_groups k n out : out <> [] -> Compress_loop k n out = out ++ groups k n.
Proof.
  revert out. induction k as [|i IH]; intros out Ho; simpl; [by rewrite app_nil_r|].
  rewrite decide_False by (intros [_ E]; by apply len_0 in E).
  rewrite IH by (by destruct out). rewrite <- app_assoc. done.
Qed.

Lemma length_groups k n : length (groups k n) = k.
Proof. induction k as [|i IH]; simpl; by rewrite ?IH. Qed.

Lemma shl7_i32 l : 0 <= l -> l * 128 <= INT_MAX -> to_i32 (Z.shiftl l 7) = Z.shiftl l 7.
Proof.
  intros. apply to_i32_id. rewrite Z.shiftl_mul_pow2 by lia. change (2 ^ 7) with 128.
  unfold is_i32, INT_MIN, INT_MAX in *. lia.
Qed.

(** One round of the reading loop, on a last group and on an inner one. *)
Lemma read_length_last l j c rest :
  0 <= c < 128 -> 0 <= l -> l * 128 <= INT_MAX ->
  read_length l j (z2b c :: rest) = (l * 128 + c, j).
Proof.
  intros. cbn [read_length]. rewrite shl7_i32, b2z_z2b, (Z.mod_small c 256) by lia.
  rewrite land_127, (Z.mod_small c 128), lor_shift7 by lia.
  by rewrite land_128_last, decide_True by done.
Qed.

Lemma read_length_more l j c rest :
  0 <= c < 128 -> 0 <= l -> l * 128 <= INT_MAX ->
  read_length l j (z2b (c + 128) :: rest) = read_length (l * 128 + c) (j + 1) rest.
Proof.
  intros. cbn [read_length]. rewrite shl7_i32, b2z_z2b, (Z.mod_small _ 256) by lia.
  rewrite land_127. replace ((c + 128) mod 128) with c.
  2: { rewrite <- (Z.mul_1_l 128) at 1. rewrite Z.mod_add, Z.mod_small by lia. done. }
  rewrite lor_shift7 by done. by rewrite land_128_flag, decide_False by done.
Qed.

(** The groups read back, below the range of [int]. *)
Lemma read_groups k n l j rest :
  (0 < k)%nat -> 0 <= l -> l * 128 ^ Z.of_nat k + n mod 128 ^ Z.of_nat k <= INT_MAX -> 0 <= n ->
  read_length l j (groups k n ++ rest)
  = (l * 128 ^ Z.of_nat k + n mod 128 ^ Z.of_nat k, j + Z.of_nat k - 1).
Proof.
  revert l j. induction k as [|i IH]; intros l j Hk Hl Hmax Hn; [lia|].
  set (P := 128 ^ Z.of_nat i) in *.
  assert (0 < P) as HP by (apply Z.pow_pos_nonneg; lia).
  assert (128 ^ Z.of_nat (S i) = 128 * P) as EP.
  { unfold P. rewrite Nat2Z.inj_succ, Z.pow_succ_r by lia. done. }
  rewrite EP in *.
  pose proof (Z.mod_pos_bound (n / P) 128 ltac:(lia)) as Hc.
  assert (n mod (128 * P) = P * ((n / P) mod 128) + n mod P) as Emod.
  { rewrite (Z.mul_comm 128 P), Z.rem_mul_r by lia. lia. }
  pose proof (Z.mod_pos_bound n P HP) as HnP.
  assert (l * 128 + (n / P) mod 128 <= INT_MAX) as Hacc by nia.
  cbn [groups app]. rewrite shiftr_7, land_127. fold P. destruct i as [|i].
  - rewrite (decide_False (P := 0 < Z.of_nat 0)) by lia.
    rewrite read_length_last by lia. unfold P in *. simpl in *. f_equal; lia.
  - rewrite (decide_True (P := 0 < Z.of_nat (S i))) by lia.
    rewrite lor_128, read_length_more, IH by lia. fold P. f_equal; lia.
Qed.

(** [Compress] drops the leading zero groups. *)
Lemma Compress_loop_nil k n :
  0 < n < 128 ^ Z.of_nat k ->
  exists k', Compress_loop k n [] = groups k' n /\ (0 < k' <= k)%nat /\ n < 128 ^ Z.of_nat k'.
Proof.
  induction k as [|i IH]; intros Hn; [simpl in Hn; lia|].
  cbn [Compress_loop]. rewrite shiftr_7, land_127.
  set (P := 128 ^ Z.of_nat i) in *.
  assert (0 < P) as HP by (apply Z.pow_pos_nonneg; lia).
  rewrite Nat2Z.inj_succ, Z.pow_succ_r in Hn by lia. fold P in Hn.
  assert (n / P < 128) by (apply Z.div_lt_upper_bound; lia).
  assert (0 <= n / P) by (apply Z.div_pos; lia).
  rewrite (Z.mod_small (n / P) 128) by lia.
  destruct (decide (n / P = 0 /\ len (@nil byte) = 0)) as [[E _]|NE].
  - apply Z.div_small_iff in E; [|lia].
    destruct IH as (k' & -> & Hk & Hlt); [lia|]. exists k'. repeat split; lia || done.
  - rewrite Compress_loop_groups by done. exists (S i). split; [|split; [lia|]].
    + cbn [groups app]. rewrite shiftr_7, land_127. fold P.
      by rewrite (Z.mod_small (n / P) 128) by lia.
    + rewrite Nat2Z.inj_succ, Z.pow_succ_r by lia. fold P; lia.
Qed.

(** A string's length reads back, whatever follows. *)
Lemma read_length_Compress n rest :
  0 <= n <= INT_MAX ->
  read_length 0 0 (Compress n [] ++ rest) = (n, len (Compress n []) - 1) /\ Compress n [] <> [].
Proof.
  intros Hn. unfold Compress. destruct (decide (n < 128)) as [Hs|Hl].
  - rewrite land_127, Z.mod_small by lia. split; [|done].
    cbn [app]. by rewrite read_length_last by lia.
  - destruct (Compress_loop_nil 5 n) as (k & -> & Hk & Hlt).
    { unfold INT_MAX in Hn. change (128 ^ Z.of_nat 5) with 34359738368. lia. }
    rewrite read_groups; try lia.
    + rewrite Z.mod_small by lia. unfold len. rewrite length_groups.
      split; [f_equal; lia|]. destruct k; [lia|done].
    + rewrite Z.mod_small; lia.
Qed.

(** ** Reading at the boundary of what was written *)

Lemma slice_app pre mid rest : slice (len pre) (len mid) (pre ++ mid ++ rest) = mid.
Proof. unfold slice. by rewrite drop_len_app, take_len_app. Qed.

Lemma slice_app_n pre mid rest n : n = len mid -> slice (len pre) n (pre ++ mid ++ rest) = mid.
Proof. intros ->. apply slice_app. Qed.

Lemma to_u32_id z : 0 <= z < 2 ^ 32 -> to_u32 z = z.
Proof. intros. unfold to_u. by rewrite Z.mod_small. Qed.

(** The bytes of a string on the wire. *)
Definition string_bytes (s : bytes) : bytes := Compress (len s) [] ++ s.

(** [m_index] is the buffer's size: so from construction through every [WriteData], not
    after [operator=]. *)
Definition writer_ok (w : BinaryWriter) : Prop := w_index w = len (w_buffer w) /\ w_index w < 2 ^ 32.

Lemma WriteData_ok n w v :
  writer_ok w -> w_index w + Z.of_nat n < 2 ^ 32 ->
  WriteData n w v = {| w_buffer := w_buffer w ++ le_bytes n v; w_index := w_index w + Z.of_nat n |}.
Proof.
  intros [E _] Hn. unfold WriteData. rewrite E in *. f_equal.
  - f_equal. rewrite len_to_nat. unfold resize. rewrite (take_ge (w_buffer w)) by lia.
    by rewrite take_app_length.
  - apply to_u32_id. pose proof (len_nonneg (w_buffer w)). lia.
Qed.

Lemma WriteData_string_ok w s :
  writer_ok w -> w_index w + len (string_bytes s) < 2 ^ 32 ->
  WriteData_string w s
  = {| w_buffer := w_buffer w ++ string_bytes s; w_index := w_index w + len (string_bytes s) |}.
Proof.
  intros [E _] Hn. unfold WriteData_string, string_bytes in *. rewrite len_app in *.
  pose proof (len_nonneg (w_buffer w)). pose proof (len_nonneg (Compress (len s) [])).
  pose proof (len_nonneg s).
  case_decide as Hs; simpl.
  - rewrite (to_u32_id (w_index w + _)) by lia. rewrite to_u32_id by lia.
    rewrite <- app_assoc. f_equal. lia.
  - assert (s = []) as -> by (apply len_0; lia).
    rewrite to_u32_id by lia. by rewrite !app_nil_r, len_nil, Z.add_0_r.
Qed.

Lemma writer_ok_new : writer_ok BinaryWriter_new.
Proof. done. Qed.

Lemma writer_ok_WriteData n w v :
  writer_ok w -> w_index w + Z.of_nat n < 2 ^ 32 -> writer_ok (WriteData n w v).
Proof.
  intros Hw Hn. rewrite WriteData_ok by done. destruct Hw as [E _].
  split; simpl; [|done]. rewrite E. len. done.
Qed.

Lemma writer_ok_WriteData_string w s :
  writer_ok w -> w_index w + len (string_bytes s) < 2 ^ 32 -> writer_ok (WriteData_string w s).
Proof.
  intros Hw Hn. rewrite WriteData_string_ok by done. destruct Hw as [E _].
  split; simpl; [|done]. rewrite E. len. done.
Qed.

Lemma ReadData_at n pre mid rest :
  n = len mid -> len (pre ++ mid ++ rest) < 2 ^ 32 ->
  ReadData n {| r_buffer := pre ++ mid ++ rest; r_index := len pre |}
  = Some (be_val mid, {| r_buffer := pre ++ mid ++ rest; r_index := len pre + n |}).
Proof.
  intros -> Hl. unfold ReadData. cbn [r_index r_buffer].
  pose proof (len_nonneg pre). pose proof (len_nonneg mid). pose proof (len_nonneg rest).
  len. rewrite decide_False by lia. rewrite slice_app. unfold seek. simpl.
  by rewrite to_u32_id by lia.
Qed.

Lemma ReadData_int_at v pre rest :
  is_i32 v -> len pre + 4 + len rest < 2 ^ 32 ->
  ReadData_int {| r_buffer := pre ++ be_bytes 4 v ++ rest; r_index := len pre |}
  = Some (v, {| r_buffer := pre ++ be_bytes 4 v ++ rest; r_index := len pre + 4 |}).
Proof.
  intros Hv Hl. unfold ReadData_int. rewrite ReadData_at; [| by len | len; lia].
  by rewrite be_val_bytes_i32.
Qed.

Lemma read_length_at n pre rest :
  0 <= n <= INT_MAX ->
  read_length 0 0 (drop (Z.to_nat (len pre)) (pre ++ Compress n [] ++ rest))
  = (n, len (Compress n []) - 1).
Proof. intros Hn. rewrite drop_len_app. by apply read_length_Compress. Qed.

Lemma ReadData_string_at s pre rest :
  len s <= INT_MAX -> len (pre ++ string_bytes s ++ rest) < 2 ^ 32 ->
  ReadData_string {| r_buffer := pre ++ string_bytes s ++ rest; r_index := len pre |}
  = Ok (s, {| r_buffer := pre ++ string_bytes s ++ rest;
              r_index := len pre + len (string_bytes s) |}).
Proof.
  intros Hs Hl. unfold ReadData_string, string_bytes in *. cbn [r_index r_buffer].
  pose proof (len_nonneg s). pose proof (len_nonneg pre). pose proof (len_nonneg rest).
  pose proof (len_nonneg (Compress (len s) [])).
  rewrite !len_app in *. rewrite decide_False by lia.
  rewrite <- app_assoc, read_length_at by lia.
  unfold seek; cbn [r_index r_buffer].
  rewrite (to_u32_id (len pre + _ + 1)) by lia.
  rewrite !decide_False by lia. rewrite to_u32_id by lia.
  do 2 f_equal; [|f_equal; lia].
  replace (len pre + (len (Compress (len s) []) - 1) + 1)
    with (len (pre ++ Compress (len s) [])) by (len; lia).
  replace ((pre ++ Compress (len s) [] ++ s ++ rest) ++ [Byte.x00])
    with ((pre ++ Compress (len s) []) ++ s ++ (rest ++ [Byte.x00])) by (by rewrite <- !app_assoc).
  apply slice_app.
Qed.

(** ** Properties *)

(** a string written with [WriteData] is read back by [ReadData] whatever precedes and
    follows it in the buffer, and the reader's index ends where the writer's did: the
    base-128 length never loses a bit below the range of [int]. *)
Theorem string_roundtrip w s rest :
  writer_ok w -> len s <= INT_MAX -> w_index w + len (string_bytes s) + len rest < 2 ^ 32 ->
  ReadData_string {| r_buffer := toString (WriteData_string w s) ++ rest; r_index := w_index w |}
  = Ok (s, {| r_buffer := toString (WriteData_string w s) ++ rest;
              r_index := w_index (WriteData_string w s) |}).
Proof.
  intros Hw Hs Hl. pose proof (len_nonneg rest). rewrite WriteData_string_ok by (done || lia).
  destruct Hw as [E _]. unfold toString. simpl. rewrite E, <- app_assoc.
  apply ReadData_string_at; [done|]. len. rewrite E in Hl. lia.
Qed.

Lemma string_roundtrip_witness :
  ReadData_string
    {| r_buffer := toString (WriteData_string (WriteData 4 BinaryWriter_new 7) (replicate 300 Byte.x61))
                   ++ [Byte.xff]; r_index := 4 |}
  = Ok (replicate 300 Byte.x61,
        {| r_buffer := toString (WriteData_string (WriteData 4 BinaryWriter_new 7)
                                   (replicate 300 Byte.x61)) ++ [Byte.xff]; r_index := 306 |}).
Proof.
  exact (string_roundtrip (WriteData 4 BinaryWriter_new 7) (replicate 300 Byte.x61) [Byte.xff]
           (conj eq_refl eq_refl) ltac:(by vm_compute) ltac:(by vm_compute)).
Defined.

(** an [int] written as [WriteData(htonl(v))] is read back by [ReadData<int>] on the
    little-endian host, its sign included. *)
Theorem int_roundtrip w v rest :
  writer_ok w -> is_i32 v -> w_index w + 4 + len rest < 2 ^ 32 ->
  ReadData_int {| r_buffer := toString (WriteData 4 w (htonl v)) ++ rest; r_index := w_index w |}
  = Some (v, {| r_buffer := toString (WriteData 4 w (htonl v)) ++ rest;
                r_index := w_index (WriteData 4 w (htonl v)) |}).
Proof.
  intros Hw Hv Hl. pose proof (len_nonneg rest). rewrite WriteData_ok by (done || lia).
  destruct Hw as [E _]. unfold toString. simpl. rewrite E, <- app_assoc.
  unfold htonl. rewrite le_bytes_bswap. apply ReadData_int_at; [done|]. lia.
Qed.

Lemma int_roundtrip_witness :
  ReadData_int {| r_buffer := toString (WriteData 4 BinaryWriter_new (htonl (-2))) ++ []; r_index := 0 |}
  = Some (-2, {| r_buffer := toString (WriteData 4 BinaryWriter_new (htonl (-2))) ++ []; r_index := 4 |}).
Proof.
  exact (int_roundtrip BinaryWriter_new (-2) [] writer_ok_new ltac:(by vm_compute) ltac:(by vm_compute)).
Defined.

(** [ReadData(string&)] does not check the length it decodes. When a packet announces
    more bytes than follow it, by more than the buffer's terminating NUL, the read leaves the
    buffer instead of returning [false]: a remote client chooses how far. *)
Theorem string_overread pre n rest :
  0 <= n <= INT_MAX -> len rest + 1 < n -> len (pre ++ Compress n [] ++ rest) < 2 ^ 32 ->
  ReadData_string {| r_buffer := pre ++ Compress n [] ++ rest; r_index := len pre |}
  = Undef OutOfBounds.
Proof.
  intros Hn Hr Hl. unfold ReadData_string. cbn [r_index r_buffer].
  pose proof (len_nonneg pre). pose proof (len_nonneg rest).
  pose proof (len_nonneg (Compress n [])).
  rewrite !len_app in *. rewrite decide_False by lia. rewrite read_length_at by done.
  unfold seek; cbn [r_index r_buffer]. rewrite (to_u32_id (len pre + _ + 1)) by lia.
  rewrite decide_False by lia. by rewrite decide_True by lia.
Qed.

Lemma string_overread_witness :
  ReadData_string {| r_buffer := [] ++ Compress 100 [] ++ bs "abc"; r_index := len (@nil byte) |}
  = Undef OutOfBounds.
Proof.
  exact (string_overread [] 100 (bs "abc") ltac:(by vm_compute) ltac:(by vm_compute)
           ltac:(by vm_compute)).
Defined.

(** [ReadInt32] refuses the last four bytes of a buffer, which [ReadData<int>] reads. *)
Example ReadInt32_last : ReadInt32 (BinaryReader_of (le_bytes 4 5)) = None.
Proof. done. Qed.
Example ReadData_int_last :
  ReadData_int (BinaryReader_of (be_bytes 4 5))
  = Some (5, {| r_buffer := be_bytes 4 5; r_index := 4 |}).
Proof. by vm_compute. Qed.
