(* ===== verification/Buffer.v ===== *)
(** * muduo::net::Buffer (net/Buffer.h, net/Buffer.cc)

    The input and output buffer of every connection: one [vector<char>] with a reader and a
    writer index, whose bytes between the two are the content. [assert] is compiled in, so a
    failed one is a fault. The refinement theorem below shows the class to be the byte queue
    its comment draws, through the moves and growth of [makeSpace]. *)

From S2P Require Import Prelude Bytes.

#[local] Open Scope nat_scope.

Definition kCheapPrepend : nat := 8.
Definition kInitialSize : nat := 1024.

Record Buffer := {
  buffer_ : bytes;
  readerIndex_ : nat;
  writerIndex_ : nat;
}.

Definition Buffer_new (initialSize : nat) : Buffer :=
  {| buffer_ := replicate (kCheapPrepend + initialSize) Byte.x00;
     readerIndex_ := kCheapPrepend;
     writerIndex_ := kCheapPrepend |}.

Definition readableBytes (b : Buffer) : nat := writerIndex_ b - readerIndex_ b.
Definition writableBytes (b : Buffer) : nat := length (buffer_ b) - writerIndex_ b.
Definition prependableBytes (b : Buffer) : nat := readerIndex_ b.

(** The memory from [peek()] on. *)
Definition peek (b : Buffer) : bytes := drop (readerIndex_ b) (buffer_ b).

(** The content, from [peek()] to [beginWrite()]. *)
Definition content (b : Buffer) : bytes := take (readableBytes b) (peek b).

Definition assert_ {A} (P : Prop) `{Decision P} (k : outcome A) : outcome A :=
  if decide P then k else Undef AssertFailed.

(** Memory written from an offset. *)
Definition write_at (off : nat) (d mem : bytes) : bytes :=
  take off mem ++ d ++ drop (off + length d) mem.

Definition set_indices (b : Buffer) (r w : nat) : Buffer :=
  {| buffer_ := buffer_ b; readerIndex_ := r; writerIndex_ := w |}.

(** [findCRLF()] and [findEOL()]: the offset from [peek()] of the first match. *)
Fixpoint search2 (x y : byte) (l : bytes) : option nat :=
  match l with
  | a :: ((c :: _) as l') =>
      if decide (a = x /\ c = y) then Some 0 else S <$> search2 x y l'
  | _ => None
  end.
Definition findCRLF (b : Buffer) : option nat := search2 Byte.x0d Byte.x0a (content b).

Fixpoint memchr (x : byte) (l : bytes) : option nat :=
  match l with
  | a :: l' => if decide (a = x) then Some 0 else S <$> memchr x l'
  | [] => None
  end.
Definition findEOL (b : Buffer) : option nat := memchr Byte.x0a (content b).

(** [start] is an offset from [peek()]. *)
Definition findCRLF_from (b : Buffer) (start : nat) : outcome (option nat) :=
  assert_ (start <= readableBytes b)
    (Ok ((fun i => start + i) <$> search2 Byte.x0d Byte.x0a (drop start (content b)))).
Definition findEOL_from (b : Buffer) (start : nat) : outcome (option nat) :=
  assert_ (start <= readableBytes b)
    (Ok ((fun i => start + i) <$> memchr Byte.x0a (drop start (content b)))).

Definition retrieveAll (b : Buffer) : Buffer := set_indices b kCheapPrepend kCheapPrepend.

Definition retrieve (b : Buffer) (n : nat) : outcome Buffer :=
  assert_ (n <= readableBytes b)
    (Ok (if decide (n < readableBytes b)
         then set_indices b (readerIndex_ b + n) (writerIndex_ b)
         else retrieveAll b)).

(** [end - peek()] is [n]. *)
Definition retrieveUntil (b : Buffer) (n : nat) : outcome Buffer :=
  assert_ (n <= readableBytes b) (retrieve b n).

Definition retrieveAsString (b : Buffer) (n : nat) : outcome (bytes * Buffer) :=
  assert_ (n <= readableBytes b)
    (let result := take n (peek b) in
     b' ← retrieve b n;
     mret (result, b')).

Definition retrieveAllAsString (b : Buffer) : outcome (bytes * Buffer) :=
  retrieveAsString b (readableBytes b).

Definition makeSpace (b : Buffer) (n : nat) : outcome Buffer :=
  if decide (writableBytes b + prependableBytes b < n + kCheapPrepend)
  then (* buffer_.resize(writerIndex_+len) *)
    Ok {| buffer_ := take (writerIndex_ b + n) (buffer_ b)
                     ++ replicate (writerIndex_ b + n - length (buffer_ b)) Byte.x00;
          readerIndex_ := readerIndex_ b; writerIndex_ := writerIndex_ b |}
  else
    assert_ (kCheapPrepend < readerIndex_ b)
      (let readable := readableBytes b in
       let b' := {| buffer_ := write_at kCheapPrepend (content b) (buffer_ b);
                    readerIndex_ := kCheapPrepend;
                    writerIndex_ := kCheapPrepend + readable |} in
       assert_ (readable = readableBytes b') (Ok b')).

Definition ensureWritableBytes (b : Buffer) (n : nat) : outcome Buffer :=
  b' ← (if decide (writableBytes b < n) then makeSpace b n else Ok b);
  assert_ (n <= writableBytes b') (Ok b').

Definition hasWritten (b : Buffer) (n : nat) : outcome Buffer :=
  assert_ (n <= writableBytes b) (Ok (set_indices b (readerIndex_ b) (writerIndex_ b + n))).

Definition unwrite (b : Buffer) (n : nat) : outcome Buffer :=
  assert_ (n <= readableBytes b) (Ok (set_indices b (readerIndex_ b) (writerIndex_ b - n))).

Definition append (b : Buffer) (data : bytes) : outcome Buffer :=
  b' ← ensureWritableBytes b (length data);
  hasWritten {| buffer_ := write_at (writerIndex_ b') data (buffer_ b');
                readerIndex_ := readerIndex_ b'; writerIndex_ := writerIndex_ b' |}
             (length data).

(** [appendInt64], [appendInt32], [appendInt16], [appendInt8]: [n] bytes, network order. *)
Definition appendInt (n : nat) (b : Buffer) (x : Z) : outcome Buffer := append b (be_bytes n x).

Definition sign_extend (n : nat) (v : Z) : Z := to_i (8 * Z.of_nat n) v.

Definition peekInt (n : nat) (b : Buffer) : outcome Z :=
  assert_ (n <= readableBytes b) (Ok (sign_extend n (be_val (take n (peek b))))).

Definition readInt (n : nat) (b : Buffer) : outcome (Z * Buffer) :=
  result ← peekInt n b;
  b' ← retrieve b n;
  mret (result, b').

Definition prepend (b : Buffer) (data : bytes) : outcome Buffer :=
  assert_ (length data <= prependableBytes b)
    (let r := readerIndex_ b - length data in
     Ok {| buffer_ := write_at r data (buffer_ b); readerIndex_ := r;
           writerIndex_ := writerIndex_ b |}).

Definition prependInt (n : nat) (b : Buffer) (x : Z) : outcome Buffer := prepend b (be_bytes n x).

(** [toStringPiece()]: a piece of memory has an [int] length. *)
Definition toStringPiece (b : Buffer) : Z := to_i32 (Z.of_nat (readableBytes b)).

Definition size_t (z : Z) : Z := (z mod 2 ^ 64)%Z.

(** The most a [vector<char>] holds. *)
Definition kMaxVector : Z := (2 ^ 63 - 1)%Z.

(** Whether [ensureWritableBytes(len)] gets through on a buffer with both indices at the start, for
    any [size_t]: [len + kCheapPrepend] can wrap, and then the assertion of [makeSpace] fails; and
    [resize] can be asked for too much. *)
Definition fresh_room (size : Z) : outcome unit :=
  if decide (size + Z.of_nat kCheapPrepend < 2 ^ 64)%Z then
    if decide (Z.of_nat kCheapPrepend + size <= kMaxVector)%Z then Ok tt else Throw LengthError
  else Undef AssertFailed.

(** [append(const StringPiece&)] takes the length for a [size_t]: a negative one is too much for
    any buffer. *)
Definition shrink (b : Buffer) (reserve : nat) : outcome Buffer :=
  let reserved := size_t (Z.of_nat (readableBytes b) + Z.of_nat reserve)%Z in
  _ ← fresh_room reserved;
  other ← ensureWritableBytes (Buffer_new kInitialSize) (Z.to_nat reserved);
  let size := toStringPiece b in
  if decide (0 <= size)%Z then append other (take (Z.to_nat size) (peek b))
  else _ ← fresh_room (size_t size); Undef OutOfBounds.

(** [readFd]: what [readv] returned, an error or the bytes that arrived, scattered over the
    writable space and the 64 KiB of [extrabuf]. *)
Definition extrabuf_size : nat := Z.to_nat 65536.

Definition readFd_capacity (b : Buffer) : nat :=
  if decide (writableBytes b < extrabuf_size)
  then writableBytes b + extrabuf_size else writableBytes b.

Definition readFd (b : Buffer) (readv : option bytes) : outcome (Z * Buffer) :=
  match readv with
  | None => Ok ((-1)%Z, b)
  | Some data =>
      let n := length data in
      let writable := writableBytes b in
      let mem := write_at (writerIndex_ b) (take writable data) (buffer_ b) in
      if decide (n <= writable)
      then Ok (Z.of_nat n, {| buffer_ := mem; readerIndex_ := readerIndex_ b;
                              writerIndex_ := writerIndex_ b + n |})
      else
        b' ← append {| buffer_ := mem; readerIndex_ := readerIndex_ b;
                       writerIndex_ := length (buffer_ b) |} (drop writable data);
        mret (Z.of_nat n, b')
  end.

(** Projections of an explicit record. *)
Ltac fields := cbn [buffer_ readerIndex_ writerIndex_].

(** ** Well-formed buffers *)

Record wf (b : Buffer) : Prop := {
  wf_order : readerIndex_ b <= writerIndex_ b;
  wf_size : writerIndex_ b <= length (buffer_ b);
  wf_room : kCheapPrepend <= length (buffer_ b);
}.

Lemma assert_true {A} (P : Prop) `{Decision P} (k : outcome A) : P -> assert_ P k = k.
Proof. intros. unfold assert_. by rewrite decide_True. Qed.
Lemma assert_false {A} (P : Prop) `{Decision P} (k : outcome A) :
  ~ P -> assert_ P k = Undef AssertFailed.
Proof. intros. unfold assert_. by rewrite decide_False. Qed.

Lemma Buffer_new_wf n : wf (Buffer_new n) /\ content (Buffer_new n) = [].
Proof. split; [|done]. split; unfold Buffer_new; cbn [readerIndex_ writerIndex_ buffer_]; rewrite ?length_replicate; unfold kCheapPrepend; lia. Qed.

Section wf.
Context (b : Buffer) (W : wf b).

Lemma length_content : length (content b) = readableBytes b.
Proof.
  destruct W. unfold content, peek, readableBytes. rewrite length_take, length_drop. lia.
Qed.

Lemma length_write_at off d mem :
  off + length d <= length mem -> length (write_at off d mem) = length mem.
Proof. intros. unfold write_at. rewrite !length_app, length_take, length_drop. lia. Qed.

(** The content seen as the part of memory between the indices. *)
Lemma buffer_split :
  buffer_ b = take (readerIndex_ b) (buffer_ b) ++ content b ++ drop (writerIndex_ b) (buffer_ b).
Proof.
  destruct W. unfold content, peek, readableBytes.
  rewrite <- (take_drop (readerIndex_ b) (buffer_ b)) at 1. f_equal.
  rewrite <- (take_drop (writerIndex_ b - readerIndex_ b) (drop (readerIndex_ b) (buffer_ b))) at 1.
  f_equal. rewrite drop_drop. f_equal. lia.
Qed.
End wf.

(** The content of a buffer given by its three parts. *)
Lemma content_parts pre mid post r w :
  r = length pre -> w = length pre + length mid ->
  content {| buffer_ := pre ++ mid ++ post; readerIndex_ := r; writerIndex_ := w |} = mid.
Proof.
  intros -> ->. unfold content, peek, readableBytes. simpl.
  rewrite drop_app_length. replace (_ - _) with (length mid) by lia. apply take_app_length.
Qed.

Lemma write_at_parts pre old new post off :
  off = length pre -> length old = length new ->
  write_at off new (pre ++ old ++ post) = pre ++ new ++ post.
Proof.
  intros -> E. unfold write_at. rewrite take_app_length, <- E, <- length_app.
  by rewrite (app_assoc pre old post), drop_app_length.
Qed.

(** ** The operations on content *)

Section ops.
Context (b : Buffer) (W : wf b).

Let pre := take (readerIndex_ b) (buffer_ b).
Let post := drop (writerIndex_ b) (buffer_ b).

Lemma parts : buffer_ b = pre ++ content b ++ post /\ length pre = readerIndex_ b
  /\ length post = writableBytes b /\ writerIndex_ b = length pre + length (content b).
Proof.
  pose proof W as []. split; [by apply buffer_split|].
  rewrite length_content by done. unfold pre, post, readableBytes, writableBytes.
  rewrite length_take, length_drop. lia.
Qed.

Lemma retrieve_ok n : n <= length (content b) ->
  exists b', retrieve b n = Ok b' /\ wf b' /\ content b' = drop n (content b)
    /\ buffer_ b' = buffer_ b.
Proof.
  destruct parts as (E & Lp & Lq & Lw). pose proof W as [].
  intros Hn. unfold retrieve. rewrite length_content in * by done.
  rewrite assert_true by done. case_decide as Hlt; (eexists; split; [done|]).
  - split; [|split; [|done]].
    + unfold readableBytes in *. unfold set_indices. split; fields; lia.
    + unfold set_indices. rewrite E at 1.
      rewrite <- (take_drop n (content b)) at 1. rewrite <- app_assoc, app_assoc.
      apply content_parts; rewrite length_app, length_take, ?length_drop, length_content by done;
        unfold readableBytes in *; lia.
  - split; [|split; [|done]].
    + unfold retrieveAll, set_indices. split; fields; unfold kCheapPrepend in *; lia.
    + rewrite drop_ge by (rewrite length_content by done; lia).
      unfold content, readableBytes, retrieveAll. simpl. done.
Qed.

Lemma retrieve_fail n : length (content b) < n -> retrieve b n = Undef AssertFailed.
Proof.
  rewrite length_content by done. intros. unfold retrieve. apply assert_false. lia.
Qed.

(** [makeSpace], on the branch that grows and on the branch that moves. *)
Lemma makeSpace_ok n : writableBytes b < n ->
  exists b', makeSpace b n = Ok b' /\ wf b' /\ content b' = content b /\ n <= writableBytes b'.
Proof.
  destruct parts as (E & Lp & Lq & Lw). pose proof W as [].
  pose proof (length_content b W) as Lc.
  intros Hn. unfold makeSpace, prependableBytes, readableBytes, writableBytes in *.
  case_decide as Hroom; [eexists; split; [done|]|].
  - rewrite take_ge by lia. rewrite E at 1 3.
    rewrite <- !app_assoc. split; [|split; [by apply content_parts|]].
    + split; fields; rewrite ?length_app, ?length_replicate; lia.
    + unfold writableBytes. fields. rewrite !length_app, length_replicate. lia.
  - rewrite !assert_true by (fields; lia). eexists. split; [done|].
    unfold readableBytes; rewrite <- ?Lc.
    assert (length (write_at kCheapPrepend (content b) (buffer_ b)) = length (buffer_ b)) as Lm.
    { apply length_write_at. lia. }
    split; [|split].
    + split; fields; rewrite ?Lm; lia.
    + unfold write_at. apply content_parts; rewrite length_take; lia.
    + unfold writableBytes. fields. rewrite Lm. lia.
Qed.

Lemma ensureWritable_ok n :
  exists b', ensureWritableBytes b n = Ok b' /\ wf b' /\ content b' = content b
    /\ n <= writableBytes b'.
Proof.
  unfold ensureWritableBytes. case_decide as Hn.
  - destruct (makeSpace_ok n Hn) as (b' & E & W' & C & L). exists b'. run. rewrite E.
    by rewrite assert_true.
  - exists b. run. rewrite assert_true by lia. repeat split; by lia || apply W.
Qed.
End ops.

Lemma append_ok b data : wf b ->
  exists b', append b data = Ok b' /\ wf b' /\ content b' = content b ++ data.
Proof.
  intros W. unfold append.
  destruct (ensureWritable_ok b W (length data)) as (b1 & E & W1 & C & L). run. rewrite E.
  destruct (parts b1 W1) as (Eb & Lp & Lq & Lw). pose proof W1 as [].
  rewrite <- C in *. clear E.
  set (pre := take (readerIndex_ b1) (buffer_ b1)) in *.
  set (post := drop (writerIndex_ b1) (buffer_ b1)) in *.
  assert (write_at (writerIndex_ b1) data (buffer_ b1)
          = pre ++ (content b1 ++ data) ++ drop (length data) post) as Em.
  { rewrite Eb. rewrite <- (take_drop (length data) post) at 1. rewrite !app_assoc, <- (app_assoc _ (take _ _)).
    rewrite write_at_parts; [by rewrite <- !app_assoc|rewrite length_app; lia|rewrite length_take; lia]. }
  unfold hasWritten, set_indices. cbn [readerIndex_ writerIndex_ buffer_]. rewrite Em.
  rewrite assert_true.
  2: { unfold writableBytes in *. fields. rewrite !length_app, length_drop. lia. }
  pose proof (f_equal length Eb) as Lb. rewrite !length_app in Lb.
  unfold writableBytes in *. eexists. split; [done|]. split.
  - split; fields; rewrite ?length_app, ?length_drop; lia.
  - apply content_parts; rewrite ?length_app; lia.
Qed.

Lemma readFd_ok b data : wf b ->
  exists b', readFd b (Some data) = Ok (Z.of_nat (length data), b') /\ wf b'
    /\ content b' = content b ++ data.
Proof.
  intros W. destruct (parts b W) as (Eb & Lp & Lq & Lw). pose proof W as [].
  set (pre := take (readerIndex_ b) (buffer_ b)) in *.
  set (post := drop (writerIndex_ b) (buffer_ b)) in *.
  unfold readFd. set (d1 := take (writableBytes b) data).
  assert (length d1 <= length post) as L1 by (unfold d1; rewrite length_take; lia).
  assert (write_at (writerIndex_ b) d1 (buffer_ b)
          = pre ++ (content b ++ d1) ++ drop (length d1) post) as Em.
  { rewrite Eb. rewrite <- (take_drop (length d1) post) at 1.
    rewrite !app_assoc, <- (app_assoc _ (take _ _)).
    rewrite write_at_parts; [by rewrite <- !app_assoc|rewrite length_app; lia|rewrite length_take; lia]. }
  assert (length (buffer_ b) = length pre + length (content b) + length post) as Lb.
  { rewrite Eb, !length_app. lia. }
  rewrite Em. case_decide as Hn.
  - eexists. split; [done|]. unfold d1 in *. rewrite take_ge in * by lia. split.
    + split; fields; rewrite ?length_app, ?length_drop; lia.
    + apply content_parts; rewrite ?length_app; lia.
  - assert (length d1 = length post) as L2 by (unfold d1; rewrite length_take; lia).
    rewrite drop_ge by lia.
    set (b1 := {| buffer_ := _; readerIndex_ := _; writerIndex_ := _ |}).
    assert (wf b1) as W1.
    { split; unfold b1; fields; rewrite ?length_app, ?length_drop; lia. }
    assert (content b1 = content b ++ d1) as C1.
    { apply content_parts; rewrite ?length_app; lia. }
    destruct (append_ok b1 (drop (writableBytes b) data) W1) as (b' & E & W' & C').
    exists b'. run. rewrite E. split; [done|]. split; [done|].
    rewrite C', C1, <- app_assoc. unfold d1. by rewrite take_drop.
Qed.

Lemma unwrite_ok b n : wf b -> n <= length (content b) ->
  exists b', unwrite b n = Ok b' /\ wf b' /\ content b' = take (length (content b) - n) (content b).
Proof.
  intros W Hn. destruct (parts b W) as (E & Lp & Lq & Lw). pose proof W as [].
  pose proof (length_content b W) as Lc. unfold unwrite. rewrite assert_true by lia.
  unfold readableBytes in *. eexists. split; [done|]. split.
  - unfold set_indices. split; fields; lia.
  - unfold set_indices. rewrite E at 1.
    rewrite <- (take_drop (length (content b) - n) (content b)) at 1. rewrite <- app_assoc.
    apply content_parts; rewrite ?length_take; lia.
Qed.

Lemma prepend_ok b d : wf b -> length d <= prependableBytes b ->
  exists b', prepend b d = Ok b' /\ wf b' /\ content b' = d ++ content b.
Proof.
  intros W Hd. destruct (parts b W) as (E & Lp & Lq & Lw). pose proof W as [].
  unfold prepend. rewrite assert_true by done. unfold prependableBytes in Hd.
  set (pre := take (readerIndex_ b) (buffer_ b)) in *.
  set (post := drop (writerIndex_ b) (buffer_ b)) in *.
  assert (write_at (readerIndex_ b - length d) d (buffer_ b)
          = take (readerIndex_ b - length d) pre ++ (d ++ content b) ++ post) as Em.
  { rewrite E. rewrite <- (take_drop (readerIndex_ b - length d) pre) at 1.
    rewrite <- app_assoc, write_at_parts; [by rewrite <- !app_assoc|..];
      rewrite ?length_take, ?length_drop; lia. }
  rewrite Em. pose proof (f_equal length E) as Lb. rewrite !length_app in Lb.
  eexists. split; [done|]. split.
  - split; fields; rewrite ?length_app, ?length_take; lia.
  - apply content_parts; rewrite ?length_app, ?length_take; lia.
Qed.

Lemma take_peek b n : n <= length (content b) -> take n (peek b) = take n (content b).
Proof.
  unfold content. rewrite length_take. intros. rewrite take_take. f_equal. lia.
Qed.

(** What [shrink] does to a queue of bytes. *)
Definition queue_shrink (reserve : nat) (q : bytes) : outcome bytes :=
  _ ← fresh_room (size_t (len q + Z.of_nat reserve)%Z);
  let size := to_i32 (len q) in
  if decide (0 <= size)%Z then Ok (take (Z.to_nat size) q)
  else _ ← fresh_room (size_t size); Undef OutOfBounds.

Lemma fresh_room_ok size : (size + 8 <= kMaxVector)%Z -> fresh_room size = Ok tt.
Proof.
  unfold fresh_room, kMaxVector. change (2 ^ 64)%Z with 18446744073709551616%Z. change (2 ^ 63)%Z with 9223372036854775808%Z.
  change (Z.of_nat kCheapPrepend) with 8%Z. intros H.
  by repeat (case_decide; [|lia]).
Qed.

(** With no more in it than an [int] counts, a buffer keeps all of it. *)
Lemma queue_shrink_keeps r q : (len q <= INT_MAX)%Z -> (len q + Z.of_nat r + 8 <= kMaxVector)%Z ->
  queue_shrink r q = Ok q.
Proof.
  intros Hq Hr. pose proof (len_nonneg q) as Hn. unfold queue_shrink, size_t.
  rewrite (Z.mod_small (len q + Z.of_nat r)) by (revert Hr; unfold kMaxVector; change (2 ^ 64)%Z with 18446744073709551616%Z;
    change (2 ^ 63)%Z with 9223372036854775808%Z; lia).
  rewrite (fresh_room_ok (len q + Z.of_nat r)) by done. cbn [mbind outcome_bind]. unfold INT_MAX in Hq.
  rewrite to_i32_id by (unfold is_i32, INT_MIN, INT_MAX; lia). rewrite decide_True by done.
  unfold len. by rewrite Nat2Z.id, firstn_all.
Qed.

(** With more, the end of the content is lost: of four gigabytes and three bytes, three are left. *)
Lemma queue_shrink_truncates q : len q = (2 ^ 32 + 3)%Z -> queue_shrink 0 q = Ok (take 3 q).
Proof. intros E. unfold queue_shrink. rewrite E. reflexivity. Qed.

(** With two gigabytes, the length is negative. *)
Lemma queue_shrink_throws q : len q = (2 ^ 31)%Z -> queue_shrink 0 q = Throw LengthError.
Proof. intros E. unfold queue_shrink. rewrite E. reflexivity. Qed.

Lemma shrink_ok b r : wf b ->
  match queue_shrink r (content b) with
  | Ok q => exists b', shrink b r = Ok b' /\ wf b' /\ content b' = q
  | Throw e => shrink b r = Throw e
  | Undef u => shrink b r = Undef u
  end.
Proof.
  intros W. pose proof (length_content b W) as Lc. unfold shrink, queue_shrink, toStringPiece, len. rewrite Lc.
  set (reserved := size_t (Z.of_nat (readableBytes b) + Z.of_nat r)). destruct (fresh_room reserved) as [[]| |]; [|done..]. cbn [mbind outcome_bind].
  destruct (Buffer_new_wf kInitialSize) as [W0 C0].
  destruct (ensureWritable_ok _ W0 (Z.to_nat reserved)) as (b1 & E1 & W1 & C1 & _). rewrite E1. cbn [mbind outcome_bind].
  set (size := to_i32 _). case_decide as Hs; [|by destruct (fresh_room _)].
  assert (Z.to_nat size <= length (content b)) as Hl.
  { rewrite Lc. apply Nat2Z.inj_le. rewrite Z2Nat.id by done. subst size. rewrite to_i32_lit.
    pose proof (Z.mod_le (Z.of_nat (readableBytes b) + 2147483648)%Z 4294967296%Z ltac:(lia) ltac:(lia)). lia. }
  rewrite take_peek by done. destruct (append_ok b1 (take (Z.to_nat size) (content b)) W1) as (b2 & E2 & W2 & C2).
  exists b2. split; [done|]. split; [done|]. by rewrite C2, C1, C0.
Qed.

(** ** Refinement: a byte queue *)

Inductive op :=
| OpAppend (d : bytes)
| OpAppendInt (n : nat) (x : Z)
| OpReadFd (d : bytes)                 (* the bytes readv delivered *)
| OpRetrieve (n : nat)
| OpRetrieveAsString (n : nat)
| OpRetrieveAll
| OpReadInt (n : nat)
| OpUnwrite (n : nat)
| OpShrink (reserve : nat).

Inductive answer := ANone | ABytes (s : bytes) | AInt (z : Z).

(** What the class promises, on the queue of bytes it holds. *)
Definition queue_step (o : op) (q : bytes) : outcome (answer * bytes) :=
  match o with
  | OpAppend d => Ok (ANone, q ++ d)
  | OpAppendInt n x => Ok (ANone, q ++ be_bytes n x)
  | OpReadFd d => Ok (AInt (len d), q ++ d)
  | OpRetrieve n => if decide (n <= length q) then Ok (ANone, drop n q) else Undef AssertFailed
  | OpRetrieveAsString n => if decide (n <= length q) then Ok (ABytes (take n q), drop n q) else Undef AssertFailed
  | OpRetrieveAll => Ok (ANone, [])
  | OpReadInt n =>
      if decide (n <= length q) then Ok (AInt (sign_extend n (be_val (take n q))), drop n q)
      else Undef AssertFailed
  | OpUnwrite n => if decide (n <= length q) then Ok (ANone, take (length q - n) q) else Undef AssertFailed
  | OpShrink r => q' ← queue_shrink r q; Ok (ANone, q')
  end.

Definition buffer_step (o : op) (b : Buffer) : outcome (answer * Buffer) :=
  match o with
  | OpAppend d => b' ← append b d; mret (ANone, b')
  | OpAppendInt n x => b' ← appendInt n b x; mret (ANone, b')
  | OpReadFd d => '(n, b') ← readFd b (Some d); mret (AInt n, b')
  | OpRetrieve n => b' ← retrieve b n; mret (ANone, b')
  | OpRetrieveAsString n => '(s, b') ← retrieveAsString b n; mret (ABytes s, b')
  | OpRetrieveAll => Ok (ANone, retrieveAll b)
  | OpReadInt n => '(x, b') ← readInt n b; mret (AInt x, b')
  | OpUnwrite n => b' ← unwrite b n; mret (ANone, b')
  | OpShrink r => b' ← shrink b r; mret (ANone, b')
  end.

(** One step of the buffer is one step of the queue, its faults included. *)
Definition simulates {A} (r : outcome (A * Buffer)) (s : outcome (A * bytes)) : Prop :=
  match s with
  | Ok (a, q') => exists b', r = Ok (a, b') /\ wf b' /\ content b' = q'
  | Throw e => r = Throw e
  | Undef u => r = Undef u
  end.

Lemma retrieve_sim b n : wf b ->
  if decide (n <= length (content b))
  then exists b', retrieve b n = Ok b' /\ wf b' /\ content b' = drop n (content b)
  else retrieve b n = Undef AssertFailed.
Proof.
  intros W. case_decide as Hn.
  - destruct (retrieve_ok b W n Hn) as (b' & ? & ? & ? & _). eauto.
  - apply retrieve_fail; [done|lia].
Qed.

#[local] Arguments readFd : simpl never.

Lemma buffer_step_sim o b : wf b -> simulates (buffer_step o b) (queue_step o (content b)).
Proof.
  intros W. pose proof (length_content b W) as Lc. destruct o as [d|n x|d|n|n| |n|n|r]; simpl.
  - destruct (append_ok b d W) as (b' & E & ?). run. rewrite E. eauto.
  - destruct (append_ok b (be_bytes n x) W) as (b' & E & ?). unfold appendInt. run. rewrite E. eauto.
  - destruct (readFd_ok b d W) as (b' & E & ?). run. rewrite E. eauto.
  - pose proof (retrieve_sim b n W) as R. case_decide; run.
    + destruct R as (b' & -> & ?). eauto.
    + by rewrite R.
  - pose proof (retrieve_sim b n W) as R. unfold retrieveAsString.
    case_decide as Hn; [rewrite assert_true by lia|by rewrite assert_false by lia].
    destruct R as (b' & E & ?). run. rewrite E, take_peek by done. eauto.
  - eexists. split; [done|]. pose proof W as []. split.
    + unfold retrieveAll, set_indices. split; fields; lia.
    + unfold content, readableBytes. by rewrite Nat.sub_diag.
  - pose proof (retrieve_sim b n W) as R. unfold readInt, peekInt.
    case_decide as Hn; [rewrite assert_true by lia|by rewrite assert_false by lia].
    destruct R as (b' & E & ?). run. rewrite E, take_peek by done. eauto.
  - case_decide as Hn.
    + destruct (unwrite_ok b n W Hn) as (b' & E & ?). run. rewrite E. eauto.
    + unfold unwrite. by rewrite assert_false by lia.
  - pose proof (shrink_ok b r W) as S. destruct (queue_shrink r (content b)); run; [|by rewrite S..].
    destruct S as (b' & E & ?). rewrite E. eauto.
Qed.

Fixpoint buffer_run (os : list op) (b : Buffer) : outcome (list answer * Buffer) :=
  match os with
  | [] => Ok ([], b)
  | o :: os' =>
      '(a, b1) ← buffer_step o b;
      '(l, b2) ← buffer_run os' b1;
      mret (a :: l, b2)
  end.

Fixpoint queue_run (os : list op) (q : bytes) : outcome (list answer * bytes) :=
  match os with
  | [] => Ok ([], q)
  | o :: os' =>
      '(a, q1) ← queue_step o q;
      '(l, q2) ← queue_run os' q1;
      mret (a :: l, q2)
  end.

Lemma buffer_run_sim os b : wf b -> simulates (buffer_run os b) (queue_run os (content b)).
Proof.
  revert b. induction os as [|o os IH]; intros b W; [by exists b|]. cbn [buffer_run queue_run].
  pose proof (buffer_step_sim o b W) as S. unfold simulates in S.
  destruct (queue_step o (content b)) as [[a q1]|e|u]; cbn [mbind outcome_bind]; [|by rewrite S..].
  destruct S as (b1 & -> & W1 & <-). cbn [mbind outcome_bind]. specialize (IH b1 W1). unfold simulates in *.
  destruct (queue_run os (content b1)) as [[l q2]|e|u]; cbn [mbind outcome_bind]; [|by rewrite IH..].
  destruct IH as (b2 & -> & ? & ?). by exists b2.
Qed.

(** C32: from any initial size, a sequence of appends, socket reads, retrievals, integer reads,
    unwrites and shrinks of a [Buffer] answers exactly what a byte queue answers and ends holding
    the queue's bytes, whatever moves and growth [makeSpace] does on the way; it aborts when more is
    retrieved or unwritten than the queue holds. A shrink leaves the queue as it is as long as the
    queue has no more bytes than an [int] counts, and room for what is reserved; beyond that it
    cuts the queue off, or throws or aborts, just as [queue_shrink] says. *)
Theorem Buffer_refines_queue initialSize os :
  match queue_run os [] with
  | Ok (l, q) => exists b, buffer_run os (Buffer_new initialSize) = Ok (l, b) /\ wf b /\ content b = q
  | Throw e => buffer_run os (Buffer_new initialSize) = Throw e
  | Undef u => buffer_run os (Buffer_new initialSize) = Undef u
  end
  /\ (forall r q, (len q <= INT_MAX)%Z -> (len q + Z.of_nat r + 8 <= kMaxVector)%Z ->
        queue_step (OpShrink r) q = Ok (ANone, q)).
Proof.
  split.
  - destruct (Buffer_new_wf initialSize) as [W C]. rewrite <- C. by apply buffer_run_sim.
  - intros r q Hq Hr. cbn [queue_step]. by rewrite queue_shrink_keeps.
Qed.

Lemma Buffer_refines_queue_witness :
  (exists b, buffer_run [OpAppend (replicate 3 Byte.x61); OpShrink 5; OpRetrieve 1] (Buffer_new 16) = Ok ([ANone; ANone; ANone], b)
     /\ content b = replicate 2 Byte.x61)
  /\ queue_step (OpShrink 5) (replicate 3 Byte.x61) = Ok (ANone, replicate 3 Byte.x61).
Proof.
  destruct (Buffer_refines_queue 16 [OpAppend (replicate 3 Byte.x61); OpShrink 5; OpRetrieve 1]) as [R K]. split.
  - vm_compute queue_run in R. destruct R as (b & E & _ & C). exists b. split; [exact E|exact C].
  - apply K; vm_compute; discriminate.
Defined.
