(* ===== verification/MsgCacheManager.v ===== *)
(** * MsgCacheManager (MsgCacheManager.h, MsgCacheManager.cpp)

    The messages kept for users who are not online: one list of notifications and one of
    chat messages, drained by user when the user logs in. *)

From S2P Require Import Prelude.

Record NotifyMsgCache := { n_userid : Z; notifymsg : bytes }.
Record ChatMsgCache := { c_userid : Z; chatmsg : bytes }.

#[export] Instance NotifyMsgCache_eq_dec : EqDecision NotifyMsgCache.
Proof. solve_decision. Defined.
#[export] Instance ChatMsgCache_eq_dec : EqDecision ChatMsgCache.
Proof. solve_decision. Defined.

Record MsgCacheManager := {
  m_listNotifyMsgCache : list NotifyMsgCache;
  m_listChatMsgCache : list ChatMsgCache;
}.

Definition MsgCacheManager_new : MsgCacheManager :=
  {| m_listNotifyMsgCache := []; m_listChatMsgCache := [] |}.

(** [AddNotifyMsgCache], which returns [true]. *)
Definition AddNotifyMsgCache (userid : Z) (cache : bytes) : M MsgCacheManager bool := fun m =>
  let nc := {| n_userid := userid; notifymsg := cache |} in
  Ok (true, {| m_listNotifyMsgCache := m_listNotifyMsgCache m ++ [nc];
               m_listChatMsgCache := m_listChatMsgCache m |}).

(** The loop over a list's iterators: an element of the user is appended to [cache] and
    erased, the others stay where they are. *)
Fixpoint drain {A} (mine : A -> bool) (l cache : list A) : list A * list A :=
  match l with
  | [] => (cache, [])
  | x :: l' =>
      if mine x then drain mine l' (cache ++ [x])
      else let '(c, r) := drain mine l' cache in (c, x :: r)
  end.

Definition GetNotifyMsgCache (userid : Z) (cache : list NotifyMsgCache)
    : M MsgCacheManager (list NotifyMsgCache) := fun m =>
  let '(c, r) := drain (fun x => n_userid x =? userid) (m_listNotifyMsgCache m) cache in
  Ok (c, {| m_listNotifyMsgCache := r; m_listChatMsgCache := m_listChatMsgCache m |}).

Definition AddChatMsgCache (userid : Z) (cache : bytes) : M MsgCacheManager bool := fun m =>
  let c := {| c_userid := userid; chatmsg := cache |} in
  Ok (true, {| m_listNotifyMsgCache := m_listNotifyMsgCache m;
               m_listChatMsgCache := m_listChatMsgCache m ++ [c] |}).

Definition GetChatMagCache (userid : Z) (cache : list ChatMsgCache)
    : M MsgCacheManager (list ChatMsgCache) := fun m =>
  let '(c, r) := drain (fun x => c_userid x =? userid) (m_listChatMsgCache m) cache in
  Ok (c, {| m_listNotifyMsgCache := m_listNotifyMsgCache m; m_listChatMsgCache := r |}).

(** ** The loops *)

Lemma drain_spec {A} (mine : A -> bool) l cache :
  drain mine l cache = (cache ++ filter mine l, filter (fun x => negb (mine x)) l).
Proof.
  revert cache. induction l as [|x l IH]; intros cache; simpl; [by rewrite app_nil_r|].
  rewrite (filter_cons (fun x => negb (mine x))), (filter_cons mine).
  destruct (mine x) eqn:E; simpl; rewrite IH; by rewrite <- ?app_assoc.
Qed.

(** ** Refinement: a queue of messages per user and kind *)

Inductive kind := Notify | Chat.

#[export] Instance kind_eq_dec : EqDecision kind.
Proof. solve_decision. Defined.

Inductive cache_op :=
| Add (k : kind) (userid : Z) (msg : bytes)
| Get (k : kind) (userid : Z).

(** One call, with the messages it hands out. *)
Definition cache_step (o : cache_op) : M MsgCacheManager (list bytes) :=
  match o with
  | Add Notify u m => _ ← AddNotifyMsgCache u m; mret []
  | Add Chat u m => _ ← AddChatMsgCache u m; mret []
  | Get Notify u => c ← GetNotifyMsgCache u []; mret (notifymsg <$> c)
  | Get Chat u => c ← GetChatMagCache u []; mret (chatmsg <$> c)
  end.

Definition cache_run (os : list cache_op) : M MsgCacheManager (list (list bytes)) :=
  for_fold (fun acc o => r ← cache_step o; mret (acc ++ [r])) [] os.

(** The queues the class stands for. *)
Definition queues := kind -> Z -> list bytes.

Definition upd (q : queues) (k : kind) (u : Z) (v : list bytes) : queues := fun k' u' =>
  if decide (k = k' /\ u = u') then v else q k' u'.

Definition spec_step (o : cache_op) (q : queues) : list bytes * queues :=
  match o with
  | Add k u m => ([], upd q k u (q k u ++ [m]))
  | Get k u => (q k u, upd q k u [])
  end.

Fixpoint spec_run (acc : list (list bytes)) (os : list cache_op) (q : queues)
    : list (list bytes) * queues :=
  match os with
  | [] => (acc, q)
  | o :: os' => let '(r, q') := spec_step o q in spec_run (acc ++ [r]) os' q'
  end.

Definition queue_of (m : MsgCacheManager) : queues := fun k u =>
  match k with
  | Notify => notifymsg <$> filter (fun x => n_userid x =? u) (m_listNotifyMsgCache m)
  | Chat => chatmsg <$> filter (fun x => c_userid x =? u) (m_listChatMsgCache m)
  end.

Definition represents (m : MsgCacheManager) (q : queues) : Prop :=
  forall k u, queue_of m k u = q k u.

Section keyed.
Context {A : Type} (key : A -> Z) (msg : A -> bytes).

Lemma queue_snoc l x u :
  msg <$> filter (fun x => key x =? u) (l ++ [x])
  = (msg <$> filter (fun x => key x =? u) l) ++ (if decide (key x = u) then [msg x] else []).
Proof.
  rewrite filter_app, fmap_app, filter_cons, filter_nil. f_equal.
  case_decide; case_decide; try done; rewrite Is_true_true, Z.eqb_eq in *; done.
Qed.

Lemma queue_rest l u v :
  msg <$> filter (fun x => key x =? v) (filter (fun x => negb (key x =? u)) l)
  = (if decide (u = v) then [] else msg <$> filter (fun x => key x =? v) l).
Proof.
  induction l as [|x l IH]; [by case_decide|].
  rewrite (filter_cons (fun x => negb (key x =? u))).
  destruct (Z.eqb_spec (key x) u) as [Hx|Hx]; simpl.
  - rewrite IH, filter_cons. case_decide as Huv; [done|].
    rewrite decide_False; [done|]. rewrite Is_true_true, Z.eqb_eq. naive_solver.
  - rewrite !filter_cons. destruct (Z.eqb_spec (key x) v) as [Hv|Hv]; csimpl; rewrite IH; [|done].
    by rewrite !decide_False by naive_solver.
Qed.
End keyed.

Lemma cache_step_sim o m q : represents m q ->
  exists m', cache_step o m = Ok (fst (spec_step o q), m') /\ represents m' (snd (spec_step o q)).
Proof.
  intros R. destruct o as [[] u msg|[] u]; unfold cache_step, AddNotifyMsgCache, AddChatMsgCache,
    GetNotifyMsgCache, GetChatMagCache; run; rewrite ?drain_spec; simpl;
    rewrite <- ?(R Notify u), <- ?(R Chat u); eexists; (split; [reflexivity|]);
    intros [] v; unfold upd; rewrite <- ?(R Notify v), <- ?(R Chat v); simpl;
    rewrite ?queue_snoc, ?queue_rest; simpl; repeat case_decide;
    rewrite ?app_nil_r; naive_solver.
Qed.

Lemma cache_run_sim os m q acc : represents m q ->
  exists m', for_fold (fun acc o => r ← cache_step o; mret (acc ++ [r])) acc os m
             = Ok (fst (spec_run acc os q), m')
    /\ represents m' (snd (spec_run acc os q)).
Proof.
  revert m q acc. induction os as [|o os IH]; intros m q acc R; simpl; [eauto|].
  destruct (cache_step_sim o m q R) as (m1 & E & R1).
  destruct (spec_step o q) as [r q1]. simpl in *.
  destruct (IH m1 q1 (acc ++ [r]) R1) as (m2 & E2 & ?). exists m2. split; [|done].
  unfold mbind, M_bind in *. rewrite E. exact E2.
Qed.

(** C33: the two lists of MsgCacheManager behave as one FIFO queue per user and kind of message:
    for every sequence of Add and Get calls no message is lost, duplicated, reordered or handed
    to another user, and a Get hands out exactly what was added for that user since its last Get,
    oldest first. *)
Theorem cache_refines_queues (os : list cache_op) :
  exists m, cache_run os MsgCacheManager_new
            = Ok (fst (spec_run [] os (fun _ _ => [])), m)
    /\ represents m (snd (spec_run [] os (fun _ _ => []))).
Proof. apply cache_run_sim. by intros []. Qed.
