(* ===== verification/Framing.v ===== *)
(** * Packets (ClientSession.h, ClientSession.cpp, FileServer/TcpSession.cpp,
    FileServer/FileSession.cpp)

    [TcpSession::Send] of the two servers puts a header before a message; the [OnRead] loops
    of the two sessions cut the connection's input buffer back into messages. The loops differ
    in the width of the size only, so they are one definition over a [Format]; what a session
    does with a message is a parameter. *)

From S2P Require Import Prelude Bytes BinaryReader Buffer.

(** ** Sending *)

(** [TcpSession::Send] of the chat server: the bytes handed to [conn->send], and the writer as
    the call leaves it, which holds the header alone. *)
Definition chat_pack (write : BinaryWriter) : outcome (bytes * BinaryWriter) :=
  let out := toString write in
  let write := Clear write in
  let length := to_i32 (len out) in
  total ← int_add length 6;
  let write := WriteData 4 write total in
  let write := WriteData 4 write (htonl length) in
  let write := WriteData 2 write (htons 0) in
  mret (toString write ++ out, write).

(** [TcpSession::Send] of the file server: the size is an [int64_t]. *)
Definition file_pack (write : BinaryWriter) : bytes * BinaryWriter :=
  let out := toString write in
  let write := Clear write in
  let length := to_i64 (len out) in
  let write := WriteData 8 write (length + 6) in
  let write := WriteData 4 write (htonl length) in
  let write := WriteData 2 write (htons 0) in
  (toString write ++ out, write).

(** ** Receiving *)

Record Format := {
  hdr : nat;                 (* sizeof the size *)
  size_of : bytes -> Z;      (* its value *)
}.

(** [int32_t packagesize], read from the memory at [peek()] *)
Definition chat_format : Format := {| hdr := 4; size_of := fun h => to_i32 (le_val h) |}.
(** [file_msg header] *)
Definition file_format : Format := {| hdr := 8; size_of := fun h => to_i64 (le_val h) |}.

Section on_read.
Context {S : Type} (fmt : Format).
Context (Process : bytes -> M S bool) (forceClose : M S unit).

(** What a session does with a message. *)
Definition handle (msg : bytes) : M S unit :=
  ok ← Process msg;
  if ok : bool then mret tt else forceClose.

(** One turn of the loop; [false] when it returns. The comparison is between [size_t]s, and a
    size below 6 makes [assign]'s count, a [size_t] too, exceed [max_size()]. *)
Definition OnRead_turn (buf : Buffer) : M S (Buffer * bool) :=
  if decide (readableBytes buf < hdr fmt)%nat then mret (buf, false)
  else
    let packagesize := size_of fmt (take (hdr fmt) (peek buf)) in
    if decide (Z.of_nat (readableBytes buf) < to_u64 (Z.of_nat (hdr fmt) + packagesize))
    then mret (buf, false)
    else
      buf1 ← lift (retrieve buf (hdr fmt));
      if decide (packagesize - 6 < 0) then throw LengthError
      else
        let msg := slice 6 (packagesize - 6) (peek buf1) in
        buf2 ← lift (retrieve buf1 (Z.to_nat packagesize));
        _ ← handle msg;
        mret (buf2, true).

(** The loop: a turn that goes on takes at least the header out of the buffer, so a turn per
    readable byte is enough ([OnRead_loop_fuel]). *)
Fixpoint OnRead_loop (fuel : nat) (buf : Buffer) : M S Buffer :=
  match fuel with
  | O => mret buf
  | Datatypes.S fuel' =>
      '(buf', more) ← OnRead_turn buf;
      if more : bool then OnRead_loop fuel' buf' else mret buf'
  end.

Definition OnRead (buf : Buffer) : M S Buffer := OnRead_loop (Datatypes.S (readableBytes buf)) buf.

(** ** Frames *)

Inductive parse :=
| Incomplete
| Malformed
| Frame (msg rest : bytes).

(** What a turn finds at the head of the buffer's content. *)
Definition parse_frame (c : bytes) : parse :=
  let p := size_of fmt (take (hdr fmt) c) in
  if decide (len c < Z.of_nat (hdr fmt)) then Incomplete
  else if decide (len c < to_u64 (Z.of_nat (hdr fmt) + p)) then Incomplete
  else if decide (p < 6) then Malformed
  else Frame (slice 6 (p - 6) (drop (hdr fmt) c)) (drop (hdr fmt + Z.to_nat p) c).

(** The formats whose sizes fit a [size_t] together with the header. *)
Class FormatOk := {
  hdr_pos : (0 < hdr fmt)%nat;
  size_small h : Z.of_nat (hdr fmt) + size_of fmt h < 2 ^ 64;
}.
Context `{FormatOk}.

Lemma slice_content b off n : wf b ->
  0 <= off -> 0 <= n -> off + n <= len (content b) -> slice off n (peek b) = slice off n (content b).
Proof.
  intros W Ho Hn Hl. unfold slice, content in *. unfold len in Hl. rewrite length_take in Hl.
  rewrite skipn_firstn_comm, take_take. f_equal. lia.
Qed.

Lemma OnRead_turn_parse b s : wf b ->
  match parse_frame (content b) with
  | Incomplete => OnRead_turn b s = Ok ((b, false), s)
  | Malformed => OnRead_turn b s = Throw LengthError
  | Frame msg rest => exists b', wf b' /\ content b' = rest
      /\ OnRead_turn b s = (_ ← handle msg; mret (b', true)) s
  end.
Proof.
  intros W. pose proof (length_content b W) as L. unfold parse_frame, OnRead_turn.
  pose proof (size_small (take (hdr fmt) (content b))) as Hs. pose proof hdr_pos as Hp.
  unfold len. rewrite L. case_decide as H1; [by rewrite decide_True by lia|].
  rewrite (decide_False (P := (readableBytes b < hdr fmt)%nat)) by lia. rewrite take_peek by lia.
  case_decide as H2; [done|].
  destruct (retrieve_ok b W (hdr fmt)) as (b1 & E1 & W1 & C1 & _); [lia|].
  set (p := size_of fmt (take (hdr fmt) (content b))) in *.
  case_decide as H3; case_decide as H4; try lia; run; rewrite E1; [done|].
  unfold to_u in H2. rewrite Z.mod_small in H2 by lia.
  pose proof (f_equal length C1) as L1. rewrite length_drop in L1.
  destruct (retrieve_ok b1 W1 (Z.to_nat p)) as (b2 & E2 & W2 & C2 & _); [lia|].
  exists b2. split; [done|]. split; [by rewrite C2, C1, drop_drop|].
  rewrite E2. rewrite slice_content, C1; [done|done|lia|lia|unfold len; lia].
Qed.

Lemma parse_frame_shorter c msg rest :
  parse_frame c = Frame msg rest -> (length rest < length c)%nat.
Proof.
  unfold parse_frame. repeat case_decide; intros [= <- <-]. rewrite length_drop.
  pose proof hdr_pos. unfold len in *. lia.
Qed.

(** More turns than the readable bytes change nothing. *)
Lemma OnRead_loop_fuel fuel b s : wf b -> (readableBytes b < fuel)%nat ->
  OnRead_loop fuel b s = OnRead b s.
Proof.
  unfold OnRead. set (k := Datatypes.S (readableBytes b)). assert (readableBytes b < k)%nat by lia.
  clearbody k. revert k b s H0. induction fuel as [|fuel IH]; [lia|].
  intros [|k] b s Hk W Hf; [lia|]. pose proof (OnRead_turn_parse b s W) as T. simpl.
  pose proof (length_content b W) as L.
  destruct (parse_frame (content b)) as [| |msg rest] eqn:E.
  - run. by rewrite T.
  - run. by rewrite T.
  - apply parse_frame_shorter in E. destruct T as (b' & W' & <- & T).
    pose proof (length_content b' W') as L'.
    unfold mbind, M_bind in *. rewrite T. destruct (handle msg s) as [[[] s']| |]; [|done|done].
    simpl. apply IH; [lia|done|lia].
Qed.

(** ** Streams *)

(** A packet: the size, six bytes the receiver skips, the message. *)
Definition frame (f : bytes * bytes) : bytes := le_bytes (hdr fmt) (len f.2 + 6) ++ f.1 ++ f.2.

(** A packet whose size fits its field. *)
Definition frame_ok (f : bytes * bytes) : Prop :=
  len f.1 = 6 /\ size_of fmt (le_bytes (hdr fmt) (len f.2 + 6)) = len f.2 + 6.

Definition stream (fs : list (bytes * bytes)) : bytes := concat (frame <$> fs).

(** Nothing, or the beginning of a packet. *)
Definition partial (t : bytes) : Prop :=
  t = [] \/ exists f t', frame_ok f /\ t' <> [] /\ frame f = t ++ t'.

Lemma len_frame f : frame_ok f -> len (frame f) = Z.of_nat (hdr fmt) + 6 + len f.2.
Proof. intros [E _]. unfold frame. len. lia. Qed.

Lemma take_hdr n l : take (hdr fmt) (le_bytes (hdr fmt) n ++ l) = le_bytes (hdr fmt) n.
Proof. rewrite <- (length_le_bytes (hdr fmt) n) at 1. apply take_app_length. Qed.

Lemma drop_hdr n l : drop (hdr fmt) (le_bytes (hdr fmt) n ++ l) = l.
Proof. rewrite <- (length_le_bytes (hdr fmt) n) at 1. apply drop_app_length. Qed.

Lemma frame_u64 f : frame_ok f ->
  to_u64 (Z.of_nat (hdr fmt) + (len f.2 + 6)) = Z.of_nat (hdr fmt) + (len f.2 + 6).
Proof.
  intros [_ E]. pose proof (size_small (le_bytes (hdr fmt) (len f.2 + 6))) as L.
  rewrite E in L. pose proof (len_nonneg f.2). unfold to_u. rewrite Z.mod_small; lia.
Qed.

Lemma size_frame f rest : frame_ok f ->
  size_of fmt (take (hdr fmt) (frame f ++ rest)) = len f.2 + 6.
Proof. intros [_ E]. unfold frame. rewrite <- app_assoc. by rewrite take_hdr. Qed.

Lemma parse_frame_frame f rest : frame_ok f -> parse_frame (frame f ++ rest) = Frame f.2 rest.
Proof.
  intros Hf. pose proof (len_frame f Hf) as L. unfold parse_frame.
  pose proof (len_nonneg rest). pose proof (len_nonneg f.2). rewrite len_app, L.
  rewrite (size_frame f rest Hf), (frame_u64 f Hf), !decide_False by lia. f_equal.
  - unfold frame. rewrite <- app_assoc, drop_hdr, <- app_assoc. destruct Hf as [E6 _].
    rewrite <- E6 at 1. apply slice_app_n. lia.
  - replace (hdr fmt + Z.to_nat (len f.2 + 6))%nat with (length (frame f)).
    + apply drop_app_length.
    + unfold len in L. unfold len. lia.
Qed.

Lemma parse_frame_partial t : partial t -> parse_frame t = Incomplete.
Proof.
  pose proof hdr_pos. unfold parse_frame. intros [->|(f & t' & Hf & Ht & E)].
  { rewrite len_nil. by rewrite decide_True by lia. }
  case_decide as H1; [done|].
  pose proof (size_frame f [] Hf) as Es. rewrite app_nil_r, E in Es.
  rewrite take_app_le in Es by (unfold len in H1; lia).
  rewrite Es, frame_u64, decide_True; [done| |done].
  apply (f_equal len) in E. rewrite len_frame, len_app in E by done.
  destruct t'; [done|]. rewrite len_cons in E. pose proof (len_nonneg t'). lia.
Qed.

(** A stream cut anywhere is whole packets and the beginning of one. *)
Lemma stream_cut x y fs t : Forall frame_ok fs -> partial t -> x ++ y = stream fs ++ t ->
  exists fs1 fs2 t1, fs = fs1 ++ fs2 /\ x = stream fs1 ++ t1 /\ partial t1
    /\ t1 ++ y = stream fs2 ++ t.
Proof.
  intros Hfs Ht. revert x. induction Hfs as [|f fs Hf Hfs IH]; intros x E; simpl in E.
  { exists [], [], x. split; [done|]. split; [done|]. split; [|done]. destruct Ht as [->|(f & t' & ? & ? & Ef)].
    - left. by apply app_eq_nil in E as [-> _].
    - right. exists f, (y ++ t'). split; [done|]. split; [by destruct y|].
      by rewrite Ef, <- E, app_assoc. }
  change (stream (f :: fs)) with (frame f ++ stream fs) in E. rewrite <- app_assoc in E.
  apply app_eq_inv in E as [(k & -> & E)|(k & Ek & ->)].
  - destruct (IH k (eq_sym E)) as (fs1 & fs2 & t1 & -> & -> & ? & ?).
    exists (f :: fs1), fs2, t1. split; [done|]. split; [|done].
    change (stream (f :: fs1)) with (frame f ++ stream fs1). by rewrite app_assoc.
  - destruct k as [|z k].
    + exists [f], fs, []. rewrite app_nil_r in Ek. unfold stream at 1. simpl.
      rewrite !app_nil_r. split; [done|]. split; [done|]. split; [by left|done].
    + exists [], (f :: fs), x. split; [done|]. split; [done|]. split; [right; by exists f, (z :: k)|].
      change (stream (f :: fs)) with (frame f ++ stream fs). by rewrite Ek, <- !app_assoc.
Qed.

(** The outcome [r] of reading is that of handling the messages one by one, and the buffer
    keeps [t]. *)
Definition delivers (r : outcome (Buffer * S)) (o : outcome (unit * S)) (t : bytes) : Prop :=
  match o with
  | Ok (_, s') => exists b', r = Ok (b', s') /\ wf b' /\ content b' = t
  | Throw e => r = Throw e
  | Undef u => r = Undef u
  end.

Lemma OnRead_stream fs t b s : Forall frame_ok fs -> partial t -> wf b ->
  content b = stream fs ++ t -> delivers (OnRead b s) (for_each handle (snd <$> fs) s) t.
Proof.
  intros Hfs Ht. revert b s. induction Hfs as [|f fs Hf Hfs IH]; intros b s W C.
  - pose proof (OnRead_turn_parse b s W) as T. rewrite C in T. simpl in T.
    rewrite parse_frame_partial in T by done. unfold OnRead. simpl. run. rewrite T.
    exists b. by rewrite C.
  - pose proof (OnRead_turn_parse b s W) as T. pose proof (length_content b W) as L.
    rewrite C in T. change (stream (f :: fs)) with (frame f ++ stream fs) in T, C.
    rewrite <- app_assoc, parse_frame_frame in T by done.
    destruct T as (b1 & W1 & C1 & T). unfold OnRead. simpl.
    unfold mbind, M_bind in *. rewrite T.
    destruct (handle f.2 s) as [[[] s1]| |]; [|done|done]. simpl.
    rewrite OnRead_loop_fuel; [by apply IH|done|].
    pose proof (length_content b1 W1) as L1. pose proof (len_frame f Hf) as Lf.
    rewrite C1 in L1. rewrite C, <- app_assoc, (length_app (frame f)) in L.
    pose proof (len_nonneg f.2). unfold len in *. lia.
Qed.

(** One readable event: what arrived goes into the buffer and the callback runs. *)
Definition on_chunk (b : Buffer) (d : bytes) : M S Buffer :=
  '(_, b1) ← lift (readFd b (Some d));
  OnRead b1.

Lemma on_chunk_ok b d n b1 s : readFd b (Some d) = Ok (n, b1) -> on_chunk b d s = OnRead b1 s.
Proof. intros E. unfold on_chunk, mbind, M_bind, lift. by rewrite E. Qed.

Lemma chunks_stream chunks fs t t0 b s :
  Forall frame_ok fs -> partial t -> partial t0 -> wf b -> content b = t0 ->
  t0 ++ concat chunks = stream fs ++ t ->
  delivers (for_fold on_chunk b chunks s) (for_each handle (snd <$> fs) s) t.
Proof.
  intros Hfs Ht. revert fs Hfs t0 b s.
  induction chunks as [|d ds IH]; intros fs Hfs t0 b s Ht0 W C E; simpl in E |- *.
  - rewrite app_nil_r in E. destruct Hfs as [|f fs Hf Hfs].
    + simpl in *. exists b. by rewrite C, E.
    + apply parse_frame_partial in Ht0. rewrite E in Ht0.
      change (stream (f :: fs)) with (frame f ++ stream fs) in Ht0.
      by rewrite <- app_assoc, parse_frame_frame in Ht0.
  - destruct (readFd_ok b d W) as (b1 & E1 & W1 & C1). rewrite app_assoc in E.
    destruct (stream_cut _ _ _ _ Hfs Ht E) as (fs1 & fs2 & t1 & -> & Ex & Ht1 & E2).
    apply Forall_app in Hfs as [Hfs1 Hfs2]. rewrite fmap_app, for_each_app.
    unfold mbind, M_bind. rewrite (on_chunk_ok _ _ _ _ _ E1).
    rewrite C in C1. rewrite Ex in C1.
    pose proof (OnRead_stream fs1 t1 b1 s Hfs1 Ht1 W1 C1) as D. unfold delivers in D.
    destruct (for_each handle (snd <$> fs1) s) as [[[] s1]| |].
    + destruct D as (b2 & -> & W2 & C2). by apply (IH fs2 Hfs2 t1 b2 s1).
    + by rewrite D.
    + by rewrite D.
Qed.
(** A turn that goes on handles one message; the buffer stays well formed. *)
Lemma OnRead_turn_inv b s b' more s' : wf b -> OnRead_turn b s = Ok ((b', more), s') ->
  wf b' /\ (s' = s \/ exists msg, handle msg s = Ok (tt, s')).
Proof.
  intros W E. pose proof (OnRead_turn_parse b s W) as T. rewrite E in T.
  destruct (parse_frame _) as [| |msg rest]; [injection T as -> _ ->; by split; [|left]|done|].
  destruct T as (b2 & W2 & _ & T). symmetry in T. apply bind_inv in T as ([] & s1 & E1 & T).
  injection T as <- _ <-. split; [done|]. right. by exists msg.
Qed.

(** Reading takes bytes from the front of the buffer. *)
Lemma parse_frame_suffix c msg rest : parse_frame c = Frame msg rest -> rest `suffix_of` c.
Proof. unfold parse_frame. repeat case_decide; intros [= <- <-]. apply suffix_drop. Qed.

Lemma OnRead_suffix b s b' s' : wf b -> OnRead b s = Ok (b', s') -> content b' `suffix_of` content b.
Proof.
  unfold OnRead. generalize (Datatypes.S (readableBytes b)) as n. intros n.
  revert b s. induction n as [|n IH]; intros b s Wb; simpl; [by intros [= <- <-]|].
  intros E. apply bind_inv in E as ([b1 more] & s1 & E1 & E2).
  pose proof (OnRead_turn_parse b s Wb) as T. rewrite E1 in T. pose proof E1 as [W1 _]%OnRead_turn_inv; [|done].
  assert (content b1 `suffix_of` content b) as S1.
  { destruct (parse_frame (content b)) as [| |msg rest] eqn:Ep; [by injection T as -> _ _|done|].
    destruct T as (b2 & _ & C2 & T). symmetry in T. apply bind_inv in T as ([] & s2 & _ & T). injection T as -> _ _.
    rewrite C2. by eapply parse_frame_suffix. }
  destruct more; [|by injection E2 as <- <-]. etransitivity; [by eapply IH|done].
Qed.

(** What every message keeps, the read callback keeps. *)
Lemma OnRead_invariant (R : S -> S -> Prop) `{!PreOrder R} b s b' s' :
  (forall msg s s', handle msg s = Ok (tt, s') -> R s s') ->
  wf b -> OnRead b s = Ok (b', s') -> wf b' /\ R s s'.
Proof.
  intros Hh. unfold OnRead. generalize (Datatypes.S (readableBytes b)) as n. intros n.
  revert b s. induction n as [|n IH]; intros b s Wb; simpl; [by intros [= <- <-]|].
  intros E. apply bind_inv in E as ([b1 more] & s1 & E1 & E2).
  apply OnRead_turn_inv in E1 as [W1 E1]; [|done].
  assert (R s s1) as R1 by (destruct E1 as [->|[msg E1]]; [done|by eapply Hh]).
  destruct more; [|by injection E2 as <- <-].
  apply IH in E2 as [W2 R2]; [|done]. split; [done|]. by transitivity s1.
Qed.
End on_read.

#[export] Instance chat_format_ok : FormatOk chat_format.
Proof.
  split; [simpl; lia|]. intros h. simpl. pose proof (to_i32_range (le_val h)) as R.
  unfold is_i32, INT_MAX in R. lia.
Qed.

#[export] Instance file_format_ok : FormatOk file_format.
Proof.
  split; [simpl; lia|]. intros h. simpl. rewrite to_i64_lit.
  pose proof (Z.mod_pos_bound (le_val h + 9223372036854775808) 18446744073709551616). lia.
Qed.

(** ** What [Send] puts on the wire *)

(** The six bytes between the size and the message. *)
Definition send_preamble (n : Z) : bytes := be_bytes 4 n ++ be_bytes 2 0.

Lemma chat_frame_ok n m : len m + 6 <= INT_MAX -> frame_ok chat_format (send_preamble n, m).
Proof.
  intros Hm. split; [done|]. simpl. apply le_val_bytes_i32.
  pose proof (len_nonneg m). unfold is_i32, INT_MIN in *. simpl in *. lia.
Qed.

Lemma file_frame_ok n m : len m + 6 < 2 ^ 63 -> frame_ok file_format (send_preamble n, m).
Proof.
  intros Hm. split; [done|]. simpl. apply le_val_bytes_i64.
  pose proof (len_nonneg m). unfold is_i64. simpl in *. lia.
Qed.

Lemma WriteData_header n a length : (n <= 8)%nat ->
  toString (WriteData 2 (WriteData 4 (WriteData n BinaryWriter_new a) (htonl length)) (htons 0))
  = le_bytes n a ++ send_preamble length.
Proof.
  intros Hn.
  pose proof (writer_ok_WriteData n BinaryWriter_new a writer_ok_new ltac:(simpl; lia)) as O1.
  rewrite (WriteData_ok n BinaryWriter_new a writer_ok_new) in * by (simpl; lia).
  pose proof (writer_ok_WriteData 4 _ (htonl length) O1 ltac:(simpl; lia)) as O2.
  rewrite (WriteData_ok 4 _ _ O1) in * by (simpl; lia).
  rewrite (WriteData_ok 2 _ _ O2) by (simpl; lia).
  unfold htonl, htons. rewrite !le_bytes_bswap. unfold toString, send_preamble. simpl.
  by rewrite <- app_assoc.
Qed.

(** [Send] of a short enough message: one packet, and a writer that holds the packet's header. *)
Lemma chat_pack_frame w : len (toString w) + 6 <= INT_MAX ->
  exists w', chat_pack w = Ok (frame chat_format (send_preamble (len (toString w)), toString w), w')
    /\ toString w' = le_bytes 4 (len (toString w) + 6) ++ send_preamble (len (toString w)).
Proof.
  intros Hw. pose proof (len_nonneg (toString w)) as L. unfold INT_MAX in Hw.
  unfold chat_pack. rewrite to_i32_id by (unfold is_i32, INT_MIN, INT_MAX; lia).
  unfold int_add. rewrite decide_True by (unfold is_i32, INT_MIN, INT_MAX; lia).
  change (Clear w) with BinaryWriter_new. eexists. unfold mbind, mret, outcome_bind, outcome_ret.
  split; [|apply (WriteData_header 4); lia].
  rewrite (WriteData_header 4) by lia. done.
Qed.

Lemma file_pack_frame w : len (toString w) + 6 < 2 ^ 63 ->
  (file_pack w).1 = frame file_format (send_preamble (len (toString w)), toString w).
Proof.
  intros Hw. pose proof (len_nonneg (toString w)) as L.
  unfold file_pack. rewrite to_i64_id by (unfold is_i64; lia).
  change (Clear w) with BinaryWriter_new. cbn [fst].
  rewrite (WriteData_header 8) by lia. done.
Qed.

(** ** Properties *)

Section properties.
Context {S : Type} (fmt : Format) `{FormatOk fmt}.
Context (Process : bytes -> M S bool) (forceClose : M S unit).

Abbreviation receive := (for_fold (on_chunk fmt Process forceClose)).
Abbreviation handled := (for_each (handle Process forceClose)).

(** C12: reassembly. However the byte stream of whole packets and the beginning of one more is
    cut into readable events, the session handles exactly the messages of the whole packets,
    each once, in order, with the same effect on its state (exceptions included), and the input
    buffer keeps the incomplete rest. Stated for both servers' formats at once. *)
Theorem stream_delivery n chunks fs t s :
  Forall (frame_ok fmt) fs -> partial fmt t -> concat chunks = stream fmt fs ++ t ->
  delivers (receive (Buffer_new n) chunks s) (handled (snd <$> fs) s) t.
Proof.
  intros Hfs Ht E. destruct (Buffer_new_wf n) as [W C].
  apply (chunks_stream fmt Process forceClose chunks fs t []); [done|done|by left|done|done|done].
Qed.

(** a packet whose size field is between minus the header's width and 5 ends the process:
    [assign]'s count wraps and [std::length_error] leaves the message callback uncaught. Any
    client can send these bytes, before logging in. *)
Theorem short_size_throws b s :
  wf b -> Z.of_nat (hdr fmt) <= len (content b) ->
  - Z.of_nat (hdr fmt) <= size_of fmt (take (hdr fmt) (content b)) < 6 ->
  Z.of_nat (hdr fmt) + size_of fmt (take (hdr fmt) (content b)) <= len (content b) ->
  OnRead fmt Process forceClose b s = Throw LengthError.
Proof.
  intros W Hl Hp Hc. pose proof (OnRead_turn_parse fmt Process forceClose b s W) as T.
  pose proof (size_small fmt (take (hdr fmt) (content b))).
  unfold parse_frame, to_u in T. rewrite Z.mod_small in T by lia.
  rewrite !decide_False, decide_True in T by lia. unfold OnRead. simpl. run. by rewrite T.
Qed.

(** a size below minus the header's width is waited for forever: the sum wraps to almost
    2^64, so no message of that connection is handled any more and its input buffer keeps every
    byte that arrives. *)
Theorem negative_size_stalls n chunks s :
  Z.of_nat (hdr fmt) <= len (concat chunks) < 2 ^ 62 ->
  - 2 ^ 63 <= size_of fmt (take (hdr fmt) (concat chunks)) < - Z.of_nat (hdr fmt) ->
  exists b, receive (Buffer_new n) chunks s = Ok (b, s) /\ content b = concat chunks.
Proof.
  intros Hl Hp.
  assert (forall b c, wf b -> content b ++ c = concat chunks ->
    OnRead fmt Process forceClose b s = Ok (b, s)) as Hstep.
  { intros b c W E. pose proof (OnRead_turn_parse fmt Process forceClose b s W) as T.
    rewrite <- E, len_app in Hl. pose proof (len_nonneg c). revert T. unfold parse_frame.
    case_decide as H1; [unfold OnRead; simpl; run; intros T; by rewrite T|].
    rewrite <- E, take_app_le in Hp by (unfold len in H1; lia).
    unfold to_u. rewrite <- (Z.mod_unique _ (2 ^ 64) (-1) (2 ^ 64 + Z.of_nat (hdr fmt)
      + size_of fmt (take (hdr fmt) (content b)))) by lia.
    rewrite decide_True by lia. unfold OnRead. simpl. run. intros T. by rewrite T. }
  destruct (Buffer_new_wf n) as [W C]. revert W C. generalize (Buffer_new n) as b0.
  cut (forall cs c b0, wf b0 -> content b0 = c -> c ++ concat cs = concat chunks ->
    exists b, receive b0 cs s = Ok (b, s) /\ content b = concat chunks).
  { intros Hc b0 W C. by apply (Hc chunks [] b0). }
  induction cs as [|d cs IH]; intros c b0 W C E; simpl in E.
  { rewrite app_nil_r in E. exists b0. simpl. by rewrite C. }
  destruct (readFd_ok b0 d W) as (b1 & E1 & W1 & C1). rewrite app_assoc in E.
  simpl. unfold mbind, M_bind. rewrite (on_chunk_ok _ _ _ _ _ _ _ _ E1).
  rewrite (Hstep b1 (concat cs)) by (by rewrite ?C1, ?C).
  by apply (IH (c ++ d)); rewrite ?C1, ?C.
Qed.
End properties.

(** The bytes a [Send] puts on the wire. *)
Definition chat_sent (w : BinaryWriter) : bytes :=
  match chat_pack w with Ok (out, _) => out | _ => [] end.
Definition file_sent (w : BinaryWriter) : bytes := (file_pack w).1.

Section send_receive.
Context {S : Type} (Process : bytes -> M S bool) (forceClose : M S unit).

Lemma stream_sent fmt (sent : BinaryWriter -> bytes) ws :
  Forall (fun w => frame_ok fmt (send_preamble (len (toString w)), toString w)
    /\ sent w = frame fmt (send_preamble (len (toString w)), toString w)) ws ->
  exists fs, Forall (frame_ok fmt) fs /\ concat (sent <$> ws) = stream fmt fs
    /\ snd <$> fs = toString <$> ws.
Proof.
  induction 1 as [|w ws (Ho & Es) _ (fs & Hfs & E & Em)]; [by exists []|].
  exists ((send_preamble (len (toString w)), toString w) :: fs).
  split; [by constructor|]. split; [|by simpl; f_equal].
  rewrite fmap_cons, concat_cons, Es, E. done.
Qed.

(** C15: the two ends of the chat protocol agree. The messages a peer sends with
    [TcpSession::Send] are the messages the other end's [OnRead] handles, in order and
    unchanged, however the network cuts the bytes. *)
Theorem chat_send_receive n chunks ws s :
  Forall (fun w => len (toString w) + 6 <= INT_MAX) ws ->
  concat chunks = concat (chat_sent <$> ws) ->
  delivers (for_fold (on_chunk chat_format Process forceClose) (Buffer_new n) chunks s)
    (for_each (handle Process forceClose) (toString <$> ws) s) [].
Proof.
  intros Hw E. destruct (stream_sent chat_format chat_sent ws) as (fs & Hfs & Es & <-).
  { eapply Forall_impl; [exact Hw|]. intros w Lw. split; [by apply chat_frame_ok|].
    unfold chat_sent. by destruct (chat_pack_frame w Lw) as (w' & -> & _). }
  destruct (Buffer_new_wf n) as [W C].
  eapply (chunks_stream chat_format); [exact _|exact Hfs|by left|by left|done|done|].
  by rewrite E, Es, app_nil_r.
Qed.

(** the two ends of the file protocol agree in the same way, with 64-bit sizes. *)
Theorem file_send_receive n chunks ws s :
  Forall (fun w => len (toString w) + 6 < 2 ^ 63) ws ->
  concat chunks = concat (file_sent <$> ws) ->
  delivers (for_fold (on_chunk file_format Process forceClose) (Buffer_new n) chunks s)
    (for_each (handle Process forceClose) (toString <$> ws) s) [].
Proof.
  intros Hw E. destruct (stream_sent file_format file_sent ws) as (fs & Hfs & Es & <-).
  { eapply Forall_impl; [exact Hw|]. intros w Lw. split; [by apply file_frame_ok|].
    by apply file_pack_frame. }
  destruct (Buffer_new_wf n) as [W C].
  eapply (chunks_stream file_format); [exact _|exact Hfs|by left|by left|done|done|].
  by rewrite E, Es, app_nil_r.
Qed.
End send_receive.

(** ** Witnesses: a session that keeps the messages it is given. *)

Definition keep (m : bytes) : M (list bytes) bool := fun l => Ok (true, l ++ [m]).
Definition no_close : M (list bytes) unit := mret tt.

Definition hello : BinaryWriter := WriteData_string (WriteData 4 BinaryWriter_new 7) (bs "hello").

Lemma stream_delivery_witness :
  delivers
    (for_fold (on_chunk chat_format keep no_close) (Buffer_new 16)
       [le_bytes 4 9; bs "......ab"; bs "c" ++ le_bytes 2 6] [])
    (for_each (handle keep no_close) [bs "abc"] []) (le_bytes 2 6).
Proof.
  apply (stream_delivery chat_format keep no_close 16 _ [(bs "......", bs "abc")] (le_bytes 2 6)).
  - constructor; [|constructor]. by vm_compute.
  - right. exists (bs "......", []), (le_bytes 2 0 ++ bs "......"). by vm_compute.
  - done.
Defined.

Lemma short_size_throws_witness :
  OnRead chat_format keep no_close
    {| buffer_ := le_bytes 8 0 ++ le_bytes 4 5 ++ bs "hello"; readerIndex_ := 8; writerIndex_ := 17 |} []
  = Throw LengthError.
Proof. apply (short_size_throws chat_format keep no_close); [split; vm_compute; lia|..]; vm_compute; repeat split; discriminate. Defined.

Lemma negative_size_stalls_witness : exists b,
  for_fold (on_chunk chat_format keep no_close) (Buffer_new 16) [le_bytes 4 (-5); bs "hello"] []
  = Ok (b, []) /\ content b = concat [le_bytes 4 (-5); bs "hello"].
Proof. apply (negative_size_stalls chat_format keep no_close); vm_compute; repeat split; discriminate. Defined.

Lemma chat_send_receive_witness :
  delivers
    (for_fold (on_chunk chat_format keep no_close) (Buffer_new 16)
       [take 5 (chat_sent hello); drop 5 (chat_sent hello)] [])
    (for_each (handle keep no_close) [toString hello] []) [].
Proof.
  apply (chat_send_receive keep no_close 16 _ [hello]); [constructor; [by vm_compute|constructor]|].
  by vm_compute.
Defined.

Lemma file_send_receive_witness :
  delivers
    (for_fold (on_chunk file_format keep no_close) (Buffer_new 16)
       [take 3 (file_sent hello); drop 3 (file_sent hello)] [])
    (for_each (handle keep no_close) [toString hello] []) [].
Proof.
  apply (file_send_receive keep no_close 16 _ [hello]); [constructor; [by vm_compute|constructor]|].
  by vm_compute.
Defined.
