(* ===== verification/Double.v ===== *)
(** * Doubles

    A [double] is a [spec_float] of 53 bits of mantissa: what conversions to integers and
    products see of it. *)

From S2P Require Import Prelude.
From Stdlib Require Export Floats.SpecFloat.

(** [int(d)], towards zero. *)
Definition truncate (d : spec_float) : Z :=
  match d with
  | S754_finite s m e =>
      let n := if 0 <=? e then Z.pos m * 2 ^ e else Z.pos m / 2 ^ (- e) in
      if s then - n else n
  | _ => 0
  end.

(** [a * b] *)
Definition double_mul : spec_float -> spec_float -> spec_float := SFmul 53 1024.

(** [static_cast<int64_t>(d)]: undefined when the integer part does not fit, or there is none. *)
Definition double_to_i64 (d : spec_float) : outcome Z :=
  match d with
  | S754_infinity _ | S754_nan => Undef SignedOverflow
  | _ => if decide (- 2 ^ 63 <= truncate d < 2 ^ 63) then Ok (truncate d) else Undef SignedOverflow
  end.
