(* ===== verification/Json.v ===== *)
(** * Json::Value (newJson/jsoncpp.cpp)

    The document type of the bundled JSON library and the operations the handlers apply to it.
    The text side, [Json::Reader::parse] and [Value::toStyledString], is the class [JsonText],
    which JsonReader and JsonWriter implement. A value's source offsets are left out, and so are
    the comments of a value inside another one: no handler prints a value that it did not make
    itself. *)

From S2P Require Import Prelude Bytes Text StdMap.
From S2P Require Export Double.

(** ** Values *)

(** An array is a map from its indices, an object a map from its keys; a double is its sign,
    mantissa and exponent. *)
Inductive Value : Type :=
| nullValue
| intValue (i : Z)                        (* LargestInt, 64 bits *)
| uintValue (u : Z)                       (* LargestUInt, 64 bits *)
| realValue (d : spec_float)
| stringValue (s : bytes)
| booleanValue (b : bool)
| arrayValue (a : list (Z * Value))
| objectValue (o : list (bytes * Value)).

Definition isNull (v : Value) : bool := match v with nullValue => true | _ => false end.
Definition isString (v : Value) : bool := match v with stringValue _ => true | _ => false end.
Definition isArray (v : Value) : bool := match v with arrayValue _ => true | _ => false end.
Definition isObject (v : Value) : bool := match v with objectValue _ => true | _ => false end.

(** *** Doubles, as far as the integer tests look at them *)

(** [modf(d, &i) == 0.0] *)
Definition IsIntegral (d : spec_float) : bool :=
  match d with
  | S754_zero _ => true
  | S754_infinity _ => true
  | S754_nan => false
  | S754_finite _ m e => (0 <=? e) || (Z.pos m mod 2 ^ (- e) =? 0)
  end.

(** [d >= lo && d <= hi], for integers exactly representable as doubles. *)
Definition InRange (d : spec_float) (lo hi : Z) : bool :=
  match d with
  | S754_zero _ => (lo <=? 0) && (0 <=? hi)
  | S754_infinity _ | S754_nan => false
  | S754_finite s m e =>
      let v := if s then Z.neg m else Z.pos m in
      if 0 <=? e then (lo <=? v * 2 ^ e) && (v * 2 ^ e <=? hi)
      else (lo * 2 ^ (- e) <=? v) && (v <=? hi * 2 ^ (- e))
  end.

Definition isInt (v : Value) : bool :=
  match v with
  | intValue i => (INT_MIN <=? i) && (i <=? INT_MAX)
  | uintValue u => u <=? INT_MAX
  | realValue d => InRange d INT_MIN INT_MAX && IsIntegral d
  | _ => false
  end.

Definition asInt (v : Value) : outcome Z :=
  match v with
  | intValue i => if isInt v then Ok i else Throw JsonLogicError
  | uintValue u => if isInt v then Ok u else Throw JsonLogicError
  | realValue d => if InRange d INT_MIN INT_MAX then Ok (truncate d) else Throw JsonLogicError
  | nullValue => Ok 0
  | booleanValue b => Ok (if b then 1 else 0)
  | _ => Throw JsonLogicError
  end.

(** ** The text side *)

(** The comments of a root, each in its place; an empty one is absent. They stay when the
    handlers [clear()] the root and fill it anew, and come out again in the reply. *)
Record Comments := {
  commentBefore : bytes;
  commentAfterOnSameLine : bytes;
  commentAfter : bytes;
}.

Definition no_comments : Comments :=
  {| commentBefore := []; commentAfterOnSameLine := []; commentAfter := [] |}.

#[export] Instance Comments_eq_dec : EqDecision Comments.
Proof. solve_decision. Defined.

Class JsonText := {
  (** [Json::Reader().parse(data, root)] on a fresh root: the root and its comments, or [None]
      for [false]; it throws on deep nesting. *)
  reader_parse : bytes -> outcome (option (Value * Comments));
  (** [root.toStyledString()], on a root with comments *)
  toStyledString_with : Comments -> Value -> bytes;
  (** [valueToString(double)] *)
  valueToString_real : spec_float -> bytes;
}.

(** On a value without comments. *)
Definition toStyledString `{JsonText} : Value -> bytes := toStyledString_with no_comments.

Definition asString `{JsonText} (v : Value) : outcome bytes :=
  match v with
  | nullValue => Ok []
  | stringValue s => Ok s
  | booleanValue b => Ok (if b then bs "true" else bs "false")
  | intValue i => Ok (to_dec i)
  | uintValue u => Ok (to_dec u)
  | realValue d => Ok (valueToString_real d)
  | arrayValue _ | objectValue _ => Throw JsonLogicError
  end.

(** [operator[](const char* )] on a value that can change: the member, and the value with that
    member present, created null when it was missing. *)
Definition resolveReference (key : bytes) (v : Value) : outcome (Value * Value) :=
  match v with
  | nullValue => Ok (nullValue, objectValue (mset key nullValue []))
  | objectValue o =>
      match mfind key o with
      | Some x => Ok (x, v)
      | None => Ok (nullValue, objectValue (mset key nullValue o))
      end
  | _ => Throw JsonLogicError
  end.

(** [operator[](ArrayIndex)] on a value that can change. *)
Definition resolveIndex (index : Z) (v : Value) : outcome (Value * Value) :=
  match v with
  | nullValue => Ok (nullValue, arrayValue (mset index nullValue []))
  | arrayValue a =>
      match mfind index a with
      | Some x => Ok (x, v)
      | None => Ok (nullValue, arrayValue (mset index nullValue a))
      end
  | _ => Throw JsonLogicError
  end.

(** Assignment through the reference [operator[](key)] returned. *)
Definition set_member (key : bytes) (x v : Value) : outcome Value :=
  match v with
  | nullValue => Ok (objectValue (mset key x []))
  | objectValue o => Ok (objectValue (mset key x o))
  | _ => Throw JsonLogicError
  end.

Definition size (v : Value) : Z :=
  match v with
  | arrayValue a => match last a with Some (i, _) => to_u32 (i + 1) | None => 0 end
  | objectValue o => to_u32 (len o)
  | _ => 0
  end.

(** [emplace] at [size()], which keeps an element already there. *)
Definition value_append (x v : Value) : outcome Value :=
  match v with
  | nullValue => Ok (arrayValue [(0, x)])
  | arrayValue a => Ok (arrayValue (minsert (size v) x a))
  | _ => Throw JsonLogicError
  end.

Definition clear (v : Value) : outcome Value :=
  match v with
  | nullValue => Ok nullValue
  | arrayValue _ => Ok (arrayValue [])
  | objectValue _ => Ok (objectValue [])
  | _ => Throw JsonLogicError
  end.

(** ** The shapes the handlers use *)

(** [!root[k1].isX() || !root[k2].isY() || ...]: the tests run left to right and stop at the
    first that fails; each one creates the member it looks at. *)
Fixpoint members_are (l : list (bytes * (Value -> bool))) (root : Value) : outcome (bool * Value) :=
  match l with
  | [] => Ok (true, root)
  | (k, test) :: l' =>
      '(x, root) ← resolveReference k root;
      if test x : bool then members_are l' root else mret (false, root)
  end.

(** [root[key].asString()], [root[key].asInt()] *)
Definition member_string `{JsonText} (key : bytes) (root : Value) : outcome (bytes * Value) :=
  '(x, root) ← resolveReference key root;
  s ← asString x;
  mret (s, root).

Definition member_int (key : bytes) (root : Value) : outcome (Z * Value) :=
  '(x, root) ← resolveReference key root;
  i ← asInt x;
  mret (i, root).

(** [root[key].append(x)] *)
Definition append_member (key : bytes) (x root : Value) : outcome Value :=
  '(a, root) ← resolveReference key root;
  a ← value_append x a;
  set_member key a root.

(** A run of assignments [root[k] = x]. *)
Fixpoint set_members (l : list (bytes * Value)) (root : Value) : outcome Value :=
  match l with
  | [] => Ok root
  | (k, x) :: l' => root ← set_member k x root; set_members l' root
  end.

(** ** Lemmas *)

Definition complex (v : Value) : Prop :=
  match v with nullValue | objectValue _ => True | _ => False end.

(** The members of a value that [operator[](key)] accepts. *)
Definition members (v : Value) : list (bytes * Value) :=
  match v with objectValue o => o | _ => [] end.

(** What a read of a member sees. *)
Definition get (key : bytes) (v : Value) : Value := default nullValue (mfind key (members v)).

Lemma resolveReference_complex key v : complex v ->
  exists v', resolveReference key v = Ok (get key v, v') /\ complex v'
    /\ (forall k, get k v' = get k v).
Proof.
  unfold get. destruct v as [| | | | | | |o]; try done; intros _; simpl.
  - eexists. split; [done|]. split; [done|]. intros k. simpl.
    by destruct (kcmp k key) eqn:E; simpl; case_decide.
  - destruct (mfind key o) as [x|] eqn:E; simpl.
    + by exists (objectValue o).
    + eexists. split; [done|]. split; [done|]. intros k. simpl. rewrite mfind_mset.
      case_decide as Hk; [by rewrite Hk, E|done].
Qed.

Lemma resolveReference_other key v : ~ complex v -> resolveReference key v = Throw JsonLogicError.
Proof. by destruct v. Qed.

(** The tests all pass, or not; in both cases the members read afterwards are the same. *)
Lemma members_are_complex l v : complex v ->
  exists v', members_are l v = Ok (forallb (fun p => p.2 (get p.1 v)) l, v') /\ complex v'
    /\ (forall k, get k v' = get k v).
Proof.
  revert v. induction l as [|[k test] l IH]; intros v C; simpl; [by exists v|].
  destruct (resolveReference_complex k v C) as (v1 & E1 & C1 & G1).
  rewrite E1. simpl. destruct (test (get k v)) eqn:Et; simpl; [|by exists v1].
  destruct (IH v1 C1) as (v2 & E2 & C2 & G2). exists v2. rewrite E2. split; [|split; [done|]].
  - do 2 f_equal. clear -G1. induction l as [|[k' t'] l IH]; simpl; [done|]. by rewrite G1, IH.
  - intros k'. by rewrite G2, G1.
Qed.

Lemma member_string_complex `{JsonText} key v s : complex v -> get key v = stringValue s ->
  exists v', member_string key v = Ok (s, v') /\ complex v' /\ (forall k, get k v' = get k v).
Proof.
  intros C E. destruct (resolveReference_complex key v C) as (v' & E' & ?).
  exists v'. unfold member_string. rewrite E'. simpl. by rewrite E.
Qed.

Lemma member_int_complex key v i : complex v -> asInt (get key v) = Ok i ->
  exists v', member_int key v = Ok (i, v') /\ complex v' /\ (forall k, get k v' = get k v).
Proof.
  intros C E. destruct (resolveReference_complex key v C) as (v' & E' & ?).
  exists v'. unfold member_int. rewrite E'. simpl. by rewrite E.
Qed.

(** A value that passes [isInt] converts. *)
Lemma isInt_asInt v : isInt v = true -> exists i, asInt v = Ok i.
Proof.
  destruct v as [|i|u|d| | | |]; simpl; try done; intros Hi; rewrite ?Hi; eauto.
  apply andb_true_iff in Hi as [-> _]. eauto.
Qed.

Lemma set_members_object l o : exists o', set_members l (objectValue o) = Ok (objectValue o').
Proof.
  revert o. induction l as [|[k x] l IH]; intros o; simpl; [eauto|]. apply IH.
Qed.

(** Building an object from scratch, as every response is. *)
Definition object (l : list (bytes * Value)) : Value :=
  match l with
  | [] => nullValue
  | _ => objectValue (fold_left (fun o p => mset p.1 p.2 o) l [])
  end.

Lemma set_members_objectValue l o :
  set_members l (objectValue o) = Ok (objectValue (fold_left (fun o p => mset p.1 p.2 o) l o)).
Proof. revert o. induction l as [|[k x] l IH]; intros o; simpl; [done|]. apply IH. Qed.

Lemma set_members_null l : set_members l nullValue = Ok (object l).
Proof. destruct l as [|[k x] l]; [done|]. simpl. apply set_members_objectValue. Qed.

Lemma set_members_empty p l : set_members (p :: l) (objectValue []) = Ok (object (p :: l)).
Proof. apply set_members_objectValue. Qed.

(** The elements of an array, from an index on. *)
Fixpoint number (index : Z) (vs : list Value) : list (Z * Value) :=
  match vs with
  | [] => []
  | v :: vs' => (index, v) :: number (index + 1) vs'
  end.

Definition array (vs : list Value) : Value := arrayValue (number 0 vs).

Lemma number_app i l x : number i (l ++ [x]) = number i l ++ [(i + len l, x)].
Proof.
  revert i. induction l as [|y l IH]; intros i; simpl; [by rewrite Z.add_0_r|].
  rewrite IH. by replace (i + 1 + len l) with (i + len (y :: l)) by (len; lia).
Qed.

Lemma number_find i l n x : l !! n = Some x -> mfind (i + Z.of_nat n) (number i l) = Some x.
Proof.
  revert i n. induction l as [|y l IH]; intros i [|n]; simpl; [done..| |].
  - intros [= ->]. by rewrite decide_True by lia.
  - intros E. rewrite decide_False by lia. replace (i + Z.of_nat (S n)) with (i + 1 + Z.of_nat n) by lia. by apply IH.
Qed.

Lemma size_array l : len l < 2 ^ 32 -> size (array l) = len l.
Proof.
  intros F. destruct l as [|x l _] using rev_ind; [done|]. unfold array. rewrite number_app. simpl.
  rewrite last_snoc. unfold to_u. revert F. len. intros F. pose proof (len_nonneg l).
  rewrite Z.mod_small; lia.
Qed.

Lemma number_minsert i l x : minsert (i + len l) x (number i l) = number i (l ++ [x]).
Proof.
  revert i. induction l as [|y l IH]; intros i; simpl; [by rewrite Z.add_0_r|]. len.
  pose proof (len_nonneg l). destruct (Z.compare_spec (i + (1 + len l)) i); [lia..|].
  f_equal. rewrite <- IH. f_equal. lia.
Qed.

Lemma append_array x l : len l < 2 ^ 32 -> value_append x (array l) = Ok (array (l ++ [x])).
Proof.
  intros F. unfold value_append. fold (array l). rewrite size_array by done.
  unfold array. by rewrite <- (number_minsert 0 l x).
Qed.

(** An object with a list under [key] that the code appends to, absent as long as it is empty. *)
Definition listing (key : bytes) (l : list Value) (o : list (bytes * Value)) : Value :=
  match l with
  | [] => objectValue o
  | _ => objectValue (mset key (array l) o)
  end.

Lemma append_member_listing key x l o : mfind key o = None -> len l < 2 ^ 32 ->
  append_member key x (listing key l o) = Ok (listing key (l ++ [x]) o).
Proof.
  intros N F. unfold append_member. destruct l as [|y l]; simpl.
  - rewrite N. simpl. by rewrite mset_mset.
  - rewrite mfind_mset_eq. unfold mbind, outcome_bind. fold (array (y :: l)).
    rewrite append_array by done. simpl. by rewrite mset_mset.
Qed.
