(* ===== verification/JsonReader.v ===== *)
(** * Json::Reader (newJson/jsoncpp.cpp)

    The recursive-descent parser behind [reader.parse(data, root)], with the default features:
    comments allowed and collected, any value as the root, no dropped nulls and no numeric keys.
    A [Location] is the text that follows it. The list of errors is left out, since nobody asks
    for it, and a failed value is [None]. *)

From S2P Require Import Prelude Bytes Text StdMap Json.

(** ** Characters *)

Definition is_char (b : byte) (c : String.string) : bool := bool_decide ([b] = bs c).

Definition NL : byte := chr 10.
Definition CR : byte := chr 13.
Definition QUOTE : byte := chr 34.
Definition BACKSLASH : byte := chr 92.

(** The text from one location to a later one. *)
Definition between (a b : bytes) : bytes := take (length a - length b) a.

Definition containsNewLine (l : bytes) : bool :=
  existsb (fun b => bool_decide (b = NL) || bool_decide (b = CR)) l.

(** [getNextChar], 0 at the end. *)
Definition getNextChar (s : bytes) : byte * bytes :=
  match s with
  | [] => (Byte.x00, [])
  | c :: s' => (c, s')
  end.

Fixpoint skipSpaces (s : bytes) : bytes :=
  match s with
  | c :: s' =>
      if is_char c " " || bool_decide (c = chr 9) || bool_decide (c = CR) || bool_decide (c = NL)
      then skipSpaces s' else s
  | [] => []
  end.

(** [match]: the text after the pattern, when it is there. *)
Definition match_ (pattern s : bytes) : option bytes :=
  if decide (take (length pattern) s = pattern) then Some (drop (length pattern) s) else None.

Fixpoint skip_digits (s : bytes) : bytes :=
  match s with
  | c :: s' => if is_digit c then skip_digits s' else s
  | [] => []
  end.

(** [readNumber], after the first character: integral part, fraction, exponent. *)
Definition readNumber (s : bytes) : bytes :=
  let s := skip_digits s in
  let s := match s with
           | c :: s' => if is_char c "." then skip_digits s' else s
           | [] => s
           end in
  match s with
  | c :: s' =>
      if is_char c "e" || is_char c "E" then
        skip_digits (match s' with
                     | d :: s'' => if is_char d "+" || is_char d "-" then s'' else s'
                     | [] => s'
                     end)
      else s
  | [] => s
  end.

(** [readString], after the opening quote: up to the closing one. *)
Fixpoint readString (s : bytes) : bool * bytes :=
  match s with
  | [] => (false, [])
  | c :: s' =>
      if decide (c = BACKSLASH) then
        match s' with
        | [] => (false, [])
        | _ :: s'' => readString s''
        end
      else if decide (c = QUOTE) then (true, s')
      else readString s'
  end.

(** The loop of [readCStyleComment]: to the slash of the first star and slash, or to the last
    character. *)
Fixpoint to_comment_end (s : bytes) : bytes :=
  match s with
  | c :: s' =>
      match s' with
      | d :: _ => if is_char c "*" && is_char d "/" then s' else to_comment_end s'
      | [] => s
      end
  | [] => []
  end.

Definition readCStyleComment (s : bytes) : bool * bytes :=
  let '(c, s) := getNextChar (to_comment_end s) in (is_char c "/", s).

Fixpoint readCppStyleComment (s : bytes) : bytes :=
  match s with
  | [] => []
  | c :: s' =>
      if decide (c = NL) then s'
      else if decide (c = CR) then
        match s' with
        | d :: s'' => if decide (d = NL) then s'' else s'
        | [] => s'
        end
      else readCppStyleComment s'
  end.

Fixpoint normalizeEOL (s : bytes) : bytes :=
  match s with
  | [] => []
  | c :: s' =>
      if decide (c = CR) then
        NL :: match s' with
              | d :: s'' => if decide (d = NL) then normalizeEOL s'' else normalizeEOL s'
              | [] => []
              end
      else c :: normalizeEOL s'
  end.

(** ** Tokens *)

Inductive TokenType :=
| tokenEndOfStream | tokenObjectBegin | tokenObjectEnd | tokenArrayBegin | tokenArrayEnd
| tokenString | tokenNumber | tokenTrue | tokenFalse | tokenNull | tokenArraySeparator
| tokenMemberSeparator | tokenComment | tokenError.

#[export] Instance TokenType_eq_dec : EqDecision TokenType.
Proof. solve_decision. Defined.

Record Token := { type_ : TokenType; start_ : bytes; end_ : bytes }.

(** The text of a token. *)
Definition token_text (t : Token) : bytes := between (start_ t) (end_ t).

(** The reader's fields. [lastValue_] says whether the value read last is the root; only the
    root's comments are kept. *)
Record Reader := {
  current_ : bytes;
  commentsBefore_ : bytes;
  lastValueEnd_ : option bytes;
  lastValue_ : bool;
  rootComments : Comments;
}.

Definition R (A : Type) : Type := M Reader A.

Definition set_current (s : bytes) (r : Reader) : Reader := {|
  current_ := s; commentsBefore_ := commentsBefore_ r; lastValueEnd_ := lastValueEnd_ r;
  lastValue_ := lastValue_ r; rootComments := rootComments r |}.
Definition set_before (s : bytes) (r : Reader) : Reader := {|
  current_ := current_ r; commentsBefore_ := s; lastValueEnd_ := lastValueEnd_ r;
  lastValue_ := lastValue_ r; rootComments := rootComments r |}.
Definition set_rootComments (c : Comments) (r : Reader) : Reader := {|
  current_ := current_ r; commentsBefore_ := commentsBefore_ r; lastValueEnd_ := lastValueEnd_ r;
  lastValue_ := lastValue_ r; rootComments := c |}.

(** [setComment]: a final newline is dropped. The assertion that it starts with a slash holds
    of every comment the reader makes. *)
Definition without_final_newline (c : bytes) : bytes :=
  match last c with
  | Some b => if decide (b = NL) then removelast c else c
  | None => c
  end.

(** [addComment] *)
Definition addComment (text : bytes) (same_line : bool) : R unit :=
  modify (fun r =>
    let text := normalizeEOL text in
    if same_line then
      if lastValue_ r then
        set_rootComments {| commentBefore := commentBefore (rootComments r);
                            commentAfterOnSameLine := without_final_newline text;
                            commentAfter := commentAfter (rootComments r) |} r
      else r
    else set_before (commentsBefore_ r ++ text) r).

(** [readComment], after the slash at [begin]. *)
Definition readComment (begin : bytes) : R bool :=
  s ← gets current_;
  let '(c, s) := getNextChar s in
  let '(ok, s) := if is_char c "*" then readCStyleComment s
                  else if is_char c "/" then (true, readCppStyleComment s)
                  else (false, s) in
  _ ← modify (set_current s);
  if ok : bool then
    last_end ← gets lastValueEnd_;
    _ ← addComment (between begin s)
          match last_end with
          | Some e =>
              negb (containsNewLine (between e begin))
              && (negb (is_char c "*") || negb (containsNewLine (between begin s)))
          | None => false
          end;
    mret true
  else mret false.

(** The rest of a keyword. *)
Definition keyword (p : String.string) (t : TokenType) : R (bool * TokenType) :=
  s ← gets current_;
  match match_ (bs p) s with
  | Some s => _ ← modify (set_current s); mret (true, t)
  | None => mret (false, t)
  end.

(** The token that starts with character [c], after it. *)
Definition readToken_char (c : byte) (begin : bytes) : R (bool * TokenType) :=
  s ← gets current_;
  if is_char c "{" then mret (true, tokenObjectBegin)
  else if is_char c "}" then mret (true, tokenObjectEnd)
  else if is_char c "[" then mret (true, tokenArrayBegin)
  else if is_char c "]" then mret (true, tokenArrayEnd)
  else if decide (c = QUOTE) then
    let '(ok, s) := readString s in
    _ ← modify (set_current s);
    mret (ok, tokenString)
  else if is_char c "/" then ok ← readComment begin; mret (ok, tokenComment)
  else if is_digit c || is_char c "-" then
    _ ← modify (set_current (readNumber s));
    mret (true, tokenNumber)
  else if is_char c "t" then keyword "rue" tokenTrue
  else if is_char c "f" then keyword "alse" tokenFalse
  else if is_char c "n" then keyword "ull" tokenNull
  else if is_char c "," then mret (true, tokenArraySeparator)
  else if is_char c ":" then mret (true, tokenMemberSeparator)
  else if decide (c = Byte.x00) then mret (true, tokenEndOfStream)
  else mret (false, tokenError).

Definition readToken : R (bool * Token) :=
  s ← gets current_;
  let start := skipSpaces s in
  let '(c, s) := getNextChar start in
  _ ← modify (set_current s);
  '(ok, t) ← readToken_char c start;
  e ← gets current_;
  mret (ok, {| type_ := if ok : bool then t else tokenError; start_ := start; end_ := e |}).

(** [while (tok.type_ == tokenComment && ok) ok = readToken(tok);], a comment being at least two
    characters long. *)
Fixpoint past_comments (n : nat) (ok : bool) (tok : Token) : R (bool * Token) :=
  match n with
  | O => undef Diverges
  | S n' =>
      if decide (type_ tok = tokenComment) then
        if ok then '(ok, tok) ← readToken; past_comments n' ok tok else mret (ok, tok)
      else mret (ok, tok)
  end.

(** The turns that are enough for any loop over the rest of the text: each takes a token, and
    one more may find the end. *)
Definition turns {A} (k : nat -> R A) : R A := s ← gets current_; k (S (S (length s))).

Definition skipCommentTokens : R Token :=
  '(ok, tok) ← readToken;
  '(_, tok) ← turns (fun n => past_comments n ok tok);
  mret tok.

(** [recoverFromError]: skips tokens; its caller fails. *)
Fixpoint recover (n : nat) (skipUntilToken : TokenType) : R unit :=
  match n with
  | O => undef Diverges
  | S n' =>
      '(_, skip) ← readToken;
      if decide (type_ skip = skipUntilToken \/ type_ skip = tokenEndOfStream) then mret tt
      else recover n' skipUntilToken
  end.

Definition recoverFromError {A} (skipUntilToken : TokenType) : R (option A) :=
  _ ← turns (fun n => recover n skipUntilToken);
  mret None.

(** ** Numbers *)

(** [strtod] on digits [m] and a decimal exponent, correctly rounded; outside the range of the
    exponents a double can have, without computing the power. *)
Definition strtod (negative : bool) (m : Z) (digits e10 : Z) : spec_float :=
  match m with
  | Z.pos p =>
      if decide (digits + e10 > 400) then S754_infinity negative
      else if decide (digits + e10 < -400) then S754_zero negative
      else if decide (0 <= e10) then
        binary_normalize 53 1024 ((if negative then Z.neg else Z.pos) (p * Z.to_pos (10 ^ e10))%positive) 0 negative
      else SFdiv 53 1024 (S754_finite negative p 0) (S754_finite false (Z.to_pos (10 ^ (- e10))) 0)
  | _ => S754_zero negative
  end.

(** The digits at the front. *)
Definition digits_of (s : bytes) : bytes := between s (skip_digits s).

(** [is >> value] on the text of a number token: it fails when there is no digit before the
    exponent, or none in it; too large a number fails with the largest double, which the caller
    turns into infinity. *)
Definition decodeDouble (text : bytes) : option spec_float :=
  let '(negative, s) := match text with
                        | c :: s' => if is_char c "-" then (true, s') else (false, text)
                        | [] => (false, text)
                        end in
  let int_part := digits_of s in
  let s := skip_digits s in
  let '(frac, s) := match s with
                    | c :: s' => if is_char c "." then (digits_of s', skip_digits s') else ([], s)
                    | [] => ([], s)
                    end in
  let mantissa := int_part ++ frac in
  if decide (mantissa = []) then None
  else
    let value e := strtod negative (read_digits 0 mantissa) (len mantissa) (e - len frac) in
    match s with
    | [] => Some (value 0)
    | _ :: s' =>
        let '(minus, s') := match s' with
                            | c :: s'' => if is_char c "-" then (true, s'')
                                          else if is_char c "+" then (false, s'') else (false, s')
                            | [] => (false, s')
                            end in
        if decide (s' = []) then None
        else Some (value (if minus : bool then - read_digits 0 s' else read_digits 0 s'))
    end.

Definition maxLargestInt : Z := 2 ^ 63 - 1.
Definition maxLargestUInt : Z := 2 ^ 64 - 1.

(** The loop of [decodeNumber]: [None] where it falls back to a double. *)
Fixpoint decode_integer (maxIntegerValue value : Z) (s : bytes) : option Z :=
  match s with
  | [] => Some value
  | c :: s' =>
      if negb (is_digit c) then None
      else
        let digit := b2z c - 48 in
        let threshold := maxIntegerValue / 10 in
        if decide (value >= threshold
                   /\ (value > threshold \/ s' <> [] \/ digit > maxIntegerValue mod 10)) then None
        else decode_integer maxIntegerValue (value * 10 + digit) s'
  end.

Definition decodeNumber (text : bytes) : option Value :=
  let '(isNegative, s) := match text with
                          | c :: s' => if is_char c "-" then (true, s') else (false, text)
                          | [] => (false, text)
                          end in
  let maxIntegerValue := if isNegative : bool then maxLargestInt + 1 else maxLargestUInt in
  match decode_integer maxIntegerValue 0 s with
  | None => realValue <$> decodeDouble text
  | Some value =>
      Some (if isNegative : bool then intValue (- value)
            else if decide (value <= INT_MAX) then intValue value
            else uintValue value)
  end.

(** ** Strings *)

Definition codePointToUTF8 (cp : Z) : bytes :=
  let part (lead mask shift : Z) := z2b (Z.lor lead (Z.land mask (Z.shiftr cp shift))) in
  if decide (cp <= 0x7f) then [z2b cp]
  else if decide (cp <= 0x7FF) then [part 0xC0 0x1f 6; part 0x80 0x3f 0]
  else if decide (cp <= 0xFFFF) then [part 0xE0 0xf 12; part 0x80 0x3f 6; part 0x80 0x3f 0]
  else if decide (cp <= 0x10FFFF) then
    [part 0xF0 0x7 18; part 0x80 0x3f 12; part 0x80 0x3f 6; part 0x80 0x3f 0]
  else [].

Definition hex_digit (c : byte) : option Z :=
  let c := b2z c in
  if decide (48 <= c <= 57) then Some (c - 48)
  else if decide (97 <= c <= 102) then Some (c - 97 + 10)
  else if decide (65 <= c <= 70) then Some (c - 65 + 10)
  else None.

Definition decodeUnicodeEscapeSequence (s : bytes) : option (Z * bytes) :=
  match s with
  | a :: b :: c :: d :: s' =>
      a ← hex_digit a; b ← hex_digit b; c ← hex_digit c; d ← hex_digit d;
      mret (((a * 16 + b) * 16 + c) * 16 + d, s')
  | _ => None
  end.

Definition decodeUnicodeCodePoint (s : bytes) : option (Z * bytes) :=
  '(unicode, s) ← decodeUnicodeEscapeSequence s;
  if decide (0xD800 <= unicode <= 0xDBFF) then
    if decide (len s < 6) then None
    else match s with
         | x :: y :: s' =>
             if decide (x = BACKSLASH) then
               if is_char y "u" then
                 '(surrogatePair, s') ← decodeUnicodeEscapeSequence s';
                 mret (0x10000 + Z.shiftl (Z.land unicode 0x3FF) 10 + Z.land surrogatePair 0x3FF, s')
               else None
             else None
         | _ => None
         end
  else mret (unicode, s).

(** A one-character escape. *)
Definition simple_escape (c : byte) : option byte :=
  if decide (c = QUOTE) then Some QUOTE
  else if is_char c "/" then Some c
  else if decide (c = BACKSLASH) then Some BACKSLASH
  else if is_char c "b" then Some (chr 8)
  else if is_char c "f" then Some (chr 12)
  else if is_char c "n" then Some NL
  else if is_char c "r" then Some CR
  else if is_char c "t" then Some (chr 9)
  else None.

(** The loop of [decodeString], between the quotes; each turn takes a character. *)
Fixpoint decode_chars (n : nat) (s decoded : bytes) : option bytes :=
  match n, s with
  | O, _ | _, [] => Some decoded
  | S n', c :: s' =>
      if decide (c = QUOTE) then Some decoded
      else if decide (c = BACKSLASH) then
        match s' with
        | [] => None
        | escape :: s'' =>
            if is_char escape "u" then
              '(unicode, s'') ← decodeUnicodeCodePoint s'';
              decode_chars n' s'' (decoded ++ codePointToUTF8 unicode)
            else
              c ← simple_escape escape;
              decode_chars n' s'' (decoded ++ [c])
        end
      else decode_chars n' s' (decoded ++ [c])
  end.

Definition decodeString (text : bytes) : option bytes :=
  let inner := removelast (tail text) in
  decode_chars (length inner) inner [].

(** ** Values *)

(** A node's value together with the rest of the reading. *)
Section containers.
Context (readValue : R (option Value)).

(** [readObject] from the member [name] on, the object so far in [o]; each turn reads a token. *)
Fixpoint read_members (n : nat) (name : bytes) (o : list (bytes * Value)) : R (option Value) :=
  match n with
  | O => undef Diverges
  | S n' =>
      '(ok, tokenName) ← readToken;
      if ok : bool then
        '(initialTokenOk, tokenName) ← turns (fun k => past_comments k true tokenName);
        if negb initialTokenOk then recoverFromError tokenObjectEnd
        else if decide (type_ tokenName = tokenObjectEnd /\ name = []) then mret (Some (objectValue o))
        else if decide (type_ tokenName = tokenString) then
          match decodeString (token_text tokenName) with
          | None => recoverFromError tokenObjectEnd
          | Some name =>
              '(ok, colon) ← readToken;
              if decide (ok = true /\ type_ colon = tokenMemberSeparator) then
                value ← readValue;
                match value with
                | None => recoverFromError tokenObjectEnd
                | Some value =>
                    let o := mset name value o in
                    '(ok, comma) ← readToken;
                    if decide (ok = true /\ (type_ comma = tokenObjectEnd \/
                                             type_ comma = tokenArraySeparator \/
                                             type_ comma = tokenComment)) then
                      '(_, comma) ← turns (fun k => past_comments k true comma);
                      if decide (type_ comma = tokenObjectEnd) then mret (Some (objectValue o))
                      else read_members n' name o
                    else recoverFromError tokenObjectEnd
                end
              else recoverFromError tokenObjectEnd
          end
        else recoverFromError tokenObjectEnd
      else recoverFromError tokenObjectEnd
  end.

Definition readObject : R (option Value) := turns (fun n => read_members n [] []).

(** [readArray] from the element at [index] on. *)
Fixpoint read_elements (n : nat) (index : Z) (a : list (Z * Value)) : R (option Value) :=
  match n with
  | O => undef Diverges
  | S n' =>
      value ← readValue;
      match value with
      | None => recoverFromError tokenArrayEnd
      | Some value =>
          let a := mset index value a in
          '(ok, tok) ← readToken;
          '(ok, tok) ← turns (fun k => past_comments k ok tok);
          if decide (ok = true /\ (type_ tok = tokenArraySeparator \/ type_ tok = tokenArrayEnd)) then
            if decide (type_ tok = tokenArrayEnd) then mret (Some (arrayValue a))
            else read_elements n' (index + 1) a
          else recoverFromError tokenArrayEnd
      end
  end.

Definition readArray : R (option Value) :=
  _ ← modify (fun r => set_current (skipSpaces (current_ r)) r);
  s ← gets current_;
  match s with
  | c :: _ =>
      if is_char c "]" then _ ← readToken; mret (Some (arrayValue []))
      else turns (fun n => read_elements n 0 [])
  | [] => turns (fun n => read_elements n 0 [])
  end.
End containers.

(** The most nodes that may be open. *)
Definition stackLimit_g : nat := Z.to_nat 1000.

(** [readValue], with [n] more nodes allowed on the stack: one more throws. *)
Fixpoint readValue (n : nat) (is_root : bool) : R (option Value) :=
  match n with
  | O => throw JsonRuntimeError
  | S n' =>
      token ← skipCommentTokens;
      before ← gets commentsBefore_;
      _ ← (if decide (before = []) then mret tt
           else modify (fun r =>
             set_before []
               (if is_root then
                  set_rootComments {| commentBefore := without_final_newline before;
                                      commentAfterOnSameLine := commentAfterOnSameLine (rootComments r);
                                      commentAfter := commentAfter (rootComments r) |} r
                else r)));
      let done_ (v : option Value) : R (option Value) :=
        _ ← modify (fun r => {| current_ := current_ r; commentsBefore_ := commentsBefore_ r;
                                lastValueEnd_ := Some (current_ r); lastValue_ := is_root;
                                rootComments := rootComments r |});
        mret v in
      match type_ token with
      | tokenObjectBegin => v ← readObject (readValue n' false); done_ v
      | tokenArrayBegin => v ← readArray (readValue n' false); done_ v
      | tokenNumber => done_ (decodeNumber (token_text token))
      | tokenString => done_ (stringValue <$> decodeString (token_text token))
      | tokenTrue => done_ (Some (booleanValue true))
      | tokenFalse => done_ (Some (booleanValue false))
      | tokenNull => done_ (Some nullValue)
      | _ => mret None
      end
  end.

(** [parse], into a fresh root. *)
Definition parse (document : bytes) : outcome (option (Value * Comments)) :=
  let r := {| current_ := document; commentsBefore_ := []; lastValueEnd_ := None;
              lastValue_ := false; rootComments := no_comments |} in
  '(v, r) ← readValue stackLimit_g true r;
  '(_, r) ← skipCommentTokens r;
  let c := rootComments r in
  let c := if decide (commentsBefore_ r = []) then c
           else {| commentBefore := commentBefore c;
                   commentAfterOnSameLine := commentAfterOnSameLine c;
                   commentAfter := without_final_newline (commentsBefore_ r) |} in
  mret match v with Some v => Some (v, c) | None => None end.
