(* ===== verification/JsonWriter.v ===== *)
(** * Value::toStyledString (newJson/jsoncpp.cpp)

    [StreamWriterBuilder] with its default settings makes a [BuiltStyledStreamWriter] that keeps
    all comments, and so writes every array that is not empty over several lines, indents with
    a tab, writes [ : ] after a name, escapes all that is not ASCII and prints doubles with 17
    significant digits. *)

From S2P Require Import Prelude Bytes Text StdMap Json JsonReader.

(** ** Strings *)

Definition hex_of (n : Z) : bytes := [hex_char (n / 16); hex_char (n mod 16)].

(** [toHex16Bit] *)
Definition toHex16Bit (x : Z) : bytes :=
  hex_of (Z.land (Z.shiftr x 8) 0xff) ++ hex_of (Z.land x 0xff).

Definition appendHex (result : bytes) (ch : Z) : bytes := result ++ bs "\u" ++ toHex16Bit ch.
Definition appendRaw (result : bytes) (ch : Z) : bytes := result ++ [z2b ch].

Definition REPLACEMENT_CHARACTER : Z := 0xFFFD.

(** [utf8ToCodepoint] at a character and what follows it: the code point, and how many of the
    following characters belong to it. *)
Definition utf8ToCodepoint (c : byte) (s : bytes) : Z * nat :=
  let firstByte := b2z c in
  let cont (b : byte) := Z.land (b2z b) 0x3F in
  if decide (firstByte < 0x80) then (firstByte, 0%nat)
  else if decide (firstByte < 0xE0) then
    match s with
    | s1 :: _ =>
        let calculated := Z.lor (Z.shiftl (Z.land firstByte 0x1F) 6) (cont s1) in
        (if decide (calculated < 0x80) then REPLACEMENT_CHARACTER else calculated, 1%nat)
    | _ => (REPLACEMENT_CHARACTER, 0%nat)
    end
  else if decide (firstByte < 0xF0) then
    match s with
    | s1 :: s2 :: _ =>
        let calculated := Z.lor (Z.lor (Z.shiftl (Z.land firstByte 0x0F) 12) (Z.shiftl (cont s1) 6))
                            (cont s2) in
        (if decide (0xD800 <= calculated <= 0xDFFF) then REPLACEMENT_CHARACTER
         else if decide (calculated < 0x800) then REPLACEMENT_CHARACTER else calculated, 2%nat)
    | _ => (REPLACEMENT_CHARACTER, 0%nat)
    end
  else if decide (firstByte < 0xF8) then
    match s with
    | s1 :: s2 :: s3 :: _ =>
        let calculated := Z.lor (Z.lor (Z.lor (Z.shiftl (Z.land firstByte 0x07) 18)
                            (Z.shiftl (cont s1) 12)) (Z.shiftl (cont s2) 6)) (cont s3) in
        (if decide (calculated < 0x10000) then REPLACEMENT_CHARACTER else calculated, 3%nat)
    | _ => (REPLACEMENT_CHARACTER, 0%nat)
    end
  else (REPLACEMENT_CHARACTER, 0%nat).

Definition doesAnyCharRequireEscaping (s : bytes) : bool :=
  existsb (fun c => bool_decide (c = BACKSLASH) || bool_decide (c = QUOTE) || (b2z c <? 0x20)
                    || (b2z c >? 0x7F)) s.

(** A code point that is not escaped by a letter. *)
Definition append_codepoint (result : bytes) (codepoint : Z) : bytes :=
  if decide (codepoint < 0x20) then appendHex result codepoint
  else if decide (codepoint < 0x80) then appendRaw result codepoint
  else if decide (codepoint < 0x10000) then appendHex result codepoint
  else
    let codepoint := codepoint - 0x10000 in
    appendHex (appendHex result (0xd800 + Z.land (Z.shiftr codepoint 10) 0x3ff))
      (0xdc00 + Z.land codepoint 0x3ff).

(** The letter of a character escaped by one. *)
Definition escape_letter (c : byte) : option bytes :=
  if decide (c = QUOTE) then Some [QUOTE]
  else if decide (c = BACKSLASH) then Some [BACKSLASH]
  else if decide (c = chr 8) then Some (bs "b")
  else if decide (c = chr 12) then Some (bs "f")
  else if decide (c = NL) then Some (bs "n")
  else if decide (c = CR) then Some (bs "r")
  else if decide (c = chr 9) then Some (bs "t")
  else None.

(** The loop over the characters; each turn takes at least one. *)
Fixpoint quote_chars (n : nat) (s result : bytes) : bytes :=
  match n, s with
  | O, _ | _, [] => result
  | S n', c :: s' =>
      match escape_letter c with
      | Some l => quote_chars n' s' (result ++ BACKSLASH :: l)
      | None =>
          let '(codepoint, more) := utf8ToCodepoint c s' in
          quote_chars n' (drop more s') (append_codepoint result codepoint)
      end
  end.

Definition valueToQuotedStringN (value : bytes) : bytes :=
  if doesAnyCharRequireEscaping value then quote_chars (length value) value [QUOTE] ++ [QUOTE]
  else [QUOTE] ++ c_str value ++ [QUOTE].

(** ** Doubles *)

(** The number of digits of a positive number, by its [fuel]. *)
Fixpoint count_digits (fuel : nat) (n : Z) : Z :=
  match fuel with
  | O => 0
  | S f => if decide (n < 10) then 1 else 1 + count_digits f (n / 10)
  end.

(** The least [k >= 0] with [num * 10 ^ k >= den]. *)
Fixpoint scale_up (fuel : nat) (num den : Z) : Z :=
  match fuel with
  | O => 0
  | S f => if decide (num >= den) then 0 else 1 + scale_up f (num * 10) den
  end.

(** [num / den], to the nearest integer, ties to even. *)
Definition round_even (num den : Z) : Z :=
  let q := num / den in
  let r := num mod den in
  if decide (2 * r < den) then q
  else if decide (2 * r > den) then q + 1
  else if Z.even q then q else q + 1.

(** Trailing zeros off. *)
Fixpoint strip_zeros (s : bytes) : bytes :=
  match s with
  | [] => []
  | c :: s' =>
      match strip_zeros s' with
      | [] => if is_char c "0" then [] else [c]
      | t => c :: t
      end
  end.

Definition with_point (l r : bytes) : bytes :=
  match strip_zeros r with
  | [] => l
  | r => l ++ bs "." ++ r
  end.

(** [%.17g] of the positive number [num / den]: 17 significant digits, the exact value
    correctly rounded; 800 digits are more than a double's value has before the point. *)
Definition format_g17 (num den : Z) : bytes :=
  let x := if decide (num >= den) then count_digits 800 (num / den) - 1
           else - scale_up 800 num den in
  let n := if decide (x <= 16) then round_even (num * 10 ^ (16 - x)) den
           else round_even num (den * 10 ^ (x - 16)) in
  let '(n, x) := if decide (n >= 10 ^ 17) then (10 ^ 16, x + 1) else (n, x) in
  let ds := to_dec n in
  if decide (-4 <= x < 17) then
    if decide (x >= 0) then with_point (take (Z.to_nat (x + 1)) ds) (drop (Z.to_nat (x + 1)) ds)
    else with_point (bs "0") (replicate (Z.to_nat (- x - 1)) (chr 48) ++ ds)
  else
    with_point (take 1 ds) (drop 1 ds) ++ bs "e" ++ (if decide (x < 0) then bs "-" else bs "+")
      ++ (if decide (Z.abs x < 10) then bs "0" else []) ++ to_dec (Z.abs x).

(** [valueToString(double)] *)
Definition valueToString_double (d : spec_float) : bytes :=
  let finite (negative : bool) (text : bytes) :=
    let buffer := (if negative then bs "-" else []) ++ text in
    if existsb (fun c => is_char c "." || is_char c "e") buffer then buffer else buffer ++ bs ".0" in
  match d with
  | S754_nan => bs "null"
  | S754_infinity s => if s then bs "-1e+9999" else bs "1e+9999"
  | S754_zero s => finite s (bs "0")
  | S754_finite s m e =>
      finite s (if decide (0 <= e) then format_g17 (Z.pos m * 2 ^ e) 1
                else format_g17 (Z.pos m) (2 ^ (- e)))
  end.

(** ** The writer *)

Record Writer := { indentString_ : bytes; indented_ : bool; sout_ : bytes }.

Definition indentation_ : bytes := [chr 9].
Definition colonSymbol_ : bytes := bs " : ".

Definition output (s : bytes) (w : Writer) : Writer :=
  {| indentString_ := indentString_ w; indented_ := indented_ w; sout_ := sout_ w ++ s |}.

Definition set_indented (b : bool) (w : Writer) : Writer :=
  {| indentString_ := indentString_ w; indented_ := b; sout_ := sout_ w |}.

(** [pushValue]: there are no child values to collect. *)
Definition pushValue (s : bytes) (w : Writer) : Writer := output s w.

Definition writeIndent (w : Writer) : Writer := output (NL :: indentString_ w) w.

Definition writeIndent_unless (w : Writer) : Writer := if indented_ w then w else writeIndent w.

Definition writeWithIndent (s : bytes) (w : Writer) : Writer :=
  set_indented false (output s (writeIndent_unless w)).

Definition indent (w : Writer) : Writer :=
  {| indentString_ := indentString_ w ++ indentation_; indented_ := indented_ w; sout_ := sout_ w |}.

Definition unindent (w : Writer) : Writer :=
  {| indentString_ := take (length (indentString_ w) - length indentation_) (indentString_ w);
     indented_ := indented_ w; sout_ := sout_ w |}.

(** An element of an array. *)
Definition writeElement (write : Writer -> Writer) (first : bool) (w : Writer) : Writer :=
  let w := if first then w else output (bs ",") w in
  set_indented false (write (set_indented true (writeIndent_unless w))).

(** The elements an array lacks below one it has. *)
Fixpoint writeNulls (n : nat) (first : bool) (w : Writer) : Writer :=
  match n with
  | O => w
  | S n' => writeNulls n' false (writeElement (pushValue (bs "null")) first w)
  end.

(** The loops of [writeArrayValue], over the indices from [index] to the largest, and of
    [writeValue], over the members in the order of their names. *)
Section loops.
Context (writeValue : Value -> Writer -> Writer).

Fixpoint writeElements (index : Z) (a : list (Z * Value)) (w : Writer) : Writer :=
  match a with
  | [] => w
  | (k, x) :: a' =>
      let w := writeNulls (Z.to_nat (k - index)) (index =? 0) w in
      writeElements (k + 1) a' (writeElement (writeValue x) (k =? 0) w)
  end.

Fixpoint writeMembers (first : bool) (o : list (bytes * Value)) (w : Writer) : Writer :=
  match o with
  | [] => w
  | (k, x) :: o' =>
      let w := if first then w else output (bs ",") w in
      writeMembers false o'
        (writeValue x (output colonSymbol_ (writeWithIndent (valueToQuotedStringN k) w)))
  end.
End loops.

(** [writeValue] and [writeArrayValue] *)
Fixpoint writeValue (v : Value) (w : Writer) : Writer :=
  match v with
  | nullValue => pushValue (bs "null") w
  | intValue i => pushValue (to_dec i) w
  | uintValue u => pushValue (to_dec u) w
  | realValue d => pushValue (valueToString_double d) w
  | stringValue s => pushValue (valueToQuotedStringN s) w
  | booleanValue b => pushValue (if b then bs "true" else bs "false") w
  | arrayValue [] => pushValue (bs "[]") w
  | arrayValue a =>
      writeWithIndent (bs "]")
        (unindent (writeElements writeValue 0 a (indent (writeWithIndent (bs "[") w))))
  | objectValue [] => pushValue (bs "{}") w
  | objectValue o =>
      writeWithIndent (bs "}")
        (unindent (writeMembers writeValue true o (indent (writeWithIndent (bs "{") w))))
  end.

(** [writeCommentBeforeValue] and [writeCommentAfterValueOnSameLine], on the root, where there
    is no indentation to add. *)
Definition writeCommentBeforeValue (c : Comments) (w : Writer) : Writer :=
  if decide (commentBefore c = []) then w
  else set_indented false (output (commentBefore c) (writeIndent_unless w)).

Definition writeCommentAfterValueOnSameLine (c : Comments) (w : Writer) : Writer :=
  let w := if decide (commentAfterOnSameLine c = []) then w
           else output (bs " " ++ commentAfterOnSameLine c) w in
  if decide (commentAfter c = []) then w else output (commentAfter c) (writeIndent w).

Definition write (c : Comments) (root : Value) : bytes :=
  let w := {| indentString_ := []; indented_ := true; sout_ := [] |} in
  let w := writeCommentBeforeValue c w in
  let w := set_indented true (writeIndent_unless w) in
  sout_ (writeCommentAfterValueOnSameLine c (writeValue root w)).

Definition styled (c : Comments) (root : Value) : bytes :=
  (if decide (commentBefore c = []) then [] else [NL]) ++ write c root ++ [NL].

#[export] Instance jsoncpp : JsonText := {|
  reader_parse := parse;
  toStyledString_with := styled;
  valueToString_real := valueToString_double;
|}.
