(* ===== verification/JsonStrings.v ===== *)
(** * Strings through the JSON writer and back

    What [valueToQuotedStringN] writes for a UTF-8 string is one string token, and
    [decodeString] gives the string back. *)

From S2P Require Import Prelude Bytes Text StdMap Json JsonReader JsonWriter.

(** The numbers of literal bytes. *)
Ltac b2z_in H := repeat match type of H with
  | context [b2z ?x] => let v := eval vm_compute in (b2z x) in progress change (b2z x) with v in H
  end.

(** ** Bits *)

Lemma land_low k a : 0 <= k -> Z.land (Z.ones k) a = a mod 2 ^ k.
Proof. intros. rewrite Z.land_comm. by apply Z.land_ones. Qed.

Lemma shiftl_lor a b k : 0 <= k -> 0 <= b < 2 ^ k -> Z.lor (Z.shiftl a k) b = a * 2 ^ k + b.
Proof.
  intros Hk Hb. assert (Z.land (Z.shiftl a k) b = 0) as E.
  { apply Z.bits_inj'. intros i Hi. rewrite Z.land_spec, Z.bits_0.
    destruct (decide (i < k)) as [Hik|Hik].
    - by rewrite Z.shiftl_spec_low.
    - destruct (decide (b = 0)) as [->|]; [by rewrite Z.bits_0, andb_false_r|].
      rewrite (Z.bits_above_log2 b i); [by rewrite andb_false_r|lia|].
      apply Z.log2_lt_pow2; [lia|]. apply Z.lt_le_trans with (2 ^ k); [lia|].
      apply Z.pow_le_mono_r; lia. }
  rewrite <- Z.lxor_lor, <- Z.add_nocarry_lxor, Z.shiftl_mul_pow2 by done. done.
Qed.

(** A byte [lead + n], where the bits of [n] are below those of [lead]. *)
Lemma lead_byte a k n : 0 <= k -> 0 <= n < 2 ^ k -> 0 <= a * 2 ^ k + n < 256 ->
  b2z (z2b (Z.lor (a * 2 ^ k) n)) = a * 2 ^ k + n.
Proof.
  intros Hk Hn Hb. pose proof (shiftl_lor a n k Hk Hn) as E. rewrite Z.shiftl_mul_pow2 in E by done.
  rewrite b2z_z2b, E. by apply Z.mod_small.
Qed.

(** ** UTF-8 *)

(** A code point that is not a surrogate. *)
Definition scalar (cp : Z) : Prop := 0 <= cp <= 0x10FFFF /\ ~ (0xD800 <= cp <= 0xDFFF).

Definition utf8 (cps : list Z) : bytes := concat (codePointToUTF8 <$> cps).

(** The string is the UTF-8 of some text. *)
Definition is_utf8 (s : bytes) : Prop := exists cps, Forall scalar cps /\ s = utf8 cps.

(** The bytes of a code point, by its digits in base 64. *)
Lemma codePointToUTF8_bytes cp : 0 <= cp <= 0x10FFFF ->
  exists l, b2z <$> codePointToUTF8 cp = l /\
  l = if decide (cp <= 0x7f) then [cp]
      else if decide (cp <= 0x7FF) then [192 + cp / 64; 128 + cp mod 64]
      else if decide (cp <= 0xFFFF) then [224 + cp / 4096; 128 + cp / 64 mod 64; 128 + cp mod 64]
      else [240 + cp / 262144; 128 + cp / 4096 mod 64; 128 + cp / 64 mod 64; 128 + cp mod 64].
Proof.
  intros Hc. eexists. split; [done|]. unfold codePointToUTF8.
  assert (forall x, 0 <= x -> b2z (z2b (Z.lor 0x80 (Z.land 0x3f x))) = 128 + x mod 64) as C.
  { intros x Hx. change 0x3f with (Z.ones 6). rewrite land_low by lia. change 0x80 with (2 * 2 ^ 6).
    pose proof (Z.mod_pos_bound x (2 ^ 6) ltac:(lia)). rewrite (lead_byte 2 6); [done|lia..]. }
  change 262144 with (2 ^ 18) in *. change 4096 with (2 ^ 12) in *. change (cp / 64) with (cp / 2 ^ 6).
  rewrite <- !Z.shiftr_div_pow2 by lia.
  assert (forall k, 0 <= Z.shiftr cp k) as S by (intros; apply Z.shiftr_nonneg; lia).
  repeat case_decide; simpl.
  - by rewrite b2z_z2b, Z.mod_small by lia.
  - rewrite Z.shiftr_0_r, !C by (done || lia). f_equal.
    change 0x1f with (Z.ones 5). rewrite land_low by lia. change 0xC0 with (6 * 2 ^ 5).
    assert (Z.shiftr cp 6 mod 2 ^ 5 = Z.shiftr cp 6) as ->
      by (rewrite Z.shiftr_div_pow2 by lia; apply Z.mod_small; dlia).
    rewrite (lead_byte 6 5); [done|rewrite ?Z.shiftr_div_pow2 by lia; dlia..].
  - rewrite Z.shiftr_0_r, !C by (done || lia). f_equal.
    change 0xf with (Z.ones 4). rewrite land_low by lia. change 0xE0 with (14 * 2 ^ 4).
    assert (Z.shiftr cp 12 mod 2 ^ 4 = Z.shiftr cp 12) as ->
      by (rewrite Z.shiftr_div_pow2 by lia; apply Z.mod_small; dlia).
    rewrite (lead_byte 14 4); [done|rewrite ?Z.shiftr_div_pow2 by lia; dlia..].
  - rewrite Z.shiftr_0_r, !C by (done || lia). f_equal.
    change 0x7 with (Z.ones 3). rewrite land_low by lia. change 0xF0 with (30 * 2 ^ 3).
    assert (Z.shiftr cp 18 mod 2 ^ 3 = Z.shiftr cp 18) as ->
      by (rewrite Z.shiftr_div_pow2 by lia; apply Z.mod_small; dlia).
    rewrite (lead_byte 30 3); [done|rewrite ?Z.shiftr_div_pow2 by lia; dlia..].
  - lia.
Qed.

Lemma land_mask a k : 0 <= k -> Z.land a (Z.ones k) = a mod 2 ^ k.
Proof. apply Z.land_ones. Qed.

(** [utf8ToCodepoint] undoes [codePointToUTF8]. *)
Lemma utf8ToCodepoint_utf8 cp rest : scalar cp ->
  exists c s, codePointToUTF8 cp = c :: s /\ utf8ToCodepoint c (s ++ rest) = (cp, length s)
    /\ (0x80 <= cp -> 0x80 <= b2z c) /\ (cp < 0x80 -> s = [] /\ b2z c = cp).
Proof.
  intros [Hc Hs]. destruct (codePointToUTF8_bytes cp Hc) as (l & E & ->).
  unfold REPLACEMENT_CHARACTER in *.
  repeat case_decide;
    repeat match goal with
    | E : b2z <$> ?x = [] |- _ => apply fmap_nil_inv in E
    | E : b2z <$> ?x = _ :: _ |- _ => apply fmap_cons_inv in E as (? & ? & ? & E & ?); symmetry in E
    end; subst; match goal with E : codePointToUTF8 _ = _ |- _ => rewrite E end;
    eexists _, _; (split; [done|]); unfold utf8ToCodepoint; simpl;
    repeat match goal with E : _ = b2z ?x |- _ => rewrite <- E end.
  - rewrite decide_True by lia. split; [done|]. split; [lia|done].
  - rewrite decide_False, decide_True by dlia. split; [|split; [dlia|lia]].
    change 0x1F with (Z.ones 5). change 0x3F with (Z.ones 6). rewrite !land_mask by lia.
    rewrite shiftl_lor by dlia. change (2 ^ 6) with 64. change (2 ^ 5) with 32.
    rewrite decide_False by dlia. f_equal. dlia.
  - do 2 rewrite decide_False by dlia. rewrite decide_True by dlia. split; [|split; [dlia|lia]].
    change 0x0F with (Z.ones 4). change 0x3F with (Z.ones 6). rewrite !land_mask by lia.
    rewrite <- Z.lor_assoc, (shiftl_lor _ _ 6), (shiftl_lor _ _ 12) by dlia.
    change (2 ^ 6) with 64. change (2 ^ 4) with 16. change (2 ^ 12) with 4096.
    assert ((224 + cp / 4096) mod 16 * 4096
            + ((128 + (cp / 64) mod 64) mod 64 * 64 + (128 + cp mod 64) mod 64) = cp) as -> by dlia.
    by do 2 rewrite decide_False by lia.
  - do 3 rewrite decide_False by dlia. rewrite decide_True by dlia. split; [|split; [dlia|lia]].
    change 0x07 with (Z.ones 3). change 0x3F with (Z.ones 6). rewrite !land_mask by lia.
    rewrite <- !Z.lor_assoc, (shiftl_lor _ _ 6), (shiftl_lor _ _ 12), (shiftl_lor _ _ 18) by dlia.
    change (2 ^ 6) with 64. change (2 ^ 3) with 8. change (2 ^ 12) with 4096. change (2 ^ 18) with 262144.
    assert ((240 + cp / 262144) mod 8 * 262144
            + ((128 + (cp / 4096) mod 64) mod 64 * 4096
               + ((128 + (cp / 64) mod 64) mod 64 * 64 + (128 + cp mod 64) mod 64)) = cp) as -> by dlia.
    by rewrite decide_False by lia.
Qed.

(** ** Escapes *)

(** What is written for a code point. *)
Definition chunk (cp : Z) : bytes :=
  match (if decide (cp < 0x80) then escape_letter (z2b cp) else None) with
  | Some l => BACKSLASH :: l
  | None => append_codepoint [] cp
  end.

Lemma append_codepoint_app r cp : append_codepoint r cp = r ++ append_codepoint [] cp.
Proof.
  unfold append_codepoint, appendHex, appendRaw. repeat case_decide; simpl; by rewrite <- ?app_assoc.
Qed.

Lemma escape_letter_ascii c l : escape_letter c = Some l -> b2z c < 0x80.
Proof.
  unfold escape_letter. intros E. do 7 (case_decide; [subst; vm_compute; done|]). done.
Qed.

Lemma quote_utf8 cps n r : Forall scalar cps -> (length (utf8 cps) <= n)%nat ->
  quote_chars n (utf8 cps) r = r ++ concat (chunk <$> cps).
Proof.
  intros F. revert n r. induction F as [|cp cps Hc F IH]; intros n r Hn.
  - destruct n; by rewrite app_nil_r.
  - unfold utf8 in *. rewrite !fmap_cons in *. cbn [concat] in *.
    destruct (utf8ToCodepoint_utf8 cp (concat (codePointToUTF8 <$> cps)) Hc) as (c & s & E & U & H1 & H2).
    rewrite E in *. rewrite length_app in Hn. simpl in Hn. destruct n as [|n]; [lia|].
    unfold chunk at 1. simpl. case_decide as Hl.
    + destruct (H2 Hl) as [-> <-]. rewrite z2b_b2z.
      destruct (escape_letter c) as [l|] eqn:El.
      * simpl. rewrite IH by lia. by rewrite <- app_assoc.
      * rewrite U. simpl. rewrite IH by lia. rewrite append_codepoint_app, <- app_assoc.
        by destruct Hc.
    + destruct (escape_letter c) as [l|] eqn:El; [apply escape_letter_ascii in El; lia|].
      rewrite U. rewrite drop_app_length, IH by lia. by rewrite append_codepoint_app, <- app_assoc.
Qed.

Lemma quote_plain s n r : doesAnyCharRequireEscaping s = false -> (length s <= n)%nat ->
  quote_chars n s r = r ++ s /\ c_str s = s.
Proof.
  revert n r. induction s as [|c s IH]; intros n r E Hn; [destruct n; by rewrite app_nil_r|].
  simpl in Hn. destruct n as [|n]; [lia|]. simpl in E. apply orb_false_iff in E as [E Es].
  repeat (apply orb_false_iff in E as [E ?]). apply bool_decide_eq_false in E.
  rename H1 into Eq. apply bool_decide_eq_false in Eq. rewrite Z.gtb_ltb in *.
  assert (0x20 <= b2z c < 0x80 \/ b2z c = 0x7F) as Hc by lia.
  assert (escape_letter c = None) as El.
  { unfold escape_letter. rewrite !decide_False; try done; intros ->; b2z_in Hc; lia. }
  simpl. rewrite El. unfold utf8ToCodepoint. rewrite decide_True by lia.
  rewrite drop_0. unfold append_codepoint. rewrite decide_False, decide_True by lia.
  destruct (IH n (appendRaw r (b2z c)) Es) as [-> ->]; [lia|]. unfold appendRaw. rewrite z2b_b2z.
  rewrite <- app_assoc. split; [done|]. rewrite decide_False; [done|]. intros ->.
  b2z_in Hc. lia.
Qed.

(** The text of a UTF-8 string, whichever way it is written. *)
Lemma quoted_utf8 cps : Forall scalar cps ->
  valueToQuotedStringN (utf8 cps) = QUOTE :: concat (chunk <$> cps) ++ [QUOTE].
Proof.
  intros F. unfold valueToQuotedStringN.
  rewrite quote_utf8 by done. simpl. destruct (doesAnyCharRequireEscaping (utf8 cps)) eqn:E; [done|].
  destruct (quote_plain (utf8 cps) (length (utf8 cps)) [] E) as [E1 ->]; [done|].
  rewrite quote_utf8 in E1 by done. simpl in E1. by rewrite <- E1.
Qed.

(** ** Reading it back *)

Definition plain (c : byte) : Prop := c <> QUOTE /\ c <> BACKSLASH.

Lemma readString_plain l s : Forall plain l -> readString (l ++ s) = readString s.
Proof. induction 1 as [|c l [? ?] F IH]; [done|]. simpl. by rewrite !decide_False. Qed.

(** The sixteen digits. *)
Lemma hex_char_cases d : 0 <= d < 16 -> hex_digit (hex_char d) = Some d /\ plain (hex_char d).
Proof.
  intros Hd. assert (d ∈ seqZ 0 16) as Hin by (apply elem_of_seqZ; lia). revert d Hin Hd.
  apply (Forall_forall (fun d => 0 <= d < 16 -> hex_digit (hex_char d) = Some d /\ plain (hex_char d))).
  change (seqZ 0 16) with [0; 1; 2; 3; 4; 5; 6; 7; 8; 9; 10; 11; 12; 13; 14; 15].
  repeat apply Forall_cons_2; try apply Forall_nil_2; intros _; (split; [reflexivity|split; vm_compute; done]).
Qed.

Lemma toHex16Bit_digits x : 0 <= x < 65536 ->
  toHex16Bit x = [hex_char (x / 4096); hex_char (x / 256 mod 16); hex_char (x / 16 mod 16); hex_char (x mod 16)].
Proof.
  intros Hx. unfold toHex16Bit, hex_of. change 0xff with (Z.ones 8). rewrite !land_mask by lia.
  rewrite Z.shiftr_div_pow2 by lia. change (2 ^ 8) with 256. simpl.
  assert (x / 256 mod 256 / 16 = x / 4096) as -> by dlia.
  assert (x / 256 mod 256 mod 16 = x / 256 mod 16) as -> by dlia.
  assert (x mod 256 / 16 = x / 16 mod 16) as -> by dlia.
  assert (x mod 256 mod 16 = x mod 16) as -> by dlia. done.
Qed.

Lemma decode_toHex16Bit x s : 0 <= x < 65536 ->
  decodeUnicodeEscapeSequence (toHex16Bit x ++ s) = Some (x, s).
Proof.
  intros Hx. rewrite toHex16Bit_digits by done. simpl.
  destruct (hex_char_cases (x / 4096)) as [-> _]; [dlia|].
  destruct (hex_char_cases (x / 256 mod 16)) as [-> _]; [dlia|].
  destruct (hex_char_cases (x / 16 mod 16)) as [-> _]; [dlia|].
  destruct (hex_char_cases (x mod 16)) as [-> _]; [dlia|]. simpl. unfold mret, option_ret.
  do 2 f_equal. dlia.
Qed.

Lemma toHex16Bit_plain x : 0 <= x < 65536 -> Forall plain (toHex16Bit x) /\ length (toHex16Bit x) = 4%nat.
Proof.
  intros Hx. rewrite toHex16Bit_digits by done. split; [|done].
  repeat constructor; apply hex_char_cases; dlia.
Qed.

#[local] Arguments toHex16Bit : simpl never.

(** What a chunk looks like. *)
Inductive chunk_of (cp : Z) : bytes -> Prop :=
| chunk_raw c : plain c -> codePointToUTF8 cp = [c] -> chunk_of cp [c]
| chunk_letter e c : simple_escape e = Some c -> is_char e "u" = false -> codePointToUTF8 cp = [c] ->
    chunk_of cp [BACKSLASH; e]
| chunk_hex : 0 <= cp < 65536 -> ~ (0xD800 <= cp <= 0xDFFF) -> chunk_of cp (bs "\u" ++ toHex16Bit cp)
| chunk_pair hi lo : 0xD800 <= hi <= 0xDBFF -> 0 <= lo < 65536 ->
    0x10000 + Z.shiftl (Z.land hi 0x3FF) 10 + Z.land lo 0x3FF = cp ->
    chunk_of cp (bs "\u" ++ toHex16Bit hi ++ bs "\u" ++ toHex16Bit lo).

Lemma chunk_cases cp : scalar cp -> chunk_of cp (chunk cp).
Proof.
  intros [Hc Hs]. unfold chunk. case_decide as Hl.
  - assert (codePointToUTF8 cp = [z2b cp]) as E.
    { unfold codePointToUTF8. by rewrite decide_True by lia. }
    unfold escape_letter. repeat case_decide;
      try (apply (chunk_letter _ _ (z2b cp)); [|done|done];
           match goal with E : z2b cp = _ |- _ => rewrite E end; reflexivity).
    unfold append_codepoint. case_decide; [by constructor; lia|]. rewrite decide_True by done.
    by constructor.
  - unfold append_codepoint. rewrite !(decide_False (P := cp < _)) by lia.
    case_decide; [by constructor; lia|]. unfold appendHex. simpl.
    apply (chunk_pair cp (0xd800 + Z.land (Z.shiftr (cp - 0x10000) 10) 0x3ff)
                         (0xdc00 + Z.land (cp - 0x10000) 0x3ff));
      change 0x3ff with (Z.ones 10); rewrite !land_mask, ?Z.shiftr_div_pow2 by lia;
      rewrite ?Z.shiftl_mul_pow2 by lia; change (2 ^ 10) with 1024; dlia.
Qed.

Lemma readString_escape e s : readString (BACKSLASH :: e :: s) = readString s.
Proof. done. Qed.

(** One chunk, read and decoded. *)
Lemma readString_chunk cp s : scalar cp -> readString (chunk cp ++ s) = readString s.
Proof.
  intros Hc. destruct (chunk_cases cp Hc) as [c Hp _|e c _ _ _|Hx _|hi lo Hh Hlo _].
  - by apply (readString_plain [c]); constructor.
  - done.
  - destruct (toHex16Bit_plain cp Hx) as [F _]. change (bs "\u") with [BACKSLASH; chr 117].
    rewrite <- app_assoc. cbn [app]. rewrite readString_escape. by apply readString_plain.
  - destruct (toHex16Bit_plain hi ltac:(lia)) as [F1 _]. destruct (toHex16Bit_plain lo Hlo) as [F2 _].
    change (bs "\u") with [BACKSLASH; chr 117]. rewrite <- !app_assoc. cbn [app].
    rewrite readString_escape, readString_plain by done. rewrite readString_escape.
    by apply readString_plain.
Qed.

Lemma decode_chunk cp s n acc : scalar cp ->
  decode_chars (S n) (chunk cp ++ s) acc = decode_chars n s (acc ++ codePointToUTF8 cp).
Proof.
  intros Hc. pose proof Hc as [Hc1 Hc2]. destruct (chunk_cases cp Hc) as [c [Hq Hb] E|e c E1 E2 E|Hx _|hi lo Hh Hlo E].
  - simpl. by rewrite !decide_False, E.
  - cbn [app decode_chars]. rewrite decide_False, decide_True by done. by rewrite E2, E1, E.
  - change (bs "\u") with [BACKSLASH; chr 117]. rewrite <- app_assoc. cbn [app decode_chars].
    rewrite decide_False, decide_True by done. change (is_char (chr 117) "u") with true. cbn iota.
    unfold decodeUnicodeCodePoint. rewrite decode_toHex16Bit by done. simpl.
    rewrite decide_False by lia. done.
  - change (bs "\u") with [BACKSLASH; chr 117]. rewrite <- !app_assoc. cbn [app decode_chars].
    rewrite decide_False, decide_True by done. change (is_char (chr 117) "u") with true. cbn iota.
    unfold decodeUnicodeCodePoint. rewrite decode_toHex16Bit by lia.
    cbn [mbind option_bind]. rewrite decide_True by lia.
    rewrite decide_False by (rewrite !len_cons, len_app; destruct (toHex16Bit_plain lo Hlo) as [_ L];
      unfold len; lia).
    rewrite decide_True by done. change (is_char (chr 117) "u") with true. cbn iota.
    rewrite decode_toHex16Bit by lia. cbn [mbind option_bind]. unfold mret, option_ret.
    by rewrite E.
Qed.

Lemma chunk_length cp : scalar cp -> (1 <= length (chunk cp))%nat.
Proof. intros Hc. destruct (chunk_cases cp Hc); simpl; lia. Qed.

(** The reader takes exactly the quoted text. *)
Lemma readString_quoted cps s : Forall scalar cps ->
  readString (concat (chunk <$> cps) ++ QUOTE :: s) = (true, s).
Proof.
  induction 1 as [|cp cps Hc F IH]; simpl; [done|]. by rewrite <- app_assoc, readString_chunk.
Qed.

Lemma decode_chunks cps n acc : Forall scalar cps -> (length (concat (chunk <$> cps)) <= n)%nat ->
  decode_chars n (concat (chunk <$> cps)) acc = Some (acc ++ utf8 cps).
Proof.
  intros F. revert n acc. induction F as [|cp cps Hc F IH]; intros n acc Hn.
  - destruct n; simpl; by rewrite app_nil_r.
  - rewrite fmap_cons in *. cbn [concat] in *. rewrite length_app in Hn.
    pose proof (chunk_length cp Hc). destruct n as [|n]; [lia|].
    rewrite decode_chunk, IH by (done || lia). unfold utf8. rewrite fmap_cons. simpl.
    by rewrite <- app_assoc.
Qed.

(** A UTF-8 string survives the JSON text: the quoted text is a single string token, however
    the text goes on, and decoding it gives the string. *)
Theorem quoted_roundtrip s rest : is_utf8 s ->
  exists body, valueToQuotedStringN s = QUOTE :: body
  /\ readString (body ++ rest) = (true, rest)
  /\ decodeString (valueToQuotedStringN s) = Some s.
Proof.
  intros (cps & F & ->). rewrite quoted_utf8 by done. eexists. split; [done|]. split.
  - rewrite <- app_assoc. by apply readString_quoted.
  - unfold decodeString. simpl. rewrite removelast_last. by apply decode_chunks.
Qed.

Lemma quoted_roundtrip_witness :
  exists body, valueToQuotedStringN (bs "a" ++ [z2b 0xe4; z2b 0xbd; z2b 0xa0; QUOTE; NL]) = QUOTE :: body
  /\ readString (body ++ bs "}") = (true, bs "}")
  /\ decodeString (valueToQuotedStringN (bs "a" ++ [z2b 0xe4; z2b 0xbd; z2b 0xa0; QUOTE; NL]))
     = Some (bs "a" ++ [z2b 0xe4; z2b 0xbd; z2b 0xa0; QUOTE; NL]).
Proof.
  apply quoted_roundtrip. exists [97; 0x4f60; 34; 10]. split; [|vm_compute; reflexivity].
  unfold scalar. repeat constructor; lia.
Defined.
