(* ===== verification/JsonRoundtrip.v ===== *)
(** * Documents through the JSON writer and back

    What [Reader::parse] makes of the text of [Value::toStyledString], for documents of null,
    booleans, integers, UTF-8 strings, arrays and objects that are nested less deep than the
    reader's stack: the document itself, but for the tags of its integers and the holes in its
    arrays. *)

From stdpp Require Import sorting.
From S2P Require Import Prelude Bytes Text StdMap Json JsonReader JsonWriter JsonStrings.

(** ** The documents *)

(** Nested at most [n] deep. A non-negative integer is signed when it fits an [int], as the
    reader leaves it. *)
Inductive printable : nat -> Value -> Prop :=
| pr_null n : printable (S n) nullValue
| pr_bool n b : printable (S n) (booleanValue b)
| pr_int n i : - 2 ^ 63 <= i <= INT_MAX -> printable (S n) (intValue i)
| pr_uint n u : INT_MAX < u < 2 ^ 64 -> printable (S n) (uintValue u)
| pr_string n s : is_utf8 s -> printable (S n) (stringValue s)
| pr_array n a : mkeys a = seqZ 0 (len a) -> Forall (fun p => printable n p.2) a ->
    printable (S n) (arrayValue a)
| pr_object n o : sorted_map o -> Forall (fun p => is_utf8 p.1 /\ printable n p.2) o ->
    printable (S n) (objectValue o).

(** ** Tokens *)

Definition white (c : byte) : Prop := c = NL \/ c = chr 9 \/ c = CR \/ [c] = bs " ".

Definition COMMA : byte := chr 44.

(** The text after a value, in what the writer makes. *)
Definition stops (s : bytes) : Prop := exists c s', s = c :: s' /\ (c = COMMA \/ c = NL).

Lemma skipSpaces_white l s : Forall white l -> skipSpaces (l ++ s) = skipSpaces s.
Proof.
  induction 1 as [|c l Hc F IH]; [done|]. transitivity (skipSpaces (l ++ s)); [|done].
  destruct Hc as [->|[->|[->|Hc]]]; [..|injection Hc as ->]; reflexivity.
Qed.

Lemma between_app t s : between (t ++ s) s = t.
Proof.
  unfold between. rewrite length_app. replace (length t + length s - length s)%nat with (length t) by lia.
  apply take_app_length.
Qed.

(** The state after a value was read. *)
Definition finished (s : bytes) (root : bool) (r : Reader) : Reader := {|
  current_ := s; commentsBefore_ := []; lastValueEnd_ := Some s; lastValue_ := root;
  rootComments := rootComments r |}.

(** A text that is one token, however it goes on. *)
Definition token (t : bytes) (ty : TokenType) : Prop := forall s r, stops s -> current_ r = t ++ s ->
  readToken r = Ok (true, {| type_ := ty; start_ := t ++ s; end_ := s |}, set_current s r).

(** The text of a value. *)
Definition reads (n : nat) (t : bytes) (v : Value) : Prop := forall root s r,
  stops s -> current_ r = t ++ s -> commentsBefore_ r = [] ->
  readValue n root r = Ok (Some v, finished s root r).

(** A step of [readToken] on a text that starts with [c]. *)
Lemma readToken_at r c s : current_ r = c :: s -> skipSpaces (c :: s) = c :: s ->
  readToken r = ('(ok, t) ← readToken_char c (c :: s); e ← gets current_;
    mret (ok, {| type_ := if ok : bool then t else tokenError; start_ := c :: s; end_ := e |}))
    (set_current s r).
Proof. intros E Es. unfold readToken, gets, modify, mbind, M_bind. by rewrite E, Es. Qed.

Lemma readToken_white l r s : Forall white l -> current_ r = l ++ s ->
  readToken r = readToken (set_current s r).
Proof.
  intros F E. unfold readToken. run. rewrite E, skipSpaces_white by done.
  by destruct (getNextChar (skipSpaces s)).
Qed.

Lemma past_comments_other n ok tok r : type_ tok <> tokenComment -> (0 < n)%nat ->
  past_comments n ok tok r = Ok (ok, tok, r).
Proof. destruct n as [|n]; [lia|]. intros Ht _. simpl. by rewrite decide_False. Qed.

Lemma turns_past ok tok r : type_ tok <> tokenComment ->
  turns (fun n => past_comments n ok tok) r = Ok (ok, tok, r).
Proof. intros. unfold turns, gets, mbind, M_bind. by apply past_comments_other; [|lia]. Qed.

Lemma past_bind {A} ok tok (k : bool * Token -> R A) r : type_ tok <> tokenComment ->
  ((turns (fun n => past_comments n ok tok) : R _) ≫= k) r = k (ok, tok) r.
Proof. intros. by rewrite (bind_ok _ _ _ _ _ (turns_past ok tok r H)). Qed.

Lemma skipCommentTokens_token ok tok r r' : readToken r = Ok (ok, tok, r') -> type_ tok <> tokenComment ->
  skipCommentTokens r = Ok (tok, r').
Proof.
  intros E Ht. unfold skipCommentTokens. rewrite (bind_ok _ _ _ _ _ E).
  by rewrite (bind_ok _ _ _ _ _ (turns_past ok tok r' Ht)).
Qed.

(** White space before a value. *)
Lemma reads_white n l t v : Forall white l -> reads n t v -> reads n (l ++ t) v.
Proof.
  intros F H root s r Hs E B. rewrite <- app_assoc in E.
  specialize (H root s (set_current (t ++ s) r) Hs eq_refl B). destruct n as [|n]; [done|].
  simpl in H |- *. unfold skipCommentTokens in *. run.
  rewrite (readToken_white l r (t ++ s)) by done. exact H.
Qed.

(** ** Scalars *)

Lemma keyword_ok p ty s r : current_ r = bs p ++ s -> keyword p ty r = Ok (true, ty, set_current s r).
Proof.
  intros E. unfold keyword, gets, mbind, M_bind. rewrite E. unfold match_.
  by rewrite take_app_length, decide_True, drop_app_length.
Qed.

Lemma token_keyword c p ty :
  skipSpaces [c] = [c] ->
  (forall begin r, readToken_char c begin r = keyword p ty r) -> token (c :: bs p) ty.
Proof.
  intros Hw Hc s r _ E. rewrite (readToken_at r c (bs p ++ s)); [|done|].
  - unfold mbind at 1, M_bind at 1. rewrite Hc, (keyword_ok p ty s) by done. done.
  - simpl in Hw |- *. by destruct (is_char c " " || _ || _ || _).
Qed.

Lemma token_true : token (bs "true") tokenTrue.
Proof. apply (token_keyword (chr 116) "rue"); [reflexivity|done]. Qed.
Lemma token_false : token (bs "false") tokenFalse.
Proof. apply (token_keyword (chr 102) "alse"); [reflexivity|done]. Qed.
Lemma token_null : token (bs "null") tokenNull.
Proof. apply (token_keyword (chr 110) "ull"); [reflexivity|done]. Qed.

Lemma token_string s : is_utf8 s -> token (valueToQuotedStringN s) tokenString.
Proof.
  intros (cps & F & ->). rewrite quoted_utf8 by done. intros s r _ E.
  rewrite (readToken_at r QUOTE (concat (chunk <$> cps) ++ QUOTE :: s)); [|by rewrite E; simpl; rewrite <- app_assoc|done].
  unfold mbind at 1, M_bind at 1, readToken_char, gets at 1, mbind at 1, M_bind at 1.
  cbn [current_ set_current]. change (is_char QUOTE _) with false. cbn iota.
  rewrite readString_quoted by done. unfold modify, mbind, M_bind, mret, M_ret, gets. simpl.
  by rewrite <- app_assoc.
Qed.

(** Digits, up to a character that is none. *)
Lemma skip_digits_all l s : Forall (fun b => is_digit b = true) l -> skip_digits (l ++ s) = skip_digits s.
Proof. induction 1 as [|c l Hc F IH]; [done|]. simpl. by rewrite Hc. Qed.

Lemma readNumber_digits l s : Forall (fun b => is_digit b = true) l -> stops s -> readNumber (l ++ s) = s.
Proof.
  intros F (c & s' & -> & Hc). unfold readNumber. rewrite skip_digits_all by done.
  by destruct Hc as [->| ->].
Qed.

Lemma to_dec_text z : exists c l, to_dec z = c :: l /\ (is_digit c || is_char c "-") = true
  /\ Forall (fun b => is_digit b = true) l.
Proof.
  unfold to_dec. case_decide as Hz.
  - eexists _, _. split; [done|]. split; [done|]. apply dec_digits_digits; [lia|constructor].
  - destruct (dec_digits_cons 19 z) as (b & l & E).
    pose proof (dec_digits_digits 20 z [] ltac:(lia) ltac:(constructor)) as F. rewrite E in F |- *.
    apply Forall_cons in F as [Fb F]. exists b, l. by rewrite Fb.
Qed.

Lemma token_number z : token (to_dec z) tokenNumber.
Proof.
  destruct (to_dec_text z) as (c & l & -> & Hc & F). intros s r Hs E.
  assert (is_char c " " = false /\ is_char c "{" = false /\ is_char c "}" = false
    /\ is_char c "[" = false /\ is_char c "]" = false /\ is_char c "/" = false
    /\ c <> QUOTE /\ c <> CR /\ c <> NL /\ c <> chr 9) as (? & H1 & H2 & H3 & H4 & H5 & ? & ? & ? & ?).
  { unfold is_char. rewrite !bool_decide_eq_false. repeat split; intros He; try injection He as He; subst c;
      by vm_compute in Hc. }
  rewrite (readToken_at r c (l ++ s)); [|done|].
  2: { simpl. by rewrite H, !bool_decide_eq_false_2. }
  unfold mbind at 1, M_bind at 1, readToken_char, gets at 1, mbind at 1, M_bind at 1.
  rewrite H1, H2, H3, H4, H5, Hc, decide_False by done. cbn [current_ set_current].
  rewrite readNumber_digits by done. done.
Qed.

Lemma read_digits_mono l a : 0 <= a -> Forall (fun b => is_digit b = true) l -> a <= read_digits a l.
Proof.
  intros Ha F. revert a Ha. induction F as [|c l Hc F IH]; intros a Ha; simpl; [lia|].
  rewrite Hc. unfold is_digit in Hc. etransitivity; [|apply IH]; lia.
Qed.

(** The overflow test lets pass what fits. *)
Lemma decode_integer_digits m a l : 1000 <= m -> 0 <= a -> Forall (fun b => is_digit b = true) l ->
  read_digits a l <= m -> decode_integer m a l = Some (read_digits a l).
Proof.
  intros Hm Ha F. revert a Ha. induction F as [|c l Hc F IH]; intros a Ha Hr; simpl in *; [done|].
  rewrite Hc in Hr |- *. cbn [negb]. replace (10 * a + (b2z c - 48)) with (a * 10 + (b2z c - 48)) in * by lia.
  assert (0 <= b2z c - 48 <= 9) as Hd by (unfold is_digit in Hc; lia).
  pose proof (read_digits_mono l (a * 10 + (b2z c - 48)) ltac:(lia) F) as M.
  rewrite decide_False; [by apply IH; [lia|]|]. intros [H1 [H2|[H2|H2]]]; [dlia| |dlia].
  destruct F as [|d l Hd' F]; [done|]. simpl in *. rewrite Hd' in Hr, M.
  assert (0 <= b2z d - 48 <= 9) by (unfold is_digit in Hd'; lia).
  pose proof (read_digits_mono l (10 * (a * 10 + (b2z c - 48)) + (b2z d - 48)) ltac:(lia) F). dlia.
Qed.

Lemma decodeNumber_nonneg n : 0 <= n < 2 ^ 64 ->
  decodeNumber (to_dec n) = Some (if decide (n <= INT_MAX) then intValue n else uintValue n).
Proof.
  intros Hn. unfold decodeNumber, to_dec. rewrite decide_False by lia.
  destruct (dec_digits_cons 19 n) as (b & l & E).
  pose proof (dec_digits_digits 20 n [] ltac:(lia) ltac:(constructor)) as F.
  pose proof (read_to_dec n ltac:(lia)) as R. rewrite E in *.
  apply Forall_cons in F as [Fb F].
  assert (is_char b "-" = false) as ->.
  { unfold is_char. apply bool_decide_eq_false. intros He. injection He as ->. by vm_compute in Fb. }
  rewrite decode_integer_digits; [by rewrite R|unfold maxLargestUInt; lia|done|by constructor|].
  rewrite R. unfold maxLargestUInt. lia.
Qed.

Lemma decodeNumber_neg n : - 2 ^ 63 <= n < 0 -> decodeNumber (to_dec n) = Some (intValue n).
Proof.
  intros Hn. unfold decodeNumber, to_dec. rewrite decide_True by lia.
  change (is_char (chr 45) "-") with true. cbn iota.
  pose proof (dec_digits_digits 20 (- n) [] ltac:(lia) ltac:(constructor)) as F.
  pose proof (read_to_dec (- n) ltac:(lia)) as R.
  rewrite decode_integer_digits; [|unfold maxLargestInt; lia|done|done|rewrite R; unfold maxLargestInt; lia].
  by rewrite R, Z.opp_involutive.
Qed.

(** A scalar is one token. *)
Lemma reads_token n t ty v : token t ty ->
  match ty with
  | tokenNumber => decodeNumber t = Some v
  | tokenString => exists s, decodeString t = Some s /\ v = stringValue s
  | tokenTrue => v = booleanValue true
  | tokenFalse => v = booleanValue false
  | tokenNull => v = nullValue
  | _ => False
  end -> reads (S n) t v.
Proof.
  intros Ht Hv root s r Hs E B. simpl.
  rewrite (bind_ok _ _ _ _ _ (skipCommentTokens_token _ _ _ _ (Ht s r Hs E) ltac:(by destruct ty))).
  unfold gets, modify. unfold mbind, M_bind. cbn [commentsBefore_ set_current]. rewrite B, decide_True by done.
  unfold mret, M_ret, token_text. cbn [type_ start_ end_]. rewrite between_app.
  unfold finished.
  destruct ty; try done; cbn [current_ commentsBefore_ rootComments set_current]; rewrite B.
  - by destruct Hv as (s' & -> & ->).
  - by rewrite Hv.
  - by subst.
  - by subst.
  - by subst.
Qed.

Lemma reads_scalar n v : printable (S n) v ->
  match v with
  | nullValue => reads (S n) (bs "null") v
  | booleanValue b => reads (S n) (if b then bs "true" else bs "false") v
  | intValue i | uintValue i => reads (S n) (to_dec i) v
  | stringValue s => reads (S n) (valueToQuotedStringN s) v
  | _ => True
  end.
Proof.
  inversion 1 as [|? b|? i Hi|? u Hu|? s Hs| |]; subst; try done.
  - by apply (reads_token _ _ tokenNull); [apply token_null|].
  - destruct b; [by apply (reads_token _ _ tokenTrue); [apply token_true|]|].
    by apply (reads_token _ _ tokenFalse); [apply token_false|].
  - apply (reads_token _ _ tokenNumber); [apply token_number|]. unfold INT_MAX in Hi.
    destruct (decide (i < 0)); [apply decodeNumber_neg; lia|].
    rewrite decodeNumber_nonneg, decide_True by (unfold INT_MAX; lia). done.
  - apply (reads_token _ _ tokenNumber); [apply token_number|]. unfold INT_MAX in Hu.
    rewrite decodeNumber_nonneg, decide_False by (unfold INT_MAX; lia). done.
  - apply (reads_token _ _ tokenString); [by apply token_string|].
    destruct (quoted_roundtrip s [] Hs) as (? & _ & _ & ->). eauto.
Qed.

(** ** Punctuation *)

Lemma punct c ty l s r :
  skipSpaces [c] = [c] -> (forall begin r, readToken_char c begin r = Ok (true, ty, r)) ->
  Forall white l -> current_ r = l ++ c :: s ->
  readToken r = Ok (true, {| type_ := ty; start_ := c :: s; end_ := s |}, set_current s r).
Proof.
  intros Hw Hc F E. rewrite (readToken_white l r (c :: s)) by done.
  rewrite (readToken_at _ c s) by (done || (simpl in Hw |- *; by destruct (is_char c " " || _ || _ || _))).
  unfold mbind at 1, M_bind at 1. by rewrite Hc.
Qed.

Definition RBRACKET : byte := chr 93.
Definition RBRACE : byte := chr 125.
Definition COLON : byte := chr 58.

Lemma comma_token l s r : Forall white l -> current_ r = l ++ COMMA :: s ->
  readToken r = Ok (true, {| type_ := tokenArraySeparator; start_ := COMMA :: s; end_ := s |}, set_current s r).
Proof. by apply punct. Qed.
Lemma rbracket_token l s r : Forall white l -> current_ r = l ++ RBRACKET :: s ->
  readToken r = Ok (true, {| type_ := tokenArrayEnd; start_ := RBRACKET :: s; end_ := s |}, set_current s r).
Proof. by apply punct. Qed.
Lemma rbrace_token l s r : Forall white l -> current_ r = l ++ RBRACE :: s ->
  readToken r = Ok (true, {| type_ := tokenObjectEnd; start_ := RBRACE :: s; end_ := s |}, set_current s r).
Proof. by apply punct. Qed.
Lemma colon_token l s r : Forall white l -> current_ r = l ++ COLON :: s ->
  readToken r = Ok (true, {| type_ := tokenMemberSeparator; start_ := COLON :: s; end_ := s |}, set_current s r).
Proof. by apply punct. Qed.

(** ** Leading white space does not matter *)

Lemma skipSpaces_idem s : skipSpaces (skipSpaces s) = skipSpaces s.
Proof.
  induction s as [|c s IH]; [done|]. simpl. destruct (is_char c " " || _ || _ || _) eqn:E; [done|].
  simpl. by rewrite E.
Qed.

Lemma readToken_skip r : readToken (set_current (skipSpaces (current_ r)) r) = readToken r.
Proof. unfold readToken, gets, modify, mbind, M_bind. cbn [current_ set_current]. rewrite skipSpaces_idem. by destruct (getNextChar (skipSpaces (current_ r))). Qed.

Lemma readValue_skip n root r :
  readValue n root (set_current (skipSpaces (current_ r)) r) = readValue n root r.
Proof.
  destruct n as [|n]; [done|]. simpl. unfold mbind at 1 4, M_bind at 1 4. unfold skipCommentTokens.
  unfold mbind at 1, M_bind at 1. rewrite readToken_skip. done.
Qed.

(** No value starts with a closing bracket. *)
Lemma reads_not_rbracket n t v s u : reads n t v -> stops s -> skipSpaces (t ++ s) <> RBRACKET :: u.
Proof.
  intros H Hs E.
  set (r := {| current_ := t ++ s; commentsBefore_ := []; lastValueEnd_ := None; lastValue_ := false;
               rootComments := no_comments |}).
  specialize (H false s r Hs eq_refl eq_refl). rewrite <- readValue_skip in H.
  destruct n as [|n]; [done|]. simpl in H.
  rewrite (bind_ok _ _ _ _ _ (skipCommentTokens_token _ _ _ _
    (rbracket_token [] u (set_current (skipSpaces (t ++ s)) r) ltac:(constructor) E) ltac:(done))) in H.
  discriminate H.
Qed.

Lemma length_skip_stop t c u : skipSpaces (c :: u) = c :: u ->
  (length (c :: u) <= length (skipSpaces (t ++ c :: u)))%nat.
Proof.
  intros E. induction t as [|d t IH]; [cbn [app]; by rewrite E|]. cbn [app skipSpaces].
  destruct (is_char d " " || _ || _ || _); [exact IH|]. simpl. rewrite length_app. simpl. lia.
Qed.

(** ** Arrays and objects *)

(** The items after the first one, each after a comma. *)
Fixpoint more (ts : list bytes) : bytes :=
  match ts with
  | [] => []
  | t :: ts' => COMMA :: t ++ more ts'
  end.

Lemma number_keys a index : mkeys a = seqZ index (len a) -> number index a.*2 = a.
Proof.
  revert index. induction a as [|[k x] a IH]; intros i; [done|]. len. unfold mkeys in *. simpl.
  rewrite seqZ_cons by (pose proof (len_nonneg a); lia).
  replace (Z.pred (1 + len a)) with (len a) by lia. intros [= -> E]. by rewrite IH.
Qed.

Lemma mset_last {K V} `{KeyOrd K} (k : K) (v : V) m : Forall (fun j => klt j k) (mkeys m) ->
  mset k v m = m ++ [(k, v)].
Proof.
  induction m as [|[j x] m IH]; simpl; [done|]. intros [Hj F]%Forall_cons.
  unfold klt in Hj. assert (kcmp k j = Gt) as -> by (by apply kcmp_gt). by rewrite IH.
Qed.

Lemma stops_white l c s : (exists l', l = NL :: l') -> stops (l ++ c :: s).
Proof. intros (l' & ->). eexists _, _. split; [done|by right]. Qed.

Lemma stops_more l ts c s : (exists l', l = NL :: l') -> stops (more ts ++ l ++ c :: s).
Proof.
  intros Hl. destruct ts as [|t ts]; [by apply stops_white|]. eexists _, _. split; [done|by left].
Qed.

Lemma length_more ts : (length ts <= length (more ts))%nat.
Proof. induction ts as [|t ts IH]; [done|]. simpl. rewrite length_app. lia. Qed.

(** What holds of the reader after a container: the position, and the root's comments. *)
Definition now (s : bytes) (r r' : Reader) : Prop :=
  current_ r' = s /\ commentsBefore_ r' = [] /\ rootComments r' = rootComments r.

Lemma read_elements_ok m l s ts vs t v n index a r :
  Forall white l -> (exists l', l = NL :: l') ->
  Forall2 (reads m) (t :: ts) (v :: vs) ->
  Forall (fun j => j < index) (mkeys a) -> (length ts < n)%nat ->
  current_ r = t ++ more ts ++ l ++ RBRACKET :: s -> commentsBefore_ r = [] ->
  exists r', read_elements (readValue m false) n index a r
             = Ok (Some (arrayValue (a ++ number index (v :: vs))), r') /\ now s r r'.
Proof.
  intros Fl El. revert vs t v n index a r.
  induction ts as [|t' ts IH]; intros vs t v n index a r F Fa Hn E B;
    apply Forall2_cons in F as [Hv F]; (destruct n as [|n]; [simpl in *; lia|]); cbn [read_elements].
  - apply Forall2_nil_inv_l in F as ->. cbn [more app] in E.
    rewrite (bind_ok _ _ _ _ _ (Hv false _ r (stops_white l _ _ El) E B)).
    rewrite (bind_ok _ _ _ _ _ (rbracket_token l s (finished _ _ _) Fl eq_refl)).
    cbv beta iota zeta.
    rewrite past_bind by done. cbv beta iota. cbn [type_].
    rewrite decide_True by auto. rewrite decide_True by done.
    rewrite mset_last by exact Fa. eexists. split; [done|]. done.
  - apply Forall2_cons_inv_l in F as (v' & vs' & Hv' & F & ->).
    assert (more (t' :: ts) ++ l ++ RBRACKET :: s = COMMA :: t' ++ more ts ++ l ++ RBRACKET :: s) as Em
      by (simpl; by rewrite <- app_assoc).
    rewrite (bind_ok _ _ _ _ _ (Hv false _ r (stops_more l (t' :: ts) _ _ El) E B)). rewrite Em.
    set (X := t' ++ more ts ++ l ++ RBRACKET :: s) in *.
    rewrite (bind_ok _ _ _ _ _ (comma_token [] X (finished (COMMA :: X) false r) ltac:(constructor) eq_refl)).
    cbv beta iota zeta.
    rewrite past_bind by done. cbv beta iota. cbn [type_].
    rewrite decide_True by auto. rewrite decide_False by done.
    rewrite mset_last by exact Fa.
    destruct (IH vs' t' v' n (index + 1) (a ++ [(index, v)])
                (set_current X (finished (COMMA :: X) false r)))
      as (r' & -> & N); [by constructor| |simpl in Hn; lia|done|done|].
    { unfold mkeys. rewrite fmap_app. apply Forall_app. split.
      - eapply Forall_impl; [exact Fa|]. simpl. lia.
      - repeat constructor. simpl. lia. }
    exists r'. split; [|done]. rewrite <- app_assoc. done.
Qed.

Lemma reads_array n l ts vs : Forall white l -> (exists l', l = NL :: l') -> vs <> [] ->
  Forall2 (reads n) ts vs ->
  reads (S n) (match ts with [] => [] | t :: ts => chr 91 :: t ++ more ts end ++ l ++ [RBRACKET])
    (arrayValue (number 0 vs)).
Proof.
  intros Fl El Hvs F root s r Hs E B. destruct F as [|t v ts vs Hv F]; [done|].
  rewrite <- !app_assoc in E. cbn [app] in E. rewrite <- !app_assoc in E.
  set (body := t ++ more ts ++ l ++ RBRACKET :: s) in *.
  assert (readToken r = Ok (true, {| type_ := tokenArrayBegin; start_ := chr 91 :: body; end_ := body |},
                            set_current body r)) as Et.
  { by apply (punct _ tokenArrayBegin []); [|done|constructor|]. }
  cbn [readValue]. rewrite (bind_ok _ _ _ _ _ (skipCommentTokens_token _ _ _ _ Et ltac:(done))).
  unfold mbind at 1, M_bind at 1, gets at 1. cbn [commentsBefore_ set_current]. rewrite B, decide_True by done.
  unfold mbind at 1, M_bind at 1, mret at 1, M_ret at 1. cbn [type_].
  set (r1 := set_current (skipSpaces body) (set_current body r)).
  assert (skipSpaces body <> [] /\ (length ts <= length (skipSpaces body))%nat) as [Hne Hlen].
  { unfold body. assert (exists c u, more ts ++ l ++ RBRACKET :: s = c :: u /\ skipSpaces (c :: u) = c :: u
      /\ (length ts <= length (c :: u))%nat \/ more ts = []) as (c & u & [(-> & Ec & Hu)|Em]).
    { destruct ts as [|t' ts]; [exists COMMA, []; by right|]. eexists _, _. left. split; [done|].
      split; [done|]. pose proof (length_more (t' :: ts)).
      transitivity (length (more (t' :: ts) ++ l ++ RBRACKET :: s)); [rewrite length_app; lia|done]. }
    - pose proof (length_skip_stop t c u Ec) as L. split; [intros E0; rewrite E0 in L; simpl in L; lia|lia].
    - rewrite Em. destruct ts as [|t' ts]; [|done]. cbn [app]. rewrite app_assoc.
      pose proof (length_skip_stop (t ++ l) RBRACKET s eq_refl) as L. simpl in L.
      split; [intros E0; rewrite E0 in L; simpl in L; lia|simpl; lia]. }
  assert (readArray (readValue n false) (set_current body r)
          = read_elements (readValue n false) (S (S (length (skipSpaces body)))) 0 [] r1) as Hra.
  { unfold readArray, turns, modify, gets, mbind, M_bind. cbn [current_ set_current].
    destruct (skipSpaces body) as [|c u] eqn:Eb; [done|].
    assert (is_char c "]" = false) as ->; [|done].
    unfold is_char. apply bool_decide_eq_false. intros [= ->].
    by apply (reads_not_rbracket n t v (more ts ++ l ++ RBRACKET :: s) u Hv (stops_more l ts _ _ El)). }
  assert (forall k, read_elements (readValue n false) (S k) 0 [] r1
                    = read_elements (readValue n false) (S k) 0 [] (set_current body r)) as Hsk.
  { intros k. cbn [read_elements]. unfold r1, mbind at 1 6, M_bind at 1 6.
    pose proof (readValue_skip n false (set_current body r)) as Q. cbn [current_ set_current] in Q.
    change (set_current (skipSpaces body) (set_current body r)) with (set_current (skipSpaces body) r) in *.
    by rewrite Q. }
  destruct (read_elements_ok n l s ts vs t v (S (S (length (skipSpaces body)))) 0 [] (set_current body r))
    as (r' & E' & N1 & N2 & N3); [done|done|by constructor|constructor|lia|done|done|].
  rewrite (bind_ok _ _ _ _ _ (eq_trans Hra (eq_trans (Hsk _) E'))).
  unfold modify, mbind, M_bind, mret, M_ret, finished. by rewrite N1, N2, N3.
Qed.

Definition reads_member (n : nat) (m : bytes) (p : bytes * Value) : Prop := exists l t,
  Forall white l /\ m = l ++ valueToQuotedStringN p.1 ++ bs " : " ++ t /\ is_utf8 p.1 /\ reads n t p.2.

Lemma sorted_before (o : list (bytes * Value)) k v o' : sorted_map (o ++ (k, v) :: o') ->
  Forall (fun j => klt j k) (mkeys o).
Proof.
  unfold sorted_map, mkeys. induction o as [|[j x] o IH]; simpl; [constructor|].
  inversion 1 as [|? ? S' F]; subst. constructor; [|by apply IH].
  rewrite fmap_app in F. apply Forall_app in F as [_ F]. by apply Forall_cons in F as [? _].
Qed.

(** The part of a member up to its value. *)
Lemma string_token l k s r : Forall white l -> is_utf8 k -> current_ r = l ++ valueToQuotedStringN k ++ s ->
  exists c u, valueToQuotedStringN k = QUOTE :: u /\ c = {| type_ := tokenString;
    start_ := valueToQuotedStringN k ++ s; end_ := s |} /\ readToken r = Ok (true, c, set_current s r)
  /\ decodeString (token_text c) = Some k.
Proof.
  intros F Hk E. destruct (quoted_roundtrip k s Hk) as (u & Eu & Er & Ed).
  eexists _, u. split; [done|]. split; [done|]. split.
  - rewrite (readToken_white l r (valueToQuotedStringN k ++ s)), Eu by done.
    rewrite (readToken_at _ QUOTE (u ++ s)) by done.
    unfold mbind at 1, M_bind at 1, readToken_char, gets at 1, mbind at 1, M_bind at 1.
    cbn [current_ set_current]. change (is_char QUOTE _) with false. cbn iota. by rewrite Er.
  - unfold token_text. cbn [start_ end_]. by rewrite between_app.
Qed.

Lemma read_members_ok m l s ts ps t k v n name o r :
  Forall white l -> (exists l', l = NL :: l') ->
  Forall2 (reads_member m) (t :: ts) ((k, v) :: ps) ->
  sorted_map (o ++ (k, v) :: ps) -> (length ts < n)%nat ->
  current_ r = t ++ more ts ++ l ++ RBRACE :: s -> commentsBefore_ r = [] ->
  exists r', read_members (readValue m false) n name o r
             = Ok (Some (objectValue (o ++ (k, v) :: ps)), r') /\ now s r r'.
Proof.
  intros Fl El. revert ps t k v n name o r.
  induction ts as [|t' ts IH]; intros ps t k v n name o r F So Hn E B;
    apply Forall2_cons in F as [(l1 & tv & F1 & -> & Hk & Hv) F];
    (destruct n as [|n]; [simpl in *; lia|]); cbn [read_members]; cbn [fst snd] in *;
    rewrite <- !app_assoc in E;
    destruct (string_token l1 k _ r F1 Hk E) as (c & u & _ & -> & Et & Ed);
    rewrite (bind_ok _ _ _ _ _ Et); cbv beta iota zeta; rewrite past_bind by done; cbv beta iota;
    cbn [negb type_]; (rewrite decide_False by (intros [? _]; done)); rewrite decide_True by done;
    rewrite Ed; cbv beta iota.
  - apply Forall2_nil_inv_l in F as ->. cbn [more app] in *.
    rewrite (bind_ok _ _ _ _ _ (colon_token (bs " ") (bs " " ++ tv ++ l ++ RBRACE :: s) (set_current _ r)
      ltac:(constructor; [by right; right; right|constructor]) eq_refl)).
    cbv beta iota zeta. rewrite decide_True by done.
    pose proof (reads_white m (bs " ") tv v ltac:(constructor; [by right; right; right|constructor]) Hv) as Hv'.
    rewrite (bind_ok _ _ _ _ _ (Hv' false _ (set_current (bs " " ++ tv ++ l ++ RBRACE :: s) (set_current _ r))
      (stops_white l _ _ El) eq_refl B)).
    cbv beta iota zeta.
    rewrite (bind_ok _ _ _ _ _ (rbrace_token l s (finished _ _ _) Fl eq_refl)). cbv beta iota zeta.
    cbn [type_]. rewrite decide_True by auto. rewrite past_bind by done. cbv beta iota. cbn [type_].
    rewrite decide_True by done. rewrite mset_last by (by eapply sorted_before).
    eexists. split; [done|]. done.
  - destruct ps as [|[k' v'] ps]; [by inversion F|].
    set (X := t' ++ more ts ++ l ++ RBRACE :: s).
    assert (more (t' :: ts) ++ l ++ RBRACE :: s = COMMA :: X) as Em by (simpl; by rewrite <- app_assoc).
    rewrite Em in *.
    rewrite (bind_ok _ _ _ _ _ (colon_token (bs " ") (bs " " ++ tv ++ COMMA :: X) (set_current _ r)
      ltac:(constructor; [by right; right; right|constructor]) eq_refl)).
    cbv beta iota zeta. rewrite decide_True by done.
    pose proof (reads_white m (bs " ") tv v ltac:(constructor; [by right; right; right|constructor]) Hv) as Hv'.
    rewrite (bind_ok _ _ _ _ _ (Hv' false (COMMA :: X) (set_current (bs " " ++ tv ++ COMMA :: X) (set_current _ r))
      ltac:(eexists _, _; split; [done|by left]) eq_refl B)).
    cbv beta iota zeta.
    rewrite (bind_ok _ _ _ _ _ (comma_token [] X (finished (COMMA :: X) _ _) ltac:(constructor) eq_refl)).
    cbv beta iota zeta. cbn [type_]. rewrite decide_True by auto. rewrite past_bind by done. cbv beta iota.
    cbn [type_]. rewrite decide_False by done. rewrite mset_last by (by eapply sorted_before).
    match goal with |- context [read_members _ n k _ ?r1] =>
      destruct (IH ps t' k' v' n k (o ++ [(k, v)]) r1) as (r' & -> & N) end;
      [done|by rewrite <- app_assoc|simpl in Hn; lia|done|done|].
    exists r'. rewrite <- app_assoc. done.
Qed.

Lemma reads_object n l ts o : Forall white l -> (exists l', l = NL :: l') -> o <> [] -> sorted_map o ->
  Forall2 (reads_member n) ts o ->
  reads (S n) (match ts with [] => [] | t :: ts => chr 123 :: t ++ more ts end ++ l ++ [RBRACE])
    (objectValue o).
Proof.
  intros Fl El Ho So F root s r Hs E B. destruct F as [|t [k v] ts ps Hv F]; [done|].
  rewrite <- !app_assoc in E. cbn [app] in E. rewrite <- !app_assoc in E.
  set (body := t ++ more ts ++ l ++ RBRACE :: s) in *.
  assert (readToken r = Ok (true, {| type_ := tokenObjectBegin; start_ := chr 123 :: body; end_ := body |},
                            set_current body r)) as Et.
  { by apply (punct _ tokenObjectBegin []); [|done|constructor|]. }
  cbn [readValue]. rewrite (bind_ok _ _ _ _ _ (skipCommentTokens_token _ _ _ _ Et ltac:(done))).
  unfold mbind at 1, M_bind at 1, gets at 1. cbn [commentsBefore_ set_current]. rewrite B, decide_True by done.
  unfold mbind at 1, M_bind at 1, mret at 1, M_ret at 1. cbn [type_].
  destruct (read_members_ok n l s ts ps t k v (S (S (length body))) [] [] (set_current body r))
    as (r' & E' & N1 & N2 & N3); [done|done|by constructor|done| |done|done|].
  { unfold body. rewrite !length_app. pose proof (length_more ts). lia. }
  rewrite (bind_ok _ _ _ _ _ (E' : readObject (readValue n false) (set_current body r) = _)).
  unfold modify, mbind, M_bind, mret, M_ret, finished. by rewrite N1, N2, N3.
Qed.

(** *** The empty ones *)

Lemma reads_empty_array n : reads (S n) (bs "[]") (arrayValue []).
Proof.
  intros root s r Hs E B.
  assert (readToken r = Ok (true, {| type_ := tokenArrayBegin; start_ := chr 91 :: RBRACKET :: s;
                                     end_ := RBRACKET :: s |}, set_current (RBRACKET :: s) r)) as Et.
  { by apply (punct _ tokenArrayBegin []); [|done|constructor|]. }
  cbn [readValue]. rewrite (bind_ok _ _ _ _ _ (skipCommentTokens_token _ _ _ _ Et ltac:(done))).
  unfold mbind at 1, M_bind at 1, gets at 1. cbn [commentsBefore_ set_current]. rewrite B, decide_True by done.
  unfold finished. rewrite <- B. reflexivity.
Qed.

Lemma reads_empty_object n : reads (S n) (bs "{}") (objectValue []).
Proof.
  intros root s r Hs E B.
  assert (readToken r = Ok (true, {| type_ := tokenObjectBegin; start_ := chr 123 :: RBRACE :: s;
                                     end_ := RBRACE :: s |}, set_current (RBRACE :: s) r)) as Et.
  { by apply (punct _ tokenObjectBegin []); [|done|constructor|]. }
  cbn [readValue]. rewrite (bind_ok _ _ _ _ _ (skipCommentTokens_token _ _ _ _ Et ltac:(done))).
  unfold mbind at 1, M_bind at 1, gets at 1. cbn [commentsBefore_ set_current]. rewrite B, decide_True by done.
  unfold finished. rewrite <- B. reflexivity.
Qed.

(** ** What the writer writes *)

(** Code that appends a text [t]. *)
Definition appends (w w' : Writer) (t : bytes) : Prop :=
  indentString_ w' = indentString_ w /\ sout_ w' = sout_ w ++ t.

Definition writes (n : nat) (v : Value) : Prop := forall w, Forall white (indentString_ w) ->
  exists t, appends w (writeValue v w) t /\ reads n t v
  /\ (indented_ w = false -> indented_ (writeValue v w) = false).

#[local] Arguments writeElement : simpl never.

Lemma white_line l : Forall white l -> Forall white (NL :: l).
Proof. intros. constructor; [by left|done]. Qed.

Lemma element_ok n x first w : writes n x -> Forall white (indentString_ w) -> indented_ w = false ->
  exists t, appends w (writeElement (writeValue x) first w) ((if first : bool then [] else [COMMA]) ++ t)
  /\ indented_ (writeElement (writeValue x) first w) = false /\ reads n t x.
Proof.
  intros Hx F I. unfold writeElement.
  set (w1 := set_indented true (writeIndent_unless (if first then w else output (bs ",") w))).
  assert (indentString_ w1 = indentString_ w /\ sout_ w1 = sout_ w ++ (if first then [] else [COMMA])
          ++ NL :: indentString_ w) as [E1 E2].
  { subst w1. destruct first; unfold writeIndent_unless; simpl; rewrite I; simpl; by rewrite <- ?app_assoc. }
  destruct (Hx w1) as (t & [E3 E4] & R & _); [by rewrite E1|].
  exists ((NL :: indentString_ w) ++ t). split; [|split; [done|by apply reads_white; [apply white_line|]]].
  split; simpl; [by rewrite E3|]. rewrite E4, E2. by rewrite <- !app_assoc.
Qed.

Lemma elements_ok n a index w : Forall (fun p => writes n p.2) a -> 0 < index ->
  mkeys a = seqZ index (len a) -> Forall white (indentString_ w) -> indented_ w = false ->
  exists ts, appends w (writeElements writeValue index a w) (more ts)
  /\ indented_ (writeElements writeValue index a w) = false /\ Forall2 (reads n) ts a.*2.
Proof.
  intros F. revert index w. induction F as [|[k x] a Hx F IH]; intros i w Hi E Fi I; simpl.
  { exists []. repeat split; [by rewrite app_nil_r|done|constructor]. }
  unfold mkeys in *. revert E. len. simpl. rewrite seqZ_cons by (pose proof (len_nonneg a); lia).
  replace (Z.pred (1 + len a)) with (len a) by lia. intros [= -> E].
  rewrite Z.sub_diag. change (Z.to_nat 0) with 0%nat. cbn [writeNulls]. replace (i =? 0) with false by lia.
  destruct (element_ok n x false w Hx Fi I) as (t & [E1 E2] & I' & R).
  set (w1 := writeElement (writeValue x) false w) in *.
  destruct (IH (i + 1) w1) as (ts & [E3 E4] & I2 & R2); [lia|done|by rewrite E1|done|].
  exists (t :: ts). split; [split|split; [done|by constructor]]; [by rewrite E3|].
  rewrite E4, E2. simpl. by rewrite <- !app_assoc.
Qed.

Lemma member_ok n p first w : is_utf8 p.1 -> writes n p.2 -> Forall white (indentString_ w) ->
  indented_ w = false ->
  exists t, let w' := writeValue p.2 (output colonSymbol_ (writeWithIndent (valueToQuotedStringN p.1)
                        (if first : bool then w else output (bs ",") w))) in
  appends w w' ((if first then [] else [COMMA]) ++ t) /\ indented_ w' = false /\ reads_member n t p.
Proof.
  intros Hk Hx F I.
  set (w1 := output _ _).
  assert (indentString_ w1 = indentString_ w /\ sout_ w1 = sout_ w ++ (if first then [] else [COMMA])
          ++ (NL :: indentString_ w) ++ valueToQuotedStringN p.1 ++ bs " : ") as [E1 E2].
  { subst w1. destruct first; unfold writeWithIndent, writeIndent_unless; simpl; rewrite I; simpl;
      by rewrite <- ?app_assoc. }
  destruct (Hx w1) as (t & [E3 E4] & R & I'); [by rewrite E1|].
  exists ((NL :: indentString_ w) ++ valueToQuotedStringN p.1 ++ bs " : " ++ t). split.
  - split; simpl; [by rewrite E3|]. rewrite E4, E2. by rewrite <- !app_assoc.
  - split; [by apply I'; subst w1|]. eexists (NL :: indentString_ w), t. split; [by apply white_line|]. done.
Qed.

Lemma members_ok n o w : Forall (fun p => is_utf8 p.1 /\ writes n p.2) o ->
  Forall white (indentString_ w) -> indented_ w = false ->
  exists ts, appends w (writeMembers writeValue false o w) (more ts)
  /\ indented_ (writeMembers writeValue false o w) = false /\ Forall2 (reads_member n) ts o.
Proof.
  intros F. revert w. induction F as [|[k x] o [Hk Hx] F IH]; intros w Fi I; simpl.
  { exists []. repeat split; [by rewrite app_nil_r|done|constructor]. }
  destruct (member_ok n (k, x) false w Hk Hx Fi I) as (t & [E1 E2] & I' & R). simpl in *.
  set (w1 := writeValue x _) in *.
  destruct (IH w1) as (ts & [E3 E4] & I2 & R2); [by rewrite E1|done|].
  exists (t :: ts). split; [split|split; [done|by constructor]]; [by rewrite E3|].
  rewrite E4, E2. simpl. by rewrite <- !app_assoc.
Qed.

(** An opening and a closing line around what [f] appends. *)
Lemma bracket_ok n v w (f : Writer -> Writer) (a b : byte) :
  Forall white (indentString_ w) ->
  (forall w1, indentString_ w1 = indentString_ w ++ indentation_ -> indented_ w1 = false ->
    exists body, appends w1 (f w1) body /\ indented_ (f w1) = false
    /\ (forall l, Forall white l -> (exists l', l = NL :: l') -> reads n (a :: body ++ l ++ [b]) v)) ->
  exists t, let w' := writeWithIndent [b] (unindent (f (indent (writeWithIndent [a] w)))) in
  appends w w' t /\ reads n t v /\ (indented_ w = false -> indented_ w' = false).
Proof.
  intros Fi Hf. set (w1 := indent (writeWithIndent [a] w)).
  assert (exists l, indentString_ w1 = indentString_ w ++ indentation_ /\ indented_ w1 = false
          /\ Forall white l /\ sout_ w1 = sout_ w ++ l ++ [a]) as (l & E1 & I1 & Fl & E2).
  { unfold w1, writeWithIndent, writeIndent_unless. destruct (indented_ w).
    - exists []. by repeat split.
    - exists (NL :: indentString_ w). repeat split; [by apply white_line|]. simpl. by rewrite <- app_assoc. }
  destruct (Hf w1 E1 I1) as (body & [E3 E4] & I2 & R).
  set (m := NL :: indentString_ w). exists (l ++ a :: body ++ m ++ [b]). split; [|split; [|done]].
  - unfold writeWithIndent, writeIndent_unless, unindent. simpl. rewrite I2. split; simpl; rewrite E3, E1.
    + rewrite length_app, Nat.add_sub. apply take_app_length.
    + rewrite length_app, Nat.add_sub, take_app_length, E4, E2. unfold m. by rewrite <- !app_assoc; simpl; rewrite <- ?app_assoc.
  - apply reads_white; [done|]. apply R; [by apply white_line|by eexists].
Qed.

Lemma printable_writes n v : printable n v -> writes n v.
Proof.
  revert v. induction n as [|n IH]; intros v Hv; [by inversion Hv|].
  pose proof (reads_scalar n v Hv) as Rs.
  inversion Hv as [|? b|? i Hi|? u Hu|? s Hs|? a Ea Fa|? o So Fo]; subst; intros w Fi;
    try (eexists; split; [|split; [exact Rs|]]; done).
  - destruct a as [|[k x] a].
    { exists (bs "[]"). split; [done|]. split; [apply reads_empty_array|done]. }
    assert (Forall (fun p => writes n p.2) ((k, x) :: a)) as F by (eapply Forall_impl; [exact Fa|]; auto).
    apply Forall_cons in F as [Hx F]. unfold mkeys in Ea. revert Ea. len. simpl.
    rewrite seqZ_cons by (pose proof (len_nonneg a); lia).
    replace (Z.pred (1 + len a)) with (len a) by lia. intros [= -> Ea].
    apply (bracket_ok (S n) _ w (writeElements writeValue 0 ((0, x) :: a)) (chr 91) RBRACKET Fi).
    intros w1 E1 I1.
    assert (Forall white (indentString_ w1)) as F1.
    { rewrite E1. apply Forall_app. split; [done|]. constructor; [by right; left|constructor]. }
    destruct (element_ok n x true w1 Hx F1 I1) as (t & [E2 E3] & I2 & R).
    set (w2 := writeElement (writeValue x) true w1) in *.
    destruct (elements_ok n a 1 w2 F) as (ts & [E4 E5] & I3 & R2); [done|done|by rewrite E2|done|].
    change (writeElements writeValue 0 ((0, x) :: a) w1) with (writeElements writeValue 1 a w2).
    exists (t ++ more ts). split; [|split; [done|]].
    + split; [by transitivity (indentString_ w2)|]. by rewrite E5, E3, <- app_assoc.
    + intros l Fl El.
      pose proof (reads_array n l (t :: ts) (x :: a.*2) Fl El ltac:(done) ltac:(by constructor)) as Q.
      rewrite <- (number_keys ((0, x) :: a) 0); [exact Q|].
      unfold mkeys. len. simpl. rewrite seqZ_cons by (pose proof (len_nonneg a); lia).
      replace (Z.pred (1 + len a)) with (len a) by lia. by rewrite Ea.
  - destruct o as [|[k x] o].
    { exists (bs "{}"). split; [done|]. split; [apply reads_empty_object|done]. }
    assert (Forall (fun p => is_utf8 p.1 /\ writes n p.2) ((k, x) :: o)) as F
      by (eapply Forall_impl; [exact Fo|]; intros ? [? ?]; auto).
    apply Forall_cons in F as [[Hk Hx] F].
    apply (bracket_ok (S n) _ w (writeMembers writeValue true ((k, x) :: o)) (chr 123) RBRACE Fi).
    intros w1 E1 I1.
    assert (Forall white (indentString_ w1)) as F1.
    { rewrite E1. apply Forall_app. split; [done|]. constructor; [by right; left|constructor]. }
    destruct (member_ok n (k, x) true w1 Hk Hx F1 I1) as (t & [E2 E3] & I2 & R). simpl in *.
    set (w2 := writeValue x _) in *.
    destruct (members_ok n o w2 F) as (ts & [E4 E5] & I3 & R2); [by rewrite E2|done|].
    change (writeMembers writeValue true ((k, x) :: o) w1) with (writeMembers writeValue false o w2).
    exists (t ++ more ts). split; [|split; [done|]].
    + split; [by transitivity (indentString_ w2)|]. by rewrite E5, E3, <- app_assoc.
    + intros l Fl El.
      exact (reads_object n l (t :: ts) ((k, x) :: o) Fl El ltac:(done) So ltac:(by constructor)).
Qed.

(** ** The theorem *)

(** A printable document is read back as it is. *)
Lemma printable_read v : printable stackLimit_g v -> reader_parse (toStyledString v) = Ok (Some (v, no_comments)).
Proof.
  intros Hv. cbn [reader_parse jsoncpp].
  change (toStyledString v) with (write no_comments v ++ [NL]).
  destruct (printable_writes _ _ Hv {| indentString_ := []; indented_ := true; sout_ := [] |}) as (t & [_ E] & R & _);
    [constructor|].
  change (write no_comments v) with
    (sout_ (writeValue v {| indentString_ := []; indented_ := true; sout_ := [] |})).
  rewrite E. cbn [sout_ app]. unfold parse.
  set (r := {| current_ := _ |}).
  assert (stops [NL]) as Hs by (eexists NL, []; split; [done|by right]).
  specialize (R true [NL] r Hs eq_refl eq_refl). rewrite R. reflexivity.
Qed.

(** ** Documents in general

    The reader tells integers apart by their size, not by the tag they were written with, and the
    writer prints a null for every index that an array lacks below its largest. *)

Definition read_number (z : Z) : Value := if decide (z <= INT_MAX) then intValue z else uintValue z.

Fixpoint nulls (i : Z) (n : nat) : list (Z * Value) :=
  match n with O => [] | S n => (i, nullValue) :: nulls (i + 1) n end.

Section fill.
Context (f : Value -> Value).

Fixpoint fill (i : Z) (a : list (Z * Value)) : list (Z * Value) :=
  match a with
  | [] => []
  | (k, x) :: a => nulls i (Z.to_nat (k - i)) ++ (k, f x) :: fill (k + 1) a
  end.
End fill.

(** What comes back. *)
Fixpoint read_back (v : Value) : Value :=
  match v with
  | intValue z | uintValue z => read_number z
  | arrayValue a => arrayValue (fill read_back 0 a)
  | objectValue o => objectValue ((fun p => (p.1, read_back p.2)) <$> o)
  | _ => v
  end.

(** Any document but for doubles: integers in either tag, and arrays with holes. *)
Inductive document : nat -> Value -> Prop :=
| dc_null n : document (S n) nullValue
| dc_bool n b : document (S n) (booleanValue b)
| dc_int n i : - 2 ^ 63 <= i < 2 ^ 63 -> document (S n) (intValue i)
| dc_uint n u : 0 <= u < 2 ^ 64 -> document (S n) (uintValue u)
| dc_string n s : is_utf8 s -> document (S n) (stringValue s)
| dc_array n a : Forall (fun k => 0 <= k < INT_MAX) (mkeys a) -> StronglySorted Z.lt (mkeys a) ->
    Forall (fun p => document n p.2) a -> document (S n) (arrayValue a)
| dc_object n o : sorted_map o -> Forall (fun p => is_utf8 p.1 /\ document n p.2) o ->
    document (S n) (objectValue o).

Lemma read_number_printable n z : - 2 ^ 63 <= z < 2 ^ 64 -> printable (S n) (read_number z).
Proof. intros H. unfold read_number. case_decide; constructor; lia. Qed.

Lemma nulls_ok n i (m : nat) : mkeys (nulls i m) = seqZ i (Z.of_nat m) /\ Forall (fun p => printable (S n) p.2) (nulls i m).
Proof.
  revert i. induction m as [|m IH]; intros i; [done|]. destruct (IH (i + 1)) as [E F]. cbn [nulls]. unfold mkeys in *. rewrite fmap_cons, E.
  split; [rewrite (seqZ_cons i) by lia; f_equal; f_equal; lia|constructor; [constructor|done]].
Qed.

Lemma holes_filled n f i a : Forall (fun k => i <= k) (mkeys a) -> StronglySorted Z.lt (mkeys a) ->
  Forall (fun p => printable n (f p.2)) a ->
  mkeys (fill f i a) = seqZ i (len (fill f i a)) /\ Forall (fun p => printable n p.2) (fill f i a).
Proof.
  revert i. induction a as [|[k x] a IH]; intros i Fk So F; [done|]. cbn [fill]. unfold mkeys in *. rewrite fmap_cons in *.
  apply Forall_cons in Fk as [Hk Fk], F as [Hx F]. apply StronglySorted_inv in So as [So Ha]. cbn [fst snd] in *.
  destruct (IH (k + 1)) as [E P]; [eapply Forall_impl; [exact Ha|]; cbv beta; lia|done|done|].
  destruct n as [|n]; [inversion Hx|]. destruct (nulls_ok n i (Z.to_nat (k - i))) as [En Pn]. unfold mkeys in En.
  split; [|apply Forall_app; split; [done|by constructor]].
  rewrite fmap_app, En, fmap_cons, E. cbn [fst]. len. simpl. len.
  assert (len (nulls i (Z.to_nat (k - i))) = k - i) as Ln.
  { unfold len. rewrite <- (length_fmap fst), En, length_seqZ. lia. }
  rewrite Ln, Z2Nat.id by lia. pose proof (len_nonneg (fill f (k + 1) a)).
  rewrite (seqZ_app i (k - i)) by lia. f_equal. rewrite (seqZ_cons (i + (k - i))) by lia. f_equal; [lia|f_equal; lia].
Qed.

Lemma read_back_printable n v : document n v -> printable n (read_back v).
Proof.
  revert v. induction n as [|n IH]; intros v Hv; [by inversion Hv|].
  inversion Hv as [|? b|? i Hi|? u Hu|? s Hs|? a Hk So Fa|? o So Fo]; subst; cbn [read_back]; try by constructor.
  - apply read_number_printable. lia.
  - apply read_number_printable. lia.
  - destruct (holes_filled n read_back 0 a) as [E P]; [eapply Forall_impl; [exact Hk|]; cbv beta; lia|done| |by constructor].
    eapply Forall_impl; [exact Fa|]. cbv beta. auto.
  - constructor.
    + unfold sorted_map, mkeys in *. by rewrite <- list_fmap_compose.
    + apply Forall_fmap. eapply Forall_impl; [exact Fo|]. intros p [? ?]. split; cbn; auto.
Qed.

(** *** The text is that of what comes back *)

Lemma writeElements_nulls i m rest w : 0 <= i ->
  writeElements writeValue i (nulls i m ++ rest) w
  = writeElements writeValue (i + Z.of_nat m) rest (writeNulls m (i =? 0) w).
Proof.
  revert i w. induction m as [|m IH]; intros i w Hi; [by rewrite Z.add_0_r|]. cbn [nulls app writeElements writeNulls].
  rewrite Z.sub_diag. change (Z.to_nat 0) with 0%nat. cbn [writeNulls]. rewrite IH by lia.
  replace (i + 1 =? 0) with false by lia. f_equal. lia.
Qed.

Lemma writeElements_fill i a w : 0 <= i -> Forall (fun k => i <= k) (mkeys a) -> StronglySorted Z.lt (mkeys a) ->
  Forall (fun p => forall w, writeValue (read_back p.2) w = writeValue p.2 w) a ->
  writeElements writeValue i (fill read_back i a) w = writeElements writeValue i a w.
Proof.
  revert i w. induction a as [|[k x] a IH]; intros i w Hi Fk So F; [done|]. unfold mkeys in *. rewrite fmap_cons in *.
  apply Forall_cons in Fk as [Hk Fk], F as [Hx F]. apply StronglySorted_inv in So as [So Ha]. cbn [fst snd fill] in *.
  rewrite writeElements_nulls by done. rewrite Z2Nat.id by lia. replace (i + (k - i)) with k by lia. cbn [writeElements].
  rewrite Z.sub_diag. change (Z.to_nat 0) with 0%nat. cbn [writeNulls].
  rewrite IH; [|lia|eapply Forall_impl; [exact Ha|]; cbv beta; lia|done|done].
  f_equal. unfold writeElement. by rewrite Hx.
Qed.

Lemma writeMembers_read_back first o w : Forall (fun p => forall w, writeValue (read_back p.2) w = writeValue p.2 w) o ->
  writeMembers writeValue first ((fun p => (p.1, read_back p.2)) <$> o) w = writeMembers writeValue first o w.
Proof.
  intros F. revert first w. induction F as [|[k x] o Hx F IH]; intros first w; [done|]. rewrite fmap_cons. cbn [writeMembers fst snd] in *.
  by rewrite Hx, IH.
Qed.

Lemma write_read_back n v : document n v -> forall w, writeValue (read_back v) w = writeValue v w.
Proof.
  revert v. induction n as [|n IH]; intros v Hv; [by inversion Hv|].
  inversion Hv as [|? b|? i Hi|? u Hu|? s Hs|? a Hk So Fa|? o So Fo]; subst; intros w; try done.
  - cbn [read_back]. unfold read_number. by case_decide.
  - cbn [read_back]. unfold read_number. by case_decide.
  - destruct a as [|[k x] a]; [done|]. cbn [read_back].
    assert (fill read_back 0 ((k, x) :: a) <> []) as Ne by (cbn [fill]; by destruct (nulls _ _)).
    pose proof (fun w => writeElements_fill 0 ((k, x) :: a) w ltac:(done)) as L.
    destruct (fill read_back 0 ((k, x) :: a)) as [|p l]; [done|]. unfold writeValue; fold writeValue.
    f_equal. f_equal. apply L; [eapply Forall_impl; [exact Hk|]; cbv beta; lia|done|].
    eapply Forall_impl; [exact Fa|]. cbv beta. auto.
  - destruct o as [|[k x] o]; [done|]. cbn [read_back]. rewrite fmap_cons. unfold writeValue; fold writeValue.
    f_equal. f_equal. rewrite <- (writeMembers_read_back true ((k, x) :: o)); [by rewrite fmap_cons|].
    eapply Forall_impl; [exact Fo|]. cbv beta. intros p [_ ?]. auto.
Qed.

(** C13: The reader takes back what the writer made, up to what the text does not tell. For every
    document nested at most a thousand deep that is made of null, booleans, integers of 64 bits,
    UTF-8 strings, arrays with indices below INT_MAX, and objects with UTF-8 names, [Reader::parse]
    of [toStyledString()] gives [read_back] of it: an integer comes back as a signed one if it is
    at most INT_MAX and as an unsigned one if it is greater, whatever it was, and the holes of an
    array come back as nulls. So the document itself comes back exactly if its integers have these
    tags and its arrays have no holes, which is what [printable] says. *)
Theorem document_roundtrip v : document stackLimit_g v ->
  reader_parse (toStyledString v) = Ok (Some (read_back v, no_comments))
  /\ (read_back v = v <-> printable stackLimit_g v).
Proof.
  intros Hv. assert (forall v', document stackLimit_g v' -> toStyledString (read_back v') = toStyledString v') as Es.
  { intros v' H'. change (toStyledString ?x) with (sout_ (writeValue x {| indentString_ := []; indented_ := true; sout_ := [] |}) ++ [NL]).
    by rewrite (write_read_back _ _ H'). }
  pose proof (printable_read _ (read_back_printable _ _ Hv)) as R. rewrite Es in R by done. split; [exact R|]. split.
  - intros <-. by apply read_back_printable.
  - intros P%printable_read. rewrite R in P. by injection P.
Qed.

(** A login response. *)
Definition sample_document : Value := objectValue
  [(bs "code", intValue 0);
   (bs "friends", arrayValue [(0, uintValue 3000000000); (1, arrayValue [])]);
   (bs "msg", stringValue (bs "a" ++ [QUOTE; NL]));
   (bs "ok", booleanValue true)].

Lemma ascii_utf8 s : forallb (fun b => b2z b <? 128) s = true -> is_utf8 s.
Proof.
  intros Hs. exists (b2z <$> s). induction s as [|b s IH]; [split; [constructor|done]|].
  simpl in Hs. apply andb_true_iff in Hs as [Hb Hs]. destruct (IH Hs) as [F E]. pose proof (b2z_range b). split.
  - rewrite fmap_cons. constructor; [unfold scalar; lia|done].
  - unfold utf8 in *. rewrite !fmap_cons. cbn [concat]. rewrite <- E. unfold codePointToUTF8.
    rewrite decide_True by lia. by rewrite z2b_b2z.
Qed.

Lemma sample_printable n : printable (S (S (S n))) sample_document.
Proof.
  constructor; [by repeat constructor|]. repeat constructor; try (apply ascii_utf8; reflexivity); unfold INT_MAX; lia.
Qed.

Lemma sample_is_document n : document (S (S (S n))) sample_document.
Proof.
  constructor; [by repeat constructor|]. repeat constructor; try (apply ascii_utf8; reflexivity); unfold INT_MAX; cbn; lia.
Qed.

(** The same with a number that has the other tag, and a hole. *)
Definition sparse_document : Value := objectValue
  [(bs "code", uintValue 0);
   (bs "friends", arrayValue [(1, intValue 3000000000)])].

Lemma document_roundtrip_witness :
  reader_parse (toStyledString sparse_document)
  = Ok (Some (objectValue [(bs "code", intValue 0);
                           (bs "friends", arrayValue [(0, nullValue); (1, uintValue 3000000000)])], no_comments))
  /\ reader_parse (toStyledString sample_document) = Ok (Some (sample_document, no_comments)).
Proof.
  split.
  - apply (document_roundtrip sparse_document).
    change stackLimit_g with (S (S (S 997))). constructor; [by repeat constructor|].
    constructor; [split; [by apply ascii_utf8|constructor; lia]|]. constructor; [|constructor].
    split; [by apply ascii_utf8|]. cbn [snd]. constructor.
    + by repeat constructor.
    + by repeat constructor.
    + constructor; [|constructor]. constructor. lia.
  - assert (document stackLimit_g sample_document) as Dc by exact (sample_is_document 997).
    destruct (document_roundtrip sample_document Dc) as [R Iff]. rewrite R.
    rewrite (proj2 Iff); [reflexivity|]. exact (sample_printable 997).
Defined.
