(* ===== verification/JsonTotal.v ===== *)
(** * The JSON reader always comes to an end

    Every loop of [Reader] takes a token, and so some of the text, each time round. All that can
    go wrong is the depth: a thousand and one open brackets throw. *)

From S2P Require Import Prelude Bytes Text StdMap Json JsonReader JsonWriter JsonStrings JsonRoundtrip.

(** ** Taking text *)

Lemma skipSpaces_length s : (length (skipSpaces s) <= length s)%nat.
Proof. induction s as [|c s IH]; [done|]. cbn [skipSpaces]. case_match; simpl in *; lia. Qed.

Lemma skip_digits_length s : (length (skip_digits s) <= length s)%nat.
Proof. induction s as [|c s IH]; [done|]. cbn [skip_digits]. case_match; simpl in *; lia. Qed.

Lemma readNumber_length s : (length (readNumber s) <= length s)%nat.
Proof.
  unfold readNumber. pose proof (skip_digits_length s) as H. destruct (skip_digits s) as [|c s1]; [simpl in *; lia|].
  assert (length (if is_char c "." then skip_digits s1 else c :: s1) <= length s)%nat as H1.
  { destruct (is_char c "."); [|done]. pose proof (skip_digits_length s1). simpl in *. lia. }
  destruct (if is_char c "." then skip_digits s1 else c :: s1) as [|e s2]; [simpl in *; lia|].
  destruct (is_char e "e" || is_char e "E"); [|done].
  destruct s2 as [|d s3]; [simpl in *; lia|].
  destruct (is_char d "+" || is_char d "-").
  - pose proof (skip_digits_length s3). simpl in *. lia.
  - pose proof (skip_digits_length (d :: s3)). simpl in *. lia.
Qed.

(** Induction on the length of a text. *)
Lemma length_ind (P : bytes -> Prop) :
  (forall s, (forall s', (length s' < length s)%nat -> P s') -> P s) -> forall s, P s.
Proof. intros H s. induction s as [s IH] using (well_founded_induction (well_founded_ltof _ length)). auto. Qed.

Lemma readString_length s : (length (readString s).2 <= length s)%nat.
Proof.
  induction s as [s IH] using length_ind. destruct s as [|c s]; [done|]. cbn [readString].
  case_decide.
  - destruct s as [|d s]; simpl in *; [lia|]. specialize (IH s). lia.
  - case_decide; simpl in *; [lia|]. specialize (IH s). lia.
Qed.

Lemma to_comment_end_length s : (length (to_comment_end s) <= length s)%nat.
Proof.
  induction s as [|c s IH]; [done|]. cbn [to_comment_end]. destruct s as [|d s]; [done|].
  destruct (is_char c "*" && is_char d "/"); simpl in *; lia.
Qed.

Lemma getNextChar_length s : (length (getNextChar s).2 <= length s)%nat.
Proof. destruct s; simpl; lia. Qed.

Lemma readCppStyleComment_length s : (length (readCppStyleComment s) <= length s)%nat.
Proof.
  induction s as [|c s IH]; [done|]. cbn [readCppStyleComment]. case_decide; [simpl; lia|].
  case_decide; [|simpl; lia]. destruct s as [|d s]; [simpl; lia|]. case_decide; simpl; lia.
Qed.

(** ** Code that takes no text back *)

Definition left_ (r : Reader) : nat := length (current_ r).

(** From [n] characters left, [m] ends with at most [k] and a result in [Q], or throws for the
    depth. *)
Definition takes {A} (m : R A) (n : nat) (Q : A -> nat -> Prop) : Prop := forall r, left_ r = n ->
  match m r with
  | Ok (a, r') => Q a (left_ r')
  | Throw e => e = JsonRuntimeError
  | Undef _ => False
  end.

Lemma takes_bind {A B} (m : R A) (k : A -> R B) n Q Q' :
  takes m n Q -> (forall a n', Q a n' -> takes (k a) n' Q') -> takes (m ≫= k) n Q'.
Proof.
  intros Hm Hk r Hr. unfold mbind, M_bind. specialize (Hm r Hr).
  destruct (m r) as [[a r']| |]; [|done..]. by apply (Hk a (left_ r')).
Qed.

Lemma takes_ret {A} (a : A) n (Q : A -> nat -> Prop) : Q a n -> takes (mret a) n Q.
Proof. intros H r <-. done. Qed.

Lemma takes_weaken {A} (m : R A) n (Q Q' : A -> nat -> Prop) :
  takes m n Q -> (forall a k, Q a k -> Q' a k) -> takes m n Q'.
Proof. intros H HQ r Hr. specialize (H r Hr). destruct (m r) as [[a r']| |]; auto. Qed.

Lemma takes_current n (Q : bytes -> nat -> Prop) :
  (forall s, length s = n -> Q s n) -> takes (gets current_) n Q.
Proof. intros H r <-. by apply H. Qed.

Lemma takes_gets {A} (f : Reader -> A) n (Q : A -> nat -> Prop) :
  (forall a, Q a n) -> takes (gets f) n Q.
Proof. intros H r <-. apply H. Qed.

Lemma takes_set_current s n (Q : unit -> nat -> Prop) : Q tt (length s) -> takes (modify (set_current s)) n Q.
Proof. intros H r _. done. Qed.

Lemma takes_modify f n (Q : unit -> nat -> Prop) :
  (forall r, current_ (f r) = current_ r) -> Q tt n -> takes (modify f) n Q.
Proof. intros Hf H r <-. unfold modify, left_. rewrite Hf. exact H. Qed.

Definition le_ {A} (n : nat) : A -> nat -> Prop := fun _ k => (k <= n)%nat.

(** ** Tokens *)

Lemma readComment_takes begin n : takes (readComment begin) n (le_ n).
Proof.
  unfold readComment. eapply takes_bind.
  { apply (takes_current n (fun s k => length s = n /\ k = n)). done. }
  intros s n' [Hs ->]. pose proof (getNextChar_length s). destruct (getNextChar s) as [c s1]. simpl in *.
  destruct (if is_char c "*" then _ else _) as [ok s2] eqn:E.
  assert (length s2 <= n)%nat as H2.
  { destruct (is_char c "*"); [|destruct (is_char c "/")].
    - unfold readCStyleComment in E. pose proof (getNextChar_length (to_comment_end s1)).
      destruct (getNextChar (to_comment_end s1)) as [c' s3]. injection E as _ <-.
      pose proof (to_comment_end_length s1). simpl in *. lia.
    - injection E as _ <-. pose proof (readCppStyleComment_length s1). lia.
    - injection E as _ <-. lia. }
  eapply takes_bind; [by apply (takes_set_current s2 _ (fun _ k => k = length s2))|].
  intros [] ? ->. destruct ok; [|by apply takes_ret; unfold le_; lia].
  eapply takes_bind; [by apply (takes_gets _ _ (fun _ k => k = length s2))|].
  intros e ? ->. apply (takes_bind _ _ _ (fun _ k => k = length s2)); [|intros ? ? ->; by apply takes_ret].
  match goal with |- takes (addComment _ ?b) _ _ => generalize b as same_line end. intros same_line.
  unfold addComment. apply (takes_modify _ _ (fun _ k => k = length s2)); [|done].
  intros r. destruct same_line; [by destruct (lastValue_ r)|done].
Qed.

Lemma keyword_takes p t n : takes (keyword p t) n (le_ n).
Proof.
  unfold keyword. eapply takes_bind.
  { apply (takes_current n (fun s k => length s = n /\ k = n)). done. }
  intros s n' [Hs ->]. unfold match_. case_decide; [|by apply takes_ret; unfold le_].
  eapply takes_bind; [by apply (takes_set_current _ _ (fun _ k => k = length (drop (length (bs p)) s)))|].
  intros [] ? ->. apply takes_ret. unfold le_. rewrite length_drop. lia.
Qed.

Lemma readToken_char_takes c begin n :
  takes (readToken_char c begin) n (fun _ k => (k <= n)%nat).
Proof.
  unfold readToken_char. eapply takes_bind.
  { apply (takes_current n (fun s k => length s = n /\ k = n)). done. }
  intros s n' [Hs ->].
  repeat match goal with
  | |- takes (if ?b then _ else _) _ _ => destruct b
  | |- takes (mret _) _ _ => apply takes_ret; lia
  | |- takes (keyword _ _) _ _ => apply keyword_takes
  end.
  - pose proof (readString_length s). destruct (readString s) as [ok s1]. simpl in *.
    eapply takes_bind; [by apply (takes_set_current s1 _ (fun _ k => k = length s1))|].
    intros [] ? ->. apply takes_ret. lia.
  - eapply takes_bind; [apply readComment_takes|]. intros ok k Hk. by apply takes_ret.
  - eapply takes_bind; [by apply (takes_set_current _ _ (fun _ k => k = length (readNumber s)))|].
    intros [] ? ->. apply takes_ret. pose proof (readNumber_length s). lia.
Qed.

(** A token takes at least a character, and at the end of the text it is the end. *)
Lemma readToken_takes n :
  takes readToken n (fun p k => (k < n)%nat \/ (k = n /\ p.1 = true /\ type_ p.2 = tokenEndOfStream)).
Proof.
  unfold readToken. eapply takes_bind.
  { apply (takes_current n (fun s k => length s = n /\ k = n)). done. }
  intros s n' [Hs ->]. pose proof (skipSpaces_length s). destruct (skipSpaces s) as [|c s1] eqn:E.
  - simpl. eapply takes_bind; [by apply (takes_set_current [] _ (fun _ k => k = 0%nat))|].
    intros [] ? -> r Hr. unfold left_ in *. destruct n as [|n]; [right|left; simpl in *; lia].
    by destruct r as [[|? ?] ? ? ? ?].
  - simpl. eapply takes_bind; [by apply (takes_set_current s1 _ (fun _ k => k = length s1))|].
    intros [] ? ->. eapply takes_bind; [apply readToken_char_takes|].
    intros [ok t] k Hk. eapply takes_bind; [by apply (takes_gets _ _ (fun _ j => j = k))|].
    intros e ? ->. apply takes_ret. simpl in *. lia.
Qed.

Lemma past_comments_takes n ok tok k : (S k < n)%nat ->
  takes (past_comments n ok tok) k (le_ k).
Proof.
  revert ok tok k. induction n as [|n IH]; intros ok tok k Hk; [lia|]. cbn [past_comments].
  case_decide as Ht; [|by apply takes_ret; unfold le_].
  destruct ok; [|by apply takes_ret; unfold le_].
  eapply takes_bind; [apply readToken_takes|]. intros [ok tok'] j [Hj|(-> & _ & Hj)].
  - eapply takes_weaken; [apply IH; lia|]. unfold le_. lia.
  - destruct n as [|n]; [lia|].
    simpl in Hj. cbn [past_comments]. rewrite decide_False by congruence. by apply takes_ret; unfold le_.
Qed.

Lemma takes_turns {A} (f : nat -> R A) k Q : takes (f (S (S k))) k Q -> takes (turns f) k Q.
Proof. intros H r <-. by apply H. Qed.

Lemma turns_past_takes ok tok k : takes (turns (fun n => past_comments n ok tok)) k (le_ k).
Proof. apply takes_turns, past_comments_takes. lia. Qed.

Lemma recover_takes n t k : (k < n)%nat -> takes (recover n t) k (le_ k).
Proof.
  revert k. induction n as [|n IH]; intros k Hk; [lia|]. cbn [recover].
  eapply takes_bind; [apply readToken_takes|]. intros [ok tok] j [Hj|(-> & _ & Hj)].
  - case_decide; [apply takes_ret; unfold le_; lia|].
    eapply takes_weaken; [apply IH; lia|]. unfold le_. lia.
  - rewrite decide_True by auto. by apply takes_ret; unfold le_.
Qed.

Lemma recoverFromError_takes {A} t k : takes (recoverFromError t : R (option A)) k (le_ k).
Proof.
  eapply takes_bind; [apply takes_turns, recover_takes; lia|]. intros [] j Hj. by apply takes_ret.
Qed.

Lemma skipCommentTokens_takes k : takes skipCommentTokens k (le_ k).
Proof.
  eapply takes_bind; [apply readToken_takes|]. intros [ok tok] j Hj.
  eapply takes_bind; [apply turns_past_takes|]. intros [? t] i Hi. apply takes_ret. unfold le_ in *. lia.
Qed.

(** Takes at most what is left, from anywhere. *)
Definition ends {A} (m : R A) : Prop := forall k, takes m k (le_ k).

Lemma le_trans {A} (m : R A) j k : takes m j (le_ j) -> (j <= k)%nat -> takes m j (le_ k).
Proof. intros H Hj. eapply takes_weaken; [exact H|]. unfold le_. lia. Qed.

Section containers.
Context (readValue : R (option Value)) (Hv : ends readValue).

Lemma read_members_takes n name o k : (k < n)%nat ->
  takes (read_members readValue n name o) k (le_ k).
Proof.
  revert name o k. induction n as [|n IH]; intros name o k Hk; [lia|]. cbn [read_members].
  eapply takes_bind; [apply readToken_takes|]. intros [ok tok] j Hj. cbn [fst snd] in Hj.
  assert (j <= k)%nat as Hjk by lia.
  destruct ok; [|apply le_trans; [apply recoverFromError_takes|done]].
  destruct Hj as [Hj|(-> & _ & Ht)].
  2: { eapply takes_bind; [apply (takes_turns _ _ (fun p i => i = k /\ p = (true, tok)))|].
       - cbn [past_comments]. rewrite decide_False by congruence. by apply takes_ret.
       - intros [ok t] i [-> [= -> ->]]. cbn [negb]. rewrite !(decide_False (P := _ = _ /\ _)) by (intros [? _]; congruence).
         rewrite decide_False by congruence. apply recoverFromError_takes. }
  eapply takes_bind; [apply turns_past_takes|]. intros [ok1 tok1] i Hi. unfold le_ in Hi.
  destruct (negb ok1); [apply le_trans; [apply recoverFromError_takes|lia]|].
  case_decide; [apply takes_ret; unfold le_; lia|].
  case_decide; [|apply le_trans; [apply recoverFromError_takes|lia]].
  destruct (decodeString _) as [name'|]; [|apply le_trans; [apply recoverFromError_takes|lia]].
  eapply takes_bind; [apply readToken_takes|]. intros [ok2 colon] i2 Hi2.
  assert (i2 < k)%nat as Hi2' by lia.
  case_decide; [|apply le_trans; [apply recoverFromError_takes|lia]].
  eapply takes_bind; [apply Hv|]. intros [value|] i3 Hi3; unfold le_ in Hi3;
    [|apply le_trans; [apply recoverFromError_takes|lia]].
  eapply takes_bind; [apply readToken_takes|]. intros [ok4 comma] i4 Hi4.
  assert (i4 < k)%nat as Hi4' by lia.
  case_decide; [|apply le_trans; [apply recoverFromError_takes|lia]].
  eapply takes_bind; [apply turns_past_takes|]. intros [ok5 comma5] i5 Hi5. unfold le_ in Hi5.
  case_decide; [apply takes_ret; unfold le_; lia|].
  eapply takes_weaken; [apply IH; lia|]. unfold le_. lia.
Qed.

Lemma read_elements_takes n index a k : (k < n)%nat ->
  takes (read_elements readValue n index a) k (le_ k).
Proof.
  revert index a k. induction n as [|n IH]; intros index a k Hk; [lia|]. cbn [read_elements].
  eapply takes_bind; [apply Hv|]. intros [value|] j Hj; unfold le_ in Hj;
    [|apply le_trans; [apply recoverFromError_takes|lia]].
  eapply takes_bind; [apply readToken_takes|]. intros [ok tok] i Hi.
  assert (i <= k)%nat by lia. destruct Hi as [Hi|(-> & _ & Ht)].
  - eapply takes_bind; [apply turns_past_takes|]. intros [ok1 tok1] i1 Hi1. unfold le_ in Hi1.
    case_decide; [|apply le_trans; [apply recoverFromError_takes|lia]].
    case_decide; [apply takes_ret; unfold le_; lia|].
    eapply takes_weaken; [apply IH; lia|]. unfold le_. lia.
  - eapply takes_bind; [apply (takes_turns _ _ (fun p i => i = j /\ p = (ok, tok)))|].
    + cbn [past_comments fst snd] in *. rewrite decide_False by congruence. by apply takes_ret.
    + intros [ok1 tok1] i [-> [= -> ->]]. cbn [fst snd] in *. rewrite decide_False by (intros [_ [?|?]]; congruence).
      apply le_trans; [apply recoverFromError_takes|lia].
Qed.

Lemma readArray_takes : ends (readArray readValue).
Proof.
  intros k. unfold readArray. apply (takes_bind _ _ _ (le_ k)).
  { intros r <-. unfold modify, le_, left_. apply skipSpaces_length. }
  intros [] j Hj. apply (takes_bind _ _ _ (fun s i => length s = i /\ i = j)).
  { by apply takes_current. }
  unfold le_ in Hj. intros s i [Hs ->].
  assert (takes (turns (fun n => read_elements readValue n 0 [])) j (le_ k)) as T.
  { apply takes_turns. eapply takes_weaken; [apply read_elements_takes; lia|]. unfold le_. lia. }
  destruct s as [|c s]; [done|]. destruct (is_char c "]"); [|done].
  eapply takes_bind; [apply readToken_takes|]. intros p i Hi. apply takes_ret. unfold le_.
  destruct Hi as [?|[? _]]; lia.
Qed.
End containers.

Lemma readValue_takes n root : ends (readValue n root).
Proof.
  revert root. induction n as [|n IH]; intros root k; [by intros r _|]. cbn [readValue].
  eapply takes_bind; [apply skipCommentTokens_takes|]. intros token j Hj. unfold le_ in Hj.
  apply (takes_bind _ _ _ (fun _ i => i = j)); [by apply takes_gets|]. intros before ? ->.
  apply (takes_bind _ _ _ (fun _ i => i = j)).
  { case_decide; [by apply takes_ret|]. apply takes_modify; [|done]. intros r. by destruct root. }
  intros [] ? ->.
  assert (forall (v : option Value) i, (i <= k)%nat -> takes (_ ← modify (fun r => {| current_ := current_ r;
    commentsBefore_ := commentsBefore_ r; lastValueEnd_ := Some (current_ r); lastValue_ := root;
    rootComments := rootComments r |}); mret v : R (option Value)) i (le_ k)) as D.
  { intros v i Hi. apply (takes_bind _ _ _ (fun _ h => h = i)); [by apply takes_modify|].
    intros [] ? ->. by apply takes_ret. }
  destruct (type_ token); try (apply takes_ret; unfold le_; lia); try (by apply D).
  - eapply takes_bind; [apply takes_turns, read_members_takes; [apply IH|lia]|].
    intros v i Hi. apply D. unfold le_ in Hi. lia.
  - eapply takes_bind; [apply readArray_takes, IH|]. intros v i Hi. apply D. unfold le_ in Hi. lia.
Qed.


(** ** Depth *)

Definition LBRACKET : byte := chr 91.

Lemma lbracket_token r s : current_ r = LBRACKET :: s ->
  readToken r = Ok (true, {| type_ := tokenArrayBegin; start_ := LBRACKET :: s; end_ := s |}, set_current s r).
Proof. intros E. by apply (punct _ tokenArrayBegin []); [|done|constructor|]. Qed.

Lemma open_brackets n root r s : current_ r = replicate (S n) LBRACKET ++ s -> commentsBefore_ r = [] ->
  readValue n root r = Throw JsonRuntimeError.
Proof.
  revert root r. induction n as [|n IH]; intros root r E B; [done|].
  set (body := replicate (S n) LBRACKET ++ s).
  pose proof (lbracket_token r body E) as Et.
  cbn [readValue]. rewrite (bind_ok _ _ _ _ _ (skipCommentTokens_token _ _ _ _ Et ltac:(done))).
  unfold mbind at 1, M_bind at 1, gets at 1. cbn [commentsBefore_ set_current]. rewrite B, decide_True by done.
  unfold mbind at 1, M_bind at 1, mret at 1, M_ret at 1. cbn [type_].
  assert (readArray (readValue n false) (set_current body r) = Throw JsonRuntimeError) as Hr.
  { unfold readArray, turns, modify, gets, mbind, M_bind. cbn [current_ set_current].
    assert (skipSpaces body = body) as -> by done. unfold body at 1. cbn [replicate app].
    change (is_char LBRACKET "]") with false. cbn iota. cbn [read_elements].
    unfold mbind, M_bind. by rewrite IH. }
  unfold mbind, M_bind. by rewrite Hr.
Qed.

(** A message that opens a thousand and one brackets makes [Reader::parse] throw, whatever
    follows; no handler catches it. *)
Theorem deep_nesting_throws rest :
  parse (replicate 1001 LBRACKET ++ rest) = Throw JsonRuntimeError.
Proof.
  unfold parse.
  by rewrite (open_brackets stackLimit_g true {| current_ := replicate 1001 LBRACKET ++ rest |} rest).
Qed.
