(* ===== verification/Field.v ===== *)
(** * Field (Field.h, Field.cpp)

    One column of a row of a result set: its text, and the numbers read out of it. *)

From S2P Require Import Prelude Bytes Text.

Inductive DataTypes :=
| ENY_TYPE_NONE
| ENY_TYPE_STRING
| ENY_TYPE_INTEGER
| ENY_TYPE_FLOAT
| ENY_TYPE_BOOL
| ENY_TYPE_NULL.

Record Field := {
  m_value : bytes;
  m_name : bytes;
  m_type : DataTypes;
  m_isNull : bool;
}.

Definition Field_new : Field :=
  {| m_value := []; m_name := []; m_type := ENY_TYPE_NULL; m_isNull := true |}.

Definition SetType (tp : DataTypes) (f : Field) : Field :=
  {| m_value := m_value f; m_name := m_name f; m_type := tp; m_isNull := m_isNull f |}.
Definition GetType (f : Field) : DataTypes := m_type f.

Definition SetName (name : bytes) (f : Field) : Field :=
  {| m_value := m_value f; m_name := name; m_type := m_type f; m_isNull := m_isNull f |}.
Definition GetName (f : Field) : bytes := m_name f.

(** [SetValue]: [None] is the null pointer; the length is that of the value. An empty value
    counts as null. *)
Definition SetValue (value : option bytes) (f : Field) : Field :=
  match value with
  | Some (b :: l) =>
      {| m_value := b :: l; m_name := m_name f; m_type := m_type f; m_isNull := false |}
  | _ => {| m_value := []; m_name := m_name f; m_type := m_type f; m_isNull := true |}
  end.

Definition GetValue (f : Field) : bytes := m_value f.
Definition GetString (f : Field) : bytes := m_value f.
Definition isNull (f : Field) : bool := m_isNull f.

Definition toBool (f : Field) : bool := negb (atoi (c_str (m_value f)) =? 0).
Definition toInt8 (f : Field) : Z := to_i 8 (atoi (c_str (m_value f))).
Definition toUInt8 (f : Field) : Z := to_u 8 (to_i 8 (atoi (c_str (m_value f)))).
Definition toInt32 (f : Field) : Z := atoi (c_str (m_value f)).
Definition toUInt32 (f : Field) : Z := to_u32 (atoi (c_str (m_value f))).
Definition toInt64 (f : Field) : Z := atoll (c_str (m_value f)).
Definition toUInt64 (f : Field) : Z := to_u64 (atoll (c_str (m_value f))).

(** The numbers the server stores as decimal text come back. *)
Lemma GetString_SetValue v f : GetString (SetValue v f) = default [] v.
Proof. by destruct v as [[|b l]|]. Qed.

Lemma toInt32_text f s : m_value f = s -> toInt32 f = atoi (c_str s).
Proof. by intros <-. Qed.

Lemma toInt32_to_dec f z : is_i32 z -> m_value f = to_dec z -> toInt32 f = z.
Proof.
  intros Hz E. rewrite (toInt32_text f _ E), c_str_id; [by apply atoi_to_dec|].
  apply to_dec_no_nul. rewrite is_i64_lit. unfold is_i32, INT_MIN, INT_MAX in Hz. lia.
Qed.
