(* ===== verification/QueryResult.v ===== *)
(** * QueryResult (QueryResult.h, QueryResult.cpp)

    A cursor over a stored result set of the MySQL client library. *)

From S2P Require Import Prelude Bytes Field.

(** ** What the client library hands over *)

(** [enum_field_types], as far as [toEDYType] tells them apart. *)
Inductive enum_field_types :=
| FIELD_TYPE_TIMESTAMP | FIELD_TYPE_DATE | FIELD_TYPE_TIME | FIELD_TYPE_DATETIME
| FIELD_TYPE_YEAR | FIELD_TYPE_STRING | FIELD_TYPE_VAR_STRING | FIELD_TYPE_BLOB
| FIELD_TYPE_SET | FIELD_TYPE_NULL | FIELD_TYPE_TINY | FIELD_TYPE_SHORT | FIELD_TYPE_LONG
| FIELD_TYPE_LONGLONG | FIELD_TYPE_INT24 | FIELD_TYPE_ENUM | FIELD_TYPE_DECIMAL
| FIELD_TYPE_FLOAT | FIELD_TYPE_DOUBLE | FIELD_TYPE_other.

Abbreviation row := (list (option bytes)).

(** A stored result: its columns and the rows [mysql_fetch_row] has yet to return. *)
Record MYSQL_RES := {
  res_fields : list (bytes * enum_field_types);
  res_rows : list row;
}.

(** ** The cursor *)

(** [m_CurrentRow] is a vector: [clear()] destroys its elements and keeps its memory, so its
    capacity is part of the state. [None] is the null [m_result]. *)
Record QueryResult := {
  m_CurrentRow : list Field;
  row_capacity : nat;
  m_vecFieldName : list bytes;
  m_result : option MYSQL_RES;
  m_rowcount : Z;
  m_cloumncout : Z;
}.

Definition toEDYType (t : enum_field_types) : DataTypes :=
  match t with
  | FIELD_TYPE_TIMESTAMP | FIELD_TYPE_DATE | FIELD_TYPE_TIME | FIELD_TYPE_DATETIME
  | FIELD_TYPE_YEAR | FIELD_TYPE_STRING | FIELD_TYPE_VAR_STRING | FIELD_TYPE_BLOB
  | FIELD_TYPE_SET => ENY_TYPE_STRING
  | FIELD_TYPE_NULL => ENY_TYPE_NULL
  | FIELD_TYPE_TINY | FIELD_TYPE_SHORT | FIELD_TYPE_LONG | FIELD_TYPE_LONGLONG
  | FIELD_TYPE_INT24 | FIELD_TYPE_ENUM => ENY_TYPE_INTEGER
  | FIELD_TYPE_DECIMAL | FIELD_TYPE_FLOAT | FIELD_TYPE_DOUBLE => ENY_TYPE_FLOAT
  | FIELD_TYPE_other => ENY_TYPE_NONE
  end.

Definition EndQuery (q : QueryResult) : QueryResult :=
  {| m_CurrentRow := []; row_capacity := row_capacity q; m_vecFieldName := [];
     m_result := None; m_rowcount := 0; m_cloumncout := 0 |}.

(** The loops over the columns; a row shorter than the column count would be read past its
    end. *)
Fixpoint set_values (r : row) (fs : list Field) : outcome (list Field) :=
  match fs, r with
  | [], _ => Ok []
  | _ :: _, [] => Undef OutOfBounds
  | f :: fs', v :: r' => l ← set_values r' fs'; mret (SetValue v f :: l)
  end.

Fixpoint set_columns (cols : list (bytes * enum_field_types)) (fs : list Field)
    : outcome (list Field) :=
  match fs, cols with
  | [], _ => Ok []
  | _ :: _, [] => Undef OutOfBounds
  | f :: fs', (name, tp) :: cols' =>
      l ← set_columns cols' fs';
      mret (SetName name (SetType (toEDYType tp) f) :: l)
  end.

(** The constructor. *)
Definition QueryResult_new (result : option MYSQL_RES) (rowcount cloumncout : Z)
    : outcome QueryResult :=
  match result with
  | None => Undef NullDeref      (* mysql_fetch_fields(nullptr) *)
  | Some res =>
      let n := Z.to_nat cloumncout in
      let q rows cur := {| m_CurrentRow := cur; row_capacity := n;
        m_vecFieldName := take n (res_fields res).*1;
        m_result := Some {| res_fields := res_fields res; res_rows := rows |};
        m_rowcount := rowcount; m_cloumncout := cloumncout |} in
      match res_rows res with
      | [] => Ok (EndQuery (q [] (replicate n Field_new)))
      | r :: rows =>
          fs ← set_columns (res_fields res) (replicate n Field_new);
          fs ← set_values r fs;
          mret (q rows fs)
      end
  end.

Definition NextRow (q : QueryResult) : outcome (bool * QueryResult) :=
  match m_result q with
  | None => Ok (false, q)
  | Some res =>
      match res_rows res with
      | [] => Ok (false, EndQuery q)
      | r :: rows =>
          fs ← set_values r (m_CurrentRow q);
          mret (true,
            {| m_CurrentRow := fs; row_capacity := row_capacity q;
               m_vecFieldName := m_vecFieldName q;
               m_result := Some {| res_fields := res_fields res; res_rows := rows |};
               m_rowcount := m_rowcount q; m_cloumncout := m_cloumncout q |})
      end
  end.

(** [Fetch() == nullptr]: [data()] is null only for a vector that never had memory. *)
Definition Fetch_null (q : QueryResult) : bool := (row_capacity q =? 0)%nat.

(** [Fetch()[i]]: past the live elements there is memory without an object, or none at all. *)
Definition field_at (q : QueryResult) (i : nat) : outcome Field :=
  match m_CurrentRow q !! i with
  | Some f => Ok f
  | None => if decide (i < row_capacity q)%nat then Undef Dangling else Undef OutOfBounds
  end.

Definition GetFieldCount (q : QueryResult) : Z := m_cloumncout q.
Definition GetRowCount (q : QueryResult) : Z := m_rowcount q.
Definition GetFieldName (q : QueryResult) : list bytes := m_vecFieldName q.

Fixpoint index_of (name : bytes) (i : Z) (l : list bytes) : Z :=
  match l with
  | [] => -1
  | x :: l' => if decide (x = name) then i else index_of name (i + 1) l'
  end.

Definition GetFieldIndexByName (q : QueryResult) (name : bytes) : Z :=
  index_of name 0 (m_vecFieldName q).

(** [operator[](const string&)]: a name that is not a column indexes the vector by -1. *)
Definition field_named (q : QueryResult) (name : bytes) : outcome Field :=
  let i := GetFieldIndexByName q name in
  if decide (i < 0) then Undef OutOfBounds else field_at q (Z.to_nat i).

(** ** The rows the cursor visits *)

Record res_ok (n : nat) (res : MYSQL_RES) : Prop := {
  fields_ok : length (res_fields res) = n;
  rows_ok : Forall (fun r => length r = n) (res_rows res);
}.

(** The values of a row, null and empty alike. *)
Definition row_values (r : row) : list bytes := (fun v => default [] v) <$> r.

(** A live cursor on [r] with [rows] to come. *)
Record on_row (n : nat) (r : row) (rows : list row) (q : QueryResult) : Prop := {
  cur_values : GetString <$> m_CurrentRow q = row_values r;
  cur_length : length r = n;
  cur_rows : exists fields, m_result q = Some {| res_fields := fields; res_rows := rows |};
  cur_rest : Forall (fun r => length r = n) rows;
  cur_capacity : row_capacity q = n;
}.

(** A cursor after its last row. *)
Definition at_end (q : QueryResult) : Prop := m_CurrentRow q = [] /\ m_result q = None.

Lemma set_values_ok r fs : length r = length fs ->
  exists fs', set_values r fs = Ok fs' /\ GetString <$> fs' = row_values r.
Proof.
  revert fs. induction r as [|v r IH]; intros [|f fs]; simpl; try done; [by exists []|].
  intros [= E]. destruct (IH fs E) as (fs' & -> & E'). eexists. split; [done|].
  unfold row_values in *. by rewrite !fmap_cons, E', GetString_SetValue.
Qed.

Lemma set_columns_ok cols fs : length cols = length fs ->
  exists fs', set_columns cols fs = Ok fs' /\ length fs' = length fs.
Proof.
  revert fs. induction cols as [|[name tp] cols IH]; intros [|f fs]; simpl; try done; [by exists []|].
  intros [= E]. destruct (IH fs E) as (fs' & -> & E'). eexists. split; [done|].
  simpl. by rewrite E'.
Qed.

Lemma QueryResult_new_ok res n rc : res_ok n res ->
  match res_rows res with
  | [] => exists q, QueryResult_new (Some res) rc (Z.of_nat n) = Ok q /\ at_end q
            /\ row_capacity q = n
  | r :: rows => exists q, QueryResult_new (Some res) rc (Z.of_nat n) = Ok q /\ on_row n r rows q
  end.
Proof.
  intros [Hf Hr]. unfold QueryResult_new. rewrite Nat2Z.id. destruct (res_rows res) as [|r rows].
  { eexists. split; [done|]. by split. }
  apply Forall_cons in Hr as [Hr Hrows].
  destruct (set_columns_ok (res_fields res) (replicate n Field_new)) as (fs & -> & L);
    [by rewrite length_replicate|].
  rewrite length_replicate in L. simpl.
  destruct (set_values_ok r fs) as (fs' & -> & E); [congruence|].
  eexists. split; [done|]. split; simpl; eauto.
Qed.

Lemma NextRow_ok n r rows q : on_row n r rows q ->
  match rows with
  | [] => exists q', NextRow q = Ok (false, q') /\ at_end q' /\ row_capacity q' = n
  | r' :: rows' => exists q', NextRow q = Ok (true, q') /\ on_row n r' rows' q'
  end.
Proof.
  intros [Hv Hl (fields & Hq) Hr Hc]. unfold NextRow. rewrite Hq. simpl.
  destruct rows as [|r' rows'].
  { eexists. split; [done|]. by split. }
  apply Forall_cons in Hr as [Hr' Hrows].
  destruct (set_values_ok r' (m_CurrentRow q)) as (fs & -> & E).
  { apply (f_equal length) in Hv. unfold row_values in Hv. rewrite !length_fmap in Hv. congruence. }
  eexists. split; [done|]. split; simpl; eauto.
Qed.

(** The text of column [i] of the row under the cursor. *)
Lemma field_at_row n r rows q i v : on_row n r rows q -> r !! i = Some v ->
  exists f, field_at q i = Ok f /\ GetString f = default [] v.
Proof.
  intros [Hv _ _ _ _] E.
  assert ((GetString <$> m_CurrentRow q) !! i = row_values r !! i) as L by (by rewrite Hv).
  unfold row_values in L. rewrite !list_lookup_fmap, E in L. simpl in L.
  unfold field_at. destruct (m_CurrentRow q !! i) as [f|]; [|done].
  exists f. split; [done|]. by injection L.
Qed.

Lemma field_at_end q i : at_end q -> (i < row_capacity q)%nat -> field_at q i = Undef Dangling.
Proof. intros [E _] Hi. unfold field_at. rewrite E. simpl. by rewrite decide_True. Qed.

Lemma Fetch_null_on n r rows q : on_row n r rows q -> (0 < n)%nat -> Fetch_null q = false.
Proof. intros [_ _ _ _ <-] Hn. unfold Fetch_null. by apply Nat.eqb_neq; lia. Qed.

(** ** The loops over a result

    [while (result != nullptr) { pRow = Fetch(); if (pRow == nullptr) break; ...;
    if (result->NextRow() == false) break; }] *)

Section while_rows.
Context {S B : Type} (body : QueryResult -> B -> M S B).

Fixpoint row_loop (fuel : nat) (b : B) (q : QueryResult) : M S B :=
  if Fetch_null q then mret b
  else
    b ← body q b;
    '(more, q') ← lift (NextRow q);
    match fuel with
    | Datatypes.S fuel' => if more : bool then row_loop fuel' b q' else mret b
    | O => mret b
    end.

(** [NextRow] takes a row out of the result each time it returns [true]. *)
Definition rows_left (q : QueryResult) : nat :=
  match m_result q with Some res => length (res_rows res) | None => 0 end.

Definition while_rows (b : B) (q : QueryResult) : M S B := row_loop (rows_left q) b q.

(** What the body keeps, the loop keeps. *)
Lemma while_rows_keeps (P : B -> S -> Prop) b q s b' s' :
  (forall q b s b' s', P b s -> body q b s = Ok (b', s') -> P b' s') ->
  P b s -> while_rows b q s = Ok (b', s') -> P b' s'.
Proof.
  intros Hb. unfold while_rows. generalize (rows_left q). intros fuel. revert q b s.
  induction fuel as [|fuel IH]; intros q b s Hs; simpl; destruct (Fetch_null q); try (by intros [= <- <-]);
    intros (b1 & s1 & E & (x & s2 & E2 & E3)%bind_inv)%bind_inv; apply Hb in E; [|done| |done];
    unfold lift in E2; destruct (NextRow q) as [[more q1]| |]; try done; injection E2 as <- <-.
  - by injection E3 as <- <-.
  - destruct more; [by eapply IH|]. by injection E3 as <- <-.
Qed.

(** A body that only looks at the text of the row's columns. *)
Context (n : nat) (f : row -> B -> M S B).
Hypothesis body_row : forall r rows q b s, on_row n r rows q -> body q b s = f r b s.

Lemma row_loop_rows r rows q b s : (0 < n)%nat -> on_row n r rows q ->
  row_loop (length rows) b q s = for_fold (fun b r => f r b) b (r :: rows) s.
Proof.
  intros Hn. revert r q b s. induction rows as [|r' rows IH]; intros r q b s Q;
    pose proof (NextRow_ok n r _ q Q) as N; simpl; rewrite (Fetch_null_on n r _ q Q Hn);
    unfold mbind, M_bind, lift; rewrite (body_row r _ q b s Q);
    destruct (f r b s) as [[b' s']| |]; try done.
  - by destruct N as (q' & -> & _).
  - destruct N as (q' & -> & Q'). apply (IH r' q' b' s' Q').
Qed.

(** The loop over a fresh result runs the body on every row, first to last. *)
Lemma while_rows_all res rc r rows q b s : (0 < n)%nat -> res_ok n res ->
  res_rows res = r :: rows -> QueryResult_new (Some res) rc (Z.of_nat n) = Ok q ->
  while_rows b q s = for_fold (fun b r => f r b) b (res_rows res) s.
Proof.
  intros Hn Hres E Hq. pose proof (QueryResult_new_ok res n rc Hres) as H. rewrite E in H |- *.
  destruct H as (q' & Hq' & Q). rewrite Hq in Hq'. injection Hq' as <-.
  unfold while_rows, rows_left. destruct (cur_rows _ _ _ _ Q) as (fields & ->). simpl.
  by apply row_loop_rows.
Qed.
End while_rows.

(** ** Properties *)

(** A body that copies the row's columns. *)
Definition collect (n : nat) (q : QueryResult) (acc : list (list bytes)) : M unit (list (list bytes)) :=
  fs ← for_fold (fun l i => f ← lift (field_at q i); mret (l ++ [GetString f])) [] (seq 0 n);
  mret (acc ++ [fs]).

Lemma collect_row n r rows q acc s : on_row n r rows q ->
  collect n q acc s = Ok (acc ++ [row_values r], s).
Proof.
  intros Q. pose proof (cur_length _ _ _ _ Q) as L.
  assert (forall l1 l2 l, r = l1 ++ l2 ->
    for_fold (fun l i => f ← lift (field_at q i); mret (l ++ [GetString f])) l
      (seq (length l1) (length l2)) s = Ok (l ++ row_values l2, s)) as Hcut.
  { intros l1 l2. revert l1. induction l2 as [|v l2 IH]; intros l1 l Er; simpl.
    { by rewrite app_nil_r. }
    destruct (field_at_row n r rows q (length l1) v Q) as (fd & Ef & Ev).
    { rewrite Er, lookup_app_r, Nat.sub_diag by lia. done. }
    unfold mbind, M_bind, lift in *. rewrite Ef. simpl.
    specialize (IH (l1 ++ [v]) (l ++ [GetString fd])). rewrite length_app in IH. simpl in IH.
    rewrite Nat.add_1_r in IH. rewrite IH by (by rewrite Er, <- app_assoc).
    by rewrite <- app_assoc, Ev. }
  unfold collect. rewrite (bind_ok _ _ s (row_values r) s); [done|].
  rewrite <- L. by apply (Hcut [] r []).
Qed.

(** the cursor visits every row of a non-empty result exactly once, in order, with the
    column texts the server sent (NULL and empty alike), and its loop ends. *)
Theorem cursor_visits_rows n res rc :
  (0 < n)%nat -> res_ok n res -> res_rows res <> [] ->
  exists q, QueryResult_new (Some res) rc (Z.of_nat n) = Ok q
    /\ while_rows (collect n) [] q tt = Ok (row_values <$> res_rows res, tt).
Proof.
  intros Hn Hres Hne. pose proof (QueryResult_new_ok res n rc Hres) as H.
  destruct (res_rows res) as [|r rows] eqn:E; [done|]. destruct H as (q & Hq & _).
  exists q. split; [done|].
  rewrite (while_rows_all _ n (fun r acc => mret (acc ++ [row_values r])) (fun r rows q b s =>
    collect_row n r rows q b s) res rc r rows) by done. rewrite E.
  assert (forall l acc, for_fold (fun b r => mret (b ++ [row_values r])) acc l tt
    = Ok (acc ++ (row_values <$> l), tt)) as Hf.
  { intros l. induction l as [|x l IH]; intros acc; simpl; [by rewrite app_nil_r|].
    unfold mbind, M_bind, mret, M_ret in *. rewrite IH. by rewrite <- app_assoc. }
  apply Hf.
Qed.

(** a result without rows is not an empty loop. [Fetch()] is [vector::data()], which stays
    non-null after [clear()], so the loops' null check does not fire and the first column they
    read is a destroyed [Field]. This is the case of an empty user table at start-up and of a
    user without friends. *)
Theorem empty_result_dangling {S B} (body : QueryResult -> B -> M S B) n res rc (b : B) (s : S) :
  (0 < n)%nat -> res_ok n res -> res_rows res = [] ->
  (forall q, field_at q 0 = Undef Dangling -> body q b s = Undef Dangling) ->
  exists q, QueryResult_new (Some res) rc (Z.of_nat n) = Ok q
    /\ Fetch_null q = false /\ while_rows body b q s = Undef Dangling.
Proof.
  intros Hn Hres E Hb. pose proof (QueryResult_new_ok res n rc Hres) as H. rewrite E in H.
  destruct H as (q & Hq & Hend & Hc). exists q. split; [done|].
  assert (Fetch_null q = false) as Hf by (unfold Fetch_null; apply Nat.eqb_neq; lia).
  split; [done|]. unfold while_rows. destruct (rows_left q); simpl; rewrite Hf;
    unfold mbind, M_bind; by rewrite (Hb q (field_at_end q 0 Hend ltac:(lia))).
Qed.

Definition two_rows : MYSQL_RES :=
  {| res_fields := [(bs "f_user_id1", FIELD_TYPE_LONGLONG); (bs "f_user_id2", FIELD_TYPE_LONGLONG)];
     res_rows := [[Some (bs "1"); Some (bs "2")]; [Some (bs "1"); None]] |}.
Definition no_rows : MYSQL_RES := {| res_fields := res_fields two_rows; res_rows := [] |}.

Lemma cursor_visits_rows_witness : exists q,
  QueryResult_new (Some two_rows) 2 2 = Ok q
  /\ while_rows (collect 2) [] q tt = Ok ([[bs "1"; bs "2"]; [bs "1"; []]], tt).
Proof.
  apply (cursor_visits_rows 2 two_rows 2); [lia|split; [done|by repeat constructor]|done].
Defined.

Lemma empty_result_dangling_witness : exists q,
  QueryResult_new (Some no_rows) 0 2 = Ok q
  /\ Fetch_null q = false /\ while_rows (collect 2) [] q tt = Undef Dangling.
Proof.
  apply (empty_result_dangling (collect 2) 2 no_rows 0 [] tt); [lia|split; [done|constructor]|done|].
  intros q E. unfold collect. simpl. unfold mbind, M_bind, lift. by rewrite E.
Defined.
