(* ===== verification/MySQLTool.v ===== *)
(** * MySQLTool (mysqltool.h, mysqltool.cpp)

    One connection to the MySQL server: connecting, running a statement, and connecting again
    when the server has gone away. The client library is the class [MySQL]. *)

From S2P Require Import Prelude Bytes Text QueryResult.

(** The client library and the server behind it, with the state [D] the two keep: the calls
    the program makes, as their documentation describes them. A statement's [int] result is
    zero for success. *)
Class MySQL (D : Type) := {
  MYSQL : Type;
  (** [mysql_init] and [mysql_real_connect] with host, user, password, database and port *)
  mysql_real_connect : bytes -> bytes -> bytes -> bytes -> Z -> D -> option MYSQL * D;
  mysql_close : MYSQL -> D -> D;
  mysql_real_query : MYSQL -> bytes -> D -> Z * D;
  mysql_errno : MYSQL -> D -> Z;
  mysql_store_result : MYSQL -> D -> option MYSQL_RES * D;
  mysql_affected_rows : MYSQL -> D -> Z;
  mysql_field_count : MYSQL -> D -> Z;
}.

Definition CR_SERVER_GONE_ERROR : Z := 2006.

Section tool.
Context {D : Type} `{MySQL D}.

Record MySQLTool := {
  m_mysql : option MYSQL;
  m_host : bytes;
  m_user : bytes;
  m_passwd : bytes;
  m_dbname : bytes;
  m_port : Z;
}.

Definition MySQLTool_new : MySQLTool :=
  {| m_mysql := None; m_host := []; m_user := []; m_passwd := []; m_dbname := []; m_port := 3306 |}.

Definition set_mysql (h : option MYSQL) (t : MySQLTool) : MySQLTool :=
  {| m_mysql := h; m_host := m_host t; m_user := m_user t; m_passwd := m_passwd t;
     m_dbname := m_dbname t; m_port := m_port t |}.

(** Code that runs on a tool and the library. *)
Definition T (A : Type) : Type := M (MySQLTool * D) A.

(** A call of the library on a handle; none of them accepts a null one. *)
Definition call {A} (f : MYSQL -> D -> A * D) : T A := fun '(t, d) =>
  match m_mysql t with
  | Some h => let '(a, d') := f h d in Ok (a, (t, d'))
  | None => Undef NullDeref
  end.

Definition ask {A} (f : MYSQL -> D -> A) : T A := call (fun h d => (f h d, d)).

(** [mysql_query] stops at the first NUL of its text. *)
Definition mysql_query (sql : bytes) : T Z := call (fun h => mysql_real_query h (c_str sql)).

Definition connect (host user passwd db : bytes) (port : Z) : T bool := fun '(t, d) =>
  let '(t, d) :=
    match m_mysql t with
    | Some h => (set_mysql None t, mysql_close h d)
    | None => (t, d)
    end in
  let '(h, d) := mysql_real_connect (c_str host) (c_str user) (c_str passwd) (c_str db) port d in
  match h with
  | Some h =>
      let t := {| m_mysql := Some h; m_host := host; m_user := user; m_passwd := passwd;
                  m_dbname := db; m_port := m_port t |} in
      let '(_, d) := mysql_real_query h (bs "set name utf8;") d in
      Ok (true, (t, d))
  | None => Ok (false, (set_mysql None t, d))
  end.

(** [connect] with the stored parameters and the default port. *)
Definition reconnect : T bool := fun s =>
  connect (m_host s.1) (m_user s.1) (m_passwd s.1) (m_dbname s.1) 3306 s.

Definition connected : T bool := gets (fun s => match m_mysql s.1 with Some _ => true | None => false end).

(** The part [Query] and [Execute] share: run a statement, and once more after connecting
    again when the server has gone away. [false] where they give up; [retried] tells whether
    the second attempt was made. *)
Definition attempt (run : T Z) : T (bool * bool) :=
  ret ← run;
  if decide (ret = 0) then mret (true, false)
  else
    nErrno ← ask mysql_errno;
    if decide (nErrno = CR_SERVER_GONE_ERROR) then
      ok ← reconnect;
      if ok : bool then
        ret ← run;
        mret (if decide (ret = 0) then (true, true) else (false, true))
      else mret (false, false)
    else mret (false, false).

(** [Query]: [None] is the null pointer. *)
Definition Query (sql : bytes) : T (option QueryResult) :=
  up ← connected;
  stop ← (if up : bool then mret false else reconnect);
  if stop : bool then mret None
  else
    '(ok, _) ← attempt (call (fun h => mysql_real_query h sql));
    if ok : bool then
      result ← call mysql_store_result;
      rowcount ← ask mysql_affected_rows;
      cloumcount ← ask mysql_field_count;
      q ← lift (QueryResult_new result (to_u32 rowcount) (to_u32 cloumcount));
      mret (Some q)
    else mret None.

(** [Execute] with its two output parameters: [nAffectedCount] is assigned after a second
    attempt only, and [nErrno] never, its assignments going to a variable of the inner block. *)
Definition Execute_counted (sql : bytes) (nAffectedCount nErrno : option Z)
    : T (bool * option Z * option Z) :=
  up ← connected;
  stop ← (if up : bool then mret false else reconnect);
  if stop : bool then mret (false, nAffectedCount, nErrno)
  else
    '(ok, retried) ← attempt (mysql_query sql);
    if ok : bool then
      if retried : bool then
        n ← ask mysql_affected_rows;
        mret (true, Some (to_u32 n), nErrno)
      else mret (true, nAffectedCount, nErrno)
    else mret (false, nAffectedCount, nErrno).

Definition Execute (sql : bytes) : T bool :=
  '(ok, _, _) ← Execute_counted sql None None;
  mret ok.

Definition GetDBName (t : MySQLTool) : bytes := m_dbname t.

(** ** Lemmas *)

#[local] Arguments reconnect : simpl never.
#[local] Arguments connect : simpl never.

Lemma call_ok {A} (f : MYSQL -> D -> A * D) t d h : m_mysql t = Some h ->
  call f (t, d) = Ok ((f h d).1, (t, (f h d).2)).
Proof. intros E. unfold call. rewrite E. by destruct (f h d). Qed.

Lemma call_null {A} (f : MYSQL -> D -> A * D) t d : m_mysql t = None ->
  call f (t, d) = Undef NullDeref.
Proof. intros E. unfold call. by rewrite E. Qed.

Lemma connect_closed host user passwd db port t d : m_mysql t = None ->
  connect host user passwd db port (t, d) =
  let '(h, d1) := mysql_real_connect (c_str host) (c_str user) (c_str passwd) (c_str db) port d in
  match h with
  | Some h =>
      Ok (true, ({| m_mysql := Some h; m_host := host; m_user := user; m_passwd := passwd;
                    m_dbname := db; m_port := m_port t |},
                 (mysql_real_query h (bs "set name utf8;") d1).2))
  | None => Ok (false, (t, d1))
  end.
Proof.
  intros E. unfold connect. rewrite E. destruct t. simpl in E |- *. rewrite E.
  destruct (mysql_real_connect _ _ _ _ _ _) as [[h|] d1]; simpl; [|done].
  by destruct (mysql_real_query h _ d1).
Qed.

(** Connecting again goes through a closed handle, whatever the tool held before. *)
Lemma reconnect_open t d h : m_mysql t = Some h ->
  reconnect (t, d) = reconnect (set_mysql None t, mysql_close h d).
Proof. intros E. unfold reconnect, connect. simpl. by rewrite E. Qed.

Lemma Execute_eq sql s :
  Execute sql s = match Execute_counted sql None None s with
                  | Ok ((ok, _, _), s') => Ok (ok, s')
                  | Throw x => Throw x
                  | Undef u => Undef u
                  end.
Proof. unfold Execute, mbind, M_bind. by destruct (Execute_counted sql None None s) as [[[[] ]]| |]. Qed.

(** [Execute] is [attempt] when a handle is there. *)
Lemma Execute_counted_up sql n e t d h : m_mysql t = Some h ->
  Execute_counted sql n e (t, d) =
  match attempt (mysql_query sql) (t, d) with
  | Ok ((ok, retried), s) =>
      if ok : bool then
        if retried : bool then (k ← ask mysql_affected_rows; mret (true, Some (to_u32 k), e)) s
        else Ok (true, n, e, s)
      else Ok (false, n, e, s)
  | Throw x => Throw x
  | Undef u => Undef u
  end.
Proof.
  intros E. unfold Execute_counted.
  rewrite (bind_ok connected _ (t, d) true (t, d)) by (unfold connected, gets; simpl; by rewrite E).
  rewrite (bind_ok _ _ (t, d) false (t, d)) by done.
  unfold mbind, M_bind. destruct (attempt (mysql_query sql) (t, d)) as [[[[] []] s]| |]; done.
Qed.

Lemma attempt_first run t d s' : run (t, d) = Ok (0, s') -> attempt run (t, d) = Ok ((true, false), s').
Proof. intros E. unfold attempt. by rewrite (bind_ok _ _ _ _ _ E). Qed.

Lemma attempt_failed run s t1 d1 h1 ret : run s = Ok (ret, (t1, d1)) -> m_mysql t1 = Some h1 ->
  ret <> 0 ->
  attempt run s =
  if decide (mysql_errno h1 d1 = CR_SERVER_GONE_ERROR) then
    match reconnect (t1, d1) with
    | Ok (true, s2) =>
        match run s2 with
        | Ok (ret, s3) => Ok (if decide (ret = 0) then (true, true) else (false, true), s3)
        | Throw x => Throw x
        | Undef u => Undef u
        end
    | Ok (false, s2) => Ok ((false, false), s2)
    | Throw x => Throw x
    | Undef u => Undef u
    end
  else Ok ((false, false), (t1, d1)).
Proof.
  intros E Eh Hr. unfold attempt. rewrite (bind_ok _ _ _ _ _ E), decide_False by done.
  unfold ask. rewrite (bind_ok _ _ _ _ _ (call_ok _ _ _ _ Eh)). simpl.
  case_decide; [|done]. unfold mbind, M_bind.
  destruct (reconnect (t1, d1)) as [[[] s2]| |]; [|done..]. by destruct (run s2) as [[]| |].
Qed.

(** ** Properties *)

(** with a connection up, [Execute] runs the statement once and reports whether it
    succeeded; only when the server has gone away does it connect again, with the parameters it
    was first given (and the default port), and run the statement a second time. *)
Theorem Execute_connected sql t d h : m_mysql t = Some h ->
  let '(ret, d1) := mysql_real_query h (c_str sql) d in
  if decide (ret = 0) then Execute sql (t, d) = Ok (true, (t, d1))
  else if decide (mysql_errno h d1 = CR_SERVER_GONE_ERROR) then
    let '(h', d2) := mysql_real_connect (c_str (m_host t)) (c_str (m_user t)) (c_str (m_passwd t))
                       (c_str (m_dbname t)) 3306 (mysql_close h d1) in
    match h' with
    | Some h' =>
        let '(_, d3) := mysql_real_query h' (bs "set name utf8;") d2 in
        let '(ret, d4) := mysql_real_query h' (c_str sql) d3 in
        Execute sql (t, d) = Ok (bool_decide (ret = 0), (set_mysql (Some h') t, d4))
    | None => Execute sql (t, d) = Ok (false, (set_mysql None t, d2))
    end
  else Execute sql (t, d) = Ok (false, (t, d1)).
Proof.
  intros E. destruct (mysql_real_query h (c_str sql) d) as [ret d1] eqn:Eq.
  pose proof (call_ok (fun h => mysql_real_query h (c_str sql)) t d h E) as C.
  cbv beta in C. rewrite Eq in C. cbn [fst snd] in C. fold (mysql_query sql) in C.
  rewrite !Execute_eq, (Execute_counted_up _ _ _ _ _ _ E).
  case_decide as Hr; [subst ret; by rewrite (attempt_first _ _ _ _ C)|].
  rewrite (attempt_failed _ _ _ _ _ _ C E Hr). case_decide; [|done].
  rewrite (reconnect_open _ _ _ E). unfold reconnect. cbn [fst snd].
  rewrite connect_closed by done. simpl.
  destruct (mysql_real_connect _ _ _ _ _ _) as [[h'|] d2]; [|done].
  destruct (mysql_real_query h' _ d2) as [r3 d3]. cbn [fst snd].
  unfold mysql_query. rewrite (call_ok _ _ _ h') by done. simpl.
  destruct (mysql_real_query h' (c_str sql) d3) as [r4 d4]. simpl.
  case_decide as H4; [by rewrite bool_decide_eq_true_2|by rewrite bool_decide_eq_false_2].
Qed.

(** without a handle, which is the state a failed reconnection leaves, the test of
    [connect]'s result is inverted: when connecting succeeds the statement is not run and the
    call reports failure, and when it fails the statement is run on the null handle. *)
Theorem inverted_reconnect sql t d : m_mysql t = None ->
  match (mysql_real_connect (c_str (m_host t)) (c_str (m_user t)) (c_str (m_passwd t))
           (c_str (m_dbname t)) 3306 d).1 with
  | Some h => exists s, Execute sql (t, d) = Ok (false, s) /\ m_mysql s.1 = Some h
                /\ Query sql (t, d) = Ok (None, s)
  | None => Execute sql (t, d) = Undef NullDeref /\ Query sql (t, d) = Undef NullDeref
  end.
Proof.
  intros E. assert (connected (t, d) = Ok (false, (t, d))) as Ec.
  { unfold connected, gets. simpl. by rewrite E. }
  rewrite Execute_eq. unfold Execute_counted, Query.
  pose proof (connect_closed (m_host t) (m_user t) (m_passwd t) (m_dbname t) 3306 t d E) as C.
  change (connect _ _ _ _ _ _) with (reconnect (t, d)) in C.
  destruct (mysql_real_connect _ _ _ _ _ _) as [[h|] d1]; cbn [fst].
  - eexists. rewrite !(bind_ok _ _ _ _ _ Ec), !(bind_ok _ _ _ _ _ C). done.
  - rewrite !(bind_ok _ _ _ _ _ Ec), !(bind_ok _ _ _ _ _ C).
    unfold attempt, mysql_query, mbind, M_bind. by rewrite !call_null.
Qed.
End tool.

(** ** A server that replays answers, for the witnesses *)

Record reply := { r_ret : Z; r_errno : Z; r_res : option MYSQL_RES; r_affected : Z }.

(** The answers to come, the last one, and the statements received. *)
Record replay := { to_come : list reply; answered : reply; received : list bytes }.

Definition ok_reply : reply := {| r_ret := 0; r_errno := 0; r_res := None; r_affected := 1 |}.
Definition gone_reply : reply :=
  {| r_ret := 1; r_errno := CR_SERVER_GONE_ERROR; r_res := None; r_affected := 0 |}.
Definition result_reply (res : MYSQL_RES) : reply :=
  {| r_ret := 0; r_errno := 0; r_res := Some res; r_affected := len (res_rows res) |}.

Definition replaying (l : list reply) : replay :=
  {| to_come := l; answered := ok_reply; received := [] |}.

Definition replay_query (sql : bytes) (d : replay) : Z * replay :=
  match to_come d with
  | r :: l => (r_ret r, {| to_come := l; answered := r; received := received d ++ [sql] |})
  | [] => (0, {| to_come := []; answered := ok_reply; received := received d ++ [sql] |})
  end.

#[export] Instance replay_server : MySQL replay := {|
  MYSQL := unit;
  mysql_real_connect := fun _ _ _ _ _ d => (Some tt, d);
  mysql_close := fun _ d => d;
  mysql_real_query := fun _ sql d => replay_query sql d;
  mysql_errno := fun _ d => r_errno (answered d);
  mysql_store_result := fun _ d => (r_res (answered d), d);
  mysql_affected_rows := fun _ d => r_affected (answered d);
  mysql_field_count := fun _ d =>
    match r_res (answered d) with Some res => len (res_fields res) | None => 0 end;
|}.

Definition open_tool : MySQLTool :=
  {| m_mysql := Some tt; m_host := bs "127.0.0.1"; m_user := bs "root"; m_passwd := bs "secret";
     m_dbname := bs "edoyun"; m_port := 3306 |}.

Lemma Execute_connected_witness :
  Execute (bs "x") (open_tool, replaying [gone_reply]) =
  Ok (true, (open_tool, {| to_come := []; answered := ok_reply;
                           received := [bs "x"; bs "set name utf8;"; bs "x"] |})).
Proof. exact (Execute_connected (bs "x") open_tool (replaying [gone_reply]) tt eq_refl). Defined.

Lemma inverted_reconnect_witness : exists s,
  Execute (bs "x") (set_mysql None open_tool, replaying []) = Ok (false, s)
  /\ m_mysql s.1 = Some tt /\ Query (bs "x") (set_mysql None open_tool, replaying []) = Ok (None, s).
Proof. exact (inverted_reconnect (bs "x") (set_mysql None open_tool) (replaying []) eq_refl). Defined.
