(* ===== verification/MySqlManager.v ===== *)
(** * MySqlManager (MySqlManager.h, MySqlManager.cpp)

    The database's schema, checked and completed at start-up, and the access to the connection
    that the rest of the server goes through. *)

From S2P Require Import Prelude Bytes Text StdMap Field QueryResult MySQLTool.

(** ** The schema *)

Record sFieldInfo := { sName : bytes; sType : bytes; sDesc : bytes }.

Record sTableInfo := {
  tName : bytes;
  mapField : list (bytes * sFieldInfo);
  sKey : bytes;
}.

(** [info.mapField[name] = {name, type, desc}], for each column. *)
Definition make_fields (l : list (bytes * bytes * bytes)) : list (bytes * sFieldInfo) :=
  fold_left (fun m '(name, tp, desc) => mset name {| sName := name; sType := tp; sDesc := desc |} m) l [].

Definition t_user_fields : list (bytes * sFieldInfo) :=
  make_fields
    [(bs "f_id", bs "bigint(20) NOT NULL AUTO_INCREMENT COMMENT  '自增ID'", bs "bigint(20)");
     (bs "f_user_id", bs "bigint(20) NOT NULL COMMENT  '用户ID'", bs "bigint(20)");
     (bs "f_username", bs "varchar(64) NOT NULL COMMENT  '用户名'", bs "varchar(64)");
     (bs "f_nickname", bs "varchar(64) NOT NULL COMMENT  '用户昵称'", bs "varchar(64)");
     (bs "f_password", bs "varchar(64) NOT NULL COMMENT  '用户密码'", bs "varchar(64)");
     (bs "f_facetype", bs "int(10) DEFAULT 0 COMMENT  '用户头像类型'", bs "int(10)");
     (bs "f_customface", bs "varchar(32) DEFAULT NULL COMMENT  '自定义头像名'", bs "varchar(32)");
     (bs "f_customfacefmt", bs "varchar(6) DEFAULT NULL COMMENT  '自定义头像格式'", bs "varchar(6)");
     (bs "f_gender", bs "int(2) DEFAULT 0 COMMENT  '性别'", bs "int(2)");
     (bs "f_birthday", bs "bigint(20) DEFAULT 19900101 COMMENT  '生日'", bs "bigint(20)");
     (bs "f_signature", bs "varchar(256) DEFAULT NULL COMMENT  '地址'", bs "varchar(256)");
     (bs "f_address", bs "varchar(256) DEFAULT NULL COMMENT  '地址'", bs "varchar(256)");
     (bs "f_phonenumber", bs "varchar(64) DEFAULT NULL COMMENT  '电话'", bs "varchar(64)");
     (bs "f_mail", bs "varchar(256) DEFAULT NULL COMMENT  '邮箱'", bs "varchar(256)");
     (bs "f_owner", bs "bigint(20) DEFAULT 0 COMMENT  '群账号群主userid'", bs "bigint(20)");
     (bs "f_register_time", bs "datetime NOT NULL  COMMENT  '注册时间'", bs "datetime");
     (bs "f_remark", bs "varchar(64) NULL COMMENT  '备注'", bs "varchar(64)");
     (bs "f_update_time", bs "timestamp NOT NULL DEFAULT CURRENT_TIMESTAMP ON UPDATE CURRENT_TIMESTAMP COMMENT '更新时间'", bs "timestamp")].

Definition t_chatmsg_fields : list (bytes * sFieldInfo) :=
  make_fields
    [(bs "f_id", bs "bigint(20) NOT NULL AUTO_INCREMENT COMMENT  '自增ID'", bs "bigint(20)");
     (bs "f_senderid", bs "bigint(20) NOT NULL COMMENT  '发送者id'", bs "bigint(20)");
     (bs "f_targetid", bs "bigint(20) NOT NULL COMMENT  '接收者id'", bs "bigint(20)");
     (bs "f_msgcontent", bs "blob NOT NULL COMMENT  '聊天内容'", bs "blob");
     (bs "f_create_time", bs "timestamp NOT NULL DEFAULT CURRENT_TIMESTAMP ON UPDATE CURRENT_TIMESTAMP COMMENT '更新时间'", bs "timestamp");
     (bs "f_remark", bs "varchar(64) NULL COMMENT  '备注'", bs "varchar(64)")].

Definition t_user_relationship_fields : list (bytes * sFieldInfo) :=
  make_fields
    [(bs "f_id", bs "bigint(20) NOT NULL AUTO_INCREMENT COMMENT  '自增ID'", bs "bigint(20)");
     (bs "f_user_id1", bs "bigint(20) NOT NULL COMMENT  '用户ID'", bs "bigint(20)");
     (bs "f_user_id2", bs "bigint(20) NOT NULL COMMENT  '用户ID'", bs "bigint(20)");
     (bs "f_remark", bs "varchar(64) NULL COMMENT  '备注'", bs "varchar(64)");
     (bs "f_create_time", bs "timestamp NOT NULL DEFAULT CURRENT_TIMESTAMP ON UPDATE CURRENT_TIMESTAMP COMMENT '更新时间'", bs "timestamp")].

Definition t_user : sTableInfo :=
  {| tName := bs "t_user"; mapField := t_user_fields;
     sKey := bs "PRIMARY KEY (f_user_id),INDEX f_user_id (f_user_id),KEY f_id (f_id)" |}.
Definition t_chatmsg : sTableInfo :=
  {| tName := bs "t_chatmsg"; mapField := t_chatmsg_fields;
     sKey := bs "PRIMARY KEY (f_id),INDEX f_id (f_id)" |}.
Definition t_user_relationship : sTableInfo :=
  {| tName := bs "t_user_relationship"; mapField := t_user_relationship_fields;
     sKey := bs "PRIMARY KEY (f_id),INDEX f_id (f_id)" |}.

(** The constructor's [m_mapTable], in key order. *)
Definition tables : list (bytes * sTableInfo) :=
  minsert (tName t_user_relationship) t_user_relationship
    (minsert (tName t_chatmsg) t_chatmsg (minsert (tName t_user) t_user [])).

(** ** The manager *)

Section manager.
Context {D : Type} `{MySQL D}.

(** [m_mysql] is null until [Init]; the library's state travels with the manager. *)
Record MySqlManager := {
  m_mapTable : list (bytes * sTableInfo);
  m_mysql : option MySQLTool;
  server : D;
}.

Definition MySqlManager_new (d : D) : MySqlManager :=
  {| m_mapTable := tables; m_mysql := None; server := d |}.

Abbreviation MM := (M MySqlManager).

(** A call on the tool. *)
Definition tool {A} (f : T A) : MM A := fun m =>
  match m_mysql m with
  | Some t =>
      match f (t, server m) with
      | Ok (a, (t', d')) => Ok (a, {| m_mapTable := m_mapTable m; m_mysql := Some t'; server := d' |})
      | Throw e => Throw e
      | Undef u => Undef u
      end
  | None => Undef NullDeref
  end.

Definition no_tool : MM bool := gets (fun m => match m_mysql m with None => true | Some _ => false end).

Definition Query (sql : bytes) : MM (option QueryResult) :=
  null ← no_tool;
  if null : bool then mret None else tool (MySQLTool.Query sql).

Definition Excute (sql : bytes) : MM bool :=
  null ← no_tool;
  if null : bool then mret false else tool (Execute sql).

Definition dbname : MM bytes := tool (gets (fun s => GetDBName s.1)).

(** The loop of [CheckDatabase]; each turn that goes on takes a row. *)
Fixpoint find_database (fuel : nat) (name : bytes) (q : QueryResult) : outcome bool :=
  if Fetch_null q then Ok false
  else
    f ← field_at q 0;
    if decide (GetString f = name) then Ok true
    else
      '(more, q') ← NextRow q;
      match fuel with
      | Datatypes.S fuel' => if more : bool then find_database fuel' name q' else Ok false
      | O => Ok false
      end.

Definition CheckDatabase : MM bool :=
  null ← no_tool;
  if null : bool then mret false
  else
    result ← tool (MySQLTool.Query (bs "show databases;"));
    match result with
    | None => mret false
    | Some q =>
        name ← dbname;
        lift (find_database (rows_left q) name q)
    end.

Definition CreateDatabase : MM bool :=
  null ← no_tool;
  if null : bool then mret false
  else
    name ← dbname;
    '(ok, naffect, _) ← tool (Execute_counted (bs " create database " ++ name ++ bs ";") (Some 0) (Some 0));
    if ok : bool then
      match naffect with
      | Some n => mret (bool_decide (n = 1))
      | None => undef Uninitialised
      end
    else mret false.

(** The column definitions of [CreateTable], commas between them. *)
Fixpoint column_list (l : list (bytes * sFieldInfo)) (first : bool) : bytes :=
  match l with
  | [] => []
  | (_, f) :: l' =>
      (if first then [] else bs ",") ++ sName f ++ bs " " ++ sType f ++ column_list l' false
  end.

Definition create_table_sql (info : sTableInfo) : bytes :=
  bs " create table if not exists " ++ tName info ++ bs " ("
  ++ column_list (mapField info) true
  ++ (if decide (0 < len (sKey info)) then bs "," ++ sKey info else [])
  ++ bs ") default charset=utf8,ENGINE=InnoDB;".

Definition CreateTable (info : sTableInfo) : MM bool :=
  null ← no_tool;
  if null : bool then mret false
  else if decide (len (mapField info) = 0) then mret false
  else tool (Execute (create_table_sql info)).

(** The loop of [CheckTable] over the rows of [desc]: the columns not seen yet and the ones to
    change. A row whose column is not in the schema is met with [continue], which looks at the
    same row again; a type that differs ends the loop. [None] when [fuel] turns were not
    enough. *)
Fixpoint check_columns (fuel : nat) (info : sTableInfo) (q : QueryResult)
    (rest mapChange : list (bytes * sFieldInfo))
    : outcome (option (list (bytes * sFieldInfo) * list (bytes * sFieldInfo))) :=
  match fuel with
  | O => Ok None
  | Datatypes.S fuel' =>
      if Fetch_null q then Ok (Some (rest, mapChange))
      else
        f0 ← field_at q 0;
        f1 ← field_at q 1;
        let name := GetString f0 in
        let type := GetString f1 in
        match mfind name (mapField info) with
        | None => check_columns fuel' info q rest mapChange
        | Some fi =>
            let rest := merase name rest in
            if decide (sDesc fi = type) then
              '(more, q') ← NextRow q;
              if more : bool then check_columns fuel' info q' rest mapChange
              else Ok (Some (rest, mapChange))
            else Ok (Some (rest, minsert name fi mapChange))
        end
  end.

(** The [alter table] loops: they stop at the first statement that fails. *)
Fixpoint alter_all (info : sTableInfo) (verb : bytes) (l : list (bytes * sFieldInfo)) : MM bool :=
  match l with
  | [] => mret true
  | (_, f) :: l' =>
      ok ← tool (Execute (bs " alter table " ++ tName info ++ verb ++ sName f ++ bs " " ++ sType f ++ bs ";"));
      if ok : bool then alter_all info verb l' else mret false
  end.

(** [CheckTable]; [None] when the loop does not end within [fuel] turns. *)
Definition CheckTable (fuel : nat) (info : sTableInfo) : MM (option bool) :=
  null ← no_tool;
  if null : bool then mret (Some false)
  else
    result ← tool (MySQLTool.Query (bs " desc " ++ tName info ++ bs ";"));
    match result with
    | None =>
        ok ← CreateTable info;
        mret (Some ok)
    | Some q =>
        done ← lift (check_columns fuel info q (mapField info) []);
        match done with
        | None => mret None
        | Some (rest, mapChange) =>
            ok ← alter_all info (bs " add colum ") rest;
            if ok : bool then
              ok ← alter_all info (bs " modify column ") mapChange;
              mret (Some ok)
            else mret (Some false)
        end
    end.

Definition UpdateTable (fuel : nat) (info : sTableInfo) : MM (option bool) :=
  ok ← CheckTable fuel info;
  match ok with
  | None => mret None
  | Some false => ok ← CreateTable info; mret (Some ok)
  | Some true => mret (Some true)
  end.

(** The loop of [Init] over [m_mapTable]. *)
Fixpoint init_tables (fuel : nat) (l : list (bytes * sTableInfo)) : MM (option bool) :=
  match l with
  | [] => mret (Some true)
  | (_, info) :: l' =>
      ok ← CheckTable fuel info;
      match ok with
      | None => mret None
      | Some true => init_tables fuel l'
      | Some false =>
          ok ← CreateTable info;
          if ok : bool then init_tables fuel l' else mret (Some false)
      end
  end.

Definition Init (fuel : nat) (host user passwd db : bytes) (port : Z) : MM (option bool) :=
  _ ← modify (fun m => {| m_mapTable := m_mapTable m; m_mysql := Some MySQLTool_new; server := server m |});
  up ← tool (connect host user passwd db port);
  if up : bool then
    found ← CheckDatabase;
    ready ← (if found : bool then mret true else CreateDatabase);
    if ready : bool then
      l ← gets m_mapTable;
      init_tables fuel l
    else mret (Some false)
  else mret (Some false).

(** ** Lemmas *)

Lemma tool_ok {A} (f : T A) m t a t' d' : m_mysql m = Some t -> f (t, server m) = Ok (a, (t', d')) ->
  tool f m = Ok (a, {| m_mapTable := m_mapTable m; m_mysql := Some t'; server := d' |}).
Proof. intros E Ef. unfold tool. by rewrite E, Ef. Qed.

Lemma no_tool_some m t : m_mysql m = Some t -> no_tool m = Ok (false, m).
Proof. intros E. unfold no_tool, gets. by rewrite E. Qed.

(** The text of the first two columns of a row. *)
Definition col (i : nat) (r : row) : bytes := default [] (r !! i ≫= id).

Lemma field_col n r rows q i : on_row n r rows q -> (i < n)%nat ->
  exists f, field_at q i = Ok f /\ GetString f = col i r.
Proof.
  intros Q Hi. destruct (lookup_lt_is_Some_2 r i) as [v E].
  { by rewrite (cur_length _ _ _ _ Q). }
  destruct (field_at_row n r rows q i v Q E) as (f & Ef & Ev). exists f. split; [done|].
  unfold col. rewrite E. simpl. by rewrite Ev; destruct v.
Qed.

(** What a row says about the table: a known column of the right type, or not. *)
Definition row_matches (info : sTableInfo) (r : row) : Prop :=
  exists fi, mfind (col 0 r) (mapField info) = Some fi /\ sDesc fi = col 1 r.

Lemma check_columns_known n info r rows q rest chg fuel :
  (2 <= n)%nat -> on_row n r rows q -> row_matches info r ->
  check_columns (Datatypes.S fuel) info q rest chg
  = ('(more, q') ← NextRow q;
     if more : bool then check_columns fuel info q' (merase (col 0 r) rest) chg
     else Ok (Some (merase (col 0 r) rest, chg))).
Proof.
  intros Hn Q (fi & Ef & Et). simpl. rewrite (Fetch_null_on n r rows q Q) by lia.
  destruct (field_col n r rows q 0 Q) as (f0 & -> & E0); [lia|].
  destruct (field_col n r rows q 1 Q) as (f1 & -> & E1); [lia|].
  simpl. rewrite E0, E1, Ef. by rewrite decide_True.
Qed.

Lemma check_columns_unknown n info r rows q rest chg fuel :
  (2 <= n)%nat -> on_row n r rows q -> mfind (col 0 r) (mapField info) = None ->
  check_columns fuel info q rest chg = Ok None.
Proof.
  intros Hn Q Ef. induction fuel as [|fuel IH]; simpl; [done|].
  rewrite (Fetch_null_on n r rows q Q) by lia.
  destruct (field_col n r rows q 0 Q) as (f0 & E0 & G0); [lia|].
  destruct (field_col n r rows q 1 Q) as (f1 & E1 & _); [lia|].
  rewrite E0, E1. simpl. by rewrite G0, Ef.
Qed.

(** [fuel] turns over the rows, all known and of the right type. *)
Lemma check_columns_all n info rows r q rest fuel :
  (2 <= n)%nat -> on_row n r rows q -> Forall (row_matches info) (r :: rows) ->
  (length rows < fuel)%nat ->
  check_columns fuel info q rest [] = Ok (Some (fold_left (fun m r => merase (col 0 r) m) (r :: rows) rest, [])).
Proof.
  intros Hn. revert r q rest fuel. induction rows as [|r' rows IH]; intros r q rest [|fuel] Q Hr Hf;
    simpl in Hf; try lia; inversion Hr as [|? ? Hr1 Hr2]; subst;
    rewrite (check_columns_known n _ _ _ _ _ _ _ Hn Q Hr1);
    pose proof (NextRow_ok n r _ q Q) as N.
  - by destruct N as (q' & -> & _).
  - destruct N as (q' & -> & Q'). simpl. apply IH; [done|done|lia].
Qed.

(** An unknown row after known ones: no number of turns is enough. *)
Lemma check_columns_stuck n info rows1 r2 rows2 r q rest fuel :
  (2 <= n)%nat -> on_row n r (rows1 ++ r2 :: rows2) q -> Forall (row_matches info) (r :: rows1) ->
  mfind (col 0 r2) (mapField info) = None ->
  check_columns fuel info q rest [] = Ok None.
Proof.
  intros Hn. revert r q rest fuel. induction rows1 as [|r1 rows1 IH]; intros r q rest [|fuel] Q Hr Hu;
    try done; inversion Hr as [|? ? Hr1 Hr2]; subst;
    rewrite (check_columns_known n _ _ _ _ _ _ _ Hn Q Hr1);
    pose proof (NextRow_ok n r _ q Q) as N; simpl in N; destruct N as (q' & -> & Q'); simpl.
  - by apply (check_columns_unknown n _ r2 rows2).
  - by apply (IH r1).
Qed.

Lemma mfind_erase_rows k (rows : list row) (m : list (bytes * sFieldInfo)) : sorted_map m ->
  mfind k (fold_left (fun m r => merase (col 0 r) m) rows m)
  = if decide (k ∈ col 0 <$> rows) then None else mfind k m.
Proof.
  revert m. induction rows as [|r rows IH]; intros m Hm; simpl; [done|].
  rewrite IH by (by apply sorted_merase). rewrite mfind_merase by done.
  repeat case_decide; try done; set_solver.
Qed.

(** The answer of [desc], as the tool hands it over. *)
Definition describes (m : MySqlManager) (info : sTableInfo) (n : nat) (rows : list row)
    (m1 : MySqlManager) : Prop :=
  exists t, m_mysql m = Some t /\ exists q,
    tool (MySQLTool.Query (bs " desc " ++ tName info ++ bs ";")) m = Ok (Some q, m1)
    /\ match rows with
       | r :: rows => on_row n r rows q
       | [] => at_end q /\ row_capacity q = n
       end.

(** ** Properties *)

(** when every column the server describes is in the schema with the declared type,
    [CheckTable] ends, after as many turns as there are columns, and issues one [alter table]
    statement for each column of the schema the server did not list, in key order, and nothing
    else; for a complete table it issues none and succeeds. *)
Theorem CheckTable_completes fuel info m n rows m1 :
  (2 <= n)%nat -> sorted_map (mapField info) -> describes m info n rows m1 -> rows <> [] ->
  Forall (row_matches info) rows -> (length rows <= fuel)%nat ->
  exists missing,
    (forall k, mfind k missing = if decide (k ∈ col 0 <$> rows) then None else mfind k (mapField info))
    /\ sorted_map missing
    /\ CheckTable fuel info m = (ok ← alter_all info (bs " add colum ") missing; mret (Some ok)) m1.
Proof.
  intros Hn Hs (t & Et & q & Eq & Q) Hne Hr Hf. destruct rows as [|r rows]; [done|].
  exists (fold_left (fun m r => merase (col 0 r) m) (r :: rows) (mapField info)).
  split; [|split].
  - intros k. by apply mfind_erase_rows.
  - clear -Hs. revert Hs. generalize (mapField info). induction (r :: rows) as [|x l IH]; intros m Hm;
      simpl; [done|]. by apply IH, sorted_merase.
  - unfold CheckTable. rewrite (bind_ok _ _ _ _ _ (no_tool_some m t Et)).
    rewrite (bind_ok _ _ _ _ _ Eq).
    rewrite (bind_ok _ _ m1 (Some (fold_left (fun m r => merase (col 0 r) m) (r :: rows) (mapField info), [])) m1).
    { unfold mbind, M_bind. by destruct (alter_all _ _ _ m1) as [[[] m2]| |]. }
    unfold lift. by rewrite (check_columns_all n _ rows r) by (simpl in Hf; done || lia).
Qed.

(** a column of the database that the schema does not have makes [CheckTable] loop for
    ever: the [continue] skips [NextRow], so the same row is looked at again. The server then
    never starts. *)
Theorem CheckTable_diverges info m n rows1 r rows2 m1 :
  (2 <= n)%nat -> describes m info n (rows1 ++ r :: rows2) m1 -> Forall (row_matches info) rows1 ->
  mfind (col 0 r) (mapField info) = None ->
  forall fuel, CheckTable fuel info m = Ok (None, m1).
Proof.
  intros Hn (t & Et & q & Eq & Q) Hr Hu fuel. unfold CheckTable.
  rewrite (bind_ok _ _ _ _ _ (no_tool_some m t Et)). rewrite (bind_ok _ _ _ _ _ Eq).
  rewrite (bind_ok _ _ m1 None m1); [done|]. unfold lift.
  destruct rows1 as [|r1 rows1]; simpl in Q.
  - by rewrite (check_columns_unknown n info r rows2).
  - by rewrite (check_columns_stuck n info rows1 r rows2 r1).
Qed.

(** [CreateDatabase] reports failure when the statement succeeds at the first attempt: the
    row count it tests for 1 is only assigned after a reconnection. [Init] gives up after
    creating the database. *)
Theorem CreateDatabase_fails m t h : m_mysql m = Some t -> MySQLTool.m_mysql t = Some h ->
  (mysql_real_query h (c_str (bs " create database " ++ GetDBName t ++ bs ";")) (server m)).1 = 0 ->
  exists m', CreateDatabase m = Ok (false, m').
Proof.
  intros Et Eh Er. unfold CreateDatabase. rewrite (bind_ok _ _ _ _ _ (no_tool_some m t Et)).
  unfold dbname. erewrite bind_ok by (eapply tool_ok; [done|unfold gets; done]). cbn [fst].
  eexists. erewrite (bind_ok _ _ _ (true, Some 0, Some 0)); [reflexivity|]. eapply tool_ok; [done|].
  rewrite (Execute_counted_up _ _ _ _ _ h Eh). simpl.
  pose proof (call_ok (fun h => mysql_real_query h (c_str (bs " create database " ++ GetDBName t ++ bs ";")))
    t (server m) h Eh) as C. cbv beta in C. rewrite Er in C.
  erewrite attempt_first by exact C. reflexivity.
Qed.
End manager.

(** ** The schema, and the witnesses *)

Lemma tables_sorted : Forall (fun p => sorted_map (mapField p.2)) tables.
Proof. repeat constructor. Qed.

(** What [desc t_user_relationship] answers when a column is missing, and when there is one of
    somebody else's. *)
Definition desc_row (name tp : bytes) : row := [Some name; Some tp; Some (bs "NO")].
Definition desc_result (rows : list row) : MYSQL_RES :=
  {| res_fields := [(bs "Field", FIELD_TYPE_VAR_STRING); (bs "Type", FIELD_TYPE_BLOB);
                    (bs "Null", FIELD_TYPE_VAR_STRING)];
     res_rows := rows |}.
Definition known_rows : list row :=
  [desc_row (bs "f_id") (bs "bigint(20)"); desc_row (bs "f_user_id1") (bs "bigint(20)")].
Definition unknown_row : row := desc_row (bs "f_extra") (bs "int").

Definition manager_on (l : list reply) : MySqlManager :=
  {| m_mapTable := tables; m_mysql := Some open_tool; server := replaying l |}.

(** The manager after its query for the description. *)
Definition described (rows : list row) : MySqlManager :=
  {| m_mapTable := tables; m_mysql := Some open_tool;
     server := {| to_come := []; answered := result_reply (desc_result rows);
                  received := [bs " desc t_user_relationship;"] |} |}.

Lemma manager_describes r rows : Forall (fun r => length r = 3%nat) (r :: rows) ->
  describes (manager_on [result_reply (desc_result (r :: rows))]) t_user_relationship 3 (r :: rows)
    (described (r :: rows)).
Proof.
  intros Hl. exists open_tool. split; [done|].
  pose proof (QueryResult_new_ok (desc_result (r :: rows)) 3 (to_u32 (len (r :: rows)))
    (Build_res_ok 3 (desc_result (r :: rows)) eq_refl Hl)) as (q & Eq & Q).
  change (Z.of_nat 3) with 3 in Eq. exists q. split; [|exact Q].
  refine (tool_ok _ (manager_on [result_reply (desc_result (r :: rows))]) open_tool (Some q) open_tool
    (server (described (r :: rows))) eq_refl _).
  change (_ = ?x) with ((q ← lift (QueryResult_new (Some (desc_result (r :: rows)))
      (to_u32 (len (r :: rows))) 3); mret (Some q)) (open_tool, server (described (r :: rows))) = x).
  etransitivity; [apply bind_ok; unfold lift; by rewrite Eq|done].
Qed.

Lemma CheckTable_completes_witness : exists missing,
  (forall k, mfind k missing = if decide (k ∈ col 0 <$> known_rows) then None
                               else mfind k (mapField t_user_relationship))
  /\ sorted_map missing
  /\ CheckTable 5 t_user_relationship (manager_on [result_reply (desc_result known_rows)])
     = (ok ← alter_all t_user_relationship (bs " add colum ") missing; mret (Some ok))
         (described known_rows).
Proof.
  apply (CheckTable_completes 5 t_user_relationship _ 3 known_rows (described known_rows)).
  - lia.
  - repeat constructor.
  - apply manager_describes. by repeat constructor.
  - done.
  - repeat constructor; eexists; (split; [by vm_compute|by vm_compute]).
  - vm_compute. lia.
Defined.

Lemma CheckTable_diverges_witness :
  CheckTable 1000 t_user_relationship (manager_on [result_reply (desc_result (known_rows ++ [unknown_row]))])
  = Ok (None, described (known_rows ++ [unknown_row])).
Proof.
  apply (CheckTable_diverges t_user_relationship _ 3 known_rows unknown_row []
           (described (known_rows ++ [unknown_row]))).
  - lia.
  - apply manager_describes. by repeat constructor.
  - repeat constructor; eexists; (split; [by vm_compute|by vm_compute]).
  - by vm_compute.
Defined.

Lemma CreateDatabase_fails_witness : exists m', CreateDatabase (manager_on []) = Ok (false, m').
Proof. by apply (CreateDatabase_fails (manager_on []) open_tool tt). Defined.
