(* ===== verification/Database.v ===== *)
(** * The database as its clients see it

    [UserManager] reaches MySQL through [Singleton<MySqlManager>] with two calls. The class
    states them; [MySqlManager] over any client library implements it. *)

From S2P Require Import Prelude QueryResult MySQLTool MySqlManager.

Class Database (D : Type) := {
  (** [MySqlManager::Excute]: whether the statement succeeded. *)
  Excute : bytes -> M D bool;
  (** [MySqlManager::Query]: the stored result, or the null pointer. *)
  Query : bytes -> M D (option QueryResult);
}.

#[export] Instance mysql_database {D} `{MySQL D} : Database MySqlManager := {|
  Excute := MySqlManager.Excute;
  Query := MySqlManager.Query;
|}.

(** A database that accepts every statement and keeps its text, and answers queries with a
    given result; for the witnesses. *)
Record journal := { statements : list bytes; answer : option QueryResult }.

Definition wrote (sql : bytes) (d : journal) : journal :=
  {| statements := statements d ++ [sql]; answer := answer d |}.

Definition journal_database : Database journal := {|
  Excute := fun sql d => Ok (true, wrote sql d);
  Query := fun sql d => Ok (answer d, wrote sql d);
|}.

Definition journal_new : journal := {| statements := []; answer := None |}.
