(* ===== verification/UserManager.v ===== *)
(** * UserManager (UserManager.h, UserManager.cpp)

    The users and groups, loaded from the database at start-up and kept in memory: a group is
    a user whose id is not below [GROUPID_BOUBDARY], its members are its friends. *)

From S2P Require Import Prelude Bytes Text StdMap Field QueryResult Database.

Definition GROUPID_BOUBDARY : Z := 268435455.    (* 0x0FFFFFFF *)

(** [clienttype] and [status] are indeterminate until somebody assigns them. *)
Record User := {
  userid : Z;
  username : bytes;
  password : bytes;
  nickname : bytes;
  facetype : Z;
  custimface : bytes;
  customfacefmt : bytes;
  gender : Z;
  birthday : Z;
  signature : bytes;
  address : bytes;
  phonenumber : bytes;
  mail : bytes;
  ownerid : Z;
  clienttype : option Z;
  status : option Z;
  friends : list Z;        (* std::set<int32_t> *)
}.

(** [User::User] *)
Definition User_new : User := {|
  userid := -1; username := []; password := []; nickname := []; facetype := -1; custimface := [];
  customfacefmt := []; gender := -1; birthday := -1; signature := []; address := [];
  phonenumber := []; mail := []; ownerid := -1; clienttype := None; status := None; friends := [] |}.

(** The user [OnRegisterResponse] registers. *)
Definition registered (name nick pass : bytes) : User := {|
  userid := -1; username := name; password := pass; nickname := nick; facetype := -1;
  custimface := []; customfacefmt := []; gender := -1; birthday := -1; signature := [];
  address := []; phonenumber := []; mail := []; ownerid := -1; clienttype := None;
  status := None; friends := [] |}.

Record UserManager := {
  m_cachedUsers : list User;
  m_mapUsers : list (Z * User);
  m_baseUserID : Z;
  m_baseGrupID : Z;
}.

Definition UserManager_new : UserManager :=
  {| m_cachedUsers := []; m_mapUsers := []; m_baseUserID := 0; m_baseGrupID := 268435455 |}.

Definition set_users (l : list User) (m : UserManager) : UserManager :=
  {| m_cachedUsers := l; m_mapUsers := m_mapUsers m; m_baseUserID := m_baseUserID m;
     m_baseGrupID := m_baseGrupID m |}.
Definition set_baseUserID (i : Z) (m : UserManager) : UserManager :=
  {| m_cachedUsers := m_cachedUsers m; m_mapUsers := m_mapUsers m; m_baseUserID := i;
     m_baseGrupID := m_baseGrupID m |}.
Definition set_baseGrupID (i : Z) (m : UserManager) : UserManager :=
  {| m_cachedUsers := m_cachedUsers m; m_mapUsers := m_mapUsers m; m_baseUserID := m_baseUserID m;
     m_baseGrupID := i |}.

Definition set_friends (l : list Z) (u : User) : User := {|
  userid := userid u; username := username u; password := password u; nickname := nickname u;
  facetype := facetype u; custimface := custimface u; customfacefmt := customfacefmt u;
  gender := gender u; birthday := birthday u; signature := signature u; address := address u;
  phonenumber := phonenumber u; mail := mail u; ownerid := ownerid u; clienttype := clienttype u;
  status := status u; friends := l |}.

Definition set_password (p : bytes) (u : User) : User := {|
  userid := userid u; username := username u; password := p; nickname := nickname u;
  facetype := facetype u; custimface := custimface u; customfacefmt := customfacefmt u;
  gender := gender u; birthday := birthday u; signature := signature u; address := address u;
  phonenumber := phonenumber u; mail := mail u; ownerid := ownerid u; clienttype := clienttype u;
  status := status u; friends := friends u |}.

(** ** Operations *)

(** The first cached user that passes a test: the search loops. *)
Definition find_user (p : User -> bool) (l : list User) : option User := List.find p l.

(** The loops that change the first user with an id and return [true]. *)
Fixpoint update_user (id : Z) (f : User -> User) (l : list User) : bool * list User :=
  match l with
  | [] => (false, [])
  | u :: l' =>
      if decide (userid u = id) then (true, f u :: l')
      else let '(r, l'') := update_user id f l' in (r, u :: l'')
  end.

(** The loops of [AddFriendToUser] and [DeleteFriendToUser]: both sides' sets, until both ids
    have been met. *)
Fixpoint link_loop (change : Z -> list Z -> list Z) (uid friendid : Z) (found1 found2 : bool)
    (l : list User) : bool * list User :=
  match l with
  | [] => (false, [])
  | u :: l' =>
      let '(u, found1) := if decide (userid u = uid)
        then (set_friends (change friendid (friends u)) u, true) else (u, found1) in
      let '(u, found2) := if decide (userid u = friendid)
        then (set_friends (change uid (friends u)) u, true) else (u, found2) in
      if found1 && found2 then (true, u :: l')
      else let '(r, l'') := link_loop change uid friendid found1 found2 l' in (r, u :: l'')
  end.

Section manager.
Context {D : Type} `{Database D}.

(** Code that runs on the manager and the database. *)
Definition U (A : Type) : Type := M (UserManager * D) A.

Definition mgr {A} (f : UserManager -> A) : U A := gets (fun s => f s.1).
Definition update (f : UserManager -> UserManager) : U unit := modify (fun s => (f s.1, s.2)).
Definition db {A} (m : M D A) : U A := zoom snd (fun d s => (s.1, d)) m.

Definition insert_user_sql (id : Z) (u : User) : bytes :=
  bs "INSERT INTO t_user (f_user_id,f_username,f_nickname,f_password,f_register_time)"
  ++ bs " VALUES(" ++ to_dec id ++ bs ",'" ++ username u ++ bs "','" ++ nickname u ++ bs "','"
  ++ password u ++ bs "',NOW());".

(** [AddUser]: the result, and the user passed by reference. *)
Definition AddUser (user : User) : U (bool * User) :=
  base ← mgr m_baseUserID;
  base ← lift (int_add base 1);
  _ ← update (set_baseUserID base);
  result ← db (Excute (insert_user_sql base user));
  if result : bool then
    let user := {|
      userid := base; username := username user; password := password user;
      nickname := nickname user; facetype := 0; custimface := custimface user;
      customfacefmt := customfacefmt user; gender := 0; birthday := 20000101;
      signature := signature user; address := address user; phonenumber := phonenumber user;
      mail := mail user; ownerid := 0; clienttype := clienttype user; status := status user;
      friends := friends user |} in
    _ ← update (fun m => set_users (m_cachedUsers m ++ [user]) m);
    mret (true, user)
  else mret (false, user).

Definition load_users_sql : bytes :=
  bs "SELECT f_user_id,f_username,f_nickname,f_password,f_facetype,f_customface,f_gender,f_birthday,f_signature,f_address,f_phonenumber,f_mail FROM t_user ORDER BY f_user_id DESC;".

(** The body of the loading loop: [pRow[0]] to [pRow[11]] into a new user. *)
Definition read_user (q : QueryResult) : outcome User :=
  c0 ← field_at q 0; c1 ← field_at q 1; c2 ← field_at q 2; c3 ← field_at q 3;
  c4 ← field_at q 4; c5 ← field_at q 5; c6 ← field_at q 6; c7 ← field_at q 7;
  c8 ← field_at q 8; c9 ← field_at q 9; c10 ← field_at q 10; c11 ← field_at q 11;
  mret {| userid := toInt32 c0; username := GetString c1; password := GetString c3;
    nickname := GetString c2; facetype := toInt32 c4; custimface := GetString c5;
    customfacefmt := []; gender := toInt32 c6; birthday := toInt32 c7; signature := GetString c8;
    address := GetString c9; phonenumber := GetString c10; mail := GetString c11; ownerid := -1;
    clienttype := None; status := None; friends := [] |}.

Definition load_user (q : QueryResult) (_ : unit) : U unit :=
  u ← lift (read_user q);
  _ ← update (fun m => set_users (m_cachedUsers m ++ [u]) m);
  update (fun m => if decide (m_baseUserID m < userid u) then set_baseUserID (userid u) m else m).

Definition LoadUserFromDB : U bool :=
  result ← db (Query load_users_sql);
  match result with
  | None => mret false
  | Some q => _ ← while_rows load_user tt q; mret true
  end.

Definition load_relationship_sql (id : Z) : bytes :=
  bs "SELECT f_user_id1,f_user_id2 FROM t_user_relationship WHERE f_user_id1=" ++ to_dec id
  ++ bs " OR f_user_id2=" ++ to_dec id ++ bs ";".

Definition load_friend (id : Z) (q : QueryResult) (fs : list Z) : U (list Z) :=
  c0 ← lift (field_at q 0);
  c1 ← lift (field_at q 1);
  let friendid1 := toInt32 c0 in
  let firendid2 := toInt32 c1 in
  mret (if decide (friendid1 = id) then sinsert firendid2 fs else sinsert friendid1 fs).

(** [LoadRelationshipFromDB]: the result, and the set passed by reference. *)
Definition LoadRelationshipFromDB (id : Z) (fs : list Z) : U (bool * list Z) :=
  result ← db (Query (load_relationship_sql id));
  match result with
  | None => mret (false, fs)
  | Some q => fs ← while_rows (load_friend id) fs q; mret (true, fs)
  end.

(** The loop of [Init] over the users, which writes each one's friends in place. *)
Fixpoint load_friends (l : list User) : U (list User) :=
  match l with
  | [] => mret []
  | u :: l' =>
      '(_, fs) ← LoadRelationshipFromDB (userid u) (friends u);
      l'' ← load_friends l';
      mret (set_friends fs u :: l'')
  end.

Definition Init : U bool :=
  ok ← LoadUserFromDB;
  if ok : bool then
    l ← mgr m_cachedUsers;
    l' ← load_friends l;
    _ ← update (set_users l');
    mret true
  else mret false.

(** The queries: [None] is [false] with the output parameter unchanged. *)
Definition GetUserInfoByUsername (name : bytes) : U (option User) :=
  mgr (fun m => find_user (fun u => bool_decide (username u = name)) (m_cachedUsers m)).

Definition GetUserInfoByUserId (id : Z) : U (option User) :=
  mgr (fun m => find_user (fun u => userid u =? id) (m_cachedUsers m)).

(** [GetFriendInfoByUserId]: always [true]; the users appended to the empty list it is given. *)
Definition friends_of (id : Z) (l : list User) : list Z :=
  match find_user (fun u => userid u =? id) l with Some u => friends u | None => [] end.

Definition GetFriendInfoByUserId (id : Z) : U (list User) :=
  mgr (fun m =>
    omap (fun f => find_user (fun u => userid u =? f) (m_cachedUsers m))
      (friends_of id (m_cachedUsers m))).

Definition GetUserByID (id : Z) : U (option User) := mgr (fun m => mfind id (m_mapUsers m)).

Definition AddFriendToUser (id friendid : Z) : U bool :=
  l ← mgr m_cachedUsers;
  let '(r, l') := link_loop sinsert id friendid false false l in
  _ ← update (set_users l');
  mret r.

Definition DeleteFriendToUser (id friendid : Z) : U bool :=
  l ← mgr m_cachedUsers;
  let '(r, l') := link_loop serase id friendid false false l in
  _ ← update (set_users l');
  mret r.

Definition make_relationship_sql (smallid greatid : Z) : bytes :=
  bs "INSERT INTO t_user_relationship(f_user_id1, f_user_id2) VALUES(" ++ to_dec smallid ++ bs ","
  ++ to_dec greatid ++ bs ") ;".

Definition MakeFriendRelationship (smallid greatid : Z) : U bool :=
  if decide (smallid >= greatid) then mret false
  else
    ok ← db (Excute (make_relationship_sql smallid greatid));
    if ok : bool then
      AddFriendToUser smallid greatid
    else mret false.

Definition release_relationship_sql (smallid greatid : Z) : bytes :=
  c_str (snprintf 256 (bs "DELETE FROM t_user_relationship WHERE f_user_id1 = " ++ to_dec smallid
    ++ bs " AND f_user_id2 = " ++ to_dec greatid ++ bs " ;")).

Definition ReleaseFriendRelationship (smallid greatid : Z) : U bool :=
  if decide (smallid >= greatid) then mret false
  else
    ok ← db (Excute (release_relationship_sql smallid greatid));
    if ok : bool then DeleteFriendToUser smallid greatid else mret false.

Definition update_user_sql (id : Z) (i : User) : bytes :=
  bs "UPDATE t_user SET f_nickname='" ++ nickname i ++ bs "', f_facetype=" ++ to_dec (facetype i)
  ++ bs ", f_customface='" ++ custimface i ++ bs "', f_gender=" ++ to_dec (gender i)
  ++ bs ", f_birthday=" ++ to_dec (birthday i) ++ bs ", f_signature='" ++ signature i
  ++ bs "', f_address='" ++ address i ++ bs "', f_phonenumber='" ++ phonenumber i
  ++ bs "', f_mail='" ++ mail i ++ bs "' WHERE f_user_id=" ++ to_dec id ++ bs ";".

(** The nine assignments of [UpdateUserInfo]. *)
Definition with_info (i u : User) : User := {|
  userid := userid u; username := username u; password := password u; nickname := nickname i;
  facetype := facetype i; custimface := custimface i; customfacefmt := customfacefmt u;
  gender := gender i; birthday := birthday i; signature := signature i; address := address i;
  phonenumber := phonenumber i; mail := mail i; ownerid := ownerid u; clienttype := clienttype u;
  status := status u; friends := friends u |}.

Definition UpdateUserInfo (id : Z) (newuserinfo : User) : U bool :=
  ok ← db (Excute (update_user_sql id newuserinfo));
  if ok : bool then
    l ← mgr m_cachedUsers;
    let '(r, l') := update_user id (with_info newuserinfo) l in
    _ ← update (set_users l');
    mret r
  else mret false.

Definition modify_password_sql (id : Z) (newpassword : bytes) : bytes :=
  bs "UPDATE t_user SET f_password='" ++ newpassword ++ bs "' WHERE f_user_id=" ++ to_dec id ++ bs ";".

Definition ModifyUserPassword (id : Z) (newpassword : bytes) : U bool :=
  ok ← db (Excute (modify_password_sql id newpassword));
  if ok : bool then
    l ← mgr m_cachedUsers;
    let '(r, l') := update_user id (set_password newpassword) l in
    _ ← update (set_users l');
    mret r
  else mret false.

Definition insert_group_sql (id : Z) (groupname : bytes) (owner : Z) : bytes :=
  c_str (snprintf 256 (
    bs "INSERT INTO t_user(f_user_id, f_username, f_nickname, f_password, f_owner_id, f_register_time) VALUES("
    ++ to_dec id ++ bs ", '" ++ to_dec id ++ bs "', '" ++ groupname ++ bs "', '', " ++ to_dec owner
    ++ bs ",  NOW());")).

(** [AddGroup], on a C string: the group id, assigned only on success ([None] is [false]). *)
Definition AddGroup (groupname : bytes) (owner : Z) : U (option Z) :=
  base ← mgr m_baseGrupID;
  base ← lift (int_add base 1);
  _ ← update (set_baseGrupID base);
  ok ← db (Excute (insert_group_sql base (c_str groupname) owner));
  if ok : bool then
    let u := {|
      userid := base; username := c_str (snprintf 12 (to_dec base)); password := [];
      nickname := c_str groupname; facetype := -1; custimface := []; customfacefmt := [];
      gender := -1; birthday := -1; signature := []; address := []; phonenumber := []; mail := [];
      ownerid := owner; clienttype := None; status := None; friends := [] |} in
    _ ← update (fun m => set_users (m_cachedUsers m ++ [u]) m);
    mret (Some base)
  else mret None.

Definition save_chat_sql (senderid targetid : Z) (chatmsg : bytes) : bytes :=
  bs "INSERT INTO t_chatmsg(f_senderid, f_targetid, f_msgcontent) VALUES(" ++ to_dec senderid
  ++ bs ", " ++ to_dec targetid ++ bs ", '" ++ chatmsg ++ bs "');".

Definition SaveChatMsgToDb (senderid targetid : Z) (chatmsg : bytes) : U bool :=
  ok ← db (Excute (save_chat_sql senderid targetid chatmsg));
  mret ok.
End manager.
