(* ===== verification/UserManagerProofs.v ===== *)
(** * Theorems on UserManager

    The friend relation and its queries, the ids it hands out, and what loading from the
    database gives. *)

From S2P Require Import Prelude Bytes Text StdMap Field QueryResult MySqlManager Database UserManager.

Abbreviation UserManager := UserManager.UserManager.

Definition ids (l : list User) : list Z := userid <$> l.

#[global] Arguments ids : simpl never.

Lemma ids_cons u l : ids (u :: l) = userid u :: ids l. Proof. done. Qed.
Lemma ids_app l1 l2 : ids (l1 ++ l2) = ids l1 ++ ids l2. Proof. apply fmap_app. Qed.

(** ** The loops *)

Lemma find_user_id id l u : find_user (fun u => userid u =? id) l = Some u -> u ∈ l /\ userid u = id.
Proof.
  intros E. apply List.find_some in E as [Hin E]. apply Z.eqb_eq in E.
  by rewrite list_elem_of_In.
Qed.

Lemma find_user_none id l : find_user (fun u => userid u =? id) l = None <-> id ∉ ids l.
Proof.
  unfold ids, find_user. induction l as [|u l IH]; simpl; [split; [intros _ H; by apply elem_of_nil in H|done]|].
  rewrite not_elem_of_cons. destruct (Z.eqb_spec (userid u) id) as [E|E]; [naive_solver|].
  rewrite IH. naive_solver.
Qed.

Lemma find_user_some l u : NoDup (ids l) -> u ∈ l ->
  find_user (fun v => userid v =? userid u) l = Some u.
Proof.
  intros N. induction l as [|v l IH]; [by intros ?%elem_of_nil|].
  inversion N as [|? ? Hv N']; subst. rewrite elem_of_cons. simpl. intros [->|Hin].
  - by rewrite Z.eqb_refl.
  - destruct (Z.eqb_spec (userid v) (userid u)) as [E|E]; [|by apply IH].
    destruct Hv. rewrite E. by apply list_elem_of_fmap_2.
Qed.

Lemma find_user_is id l : id ∈ ids l -> exists u, find_user (fun u => userid u =? id) l = Some u.
Proof.
  intros Hin. destruct (find_user _ l) as [u|] eqn:E; [by exists u|].
  by apply find_user_none in E.
Qed.

(** What [link_loop] does to a user. *)
Definition link_one (change : Z -> list Z -> list Z) (a b : Z) (u : User) : User :=
  if decide (userid u = a) then set_friends (change b (friends u)) u
  else if decide (userid u = b) then set_friends (change a (friends u)) u
  else u.

Lemma link_one_id change a b u : userid (link_one change a b u) = userid u.
Proof. unfold link_one. by repeat case_decide. Qed.

Lemma link_one_other change a b l : a ∉ ids l -> b ∉ ids l -> link_one change a b <$> l = l.
Proof.
  intros Ha Hb. induction l as [|u l IH]; [done|]. rewrite ids_cons, not_elem_of_cons in Ha, Hb.
  rewrite fmap_cons. rewrite IH by naive_solver. f_equal.
  unfold link_one. by rewrite !decide_False by naive_solver.
Qed.

Lemma link_loop_spec change a b f1 f2 l : NoDup (ids l) -> a <> b -> f1 && f2 = false ->
  (f1 = true -> a ∉ ids l) -> (f2 = true -> b ∉ ids l) ->
  link_loop change a b f1 f2 l
  = (bool_decide ((f1 = true \/ a ∈ ids l) /\ (f2 = true \/ b ∈ ids l)), link_one change a b <$> l).
Proof.
  intros N Hab. revert f1 f2. induction l as [|u l IH]; intros f1 f2 Hf H1 H2; cbn [link_loop].
  { rewrite bool_decide_false; [done|]. rewrite !elem_of_nil. destruct f1, f2; naive_solver. }
  inversion N as [|? ? Hu N']; subst. rewrite ids_cons in *. change (userid <$> l) with (ids l) in *.
  setoid_rewrite not_elem_of_cons in H1. setoid_rewrite not_elem_of_cons in H2.
  rewrite fmap_cons.
  assert (forall g1 g2, g1 && g2 = false -> (g1 = true -> a ∉ ids l) ->
    (g2 = true -> b ∉ ids l) ->
    (f1 = true \/ a ∈ userid u :: ids l) <-> (g1 = true \/ a ∈ ids l) ->
    (f2 = true \/ b ∈ userid u :: ids l) <-> (g2 = true \/ b ∈ ids l) ->
    (let '(r, l'') := link_loop change a b g1 g2 l in (r, link_one change a b u :: l''))
    = (bool_decide ((f1 = true \/ a ∈ userid u :: ids l)
         /\ (f2 = true \/ b ∈ userid u :: ids l)), link_one change a b u :: (link_one change a b <$> l))) as Hgo.
  { intros g1 g2 Hg Hg1 Hg2 E1 E2. rewrite IH by done. f_equal. apply bool_decide_ext. tauto. }
  unfold link_one in Hgo |- *. destruct (decide (userid u = a)) as [Ea|Ea]; simpl.
  - rewrite (decide_False (P := userid u = b)) by congruence. destruct f2 eqn:Ef2; simpl.
    + rewrite bool_decide_true by (rewrite !elem_of_cons; naive_solver).
      pose proof (link_one_other change a b l) as O. unfold link_one in O.
      rewrite O; [done|by rewrite <- Ea|naive_solver].
    + apply Hgo; rewrite ?elem_of_cons; naive_solver.
  - destruct (decide (userid u = b)) as [Eb|Eb]; simpl.
    + destruct f1 eqn:Ef1; simpl.
      * rewrite bool_decide_true by (rewrite !elem_of_cons; naive_solver).
        pose proof (link_one_other change a b l) as O. unfold link_one in O.
        rewrite O; [done|naive_solver|by rewrite <- Eb].
      * apply Hgo; rewrite ?elem_of_cons; naive_solver.
    + rewrite Hf. apply Hgo; rewrite ?elem_of_cons; naive_solver.
Qed.

Lemma link_loop_all change a b l : NoDup (ids l) -> a <> b ->
  link_loop change a b false false l
  = (bool_decide (a ∈ ids l /\ b ∈ ids l), link_one change a b <$> l).
Proof.
  intros N Hab. rewrite link_loop_spec by done. f_equal. apply bool_decide_ext. naive_solver.
Qed.

(** *** The relation the loops maintain *)

Lemma ids_fmap f l : (forall u, userid (f u) = userid u) -> ids (f <$> l) = ids l.
Proof. intros Hf. unfold ids. rewrite <- list_fmap_compose. apply list_fmap_ext. intros i u _. apply Hf. Qed.

Lemma find_user_fmap f id l : (forall u, userid (f u) = userid u) ->
  find_user (fun u => userid u =? id) (f <$> l)
  = f <$> find_user (fun u => userid u =? id) l.
Proof.
  intros Hf. unfold find_user. induction l as [|u l IH]; [done|].
  rewrite fmap_cons. cbn [List.find]. rewrite Hf. by destruct (userid u =? id).
Qed.

(** [friends_of] after linking: the sets of the two users change, no other. *)
Lemma friends_of_link change a b l x :
  friends_of x (link_one change a b <$> l) =
  (if decide (x ∈ ids l) then
     if decide (x = a) then change b (friends_of x l)
     else if decide (x = b) then change a (friends_of x l)
     else friends_of x l
   else []).
Proof.
  unfold friends_of. rewrite find_user_fmap by (intros; apply link_one_id).
  case_decide as Hx.
  - destruct (find_user_is x l Hx) as (u & E). rewrite E. simpl.
    apply find_user_id in E as [_ <-]. unfold link_one. by repeat case_decide.
  - apply find_user_none in Hx. by rewrite Hx.
Qed.

Lemma friends_of_unknown x l : x ∉ ids l -> friends_of x l = [].
Proof. intros Hx. unfold friends_of. apply find_user_none in Hx. by rewrite Hx. Qed.

Lemma update_user_fst id f l : (update_user id f l).1 = bool_decide (id ∈ ids l).
Proof.
  induction l as [|u l IH]; simpl; [done|].
  rewrite ids_cons. destruct (decide (userid u = id)) as [E|E]; simpl.
  - rewrite bool_decide_true; [done|]. rewrite elem_of_cons. by left.
  - destruct (update_user id f l) as [r l']. simpl in *. rewrite IH. apply bool_decide_ext.
    rewrite elem_of_cons. naive_solver.
Qed.

Lemma update_user_ids id f l : (forall u, userid (f u) = userid u) -> ids (update_user id f l).2 = ids l.
Proof.
  intros Hf. induction l as [|u l IH]; simpl; [done|]. case_decide; simpl; rewrite ?ids_cons, ?Hf; [done|].
  destruct (update_user id f l) as [r l']. simpl in *. by rewrite ids_cons, IH.
Qed.

(** Updating by id is a map when ids are distinct. *)
Lemma update_user_map id f l : NoDup (ids l) ->
  (update_user id f l).2 = (fun u => if decide (userid u = id) then f u else u) <$> l.
Proof.
  induction l as [|u l IH]; intros N; [done|]. rewrite ids_cons in N.
  inversion N as [|? ? Hu N']; subst. rewrite fmap_cons. cbn [update_user].
  case_decide as E; cbn [snd].
  - f_equal. clear IH N N'. induction l as [|v l IH]; [done|]. rewrite ids_cons, not_elem_of_cons in Hu.
    destruct Hu as [Hv Hu]. rewrite fmap_cons, decide_False by congruence. f_equal. by apply IH.
  - rewrite <- (IH N'). by destruct (update_user id f l).
Qed.

(** ** The invariant *)

(** Ids are distinct and below the counters, users on one side of the boundary and groups on
    the other; every friend set is a [std::set]. *)
Record users_ok (m : UserManager) : Prop := {
  ids_distinct : NoDup (ids (m_cachedUsers m));
  ids_ranges : Forall (fun i => 1 <= i <= m_baseUserID m \/ GROUPID_BOUBDARY < i <= m_baseGrupID m)
                 (ids (m_cachedUsers m));
  sets_sorted : Forall (fun u => sorted_set (friends u)) (m_cachedUsers m);
  user_base : 0 <= m_baseUserID m <= GROUPID_BOUBDARY;
  group_base : GROUPID_BOUBDARY <= m_baseGrupID m <= INT_MAX;
}.

Lemma UserManager_new_ok : users_ok UserManager_new.
Proof. split; simpl; try constructor; unfold GROUPID_BOUBDARY, INT_MAX; lia. Qed.

Lemma users_ok_set_users m l : users_ok m -> ids l = ids (m_cachedUsers m) ->
  Forall (fun u => sorted_set (friends u)) l -> users_ok (set_users l m).
Proof. intros [] E F. split; simpl; rewrite ?E; done. Qed.

Lemma users_ok_snoc m u : users_ok m -> userid u ∉ ids (m_cachedUsers m) -> friends u = [] ->
  1 <= userid u <= m_baseUserID m \/ GROUPID_BOUBDARY < userid u <= m_baseGrupID m ->
  users_ok (set_users (m_cachedUsers m ++ [u]) m).
Proof.
  intros [N R F ? ?] Hu Hf Hr. split; simpl; [| | |done|done].
  - rewrite ids_app. apply NoDup_app. split; [done|]. split; [|apply NoDup_singleton].
    intros x Hx ->%list_elem_of_singleton. done.
  - rewrite ids_app. apply Forall_app. split; [done|]. by constructor.
  - apply Forall_app. split; [done|]. constructor; [|done]. rewrite Hf. constructor.
Qed.

Lemma users_ok_fresh m i : users_ok m ->
  m_baseUserID m < i <= GROUPID_BOUBDARY \/ m_baseGrupID m < i -> i ∉ ids (m_cachedUsers m).
Proof.
  intros [_ R _ ? ?] Hi Hin. rewrite Forall_forall in R. specialize (R i Hin).
  lia.
Qed.

Lemma sorted_link change a b l :
  (forall x s, sorted_set s -> sorted_set (change x s)) ->
  Forall (fun u => sorted_set (friends u)) l ->
  Forall (fun u => sorted_set (friends u)) (link_one change a b <$> l).
Proof.
  intros Hc Hl. rewrite Forall_fmap. eapply Forall_impl; [exact Hl|]. intros u Hu. unfold link_one.
  simpl. repeat case_decide; simpl; auto.
Qed.

Lemma sorted_update id f l : (forall u, friends (f u) = friends u) ->
  Forall (fun u => sorted_set (friends u)) l -> Forall (fun u => sorted_set (friends u)) (update_user id f l).2.
Proof.
  intros Hf. induction 1 as [|u l Hu Hl IH]; simpl; [done|]. case_decide; simpl.
  - constructor; [by rewrite Hf|done].
  - destruct (update_user id f l). by constructor.
Qed.

(** ** The operations *)

Section ops.
Context {D : Type} `{Database D}.
Implicit Types (m : UserManager) (d : D).

Lemma db_ok {A} (q : M D A) m d a d' : q d = Ok (a, d') -> db q (m, d) = Ok (a, (m, d')).
Proof. intros E. unfold db, zoom. simpl. by rewrite E. Qed.

Lemma Make_ok s g m d d' : s < g -> NoDup (ids (m_cachedUsers m)) ->
  Excute (make_relationship_sql s g) d = Ok (true, d') ->
  MakeFriendRelationship s g (m, d)
  = Ok (bool_decide (s ∈ ids (m_cachedUsers m) /\ g ∈ ids (m_cachedUsers m)),
        (set_users (link_one sinsert s g <$> m_cachedUsers m) m, d')).
Proof.
  intros Hsg N E. unfold MakeFriendRelationship. rewrite decide_False by lia.
  rewrite (bind_ok _ _ _ _ _ (db_ok _ m d _ _ E)). unfold AddFriendToUser.
  rewrite (bind_ok _ _ _ _ _ (eq_refl : mgr m_cachedUsers (m, d') = Ok (m_cachedUsers m, (m, d')))).
  by rewrite link_loop_all by (done || lia).
Qed.

Lemma Release_ok s g m d d' : s < g -> NoDup (ids (m_cachedUsers m)) ->
  Excute (release_relationship_sql s g) d = Ok (true, d') ->
  ReleaseFriendRelationship s g (m, d)
  = Ok (bool_decide (s ∈ ids (m_cachedUsers m) /\ g ∈ ids (m_cachedUsers m)),
        (set_users (link_one serase s g <$> m_cachedUsers m) m, d')).
Proof.
  intros Hsg N E. unfold ReleaseFriendRelationship. rewrite decide_False by lia.
  rewrite (bind_ok _ _ _ _ _ (db_ok _ m d _ _ E)). unfold DeleteFriendToUser.
  rewrite (bind_ok _ _ _ _ _ (eq_refl : mgr m_cachedUsers (m, d') = Ok (m_cachedUsers m, (m, d')))).
  by rewrite link_loop_all by (done || lia).
Qed.
End ops.

(** ** The API as one step *)

(** The calls that change the manager once it is loaded. *)
Inductive user_op :=
| OpAddUser (name nick pass : bytes)
| OpAddGroup (name : bytes) (owner : Z)
| OpMake (smallid greatid : Z)
| OpRelease (smallid greatid : Z)
| OpUpdate (id : Z) (info : User)
| OpPassword (id : Z) (newpassword : bytes).

Section invariant.
Context {D : Type} `{Database D}.

Definition run_op (o : user_op) : U (D := D) unit :=
  match o with
  | OpAddUser name nick pass => _ ← AddUser (registered name nick pass); mret tt
  | OpAddGroup name owner => _ ← AddGroup name owner; mret tt
  | OpMake s g => _ ← MakeFriendRelationship s g; mret tt
  | OpRelease s g => _ ← ReleaseFriendRelationship s g; mret tt
  | OpUpdate id i => _ ← UpdateUserInfo id i; mret tt
  | OpPassword id p => _ ← ModifyUserPassword id p; mret tt
  end.

Fixpoint run_ops (os : list user_op) : U (D := D) unit :=
  match os with
  | [] => mret tt
  | o :: os' => _ ← run_op o; run_ops os'
  end.

(** Inversion of a call on the database. *)
Lemma db_inv {A} (q : M D A) m d a s' : db q (m, d) = Ok (a, s') -> exists d', q d = Ok (a, d') /\ s' = (m, d').
Proof. unfold db, zoom. simpl. destruct (q d) as [[x d']| |]; intros [= <- <-]. eauto. Qed.

(** A link keeps the invariant, whoever is linked. *)
Lemma users_ok_link change a b m : users_ok m -> a < b ->
  (forall x s, sorted_set s -> sorted_set (change x s)) ->
  users_ok (set_users (link_one change a b <$> m_cachedUsers m) m).
Proof.
  intros O Hab Hc. apply users_ok_set_users; [done| |by apply sorted_link, sets_sorted].
  apply ids_fmap. intros u. apply link_one_id.
Qed.

Lemma users_ok_update id f m : users_ok m -> (forall u, userid (f u) = userid u) ->
  (forall u, friends (f u) = friends u) -> users_ok (set_users (update_user id f (m_cachedUsers m)).2 m).
Proof.
  intros O Hi Hf. apply users_ok_set_users; [done|by apply update_user_ids|].
  by apply sorted_update, sets_sorted.
Qed.

Lemma users_ok_userbase m : users_ok m -> m_baseUserID m < GROUPID_BOUBDARY ->
  users_ok (set_baseUserID (m_baseUserID m + 1) m).
Proof.
  intros [N R F ? ?] Hb. split; simpl; [done| |done|lia|done].
  eapply Forall_impl; [exact R|]. simpl. intros. lia.
Qed.

Lemma users_ok_groupbase m : users_ok m -> m_baseGrupID m < INT_MAX ->
  users_ok (set_baseGrupID (m_baseGrupID m + 1) m).
Proof.
  intros [N R F ? ?] Hb. split; simpl; [done| |done|done|lia].
  eapply Forall_impl; [exact R|]. simpl. intros. lia.
Qed.

(** One call, from the manager [m] to [m']: the counters go up by one at most, and the invariant
    is kept while the user counter is not past the boundary. *)
Definition call_step (m m' : UserManager) : Prop :=
  m_baseUserID m <= m_baseUserID m' <= m_baseUserID m + 1 /\ m_baseGrupID m <= m_baseGrupID m' <= m_baseGrupID m + 1
  /\ (m_baseUserID m' <= GROUPID_BOUBDARY -> users_ok m -> users_ok m').

Lemma call_step_refl m : call_step m m.
Proof. split; [lia|]. split; [lia|done]. Qed.

(** A change of the users alone. *)
Lemma call_step_users m l : (users_ok m -> users_ok (set_users l m)) -> call_step m (set_users l m).
Proof. intros Hm. split; [simpl; lia|]. split; [simpl; lia|auto]. Qed.

Lemma base_inv (get : UserManager -> Z) (set : Z -> UserManager -> UserManager) {B} (k : Z -> U (D := D) B) m d b s' :
  (base ← mgr get; base ← lift (int_add base 1); _ ← update (set base); k base) (m, d) = Ok (b, s') ->
  get m + 1 <= INT_MAX /\ k (get m + 1) (set (get m + 1) m, d) = Ok (b, s').
Proof.
  intros (? & ? & [= <- <-] & E)%bind_inv. simpl in E. apply bind_inv in E as (n & s1 & E1 & E).
  unfold lift, int_add in E1. case_decide as Hi; [|done]. injection E1 as <- <-. unfold is_i32 in Hi.
  apply bind_inv in E as (? & ? & [= <- <-] & E). split; [lia|done].
Qed.

Lemma AddUser_step name nick pass m d r s' : AddUser (registered name nick pass) (m, d) = Ok (r, s') -> call_step m s'.1.
Proof.
  unfold AddUser. intros [_ E]%(base_inv m_baseUserID set_baseUserID).
  apply bind_inv in E as (ok & ? & E & E2). apply db_inv in E as (d1 & _ & ->).
  assert (m_baseUserID m + 1 <= GROUPID_BOUBDARY -> users_ok m -> users_ok (set_baseUserID (m_baseUserID m + 1) m)) as OU
    by (intros Hb O; apply users_ok_userbase; [done|lia]).
  destruct ok.
  - apply bind_inv in E2 as (? & ? & [= <- <-] & E2). inj E2. split; [simpl; lia|]. split; [simpl; lia|]. simpl. intros Hb O.
    pose proof (user_base m O). apply (users_ok_snoc (set_baseUserID _ m)); [by apply OU| |done|simpl; lia].
    simpl. apply (users_ok_fresh m); [done|lia].
  - inj E2. split; [simpl; lia|]. split; [simpl; lia|]. done.
Qed.

Lemma AddGroup_step name owner m d r s' : AddGroup name owner (m, d) = Ok (r, s') -> call_step m s'.1.
Proof.
  unfold AddGroup. intros [Hi E]%(base_inv m_baseGrupID set_baseGrupID).
  apply bind_inv in E as (ok & ? & E & E2). apply db_inv in E as (d1 & _ & ->).
  assert (users_ok m -> users_ok (set_baseGrupID (m_baseGrupID m + 1) m)) as OG
    by (intros O; apply users_ok_groupbase; [done|lia]).
  destruct ok.
  - apply bind_inv in E2 as (? & ? & [= <- <-] & E2). inj E2. split; [simpl; lia|]. split; [simpl; lia|]. simpl. intros Hb O.
    pose proof (group_base m O). apply (users_ok_snoc (set_baseGrupID _ m)); [by apply OG| |done|simpl; lia].
    simpl. apply (users_ok_fresh m); [done|lia].
  - inj E2. split; [simpl; lia|]. split; [simpl; lia|]. auto.
Qed.

Lemma Make_step a b m d r s' : MakeFriendRelationship a b (m, d) = Ok (r, s') -> call_step m s'.1.
Proof.
  unfold MakeFriendRelationship. case_decide; [intros [= _ <-]; apply call_step_refl|].
  intros (ok & ? & E & E2)%bind_inv. apply db_inv in E as (d1 & _ & ->). destruct ok; [|inj E2; apply call_step_refl].
  unfold AddFriendToUser in E2. apply bind_inv in E2 as (? & ? & [= <- <-] & E2). simpl in E2.
  destruct (link_loop sinsert a b false false (m_cachedUsers m)) as [x l] eqn:El. inj E2. apply call_step_users. intros O.
  rewrite link_loop_all in El by (apply ids_distinct || lia; done). injection El as _ <-.
  apply users_ok_link; [done|lia|apply sorted_sinsert].
Qed.

Lemma Release_step a b m d r s' : ReleaseFriendRelationship a b (m, d) = Ok (r, s') -> call_step m s'.1.
Proof.
  unfold ReleaseFriendRelationship. case_decide; [intros [= _ <-]; apply call_step_refl|].
  intros (ok & ? & E & E2)%bind_inv. apply db_inv in E as (d1 & _ & ->). destruct ok; [|inj E2; apply call_step_refl].
  unfold DeleteFriendToUser in E2. apply bind_inv in E2 as (? & ? & [= <- <-] & E2). simpl in E2.
  destruct (link_loop serase a b false false (m_cachedUsers m)) as [x l] eqn:El. inj E2. apply call_step_users. intros O.
  rewrite link_loop_all in El by (apply ids_distinct || lia; done). injection El as _ <-.
  apply users_ok_link; [done|lia|apply sorted_serase].
Qed.

(** The two calls that change a user's own fields. *)
Lemma change_step sql id f m d r s' : (forall u, userid (f u) = userid u) -> (forall u, friends (f u) = friends u) ->
  (ok ← db (Excute sql);
   if ok : bool then
     l ← mgr m_cachedUsers;
     let '(r, l') := update_user id f l in
     _ ← update (set_users l');
     mret r
   else mret false : U (D := D) bool) (m, d) = Ok (r, s') -> call_step m s'.1.
Proof.
  intros Hi Hf (ok & ? & E & E2)%bind_inv. apply db_inv in E as (d1 & _ & ->). destruct ok; [|inj E2; apply call_step_refl].
  apply bind_inv in E2 as (? & ? & [= <- <-] & E2). simpl in E2.
  pose proof (fun O => users_ok_update id f m O Hi Hf) as OK.
  destruct (update_user id f (m_cachedUsers m)) as [b l]. inj E2. by apply call_step_users.
Qed.

Lemma Update_step id i m d r s' : UpdateUserInfo id i (m, d) = Ok (r, s') -> call_step m s'.1.
Proof. by apply change_step. Qed.

Lemma Password_step id p m d r s' : ModifyUserPassword id p (m, d) = Ok (r, s') -> call_step m s'.1.
Proof. by apply change_step. Qed.

Lemma run_op_step o m d m' d' : run_op o (m, d) = Ok (tt, (m', d')) -> call_step m m'.
Proof.
  intros E. change m' with (m', d').1.
  destruct o as [name nick pass|name owner|s g|s g|id i|id p]; simpl in E; apply bind_inv in E as (r & s1 & E & [= ->]);
    eauto using AddUser_step, AddGroup_step, Make_step, Release_step, Update_step, Password_step.
Qed.
End invariant.

(** ** Properties *)

Section properties.
Context {D : Type} `{Database D}.
Implicit Types (m : UserManager) (d : D).

Lemma run_ops_ok os m d m' d' : users_ok m -> m_baseUserID m + len os <= GROUPID_BOUBDARY ->
  run_ops os (m, d) = Ok (tt, (m', d')) -> users_ok m'.
Proof.
  revert m d. induction os as [|o os IH]; intros m d O Hu E; [by inj E|].
  rewrite len_cons in *. pose proof (len_nonneg os). simpl in E.
  apply bind_inv in E as ([] & [m1 d1] & E1 & E2).
  destruct (run_op_step o m d m1 d1 E1) as (? & _ & O1). apply (IH m1 d1); [apply O1; [lia|done]|lia|done].
Qed.

(** starting from the empty manager, after any sequence of registrations, group creations,
    friendships made and released, profile and password changes, whatever the database answers
    and up to the point where the user ids reach the group range: all ids are distinct, users
    are below [GROUPID_BOUBDARY] and groups above, no id is above its counter, and every friend
    set is a set. *)
Theorem users_invariant os d m d' :
  len os < GROUPID_BOUBDARY -> run_ops os (UserManager_new, d) = Ok (tt, (m, d')) -> users_ok m.
Proof.
  intros L. apply run_ops_ok; [apply UserManager_new_ok|simpl; lia].
Qed.

(** [MakeFriendRelationship] of two cached ids stores the pair in the database first and
    then makes each id a friend of the other, and changes nothing else: no third user's
    friends, no other field of anybody. [ReleaseFriendRelationship] undoes exactly that. *)
Theorem make_release_friends s g m d d1 d2 :
  users_ok m -> s < g -> s ∈ ids (m_cachedUsers m) -> g ∈ ids (m_cachedUsers m) ->
  Excute (make_relationship_sql s g) d = Ok (true, d1) ->
  Excute (release_relationship_sql s g) d1 = Ok (true, d2) ->
  exists m1 m2,
    MakeFriendRelationship s g (m, d) = Ok (true, (m1, d1))
    /\ (forall a b, b ∈ friends_of a (m_cachedUsers m1)
        <-> b ∈ friends_of a (m_cachedUsers m) \/ (a = s /\ b = g) \/ (a = g /\ b = s))
    /\ (set_friends [] <$> m_cachedUsers m1) = (set_friends [] <$> m_cachedUsers m)
    /\ ReleaseFriendRelationship s g (m1, d1) = Ok (true, (m2, d2))
    /\ (forall a b, b ∈ friends_of a (m_cachedUsers m2)
        <-> b ∈ friends_of a (m_cachedUsers m) /\ ~ (a = s /\ b = g) /\ ~ (a = g /\ b = s))
    /\ (set_friends [] <$> m_cachedUsers m2) = (set_friends [] <$> m_cachedUsers m).
Proof.
  intros O Hsg Hs Hg E1 E2. set (l := m_cachedUsers m) in *.
  pose proof (users_ok_link sinsert s g m O Hsg sorted_sinsert) as O1. fold l in O1.
  exists (set_users (link_one sinsert s g <$> l) m),
    (set_users (link_one serase s g <$> (link_one sinsert s g <$> l)) m).
  assert (forall c (l : list User), (set_friends [] <$> (link_one c s g <$> l)) = (set_friends [] <$> l)) as Hframe.
  { intros c l0. rewrite <- list_fmap_compose. apply list_fmap_ext. intros i u _.
    simpl. unfold link_one. by repeat case_decide. }
  assert (forall c, ids (link_one c s g <$> l) = ids l) as Hids.
  { intros c. apply ids_fmap. intros u. apply link_one_id. }
  split; [|split; [|split; [apply Hframe|split; [|split]]]].
  - rewrite (Make_ok s g m d d1 Hsg (ids_distinct m O) E1). by rewrite bool_decide_true.
  - intros a b. simpl. rewrite friends_of_link. case_decide as Ha.
    + repeat case_decide; subst; rewrite ?elem_of_sinsert; naive_solver lia.
    + rewrite (friends_of_unknown a l Ha), elem_of_nil. naive_solver.
  - rewrite (Release_ok s g _ d1 d2 Hsg (ids_distinct _ O1) E2). simpl. rewrite Hids.
    by rewrite bool_decide_true.
  - intros a b. cbn [m_cachedUsers set_users]. rewrite !friends_of_link, Hids. case_decide as Ha.
    + assert (sorted_set (friends_of a l)) as S.
      { unfold friends_of. destruct (find_user _ l) as [u|] eqn:E; [|constructor].
        apply find_user_id in E as [Hin _]. pose proof (sets_sorted m O) as S.
        rewrite Forall_forall in S. by apply S. }
      repeat case_decide; subst; rewrite ?elem_of_serase, ?elem_of_sinsert by (by apply sorted_sinsert);
        naive_solver lia.
    + rewrite (friends_of_unknown a l Ha), elem_of_nil. naive_solver.
  - simpl. by rewrite !Hframe.
Qed.

(** a friend id that no cached user has: the pair is stored in the database and the cached
    side gets the friend, but the call reports failure, and [GetFriendInfoByUserId] of the other
    side does not mention it. *)
Theorem half_friendship s g m d d1 :
  users_ok m -> s < g -> s ∈ ids (m_cachedUsers m) -> g ∉ ids (m_cachedUsers m) ->
  Excute (make_relationship_sql s g) d = Ok (true, d1) ->
  exists m1, MakeFriendRelationship s g (m, d) = Ok (false, (m1, d1))
    /\ g ∈ friends_of s (m_cachedUsers m1) /\ friends_of g (m_cachedUsers m1) = [].
Proof.
  intros O Hsg Hs Hg E. eexists. split.
  { rewrite (Make_ok s g m d d1 Hsg (ids_distinct m O) E). by rewrite bool_decide_false by naive_solver. }
  simpl. rewrite !friends_of_link. rewrite (decide_True (P := s ∈ _)) by done.
  rewrite (decide_False (P := g ∈ _)) by done. rewrite decide_True by done.
  split; [|done]. rewrite elem_of_sinsert. by left.
Qed.

(** [GetFriendInfoByUserId] returns the cached users that are in the user's friend set,
    each once, in increasing order of id; it changes nothing. *)
Theorem friend_info_exact id m d :
  users_ok m ->
  exists l, GetFriendInfoByUserId id (m, d) = Ok (l, (m, d))
    /\ StronglySorted Z.lt (ids l)
    /\ (forall u, u ∈ l <-> u ∈ m_cachedUsers m /\ userid u ∈ friends_of id (m_cachedUsers m)).
Proof.
  intros O. eexists. split; [done|]. set (us := m_cachedUsers m).
  assert (sorted_set (friends_of id us)) as S.
  { unfold friends_of. destruct (find_user _ us) as [u|] eqn:E; [|constructor].
    apply find_user_id in E as [Hin _]. pose proof (sets_sorted m O) as S.
    rewrite Forall_forall in S. by apply S. }
  pose proof (ids_distinct m O) as N. fold us in N. simpl.
  set (find f := find_user (fun u => userid u =? f) us).
  assert (forall (fs : list Z) u, u ∈ omap find fs <-> u ∈ us /\ userid u ∈ fs) as Hin.
  { intros fs u. rewrite list_elem_of_omap. unfold find. split.
    - intros (f & Hf & E). apply find_user_id in E as [? <-]. done.
    - intros [Hu Hf]. exists (userid u). split; [done|]. by apply find_user_some. }
  split; [|exact (Hin (friends_of id us))].
  change (StronglySorted Z.lt (ids (omap find (friends_of id us)))).
  clear -S Hin. induction S as [|f fs Hfs IH Hlt]; [constructor|].
  simpl. destruct (find f) as [u|] eqn:E; [|done]. rewrite ids_cons. constructor; [done|].
  apply Forall_forall. intros i (v & -> & Hv)%list_elem_of_fmap. rewrite Hin in Hv.
  apply find_user_id in E as [_ ->]. rewrite Forall_forall in Hlt. apply Hlt, Hv.
Qed.

(** profile and password changes. When the statement succeeds, [UpdateUserInfo] replaces
    the nine profile fields of the user with that id and [ModifyUserPassword] the password;
    the id, the user name, the friends and every other user stay as they were, and the result
    says whether the id was cached. When it fails, the cache is untouched. *)
Theorem update_exact id info p m d :
  users_ok m ->
  (forall ok d', Excute (update_user_sql id info) d = Ok (ok, d') ->
     UpdateUserInfo id info (m, d) =
     if ok : bool then
       Ok (bool_decide (id ∈ ids (m_cachedUsers m)),
         (set_users ((fun u => if decide (userid u = id) then with_info info u else u)
                     <$> m_cachedUsers m) m, d'))
     else Ok (false, (m, d')))
  /\ (forall ok d', Excute (modify_password_sql id p) d = Ok (ok, d') ->
     ModifyUserPassword id p (m, d) =
     if ok : bool then
       Ok (bool_decide (id ∈ ids (m_cachedUsers m)),
         (set_users ((fun u => if decide (userid u = id) then set_password p u else u)
                     <$> m_cachedUsers m) m, d'))
     else Ok (false, (m, d'))).
Proof.
  intros O. pose proof (ids_distinct m O) as N.
  assert (forall f b us, update_user id f (m_cachedUsers m) = (b, us) ->
    b = bool_decide (id ∈ ids (m_cachedUsers m))
    /\ us = (fun u => if decide (userid u = id) then f u else u) <$> m_cachedUsers m) as Hu.
  { intros f b us E. rewrite <- update_user_map, <- (update_user_fst id f) by done. by rewrite E. }
  split; intros ok d' E.
  - unfold UpdateUserInfo. rewrite (bind_ok _ _ _ _ _ (db_ok _ m d _ _ E)). destruct ok; [|done].
    unfold mgr, gets, mbind, M_bind. cbn [fst].
    destruct (update_user id (with_info info) (m_cachedUsers m)) as [b us] eqn:Eu.
    by destruct (Hu _ _ _ Eu) as [-> ->].
  - unfold ModifyUserPassword. rewrite (bind_ok _ _ _ _ _ (db_ok _ m d _ _ E)). destruct ok; [|done].
    unfold mgr, gets, mbind, M_bind. cbn [fst].
    destruct (update_user id (set_password p) (m_cachedUsers m)) as [b us] eqn:Eu.
    by destruct (Hu _ _ _ Eu) as [-> ->].
Qed.
End properties.
