(* ===== verification/UserManagerLoad.v ===== *)
(** * Theorems on UserManager: loading, ids across restarts, and the statements

    What the manager holds after reading the tables, and what its SQL texts promise. *)

From S2P Require Import Prelude Bytes Text StdMap Field QueryResult MySqlManager Database.
From S2P Require Import UserManager UserManagerProofs.

Abbreviation UserManager := UserManager.UserManager.

(** ** Loading *)

(** The user a row of [t_user] stands for. *)
Definition row_user (r : row) : User := {|
  userid := atoi (c_str (col 0 r)); username := col 1 r; password := col 3 r; nickname := col 2 r;
  facetype := atoi (c_str (col 4 r)); custimface := col 5 r; customfacefmt := [];
  gender := atoi (c_str (col 6 r)); birthday := atoi (c_str (col 7 r)); signature := col 8 r;
  address := col 9 r; phonenumber := col 10 r; mail := col 11 r; ownerid := -1;
  clienttype := None; status := None; friends := [] |}.

(** The friend a row of [t_user_relationship] adds to user [id]. *)
Definition row_friend (id : Z) (r : row) : Z :=
  let a := atoi (c_str (col 0 r)) in
  if decide (a = id) then atoi (c_str (col 1 r)) else a.

(** A result the client library handed over for a query. *)
Definition answers {D} `{Database D} (sql : bytes) (n : nat) (rows : list row) (d d' : D) : Prop :=
  exists q res rc, Query sql d = Ok (Some q, d') /\ res_ok n res /\ res_rows res = rows
    /\ QueryResult_new (Some res) rc (Z.of_nat n) = Ok q.

Section load.
Context {D : Type} `{Database D}.
Implicit Types (m : UserManager) (d : D).

Lemma read_user_row r rows q : on_row 12 r rows q -> read_user q = Ok (row_user r).
Proof.
  intros Q. unfold read_user.
  destruct (field_col 12 r rows q 0 Q) as (f0 & -> & E0); [lia|].
  destruct (field_col 12 r rows q 1 Q) as (f1 & -> & E1); [lia|].
  destruct (field_col 12 r rows q 2 Q) as (f2 & -> & E2); [lia|].
  destruct (field_col 12 r rows q 3 Q) as (f3 & -> & E3); [lia|].
  destruct (field_col 12 r rows q 4 Q) as (f4 & -> & E4); [lia|].
  destruct (field_col 12 r rows q 5 Q) as (f5 & -> & E5); [lia|].
  destruct (field_col 12 r rows q 6 Q) as (f6 & -> & E6); [lia|].
  destruct (field_col 12 r rows q 7 Q) as (f7 & -> & E7); [lia|].
  destruct (field_col 12 r rows q 8 Q) as (f8 & -> & E8); [lia|].
  destruct (field_col 12 r rows q 9 Q) as (f9 & -> & E9); [lia|].
  destruct (field_col 12 r rows q 10 Q) as (f10 & -> & E10); [lia|].
  destruct (field_col 12 r rows q 11 Q) as (f11 & -> & E11); [lia|].
  unfold mbind, mret, outcome_bind, outcome_ret, row_user.
  rewrite (toInt32_text f0 _ E0), (toInt32_text f4 _ E4), (toInt32_text f6 _ E6), (toInt32_text f7 _ E7).
  by rewrite E1, E2, E3, E5, E8, E9, E10, E11.
Qed.

(** What a row does to the manager. *)
Definition add_row (r : row) (m : UserManager) : UserManager :=
  let u := row_user r in
  let m := set_users (m_cachedUsers m ++ [u]) m in
  if decide (m_baseUserID m < userid u) then set_baseUserID (userid u) m else m.

Lemma load_user_row r rows q b (s : UserManager * D) : on_row 12 r rows q ->
  load_user q b s = Ok (tt, (add_row r s.1, s.2)).
Proof.
  intros Q. destruct s as [m d]. unfold load_user. unfold mbind, M_bind, lift. rewrite (read_user_row r rows q Q). simpl.
  unfold update, modify, add_row. simpl. by case_decide.
Qed.

Lemma fold_add_rows rows m d :
  for_fold (fun (_ : unit) r s => Ok (tt, (add_row r s.1, s.2))) tt rows (m, d)
  = Ok (tt, (fold_left (fun m r => add_row r m) rows m, d)).
Proof. revert m. induction rows as [|r rows IH]; intros m; simpl; [done|]. apply IH. Qed.

Lemma add_rows_spec rows m :
  let m' := fold_left (fun m r => add_row r m) rows m in
  m_cachedUsers m' = m_cachedUsers m ++ (row_user <$> rows)
  /\ m_baseUserID m' = fold_left Z.max (userid <$> (row_user <$> rows)) (m_baseUserID m)
  /\ m_baseGrupID m' = m_baseGrupID m.
Proof.
  revert m. induction rows as [|r rows IH]; intros m; cbn [fold_left].
  { simpl. by rewrite app_nil_r. }
  destruct (IH (add_row r m)) as (E1 & E2 & E3). rewrite E1, E2, E3.
  rewrite !fmap_cons. cbn [fold_left]. unfold add_row. simpl.
  case_decide; simpl; (split; [by rewrite <- app_assoc|split; [|done]]); f_equal; lia.
Qed.

Lemma LoadUserFromDB_rows m d d' rows : answers load_users_sql 12 rows d d' -> rows <> [] ->
  LoadUserFromDB (m, d) = Ok (true, (fold_left (fun m r => add_row r m) rows m, d')).
Proof.
  intros (q & res & rc & Eq & Hok & <- & En) Hne. unfold LoadUserFromDB.
  rewrite (bind_ok _ _ _ _ _ (db_ok _ m d _ _ Eq)).
  destruct (res_rows res) as [|r rows] eqn:Er; [done|].
  rewrite (bind_ok _ _ _ tt (fold_left (fun m r => add_row r m) (r :: rows) m, d')); [done|].
  rewrite (while_rows_all load_user 12 (fun r _ s => Ok (tt, (add_row r s.1, s.2)))
    load_user_row res rc r rows) by (done || lia).
  rewrite Er. apply fold_add_rows.
Qed.

Lemma LoadRelationship_rows id fs m d d' rows :
  answers (load_relationship_sql id) 2 rows d d' -> rows <> [] ->
  LoadRelationshipFromDB id fs (m, d)
  = Ok ((true, fold_left (fun s r => sinsert (row_friend id r) s) rows fs), (m, d')).
Proof.
  intros (q & res & rc & Eq & Hok & <- & En) Hne. unfold LoadRelationshipFromDB.
  rewrite (bind_ok _ _ _ _ _ (db_ok _ m d _ _ Eq)).
  destruct (res_rows res) as [|r rows] eqn:Er; [done|].
  rewrite (bind_ok _ _ _ (fold_left (fun s r => sinsert (row_friend id r) s) (r :: rows) fs) (m, d')); [done|].
  rewrite (while_rows_all (load_friend id) 2 (fun r fs => mret (sinsert (row_friend id r) fs))) with (res := res) (rc := rc) (r := r) (rows := rows); try (done || lia).
  - rewrite Er. generalize (r :: rows) as l. intros l. revert fs.
    induction l as [|x l IH]; intros fs; [done|]. apply IH.
  - intros r1 rows1 q1 b s Q. unfold load_friend.
    destruct (field_col 2 r1 rows1 q1 0 Q) as (f0 & E0 & G0); [lia|].
    destruct (field_col 2 r1 rows1 q1 1 Q) as (f1 & E1 & G1); [lia|].
    unfold mbind, M_bind, lift. rewrite E0, E1. cbn iota zeta beta.
    rewrite (toInt32_text f0 _ G0), (toInt32_text f1 _ G1). unfold row_friend. by case_decide.
Qed.
End load.

(** ** The columns a statement names *)

(** The list between the first parentheses of an INSERT, cut at its commas. *)
Fixpoint columns_from (cur : bytes) (s : bytes) : list bytes :=
  match s with
  | [] => [cur]
  | b :: s' =>
      if decide (b = Byte.x29) then [cur]                       (* ) *)
      else if decide (b = Byte.x2c) then cur :: columns_from [] s'   (* , *)
      else if decide (b = Byte.x20) then columns_from cur s'         (* blank *)
      else columns_from (cur ++ [b]) s'
  end.

Fixpoint insert_columns (s : bytes) : list bytes :=
  match s with
  | [] => []
  | b :: s' => if decide (b = Byte.x28) then columns_from [] s' else insert_columns s'   (* ( *)
  end.

Definition in_schema (fields : list (bytes * sFieldInfo)) (c : bytes) : Prop := is_Some (mfind c fields).
#[export] Instance in_schema_dec fields c : Decision (in_schema fields c).
Proof. unfold in_schema. apply _. Defined.

Lemma fold_max_ge x l b : x ∈ l -> x <= fold_left Z.max l b.
Proof.
  assert (forall l b, b <= fold_left Z.max l b) as Hb.
  { clear. induction l as [|y l IH]; intros b; simpl; [lia|]. specialize (IH (Z.max b y)). lia. }
  revert b. induction l as [|y l IH]; intros b; [by intros ?%elem_of_nil|].
  rewrite elem_of_cons. simpl. intros [->|Hin]; [|by apply IH]. specialize (Hb l (Z.max b y)). lia.
Qed.

Lemma fold_max_lt k l b : (forall x, x ∈ l -> x < k) -> b < k -> fold_left Z.max l b < k.
Proof.
  revert b. induction l as [|y l IH]; intros b Hl Hb; simpl; [done|].
  apply IH; [intros x Hx; apply Hl; rewrite elem_of_cons; by right|].
  pose proof (Hl y ltac:(rewrite elem_of_cons; by left)). lia.
Qed.

Lemma find_user_app p l1 l2 u : find_user p l1 = Some u -> find_user p (l1 ++ l2) = Some u.
Proof. unfold find_user. induction l1 as [|v l1 IH]; simpl; [done|]. by destruct (p v). Qed.

(** ** Properties *)

Section properties.
Context {D : Type} `{Database D}.
Implicit Types (m : UserManager) (d : D).

(** loading a non-empty user table gives one cached user per row, in the order of the
    query, with the row's columns in the right fields (ids and numbers read back from their
    decimal text), and moves the user counter to the largest id; the group counter is not
    looked at. *)
Theorem load_users_exact m d d' rows :
  answers load_users_sql 12 rows d d' -> rows <> [] ->
  exists m', LoadUserFromDB (m, d) = Ok (true, (m', d'))
    /\ m_cachedUsers m' = m_cachedUsers m ++ (row_user <$> rows)
    /\ m_baseUserID m' = fold_left Z.max (userid <$> (row_user <$> rows)) (m_baseUserID m)
    /\ m_baseGrupID m' = m_baseGrupID m.
Proof.
  intros A Hne. eexists. split; [by apply LoadUserFromDB_rows|]. apply add_rows_spec.
Qed.

(** loading a user's relationships adds exactly the other id of each row. *)
Theorem load_relationship_exact id fs m d d' rows :
  answers (load_relationship_sql id) 2 rows d d' -> rows <> [] -> sorted_set fs ->
  exists fs', LoadRelationshipFromDB id fs (m, d) = Ok ((true, fs'), (m, d')) /\ sorted_set fs'
    /\ (forall x, x ∈ fs' <-> x ∈ fs \/ x ∈ row_friend id <$> rows).
Proof.
  intros A Hne S. eexists. split; [by apply (LoadRelationship_rows id fs m d d' rows)|].
  clear A Hne. revert fs S. induction rows as [|r rows IH]; intros fs S; cbn [fold_left].
  { split; [done|]. intros x. rewrite elem_of_nil. tauto. }
  destruct (IH (sinsert (row_friend id r) fs)) as [S' E]; [by apply sorted_sinsert|].
  split; [done|]. intros x. rewrite E, elem_of_sinsert, fmap_cons, elem_of_cons. tauto.
Qed.

(** the server cannot start on an empty user table: [Init] reads a destroyed column instead
    of loading nothing; and once there are users, one without relationships is enough. *)
Theorem empty_tables_dangling m d d' id fs :
  (answers load_users_sql 12 [] d d' -> Init (m, d) = Undef Dangling)
  /\ (answers (load_relationship_sql id) 2 [] d d' ->
      LoadRelationshipFromDB id fs (m, d) = Undef Dangling).
Proof.
  split; intros (q & res & rc & Eq & Hok & Er & En).
  - destruct (empty_result_dangling load_user 12 res rc tt (m, d')) as (q' & Eq' & _ & L);
      [lia|done|done| |].
    { intros q' E. unfold load_user, read_user. unfold mbind, M_bind, lift, outcome_bind. by rewrite E. }
    rewrite En in Eq'. injection Eq' as <-. unfold Init, LoadUserFromDB.
    unfold mbind at 1, M_bind at 1. rewrite (bind_ok _ _ _ _ _ (db_ok _ m d _ _ Eq)).
    unfold mbind, M_bind in *. by rewrite L.
  - destruct (empty_result_dangling (load_friend id) 2 res rc fs (m, d')) as (q' & Eq' & _ & L);
      [lia|done|done| |].
    { intros q' E. unfold load_friend. unfold mbind, M_bind, lift. by rewrite E. }
    rewrite En in Eq'. injection Eq' as <-. unfold LoadRelationshipFromDB.
    rewrite (bind_ok _ _ _ _ _ (db_ok _ m d _ _ Eq)). unfold mbind, M_bind in *. by rewrite L.
Qed.

(** ids after a restart. Groups are rows of [t_user], so the user counter is moved past the
    largest group id and the next user registered gets an id in the group range; and the group
    counter starts again at the boundary, so the next group is created under the id of the first
    group ever created. *)
Theorem restart_reuses_ids m d d' rows user name owner :
  answers load_users_sql 12 rows d d' -> m_cachedUsers m = [] -> m_baseUserID m = 0 ->
  m_baseGrupID m = GROUPID_BOUBDARY ->
  GROUPID_BOUBDARY + 1 ∈ userid <$> (row_user <$> rows) ->
  (forall i, i ∈ userid <$> (row_user <$> rows) -> i < INT_MAX) ->
  exists m', LoadUserFromDB (m, d) = Ok (true, (m', d'))
    /\ GROUPID_BOUBDARY + 1 ∈ ids (m_cachedUsers m')
    /\ (forall d1, Excute (insert_user_sql (m_baseUserID m' + 1) user) d' = Ok (true, d1) ->
        exists u s, AddUser user (m', d') = Ok ((true, u), s) /\ GROUPID_BOUBDARY <= userid u)
    /\ (forall d1, Excute (insert_group_sql (GROUPID_BOUBDARY + 1) (c_str name) owner) d' = Ok (true, d1) ->
        exists s, AddGroup name owner (m', d') = Ok (Some (GROUPID_BOUBDARY + 1), s)).
Proof.
  intros A Em Eb Eg Hin Hlt.
  assert (rows <> []) as Hne by (intros ->; by apply elem_of_nil in Hin).
  destruct (add_rows_spec rows m) as (E1 & E2 & E3).
  eexists. split; [by apply (LoadUserFromDB_rows m d d' rows)|].
  set (m' := fold_left (fun m r => add_row r m) rows m) in *.
  assert (GROUPID_BOUBDARY + 1 <= m_baseUserID m' < INT_MAX) as Hb.
  { rewrite E2, Eb. split; [by apply fold_max_ge|].
    apply fold_max_lt; [done|unfold INT_MAX; lia]. }
  unfold GROUPID_BOUBDARY, INT_MAX in Hb.
  split; [|split].
  - by rewrite E1, Em.
  - intros d1 X. unfold AddUser.
    rewrite (bind_ok _ _ _ _ _ (eq_refl : mgr m_baseUserID (m', d') = Ok (m_baseUserID m', (m', d')))).
    rewrite (bind_ok _ _ _ (m_baseUserID m' + 1) (m', d')).
    2: { unfold lift, int_add. rewrite decide_True; [done|]. unfold is_i32, INT_MIN, INT_MAX. lia. }
    rewrite (bind_ok _ _ _ tt (set_baseUserID (m_baseUserID m' + 1) m', d')) by done.
    rewrite (bind_ok _ _ _ _ _ (db_ok _ (set_baseUserID (m_baseUserID m' + 1) m') d' _ _ X)).
    eexists _, _. split; [done|]. simpl. unfold GROUPID_BOUBDARY. lia.
  - intros d1 X. unfold AddGroup.
    rewrite (bind_ok _ _ _ _ _ (eq_refl : mgr m_baseGrupID (m', d') = Ok (m_baseGrupID m', (m', d')))).
    rewrite E3, Eg in *.
    rewrite (bind_ok _ _ _ (GROUPID_BOUBDARY + 1) (m', d')) by done.
    rewrite (bind_ok _ _ _ tt (set_baseGrupID (GROUPID_BOUBDARY + 1) m', d')) by done.
    rewrite (bind_ok _ _ _ _ _ (db_ok _ (set_baseGrupID (GROUPID_BOUBDARY + 1) m') d' _ _ X)).
    by eexists.
Qed.

(** user names are not unique. Registering an existing name succeeds whenever the database
    accepts the row, which no index of [t_user] prevents; the name still leads to the old user,
    so the new one cannot log in. After a restart the table is read newest first and the name
    leads to the new user: its owner has taken the name over. *)
Theorem duplicate_username m d d1 old nick pass rows1 rnew rows2 d2 d3 m2 :
  users_ok m -> m_baseUserID m < GROUPID_BOUBDARY ->
  find_user (fun u => bool_decide (username u = username old)) (m_cachedUsers m) = Some old ->
  Excute (insert_user_sql (m_baseUserID m + 1) (registered (username old) nick pass)) d = Ok (true, d1) ->
  answers load_users_sql 12 (rows1 ++ rnew :: rows2) d2 d3 ->
  m_cachedUsers m2 = [] -> username (row_user rnew) = username old ->
  Forall (fun r => username (row_user r) <> username old) rows1 ->
  (exists u s, AddUser (registered (username old) nick pass) (m, d) = Ok ((true, u), s)
    /\ GetUserInfoByUsername (username old) s = Ok (Some old, s))
  /\ exists s, LoadUserFromDB (m2, d2) = Ok (true, s)
    /\ GetUserInfoByUsername (username old) s = Ok (Some (row_user rnew), s).
Proof.
  intros O Hb Hold X A Em Hn H1. split.
  - pose proof (user_base m O). unfold AddUser.
    rewrite (bind_ok _ _ _ _ _ (eq_refl : mgr m_baseUserID (m, d) = Ok (m_baseUserID m, (m, d)))).
    rewrite (bind_ok _ _ _ (m_baseUserID m + 1) (m, d)).
    2: { unfold lift, int_add. rewrite decide_True; [done|].
         unfold is_i32, INT_MIN, INT_MAX, GROUPID_BOUBDARY in *. lia. }
    rewrite (bind_ok _ _ _ tt (set_baseUserID (m_baseUserID m + 1) m, d)) by done.
    rewrite (bind_ok _ _ _ _ _ (db_ok _ (set_baseUserID (m_baseUserID m + 1) m) d _ _ X)).
    eexists _, _. split; [done|]. unfold GetUserInfoByUsername, mgr, gets. do 2 f_equal.
    by apply find_user_app.
  - eexists. split; [by apply (LoadUserFromDB_rows m2 d2 d3 _ A); destruct rows1|].
    unfold GetUserInfoByUsername, mgr, gets. do 2 f_equal. cbn [fst].
    destruct (add_rows_spec (rows1 ++ rnew :: rows2) m2) as (-> & _).
    rewrite Em. cbn [app]. rewrite fmap_app, fmap_cons. clear -H1 Hn.
    induction H1 as [|r rows1 Hr _ IH]; cbn [fmap list_fmap app].
    + unfold find_user. cbn [List.find]. by rewrite bool_decide_true.
    + unfold find_user in *. cbn [List.find]. by rewrite bool_decide_false.
Qed.

(** the texts of the INSERT statements against the schema [MySqlManager] creates: users,
    relationships and messages name existing columns only; [AddGroup] names [f_owner_id], which
    [t_user] does not have (the schema calls it [f_owner]), so on a database the server created
    itself no group can be created. *)
Theorem insert_statements_schema id1 id2 name owner user text :
  Forall (in_schema t_user_fields) (insert_columns (insert_user_sql id1 user))
  /\ Forall (in_schema t_user_relationship_fields) (insert_columns (make_relationship_sql id1 id2))
  /\ Forall (in_schema t_chatmsg_fields) (insert_columns (save_chat_sql id1 id2 text))
  /\ bs "f_owner_id" ∈ insert_columns (insert_group_sql id1 name owner)
  /\ ~ in_schema t_user_fields (bs "f_owner_id").
Proof.
  split; [|split; [|split; [|split]]].
  - change (insert_columns _) with [bs "f_user_id"; bs "f_username"; bs "f_nickname"; bs "f_password"; bs "f_register_time"].
    by apply (bool_decide_unpack _); vm_compute.
  - change (insert_columns _) with [bs "f_user_id1"; bs "f_user_id2"].
    by apply (bool_decide_unpack _); vm_compute.
  - change (insert_columns _) with [bs "f_senderid"; bs "f_targetid"; bs "f_msgcontent"].
    by apply (bool_decide_unpack _); vm_compute.
  - change (insert_columns _) with [bs "f_user_id"; bs "f_username"; bs "f_nickname"; bs "f_password"; bs "f_owner_id"; bs "f_register_time"].
    by apply (bool_decide_unpack _); vm_compute.
  - intros E. by apply (bool_decide_pack _) in E.
Qed.

(** nothing in a client's text is escaped. The new password [p' WHERE f_user_id=V;-- ] of
    any user makes [ModifyUserPassword] send exactly the statement that sets the password of
    user V, whoever V is, before the comment marker. *)
Theorem password_injection attacker victim p :
  exists rest,
    modify_password_sql attacker (p ++ bs "' WHERE f_user_id=" ++ to_dec victim ++ bs ";-- ")
    = modify_password_sql victim p ++ bs "-- " ++ rest.
Proof.
  eexists. unfold modify_password_sql. rewrite <- !app_assoc. repeat f_equal.
Qed.
End properties.

(** ** Witnesses: a database that accepts everything and answers with given rows *)

#[export] Existing Instance journal_database.

Definition user_fields : list (bytes * enum_field_types) := replicate 12 (bs "c", FIELD_TYPE_VAR_STRING).
Definition pair_fields : list (bytes * enum_field_types) := replicate 2 (bs "c", FIELD_TYPE_LONGLONG).

(** A journal whose next answer is these rows. *)
Definition journal_of (fields : list (bytes * enum_field_types)) (rows : list row) : journal :=
  {| statements := [];
     answer := match QueryResult_new (Some {| res_fields := fields; res_rows := rows |}) (len rows) (len fields)
               with Ok q => Some q | _ => None end |}.

Definition user_row (id name pass : bytes) : row :=
  [Some id; Some name; Some (bs "nick"); Some pass; Some (bs "0"); None; Some (bs "0");
   Some (bs "20000101"); None; None; None; None].

Lemma journal_answers sql fields rows :
  Forall (fun r => length r = length fields) rows ->
  answers sql (length fields) rows (journal_of fields rows)
    (wrote sql (journal_of fields rows)).
Proof.
  intros Hr. set (res := {| res_fields := fields; res_rows := rows |}).
  pose proof (QueryResult_new_ok res (length fields) (len rows) (Build_res_ok _ res eq_refl Hr)) as Q.
  assert (exists q, QueryResult_new (Some res) (len rows) (Z.of_nat (length fields)) = Ok q) as (q & Eq).
  { destruct (res_rows res); destruct Q as (q & Eq & _); eauto. }
  exists q, res, (len rows). split; [|done].
  assert (answer (journal_of fields rows) = Some q) as Ea.
  { unfold journal_of. cbn [answer]. fold res. change (len fields) with (Z.of_nat (length fields)).
    by rewrite Eq. }
  rewrite <- Ea. done.
Qed.

(** The manager with users 1 ("ann") and 2 ("bob"). *)
Definition ann : User := registered (bs "ann") (bs "Ann") (bs "pw").
Definition bob : User := registered (bs "bob") (bs "Bob") (bs "pw").
Definition two_users : UserManager * journal :=
  match run_ops [OpAddUser (bs "ann") (bs "Ann") (bs "pw"); OpAddUser (bs "bob") (bs "Bob") (bs "pw")]
          (UserManager_new, journal_new) with
  | Ok (_, s) => s
  | _ => (UserManager_new, journal_new)
  end.

Lemma users_invariant_witness : users_ok two_users.1.
Proof.
  apply (users_invariant
    [OpAddUser (bs "ann") (bs "Ann") (bs "pw"); OpAddUser (bs "bob") (bs "Bob") (bs "pw")]
    journal_new two_users.1 two_users.2); by vm_compute.
Defined.

Lemma two_users_ok : users_ok two_users.1.
Proof.
  apply (run_ops_ok
    [OpAddUser (bs "ann") (bs "Ann") (bs "pw"); OpAddUser (bs "bob") (bs "Bob") (bs "pw")]
    UserManager_new journal_new two_users.1 two_users.2); [apply UserManager_new_ok|by vm_compute..].
Qed.

Definition made : journal := wrote (make_relationship_sql 1 2) two_users.2.

Lemma make_release_friends_witness : exists m1 m2,
  MakeFriendRelationship 1 2 two_users = Ok (true, (m1, made))
  /\ ReleaseFriendRelationship 1 2 (m1, made)
     = Ok (true, (m2, wrote (release_relationship_sql 1 2) made)).
Proof.
  destruct (make_release_friends 1 2 two_users.1 two_users.2 made
    (wrote (release_relationship_sql 1 2) made) two_users_ok) as
    (m1 & m2 & E1 & _ & _ & E2 & _); [lia|by apply (bool_decide_unpack _); vm_compute|by apply (bool_decide_unpack _); vm_compute|reflexivity|reflexivity|].
  exists m1, m2. split; [exact E1|exact E2].
Defined.

Lemma half_friendship_witness : exists m1 d1,
  MakeFriendRelationship 1 9 two_users = Ok (false, (m1, d1)) /\ 9 ∈ friends_of 1 (m_cachedUsers m1).
Proof.
  destruct (half_friendship 1 9 two_users.1 two_users.2
    (wrote (make_relationship_sql 1 9) two_users.2) two_users_ok) as (m1 & E & F & _);
    [lia|by apply (bool_decide_unpack _); vm_compute|by apply (bool_decide_unpack _); vm_compute|reflexivity|].
  exists m1. eexists. split; [exact E|exact F].
Defined.

Lemma friend_info_exact_witness : exists l,
  GetFriendInfoByUserId 1 two_users = Ok (l, two_users) /\ StronglySorted Z.lt (ids l).
Proof.
  destruct (friend_info_exact 1 two_users.1 two_users.2 two_users_ok) as (l & E & S & _).
  exists l. split; [exact E|exact S].
Defined.

Lemma update_exact_witness : exists s,
  ModifyUserPassword 2 (bs "new") two_users = Ok (true, s).
Proof.
  destruct (update_exact 2 User_new (bs "new") two_users.1 two_users.2 two_users_ok) as [_ E].
  eexists. exact (E true _ eq_refl).
Defined.

Lemma load_users_exact_witness : exists m' d',
  LoadUserFromDB (UserManager_new, journal_of user_fields [user_row (bs "7") (bs "ann") (bs "pw")])
  = Ok (true, (m', d')) /\ m_baseUserID m' = 7.
Proof.
  destruct (load_users_exact UserManager_new _ _ [user_row (bs "7") (bs "ann") (bs "pw")]
    (journal_answers load_users_sql user_fields [user_row (bs "7") (bs "ann") (bs "pw")]
       ltac:(by repeat constructor)) ltac:(done)) as (m' & E & _ & B & _).
  exists m'. eexists. split; [exact E|]. by rewrite B.
Defined.

Lemma load_relationship_exact_witness : exists fs' d',
  LoadRelationshipFromDB 2 []
    (UserManager_new, journal_of pair_fields [[Some (bs "1"); Some (bs "2")]]) = Ok ((true, fs'), (UserManager_new, d')).
Proof.
  destruct (load_relationship_exact 2 [] UserManager_new _ _ [[Some (bs "1"); Some (bs "2")]]
    (journal_answers (load_relationship_sql 2) pair_fields [[Some (bs "1"); Some (bs "2")]]
       ltac:(by repeat constructor)) ltac:(done) ltac:(constructor)) as (fs' & E & _).
  exists fs'. eexists. exact E.
Defined.

Lemma restart_reuses_ids_witness : exists m' d',
  LoadUserFromDB (UserManager_new, journal_of user_fields [user_row (bs "268435456") (bs "268435456") []])
  = Ok (true, (m', d')) /\ GROUPID_BOUBDARY + 1 ∈ ids (m_cachedUsers m')
  /\ exists s, AddGroup (bs "chess") 1 (m', d') = Ok (Some (GROUPID_BOUBDARY + 1), s).
Proof.
  destruct (restart_reuses_ids UserManager_new _ _ [user_row (bs "268435456") (bs "268435456") []]
    User_new (bs "chess") 1
    (journal_answers load_users_sql user_fields [user_row (bs "268435456") (bs "268435456") []]
       ltac:(by repeat constructor))) as (m' & E & I & _ & G); try done.
  - by apply (bool_decide_unpack _); vm_compute.
  - intros i. assert (userid <$> (row_user <$> [user_row (bs "268435456") (bs "268435456") []]) = [268435456])
      as -> by (by vm_compute). rewrite list_elem_of_singleton. by intros ->.
  - exists m'. eexists. split; [exact E|]. split; [exact I|]. exact (G _ eq_refl).
Defined.

Definition cached_ann : User := default User_new (head (m_cachedUsers two_users.1)).

Lemma duplicate_username_witness :
  (exists u s, AddUser (registered (bs "ann") (bs "Eve") (bs "evil")) two_users = Ok ((true, u), s)
    /\ GetUserInfoByUsername (bs "ann") s = Ok (Some cached_ann, s))
  /\ exists s,
    LoadUserFromDB (UserManager_new,
      journal_of user_fields [user_row (bs "3") (bs "ann") (bs "evil"); user_row (bs "1") (bs "ann") (bs "pw")])
    = Ok (true, s)
    /\ GetUserInfoByUsername (bs "ann") s
       = Ok (Some (row_user (user_row (bs "3") (bs "ann") (bs "evil"))), s).
Proof.
  apply (duplicate_username two_users.1 two_users.2
    (wrote (insert_user_sql 3 (registered (bs "ann") (bs "Eve") (bs "evil"))) two_users.2)
    cached_ann (bs "Eve") (bs "evil") [] (user_row (bs "3") (bs "ann") (bs "evil"))
    [user_row (bs "1") (bs "ann") (bs "pw")]
    _ (wrote load_users_sql (journal_of user_fields
        [user_row (bs "3") (bs "ann") (bs "evil"); user_row (bs "1") (bs "ann") (bs "pw")])) UserManager_new).
  - apply two_users_ok.
  - done.
  - done.
  - done.
  - apply (journal_answers load_users_sql user_fields). by repeat constructor.
  - done.
  - done.
  - constructor.
Defined.

Lemma empty_tables_dangling_witness :
  Init (UserManager_new, journal_of user_fields []) = Undef Dangling.
Proof.
  apply (empty_tables_dangling UserManager_new (journal_of user_fields [])
    (wrote load_users_sql (journal_of user_fields [])) 0 []).
  apply (journal_answers load_users_sql user_fields). constructor.
Defined.
