(* ===== verification/Conn.v ===== *)
(** * Connections, as the servers use them (net/TcpConnection.h)

    What [send], [shutdown] and [forceClose] do to a connection as its user sees it, and what
    users meet: connections come up, deliver bytes and go down. TcpConnection.v and TcpServer.v
    model the code behind this; TcpRefinement.v shows that it behaves like this file. *)

From S2P Require Import Prelude Bytes Buffer.

Inductive StateE := kDisconnected | kConnecting | kConnected | kDisconnecting.

#[export] Instance StateE_eq_dec : EqDecision StateE.
Proof. solve_decision. Defined.

(** The state and the bytes accepted for the peer so far. *)
Record Conn := { state_ : StateE; sent : bytes }.

(** [TcpConnection::send]: without effect unless connected. *)
Definition conn_send (data : bytes) (c : Conn) : Conn :=
  match state_ c with
  | kConnected => {| state_ := kConnected; sent := sent c ++ data |}
  | _ => c
  end.

(** [TcpConnection::forceClose]: the close itself happens later in the loop, and comes back as
    a connection event. *)
Definition conn_forceClose (c : Conn) : Conn :=
  match state_ c with
  | kConnected | kDisconnecting => {| state_ := kDisconnecting; sent := sent c |}
  | _ => c
  end.

(** ** What sending does to connections *)

(** A connection gets bytes, if it is connected, and may be on its way to be closed. *)
Definition conn_grows (a b : Conn) : Prop :=
  sent a `prefix_of` sent b
  /\ (state_ b = state_ a \/ state_ a = kConnected /\ state_ b = kDisconnecting)
  /\ (state_ a <> kConnected -> sent b = sent a).

#[export] Instance conn_grows_pre : PreOrder conn_grows.
Proof.
  split.
  - intros a. split; [done|]. split; [by left|done].
  - intros a b c (P1 & S1 & N1) (P2 & S2 & N2). split; [by etransitivity|]. split.
    + destruct S1 as [S1|[S1 S1']], S2 as [S2|[S2 S2']]; rewrite ?S2, ?S1, ?S2', ?S1' in *; eauto; try congruence.
    + intros Na. rewrite N2, N1; [done..|]. destruct S1 as [->|[? _]]; done.
Qed.

Lemma conn_send_grows d c : conn_grows c (conn_send d c).
Proof.
  unfold conn_send, conn_grows. destruct (state_ c) eqn:E; simpl; rewrite ?E;
    (split; [by apply prefix_app_r || done|split; [by left|done]]).
Qed.

Lemma conn_forceClose_grows c : conn_grows c (conn_forceClose c).
Proof.
  unfold conn_forceClose, conn_grows. destruct (state_ c) eqn:E; simpl; rewrite ?E; split; auto.
Qed.

Definition conns_grow (a b : gmap Z Conn) : Prop := forall c,
  match a !! c, b !! c with
  | Some x, Some y => conn_grows x y
  | None, None => True
  | _, _ => False
  end.

#[export] Instance conns_grow_pre : PreOrder conns_grow.
Proof.
  split.
  - intros a c. by destruct (a !! c).
  - intros a b d H1 H2 c. specialize (H1 c). specialize (H2 c).
    destruct (a !! c), (b !! c), (d !! c); try done. by etransitivity.
Qed.

Lemma conns_grow_alter f c m : (forall x, conn_grows x (f x)) -> conns_grow m (alter f c m).
Proof.
  intros Hf k. destruct (decide (c = k)) as [->|Hk].
  - rewrite lookup_alter_eq. destruct (m !! k); simpl; [apply Hf|done].
  - rewrite lookup_alter_ne by done. by destruct (m !! k).
Qed.

(** [TcpConnection::shutdown]: no more sends; the socket is shut down when the bytes are out. *)
Definition conn_shutdown (c : Conn) : Conn :=
  match state_ c with
  | kConnected => {| state_ := kDisconnecting; sent := sent c |}
  | _ => c
  end.

(** A connection that is not closed yet. *)
Definition is_open (c : Conn) : Prop := state_ c = kConnected \/ state_ c = kDisconnecting.

(** ** The user of the network library

    Its code runs in callbacks, on a state of its own, and calls back into the library. *)

Inductive callback :=
| CbConnection (p : Z) (up : bool)            (* connectionCallback_, with connected() *)
| CbMessage (p : Z) (readable : bytes)        (* messageCallback_, with the buffer's content *)
| CbWriteComplete (p : Z)                     (* writeCompleteCallback_ *)
| CbHighWaterMark (p n : Z).                  (* highWaterMarkCallback_ *)

Inductive call :=
| CallSend (p : Z) (data : bytes)
| CallShutdown (p : Z)
| CallForceClose (p : Z)
| CallStartRead (p : Z)
| CallStopRead (p : Z).

(** What a callback does: the calls it makes, in order, on any connections, the number of bytes
    a message callback takes out of its buffer, and the user's next state. *)
Record reaction (U : Type) := { calls : list call; consumed : nat; next : U }.
Arguments calls {U} _.
Arguments consumed {U} _.
Arguments next {U} _.

(** ** What the user sees *)

Section peers.
Context {U : Type} (react : callback -> U -> reaction U).

(** The connections, what their input buffers hold, and the user's state. *)
Record Peers := {
  a_conns : gmap Z Conn;
  a_input : gmap Z bytes;
  a_user : U;
}.

Definition set_a_conns (m : gmap Z Conn) (a : Peers) : Peers :=
  {| a_conns := m; a_input := a_input a; a_user := a_user a |}.

(** Whether a connection is read from is not visible here. *)
Definition a_perform (a : Peers) (k : call) : Peers :=
  match k with
  | CallSend p d => set_a_conns (alter (conn_send d) p (a_conns a)) a
  | CallShutdown p => set_a_conns (alter conn_shutdown p (a_conns a)) a
  | CallForceClose p => set_a_conns (alter conn_forceClose p (a_conns a)) a
  | CallStartRead _ | CallStopRead _ => a
  end.

Definition a_callback (cb : callback) (a : Peers) : Peers :=
  let r := react cb (a_user a) in
  let a := match cb with
           | CbMessage p _ => {| a_conns := a_conns a; a_input := alter (drop (consumed r)) p (a_input a);
                                 a_user := a_user a |}
           | _ => a
           end in
  let a := fold_left a_perform (calls r) a in
  {| a_conns := a_conns a; a_input := a_input a; a_user := next r |}.

(** A connection comes up, delivers bytes and goes down; the library's other callbacks come at
    any time. These are the events of IMServer.v and FileServer.v. *)
Inductive peer_event :=
| PConnect (p : Z)
| PReceive (p : Z) (d : bytes)
| PDisconnect (p : Z)
| PNotice (cb : callback).

Definition peer_enabled (e : peer_event) (a : Peers) : Prop :=
  match e with
  | PConnect p => a_conns a !! p = None
  | PReceive p d => d <> [] /\ exists c, a_conns a !! p = Some c /\ is_open c
  | PDisconnect p => exists c, a_conns a !! p = Some c /\ is_open c
  | PNotice cb => match cb with CbWriteComplete _ | CbHighWaterMark _ _ => True | _ => False end
  end.

Definition peer_step (e : peer_event) (a : Peers) : Peers :=
  match e with
  | PConnect p =>
      a_callback (CbConnection p true)
        {| a_conns := <[p := {| state_ := kConnected; sent := [] |}]> (a_conns a);
           a_input := <[p := []]> (a_input a); a_user := a_user a |}
  | PReceive p d =>
      let q := default [] (a_input a !! p) ++ d in
      a_callback (CbMessage p q)
        {| a_conns := a_conns a; a_input := <[p := q]> (a_input a); a_user := a_user a |}
  | PDisconnect p =>
      let a := a_callback (CbConnection p false)
                 (set_a_conns (alter (fun c => {| state_ := kDisconnected; sent := sent c |}) p (a_conns a)) a) in
      {| a_conns := delete p (a_conns a); a_input := delete p (a_input a); a_user := a_user a |}
  | PNotice cb => a_callback cb a
  end.

Inductive peers_reach (a0 : Peers) : Peers -> Prop :=
| peers_refl : peers_reach a0 a0
| peers_step a e : peers_reach a0 a -> peer_enabled e a -> peers_reach a0 (peer_step e a).

(** ** Open connections stay open until they go down *)

Definition all_open (a : Peers) : Prop := forall p x, a_conns a !! p = Some x -> is_open x.

(** The connections of [b] are those of [a], the open ones still open. *)
Definition stays_open (a b : Peers) : Prop := forall p,
  match a_conns a !! p, a_conns b !! p with
  | Some x, Some y => is_open x -> is_open y
  | None, None => True
  | _, _ => False
  end.

#[export] Instance stays_open_pre : PreOrder stays_open.
Proof.
  split.
  - intros a p. by destruct (a_conns a !! p).
  - intros a b c H1 H2 p. specialize (H1 p). specialize (H2 p).
    destruct (a_conns a !! p), (a_conns b !! p), (a_conns c !! p); auto; done.
Qed.

Lemma stays_open_alter f p a : (forall x, is_open x -> is_open (f x)) ->
  stays_open a (set_a_conns (alter f p (a_conns a)) a).
Proof.
  intros Hf q. cbn. destruct (decide (p = q)) as [<-|Hq].
  - rewrite lookup_alter_eq. destruct (a_conns a !! p) as [x|]; [exact (Hf x)|done].
  - rewrite lookup_alter_ne by done. by destruct (a_conns a !! q).
Qed.

Lemma a_perform_open a k : stays_open a (a_perform a k).
Proof.
  destruct k as [p d|p|p|p|p]; try done; apply stays_open_alter; intros [st sn] [Hx|Hx]; simpl in Hx; subst; unfold is_open; auto.
Qed.

Lemma a_callback_open cb a : stays_open a (a_callback cb a).
Proof.
  unfold a_callback. set (r := react cb (a_user a)).
  assert (forall ks b, stays_open b (fold_left a_perform ks b)) as Hk.
  { induction ks as [|k ks IH]; intros b; [done|]. simpl. etransitivity; [apply a_perform_open|apply IH]. }
  match goal with |- context [fold_left a_perform _ ?b] => specialize (Hk (calls r) b) end.
  intros p. specialize (Hk p). cbn. by destruct cb.
Qed.

Lemma peer_step_open e a : all_open a -> all_open (peer_step e a).
Proof.
  intros A p y. destruct e as [q|q d|q|cb]; cbn [peer_step].
  - intros Ey. match type of Ey with context [a_callback ?cb ?b] => pose proof (a_callback_open cb b p) as Hb end.
    rewrite Ey in Hb. cbn in Hb. destruct (decide (q = p)) as [<-|Hq].
    + rewrite lookup_insert_eq in Hb. apply Hb. by left.
    + rewrite lookup_insert_ne in Hb by done. destruct (a_conns a !! p) eqn:Ex; [|done]. by eapply Hb, A.
  - intros Ey. match type of Ey with context [a_callback ?cb ?b] => pose proof (a_callback_open cb b p) as Hb end.
    rewrite Ey in Hb. cbn in Hb. destruct (a_conns a !! p) eqn:Ex; [|done]. by eapply Hb, A.
  - cbn [a_conns]. intros Ey. destruct (decide (q = p)) as [<-|Hq]; [by rewrite lookup_delete_eq in Ey|].
    rewrite lookup_delete_ne in Ey by done.
    match type of Ey with context [a_callback ?cb ?b] => pose proof (a_callback_open cb b p) as Hb end.
    rewrite Ey in Hb. cbn in Hb. rewrite lookup_alter_ne in Hb by done.
    destruct (a_conns a !! p) eqn:Ex; [|done]. by eapply Hb, A.
  - intros Ey. pose proof (a_callback_open cb a p) as Hb. rewrite Ey in Hb.
    destruct (a_conns a !! p) eqn:Ex; [|done]. by eapply Hb, A.
Qed.

Lemma peers_reach_open a b : peers_reach a b -> all_open a -> all_open b.
Proof. induction 1 as [|b e R IH He]; [done|]. intros A. apply peer_step_open. auto. Qed.

Lemma peers_reach_trans a b c : peers_reach a b -> peers_reach b c -> peers_reach a c.
Proof. intros R1 R2. induction R2 as [|c e R IH He]; [done|]. by constructor. Qed.

Lemma peers_reach_one e a : peer_enabled e a -> peers_reach a (peer_step e a).
Proof. intros He. constructor; [constructor|done]. Qed.
End peers.
