(* ===== verification/Timestamp.v ===== *)
(** * Timestamp (base/Timestamp.h)

    A time stamp is its microseconds since the epoch, an [int64_t]; 0 and less is invalid. *)

From S2P Require Import Prelude Bytes Double.

Definition kMicroSecondsPerSecond : Z := 1000 * 1000.

Definition valid (t : Z) : bool := 0 <? t.
Definition invalid : Z := 0.

(** [kMicroSecondsPerSecond] as a double. *)
Definition million : spec_float := S754_finite false 8589934592000000 (-33).

(** [addTime] *)
Definition addTime (timestamp : Z) (seconds : spec_float) : outcome Z :=
  delta ← double_to_i64 (double_mul seconds million);
  long_add timestamp delta.

(** A tenth of a second is 100000 microseconds, two and a half are 2500000. *)
Example addTime_tenth : addTime 5 (S754_finite false 7205759403792794 (-56)) = Ok 100005.
Proof. reflexivity. Qed.
Example addTime_many : addTime 0 (S754_finite false 5 (-1)) = Ok 2500000.
Proof. reflexivity. Qed.
