(* ===== verification/Date.v ===== *)
(** * Date (base/Date.h, base/Date.cc)

    A date is its Julian day number, an [int]. The calendar it stands for is defined here by the
    rule that gives the next day; the two conversions are proved against it. *)

From S2P Require Import Prelude Bytes Text.

(** ** Conversions *)

(** An [int] expression whose intermediate results are [l]: undefined when one does not fit. *)
Definition checked {A} (l : list Z) (a : A) : outcome A :=
  if decide (Forall is_i32 l) then Ok a else Undef SignedOverflow.

Definition getJulianDayNumber (year month day : Z) : outcome Z :=
  let a := (14 - month) ÷ 12 in
  let y := year + 4800 - a in
  let m := month + 12 * a - 3 in
  let s := day + (153 * m + 2) ÷ 5 in
  checked [14 - month; year + 4800; y; 12 * a; month + 12 * a; m; 153 * m; 153 * m + 2; s; y * 365; s + y * 365;
           s + y * 365 + y ÷ 4; s + y * 365 + y ÷ 4 - y ÷ 100; s + y * 365 + y ÷ 4 - y ÷ 100 + y ÷ 400;
           s + y * 365 + y ÷ 4 - y ÷ 100 + y ÷ 400 - 32045]
    (s + y * 365 + y ÷ 4 - y ÷ 100 + y ÷ 400 - 32045).

Record YearMonthDay := { year : Z; month : Z; day : Z }.

#[export] Instance YearMonthDay_eq_dec : EqDecision YearMonthDay.
Proof. solve_decision. Defined.

Definition getYearMonthDay (julianDayNumber : Z) : outcome YearMonthDay :=
  let a := julianDayNumber + 32044 in
  let b := (4 * a + 3) ÷ 146097 in
  let c := a - (b * 146097) ÷ 4 in
  let d := (4 * c + 3) ÷ 1461 in
  let e := c - (1461 * d) ÷ 4 in
  let m := (5 * e + 2) ÷ 153 in
  checked [a; 4 * a; 4 * a + 3; b * 146097; c; 4 * c; 4 * c + 3; 1461 * d; e; 5 * e; 5 * e + 2; 153 * m; 153 * m + 2;
           m + 3; b * 100; b * 100 + d; b * 100 + d - 4800]
    {| day := e - (153 * m + 2) ÷ 5 + 1; month := m + 3 - 12 * (m ÷ 10); year := b * 100 + d - 4800 + m ÷ 10 |}.

Definition kJulianDayOf1970_01_01 : Z := 2440588.

Example julian_epoch : getJulianDayNumber 1970 1 1 = Ok kJulianDayOf1970_01_01.
Proof. reflexivity. Qed.

Definition kDaysPerWeek : Z := 7.

(** 0 is Sunday. *)
Definition weekDay (julianDayNumber_ : Z) : outcome Z :=
  checked [julianDayNumber_ + 1] (Z.rem (julianDayNumber_ + 1) kDaysPerWeek).

Definition date_valid (julianDayNumber_ : Z) : bool := 0 <? julianDayNumber_.

(** ** The calendar *)

Definition leap (y : Z) : bool := (y mod 4 =? 0) && (negb (y mod 100 =? 0) || (y mod 400 =? 0)).

Definition month_days (y m : Z) : Z :=
  if m =? 2 then if leap y then 29 else 28
  else if (m =? 4) || (m =? 6) || (m =? 9) || (m =? 11) then 30
  else 31.

Definition a_date (d : YearMonthDay) : Prop :=
  1 <= month d <= 12 /\ 1 <= day d <= month_days (year d) (month d).

Definition next_day (d : YearMonthDay) : YearMonthDay :=
  if day d <? month_days (year d) (month d) then {| year := year d; month := month d; day := day d + 1 |}
  else if month d <? 12 then {| year := year d; month := month d + 1; day := 1 |}
  else {| year := year d + 1; month := 1; day := 1 |}.

(** The years for which all intermediate results fit: from March of 4801 BC on. *)
Definition in_range (d : YearMonthDay) : Prop := (-4799 <= year d \/ year d = -4800 /\ 3 <= month d) /\ year d <= 1460000.

(** ** In closed form *)

(** March is month 0 of a year that has its leap day at the end. *)
Definition march_year (d : YearMonthDay) : Z := if month d <=? 2 then year d + 4799 else year d + 4800.
Definition march_month (d : YearMonthDay) : Z := if month d <=? 2 then month d + 9 else month d - 3.
Definition day_of_year (d : YearMonthDay) : Z := day d - 1 + (153 * march_month d + 2) / 5.
Definition day_number (d : YearMonthDay) : Z :=
  let y := march_year d in day_of_year d + 365 * y + y / 4 - y / 100 + y / 400 - 32044.

Lemma month_cases (P : Z -> Prop) m : 1 <= m <= 12 ->
  P 1 -> P 2 -> P 3 -> P 4 -> P 5 -> P 6 -> P 7 -> P 8 -> P 9 -> P 10 -> P 11 -> P 12 -> P m.
Proof.
  intros Hm. intros. assert (m = 1 \/ m = 2 \/ m = 3 \/ m = 4 \/ m = 5 \/ m = 6 \/ m = 7 \/ m = 8 \/ m = 9 \/ m = 10
    \/ m = 11 \/ m = 12) as M by lia. naive_solver.
Qed.

(** The length of a year that begins in March is that of the next one's February. *)
Definition last_day (y : Z) : Z := if leap (y + 1) then 365 else 364.

Lemma leap_true y : leap y = true <-> y mod 4 = 0 /\ (y mod 100 <> 0 \/ y mod 400 = 0).
Proof. unfold leap. rewrite andb_true_iff, orb_true_iff, negb_true_iff, !Z.eqb_eq, Z.eqb_neq. done. Qed.

Lemma leap_shift y : leap (y + 4800) = leap y.
Proof.
  unfold leap. replace ((y + 4800) mod 4) with (y mod 4) by dlia. replace ((y + 4800) mod 100) with (y mod 100) by dlia.
  by replace ((y + 4800) mod 400) with (y mod 400) by dlia.
Qed.

Lemma a_date_march d : a_date d -> in_range d ->
  0 <= march_year d /\ 0 <= march_month d <= 11
  /\ 0 <= day_of_year d <= last_day (march_year d)
  /\ (153 * march_month d + 2) / 5 <= day_of_year d < (153 * (march_month d + 1) + 2) / 5.
Proof.
  destruct d as [y m dd]. unfold a_date, in_range, day_of_year, march_year, march_month, month_days, last_day. cbn [year month day].
  intros (Hm & Hd) Hr.
  assert (leap (y + 4799 + 1) = leap y) as L1 by (rewrite <- (leap_shift y); f_equal; lia).
  revert Hd Hr. pattern m. apply month_cases; [done|..]; cbn [Z.eqb Z.leb Pos.eqb orb Z.compare Pos.compare Pos.compare_cont]; 
    intros Hd Hr; rewrite ?L1; repeat (destruct (leap _)); dlia.
Qed.

(** What the bounds on the day of the year give. *)
Lemma year_parts y e : 0 <= y -> 0 <= e <= last_day y ->
  let a := e + 365 * y + y / 4 - y / 100 + y / 400 in
  (4 * a + 3) / 146097 = y / 100
  /\ (let c := a - (y / 100 * 146097) / 4 in
      c = e + 365 * (y mod 100) + (y mod 100) / 4
      /\ (4 * c + 3) / 1461 = y mod 100
      /\ c - (1461 * (y mod 100)) / 4 = e).
Proof.
  intros Hy He a.
  assert (0 <= e <= 365 /\ (e = 365 -> (y + 1) mod 4 = 0 /\ ((y + 1) mod 100 <> 0 \/ (y + 1) mod 400 = 0))) as [H1 H2].
  { unfold last_day in He. destruct (leap (y + 1)) eqn:L; [apply leap_true in L|]; split; lia. }
  set (B := y / 100). set (D := y mod 100).
  assert (y = 100 * B + D /\ 0 <= D < 100 /\ 0 <= B) as (Ey & HD & HB) by (subst B D; dlia).
  assert (y / 4 = 25 * B + D / 4) as E4 by dlia.
  assert (y / 400 = B / 4) as E400 by dlia.
  assert (a = e + 36524 * B + B / 4 + 365 * D + D / 4) as Ea by (subst a; rewrite E4, E400; fold B; lia).
  assert (e = 365 -> D mod 4 = 3 /\ (D = 99 -> B mod 4 = 3)) as H3.
  { intros E. destruct (H2 E) as [M4 M]. split; [dlia|]. intros ->. destruct M as [M|M]; dlia. }
  assert (exists qB rB qD rD, B = 4 * qB + rB /\ 0 <= rB < 4 /\ D = 4 * qD + rD /\ 0 <= rD < 4 /\ B / 4 = qB /\ B mod 4 = rB
    /\ D / 4 = qD /\ D mod 4 = rD) as (qB & rB & qD & rD & EB & HrB & ED & HrD & Q1 & Q2 & Q3 & Q4)
    by (exists (B / 4), (B mod 4), (D / 4), (D mod 4); dlia).
  rewrite Q1, Q3 in Ea. rewrite Q2, Q4 in H3. clear E4 E400 H2 Ey. rewrite Q3. clearbody a B D. clear Q1 Q2 Q3 Q4 Hy y He.
  assert ((B * 146097) / 4 = 36524 * B + qB) as C1 by (symmetry; apply Z.div_unique with rB; lia).
  assert ((1461 * D) / 4 = 365 * D + qD) as C2 by (symmetry; apply Z.div_unique with rD; lia).
  assert (a - 36524 * B - qB = e + 365 * D + qD) as C3 by lia.
  split; [symmetry; apply Z.div_unique with (4 * e + 1460 * D + 4 * qD + 3 - rB); lia|].
  cbv zeta. rewrite C1. replace (a - (36524 * B + qB)) with (e + 365 * D + qD) by lia. split; [done|]. split.
  - symmetry. apply Z.div_unique with (4 * e + 3 - rD); lia.
  - rewrite C2. lia.
Qed.

Lemma checked_ok {A} l (x : A) : Forall is_i32 l -> checked l x = Ok x.
Proof. intros F. unfold checked. by rewrite decide_True. Qed.

(** [getJulianDayNumber] counts the days, without overflow. *)
Lemma getJulianDayNumber_ok d : a_date d -> in_range d -> getJulianDayNumber (year d) (month d) (day d) = Ok (day_number d).
Proof.
  intros V R. pose proof (a_date_march d V R) as (Hy & Hm & He & _).
  assert (He' : 0 <= day_of_year d <= 365) by (unfold last_day in He; destruct (leap _); lia).
  assert (march_year d <= 1464800) as Hy' by (unfold march_year, in_range in *; destruct (_ <=? _); lia).
  destruct V as [Vm Vd]. unfold getJulianDayNumber.
  assert ((14 - month d) ÷ 12 = if month d <=? 2 then 1 else 0) as -> by (destruct (Z.leb_spec (month d) 2); dlia).
  assert (year d + 4800 - (if month d <=? 2 then 1 else 0) = march_year d) as ->
    by (unfold march_year; destruct (_ <=? _); lia).
  assert (month d + 12 * (if month d <=? 2 then 1 else 0) - 3 = march_month d) as ->
    by (unfold march_month; destruct (_ <=? _); lia).
  assert (day d + (153 * march_month d + 2) ÷ 5 = day_of_year d + 1) as -> by (unfold day_of_year; rewrite Z.quot_div_nonneg by lia; lia).
  rewrite !Z.quot_div_nonneg by lia. rewrite checked_ok; [unfold day_number; f_equal; lia|].
  assert (0 <= (if month d <=? 2 then 1 else 0) <= 1) as Ha by (destruct (_ <=? _); lia).
  unfold in_range in R. generalize dependent (if month d <=? 2 then 1 else 0). intros a Ha.
  generalize dependent (march_year d). intros y Hy He Hy'. clear He.
  assert (0 <= y / 4 <= 366200 /\ 0 <= y / 100 <= 14648 /\ 0 <= y / 400 <= 3662) as (Q1 & Q2 & Q3) by dlia.
  unfold is_i32, INT_MIN, INT_MAX. rewrite !Forall_cons. repeat split; try lia; constructor.
Qed.

(** And [getYearMonthDay] is its inverse. *)
Lemma getYearMonthDay_ok d : a_date d -> in_range d -> getYearMonthDay (day_number d) = Ok d.
Proof.
  intros V R. pose proof (a_date_march d V R) as (Hy & Hm & He & Hmon).
  assert (march_year d <= 1464800) as Hy' by (unfold march_year, in_range in *; destruct (_ <=? _); lia).
  pose proof (year_parts (march_year d) (day_of_year d) Hy He) as (EB & Ec & ED & Ee). cbv zeta in *.
  unfold getYearMonthDay.
  set (a := day_of_year d + 365 * march_year d + march_year d / 4 - march_year d / 100 + march_year d / 400) in *.
  assert (day_number d + 32044 = a) as -> by (unfold day_number; subst a; lia).
  assert (0 <= a <= 536000000) as Ha.
  { unfold last_day in He. subst a. destruct (leap _); dlia. }
  set (B := march_year d / 100) in *. set (D := march_year d mod 100) in *.
  assert (march_year d = 100 * B + D /\ 0 <= B /\ 0 <= D < 100) as (Ey & HB & HD) by (subst B D; dlia).
  rewrite (Z.quot_div_nonneg (4 * a + 3)), EB by lia. rewrite (Z.quot_div_nonneg (B * 146097)) by lia.
  set (c := a - B * 146097 / 4) in *. assert (0 <= c <= 40000) as Hc by (unfold last_day in He; destruct (leap _); dlia).
  rewrite (Z.quot_div_nonneg (4 * c + 3)), ED by lia. rewrite (Z.quot_div_nonneg (1461 * D)), Ee by lia.
  assert (0 <= day_of_year d <= 365) as He' by (unfold last_day in He; destruct (leap _); lia).
  rewrite (Z.quot_div_nonneg (5 * day_of_year d + 2)) by lia.
  assert ((5 * day_of_year d + 2) / 153 = march_month d) as -> by dlia.
  rewrite !Z.quot_div_nonneg by lia. rewrite checked_ok.
  - f_equal. destruct V as [Vm _], d as [y m dd]. unfold day_of_year, march_year, march_month in *. cbn [year month day] in *.
    destruct (Z.leb_spec m 2).
    + replace ((m + 9) / 10) with 1 by dlia. f_equal; lia.
    + replace ((m - 3) / 10) with 0 by dlia. f_equal; lia.
  - unfold is_i32, INT_MIN, INT_MAX. rewrite !Forall_cons. repeat split; try lia; constructor.
Qed.

(** ** Day after day *)

Lemma next_day_date d : a_date d -> a_date (next_day d).
Proof.
  destruct d as [y m dd]. unfold a_date, next_day. cbn [year month day]. intros [Hm Hd].
  destruct (Z.ltb_spec dd (month_days y m)); cbn [year month day]; [lia|].
  destruct (Z.ltb_spec m 12); cbn [year month day]; (split; [lia|]).
  - unfold month_days. repeat destruct (_ =? _); cbn; try lia; destruct (leap y); lia.
  - cbn. lia.
Qed.

Lemma leap_day y : y / 4 - y / 100 + y / 400 = (y - 1) / 4 - (y - 1) / 100 + (y - 1) / 400 + (if leap y then 1 else 0).
Proof.
  destruct (leap y) eqn:L; [apply leap_true in L; dlia|].
  assert (y mod 4 <> 0 \/ y mod 100 = 0 /\ y mod 400 <> 0).
  { destruct (decide (y mod 4 = 0)); [|by left]. right. destruct (decide (y mod 100 = 0)), (decide (y mod 400 = 0)); try done;
      exfalso; rewrite <- not_true_iff_false, leap_true in L; tauto. }
  dlia.
Qed.

Lemma next_day_number d : a_date d -> day_number (next_day d) = day_number d + 1.
Proof.
  destruct d as [y m dd]. unfold a_date, next_day. cbn [year month day]. intros [Hm Hd].
  destruct (Z.ltb_spec dd (month_days y m)) as [Hlt|Hge].
  { unfold day_number, day_of_year, march_year, march_month. cbn [year month day]. lia. }
  assert (dd = month_days y m) as -> by lia. clear Hd Hge. unfold day_number, day_of_year.
  pose proof (leap_day (y + 4800)) as L. rewrite leap_shift in L. replace (y + 4800 - 1) with (y + 4799) in L by lia.
  pattern m. apply month_cases; [done|..]; unfold march_year, march_month, month_days;
    repeat match goal with |- context [Z.pos ?a + 1] =>
      let v := eval compute in (Z.pos a + 1) in change (Z.pos a + 1) with v end;
    cbn -[Z.div Z.add Z.mul leap]; try (replace (y + 1 + 4799) with (y + 4800) by lia);
    assert (y + 4800 = y + 4799 + 1) as Y by lia; generalize dependent (y + 4800); generalize dependent (y + 4799);
    repeat match goal with |- context [(153 * ?a + 2) / 5] =>
      let v := eval compute in ((153 * a + 2) / 5) in change ((153 * a + 2) / 5) with v end;
    intros; try destruct (leap y); lia.
Qed.

(** So there is a date for every day. *)
Lemma every_day (n : nat) : exists d, a_date d /\ (-4799 <= year d \/ year d = -4800 /\ 3 <= month d) /\ day_number d = Z.of_nat n - 32044.
Proof.
  induction n as [|n (d & V & R & E)].
  - exists {| year := -4800; month := 3; day := 1 |}. split; [|split; [|done]]; unfold a_date; cbn; lia.
  - exists (next_day d). split; [by apply next_day_date|]. rewrite next_day_number, E by done. split; [|lia].
    destruct d as [y m dd]. unfold next_day. cbn [year month day] in *.
    destruct (_ <? _); [done|]. destruct (_ <? _); cbn [year month]; lia.
Qed.

Lemma day_date j : -32044 <= j <= 533000000 -> exists d, a_date d /\ in_range d /\ day_number d = j.
Proof.
  intros Hj. destruct (every_day (Z.to_nat (j + 32044))) as (d & V & R & E). exists d. split; [done|]. split; [|lia].
  split; [done|]. destruct (decide (year d <= 1460000)) as [|Hy]; [done|]. exfalso.
  (* the day after the year 1460000 is beyond *)
  assert (0 <= day_of_year d) as Hd.
  { destruct V as [Hm Hd]. unfold day_of_year, march_month. destruct (Z.leb_spec (month d) 2); dlia. }
  assert (1464799 < march_year d) as Hm by (unfold march_year; destruct (_ <=? _); lia).
  unfold day_number in E. clear - Hd Hm E Hj. generalize dependent (march_year d). intros y Hm E. dlia.
Qed.

(** The calendar. A date and its Julian day number determine each other: for every date from
    March of 4801 BC to the year 1460000 the number is computed without overflow, it is turned
    back into that date, and the number of the next day, by the rules for the lengths of months
    and for leap years, is one more; and every number in between is that of a date. *)
Theorem calendar_exact :
  (forall d, a_date d -> in_range d -> exists j, getJulianDayNumber (year d) (month d) (day d) = Ok j
     /\ getYearMonthDay j = Ok d
     /\ (in_range (next_day d) -> getJulianDayNumber (year (next_day d)) (month (next_day d)) (day (next_day d)) = Ok (j + 1)))
  /\ (forall j, -32044 <= j <= 533000000 -> exists d, a_date d /\ in_range d
     /\ getYearMonthDay j = Ok d /\ getJulianDayNumber (year d) (month d) (day d) = Ok j)
  /\ getJulianDayNumber 1970 1 1 = Ok kJulianDayOf1970_01_01.
Proof.
  split; [|split; [|done]].
  - intros d V R. exists (day_number d). split; [by apply getJulianDayNumber_ok|]. split; [by apply getYearMonthDay_ok|].
    intros R'. rewrite getJulianDayNumber_ok, next_day_number by (done || by apply next_day_date). done.
  - intros j Hj. destruct (day_date j Hj) as (d & V & R & <-). exists d. do 2 (split; [done|]).
    split; [by apply getYearMonthDay_ok|by apply getJulianDayNumber_ok].
Qed.

(** The first of January 1970 was a Thursday, and 2038 ends on a Friday. *)
Lemma calendar_exact_witness :
  (exists j, getJulianDayNumber 2024 2 28 = Ok j /\ getJulianDayNumber 2024 2 29 = Ok (j + 1) /\ getYearMonthDay j = Ok {| year := 2024; month := 2; day := 28 |})
  /\ weekDay kJulianDayOf1970_01_01 = Ok 4.
Proof.
  split; [|reflexivity]. destruct calendar_exact as (C & _).
  destruct (C {| year := 2024; month := 2; day := 28 |}) as (j & E & Y & N).
  - split; apply (bool_decide_unpack _); vm_compute; exact I.
  - apply (bool_decide_unpack _). vm_compute. exact I.
  - exists j. split; [exact E|]. split; [|exact Y]. apply N. apply (bool_decide_unpack _). vm_compute. exact I.
Defined.
