(* ===== verification/TimeZone.v ===== *)
(** * TimeZone (base/TimeZone.h, base/TimeZone.cc)

    Civil time of UTC, the transitions of a zone, and the reader of zone files (RFC 8536). *)

From S2P Require Import Prelude Bytes Text Date.

(** ** UTC *)

Record DateTime := { dt_year : Z; dt_month : Z; dt_day : Z; hour : Z; minute : Z; second : Z }.

#[export] Instance DateTime_eq_dec : EqDecision DateTime.
Proof. solve_decision. Defined.

Definition kSecondsPerDay : Z := 24 * 60 * 60.

(** The seconds into the day and the day; the number of days is cut to an [int]. *)
Definition split_days (t : Z) : Z * Z :=
  let seconds := Z.rem t kSecondsPerDay in
  let days := to_i32 (t ÷ kSecondsPerDay) in
  if decide (seconds < 0) then (seconds + kSecondsPerDay, days - 1) else (seconds, days).

(** [BreakTime], on an [int64_t], with [fillHMS]. *)
Definition BreakTime (t : Z) : outcome DateTime :=
  let '(seconds, days) := split_days t in
  let minutes := seconds ÷ 60 in
  julian ← checked [days; days + kJulianDayOf1970_01_01] (days + kJulianDayOf1970_01_01);
  ymd ← getYearMonthDay julian;
  Ok {| dt_year := year ymd; dt_month := month ymd; dt_day := day ymd;
        hour := minutes ÷ 60; minute := Z.rem minutes 60; second := Z.rem seconds 60 |}.

Definition toUtcTime (secondsSinceEpoch : Z) : outcome DateTime := BreakTime secondsSinceEpoch.

Definition fromUtcTime (dt : DateTime) : outcome Z :=
  j ← getJulianDayNumber (dt_year dt) (dt_month dt) (dt_day dt);
  let secondsInDay := hour dt * 3600 + minute dt * 60 + second dt in
  checked [hour dt * 3600; minute dt * 60; hour dt * 3600 + minute dt * 60; secondsInDay; j - kJulianDayOf1970_01_01]
    ((j - kJulianDayOf1970_01_01) * kSecondsPerDay + secondsInDay).

(** ** Zones *)

Record Transition := { utctime : Z; localtime : Z; localtimeIdx : nat }.
Record LocalTime := { utcOffset : Z; isDst : bool; desigIdx : Z }.

Record Data := {
  transitions : list Transition;
  localtimes : list LocalTime;
  abbreviation : bytes;
  tzstring : bytes;
}.

Definition Data_new : Data := {| transitions := []; localtimes := []; abbreviation := []; tzstring := [] |}.

Definition addLocalTime (offset : Z) (dst : bool) (idx : Z) (d : Data) : Data :=
  {| transitions := transitions d; localtimes := localtimes d ++ [{| utcOffset := offset; isDst := dst; desigIdx := idx |}];
     abbreviation := abbreviation d; tzstring := tzstring d |}.

(** [addTransition]; [at] throws when there is no such local time. *)
Definition addTransition (utcTime : Z) (idx : nat) (d : Data) : outcome Data :=
  match localtimes d !! idx with
  | None => Throw LogicError
  | Some lt =>
      local ← long_add utcTime (utcOffset lt);
      Ok {| transitions := transitions d ++ [{| utctime := utcTime; localtime := local; localtimeIdx := idx |}];
            localtimes := localtimes d; abbreviation := abbreviation d; tzstring := tzstring d |}
  end.

Definition fixed_zone (eastOfUtc : Z) (name : bytes) : Data :=
  let d := addLocalTime eastOfUtc false 0 Data_new in
  {| transitions := transitions d; localtimes := localtimes d; abbreviation := c_str name; tzstring := tzstring d |}.

(** The element at an index, which the code takes to be there. *)
Definition index {A} (l : list A) (i : nat) : outcome A :=
  match l !! i with Some x => Ok x | None => Undef OutOfBounds end.

(** The index of the first element above [x]. *)
Fixpoint first_above (key : Transition -> Z) (x : Z) (l : list Transition) : nat :=
  match l with
  | [] => 0
  | y :: l => if decide (x < key y) then 0 else S (first_above key x l)
  end.

(** [std::upper_bound]: that index, in a range where all that comes behind is above [x] too. On other
    ranges, which it does not look for, its behaviour is not defined. *)
Definition upper_bound (key : Transition -> Z) (x : Z) (l : list Transition) : outcome nat :=
  let i := first_above key x l in
  if forallb (fun y => x <? key y) (drop i l) then Ok i else Undef Precondition.

(** [findLocalTime] of a time since the epoch. *)
Definition findLocalTime (d : Data) (utcTime : Z) : outcome LocalTime :=
  match transitions d with
  | [] => index (localtimes d) 0
  | first :: _ =>
      if decide (utcTime < utctime first) then index (localtimes d) 0
      else
        i ← upper_bound utctime utcTime (transitions d);
        if decide (i = 0%nat) then Undef AssertFailed
        else if decide (i < length (transitions d))%nat then
          t ← index (transitions d) (i - 1);
          index (localtimes d) (localtimeIdx t)
        else
          t ← index (transitions d) (length (transitions d) - 1);
          index (localtimes d) (localtimeIdx t)
  end.

(** The last second of local time before the transition [t], under the one before it; in 64 bits. *)
Definition prior_second (d : Data) (t prior : Transition) : outcome Z :=
  lt ← index (localtimes d) (localtimeIdx prior);
  s ← long_add (utctime t) (-1);
  long_add s (utcOffset lt).

(** [findLocalTime] of a local time: in a skip or a repetition [postTransition] chooses. *)
Definition findLocal (d : Data) (local : Z) (postTransition : bool) : outcome LocalTime :=
  match transitions d with
  | [] => index (localtimes d) 0
  | first :: _ =>
      if decide (local < localtime first) then index (localtimes d) 0
      else
        i ← upper_bound localtime local (transitions d);
        if decide (i = 0%nat) then Undef AssertFailed
        else if decide (i = length (transitions d)) then
          t ← index (transitions d) (length (transitions d) - 1);
          index (localtimes d) (localtimeIdx t)
        else
          t ← index (transitions d) i;
          prior ← index (transitions d) (i - 1);
          s ← prior_second d t prior;
          if decide (s < local) then
            index (localtimes d) (localtimeIdx (if postTransition then t else prior))
          else
            (* the transition before *)
            let t := prior in
            '(prior, s) ← (if decide (i - 1 = 0)%nat then Ok (prior, s)
                           else prior ← index (transitions d) (i - 2); s ← prior_second d t prior; Ok (prior, s));
            if decide (local <= s) then
              index (localtimes d) (localtimeIdx (if postTransition then t else prior))
            else index (localtimes d) (localtimeIdx t)
  end.

Definition toLocalTime (d : Data) (seconds : Z) : outcome (DateTime * Z) :=
  lt ← findLocalTime d seconds;
  t ← long_add seconds (utcOffset lt);
  dt ← BreakTime t;
  Ok (dt, utcOffset lt).

Definition fromLocalTime (d : Data) (dt : DateTime) (postTransition : bool) : outcome Z :=
  local ← fromUtcTime dt;
  lt ← findLocal d local postTransition;
  Ok (local - utcOffset lt).
