(* ===== verification/TimeZoneProofs.v ===== *)
(** * Civil time and zones, proved

    The second of a day and its date determine each other; a zone takes a time to its local time
    and back. *)

From S2P Require Import Prelude Bytes Text Date TimeZone.

(** ** UTC *)

Definition date_of (dt : DateTime) : YearMonthDay := {| year := dt_year dt; month := dt_month dt; day := dt_day dt |}.

Definition a_time (dt : DateTime) : Prop :=
  a_date (date_of dt) /\ in_range (date_of dt) /\ 0 <= hour dt < 24 /\ 0 <= minute dt < 60 /\ 0 <= second dt < 60.

(** The seconds since the epoch of a time. *)
Definition seconds_of (dt : DateTime) : Z :=
  (day_number (date_of dt) - kJulianDayOf1970_01_01) * 86400 + hour dt * 3600 + minute dt * 60 + second dt.

Lemma day_number_bounds d : a_date d -> in_range d -> -32044 <= day_number d <= 536000000.
Proof.
  intros V R. pose proof (a_date_march d V R) as (Hy & _ & He & _).
  assert (march_year d <= 1464800) as Hy' by (unfold march_year, in_range in *; destruct (_ <=? _); lia).
  unfold day_number, last_day in *. destruct (leap _); dlia.
Qed.

Lemma fromUtcTime_ok dt : a_time dt -> fromUtcTime dt = Ok (seconds_of dt).
Proof.
  intros (V & R & Hh & Hm & Hs). unfold fromUtcTime.
  change (getJulianDayNumber (dt_year dt) (dt_month dt) (dt_day dt))
    with (getJulianDayNumber (year (date_of dt)) (month (date_of dt)) (day (date_of dt))).
  rewrite getJulianDayNumber_ok by done. cbn [mbind outcome_bind]. rewrite checked_ok.
  - f_equal. unfold seconds_of, kSecondsPerDay. lia.
  - pose proof (day_number_bounds _ V R). unfold is_i32, INT_MIN, INT_MAX, kJulianDayOf1970_01_01 in *. rewrite !Forall_cons.
    repeat split; try lia; constructor.
Qed.

(** The day of [t] and the seconds into it, as [BreakTime] finds them. *)
Lemma break_days t days seconds : t = days * 86400 + seconds -> 0 <= seconds < 86400 -> - 2 ^ 30 <= days < 2 ^ 30 ->
  split_days t = (seconds, days).
Proof.
  intros Et Hs Hd. unfold split_days, kSecondsPerDay. change (24 * 60 * 60) with 86400. change (2 ^ 30) with 1073741824 in Hd. cbv zeta.
  assert (t ÷ 86400 = if decide (days < 0 /\ seconds <> 0) then days + 1 else days) as Eq by (case_decide; dlia).
  assert (Z.rem t 86400 = if decide (days < 0 /\ seconds <> 0) then seconds - 86400 else seconds) as Er by (case_decide; dlia).
  rewrite Eq, Er. repeat case_decide; rewrite to_i32_id by (unfold is_i32, INT_MIN, INT_MAX; lia); f_equal; lia.
Qed.

Lemma BreakTime_ok dt : a_time dt -> BreakTime (seconds_of dt) = Ok dt.
Proof.
  intros (V & R & Hh & Hm & Hs). pose proof (day_number_bounds _ V R) as Hd.
  unfold BreakTime.
  rewrite (break_days _ (day_number (date_of dt) - kJulianDayOf1970_01_01) (hour dt * 3600 + minute dt * 60 + second dt));
    [|unfold seconds_of; lia|lia|unfold kJulianDayOf1970_01_01; lia].
  rewrite checked_ok by (unfold is_i32, INT_MIN, INT_MAX, kJulianDayOf1970_01_01; repeat constructor; lia).
  rewrite outcome_bind_ok, Z.sub_add, getYearMonthDay_ok, outcome_bind_ok by done. f_equal. destruct dt as [y mo d h mi s].
  cbn [date_of year month day hour minute second dt_year dt_month dt_day] in *.
  set (m := (h * 3600 + mi * 60 + s) ÷ 60). assert (m = h * 60 + mi) as -> by (subst m; dlia).
  f_equal; dlia.
Qed.

(** Every second of the years in range is one of a time. *)
Lemma every_second t : -32044 - kJulianDayOf1970_01_01 <= t / 86400 <= 530000000 ->
  exists dt, a_time dt /\ seconds_of dt = t.
Proof.
  intros Ht. destruct (day_date (t / 86400 + kJulianDayOf1970_01_01)) as (d & V & R & E); [unfold kJulianDayOf1970_01_01 in *; lia|].
  set (s := t mod 86400). assert (0 <= s < 86400) as Hs by (subst s; dlia).
  exists {| dt_year := year d; dt_month := month d; dt_day := day d; hour := s / 3600; minute := s / 60 mod 60; second := s mod 60 |}.
  assert (date_of {| dt_year := year d; dt_month := month d; dt_day := day d; hour := s / 3600; minute := s / 60 mod 60;
            second := s mod 60 |} = d) as Ed by (by destruct d).
  split.
  - unfold a_time. rewrite Ed. cbn [hour minute second]. do 2 (split; [done|]). clear - Hs. dlia.
  - unfold seconds_of. rewrite Ed. cbn [hour minute second]. rewrite E, Z.add_simpl_r. clear - Hs. subst s. dlia.
Qed.

(** ** Zones *)

Lemma first_above_spec key x l :
  (first_above key x l <= length l)%nat
  /\ (forall j t, (j < first_above key x l)%nat -> l !! j = Some t -> key t <= x)
  /\ (forall t, l !! first_above key x l = Some t -> x < key t).
Proof.
  induction l as [|y l (L & B & A)]; cbn [first_above length]; [split; [lia|split; [lia|done]]|]. case_decide as Hy.
  - split; [lia|]. split; [lia|]. by intros t [= <-].
  - split; [lia|]. split; [|intros t; apply A]. intros [|j] t Hj; [intros [= <-]; lia|]. apply B. lia.
Qed.

Lemma first_above_at key x l k : (k <= length l)%nat -> (forall j t, (j < k)%nat -> l !! j = Some t -> key t <= x) ->
  (forall t, l !! k = Some t -> x < key t) -> first_above key x l = k.
Proof.
  intros Lk B A. destruct (first_above_spec key x l) as (L & B' & A').
  destruct (Nat.lt_trichotomy (first_above key x l) k) as [Hlt|[Heq|Hgt]]; [|done|]; exfalso.
  - destruct (lookup_lt_is_Some_2 l (first_above key x l)) as [t Et]; [lia|]. specialize (A' t Et). specialize (B _ _ Hlt Et). lia.
  - destruct (lookup_lt_is_Some_2 l k) as [t Et]; [lia|]. specialize (A t Et). specialize (B' _ _ Hgt Et). lia.
Qed.

(** A range in the order that the search needs. *)
Definition in_order (key : Transition -> Z) (l : list Transition) : Prop :=
  forall i j a b, (i < j)%nat -> l !! i = Some a -> l !! j = Some b -> key a <= key b.

Lemma upper_bound_ok key x l : in_order key l -> upper_bound key x l = Ok (first_above key x l).
Proof.
  intros So. destruct (first_above_spec key x l) as (_ & _ & A). unfold upper_bound.
  assert (forallb (fun y => x <? key y) (drop (first_above key x l) l) = true) as ->; [|done].
  apply forallb_forall. intros y Hy%list_elem_of_In%list_elem_of_lookup. destruct Hy as [k Ek]. rewrite lookup_drop in Ek.
  apply Z.ltb_lt. destruct (lookup_lt_is_Some_2 l (first_above key x l)) as [z Ez]; [apply lookup_lt_Some in Ek; lia|].
  specialize (A z Ez). destruct k as [|k]; [rewrite Nat.add_0_r in Ek; simplify_eq; lia|].
  assert (key z <= key y); [|lia]. by eapply (So (first_above key x l) (first_above key x l + S k)%nat); [lia|..].
Qed.

(** It says nothing but where that element is. *)
Lemma upper_bound_inv key x l : upper_bound key x l = Ok (first_above key x l) \/ upper_bound key x l = Undef Precondition /\ ~ in_order key l.
Proof.
  destruct (upper_bound key x l) as [i|e|u] eqn:E; pose proof E as E'; unfold upper_bound in E; destruct (forallb _ _); simplify_eq.
  - by left.
  - right. split; [done|]. intros S. rewrite upper_bound_ok in E' by done. done.
Qed.

Section zone.
Context (d : Data).
Abbreviation ts := (transitions d).

(** The offset a transition goes to. *)
Definition offset (t : Transition) : Z := default 0 (utcOffset <$> localtimes d !! localtimeIdx t).

(** A zone's data: there is a local time before the first transition; transitions are in order
    in both times, and what one repeats or skips is over before the next. *)
Record zone_ok : Prop := {
  zk_front : exists lt, localtimes d !! 0%nat = Some lt;
  zk_index : forall t, t ∈ ts -> (localtimeIdx t < length (localtimes d))%nat /\ localtime t = utctime t + offset t;
  zk_step : forall i a b, ts !! i = Some a -> ts !! S i = Some b -> utctime a < utctime b /\ localtime a < localtime b;
  zk_spaced : forall i a b c, ts !! i = Some a -> ts !! S i = Some b -> ts !! S (S i) = Some c ->
    utctime b + offset a <= utctime c + offset b /\ utctime b + offset a <= localtime c;
  zk_i64 : forall i a b, ts !! i = Some a -> ts !! S i = Some b -> is_i64 (utctime b - 1) /\ is_i64 (utctime b - 1 + offset a);
}.

Definition front : Z := default 0 (utcOffset <$> localtimes d !! 0%nat).

(** The offset in force: that of the last transition up to [t]. *)
Definition offset_at (t : Z) : Z :=
  match first_above utctime t ts with
  | O => front
  | S i => from_option offset 0 (ts !! i)
  end.

Context (Ok_ : zone_ok).

Lemma zone_in_order : in_order utctime ts /\ in_order localtime ts.
Proof.
  assert (forall i j a b, (i < j)%nat -> ts !! i = Some a -> ts !! j = Some b -> utctime a < utctime b /\ localtime a < localtime b) as M.
  { intros i j a b Hij Ea. revert b. induction Hij as [|j Hij IH]; intros b Eb; [by eapply zk_step|].
    destruct (lookup_lt_is_Some_2 ts j) as [x Ex]; [apply lookup_lt_Some in Eb; lia|].
    specialize (IH x Ex). destruct (zk_step Ok_ _ _ _ Ex Eb). lia. }
  split; intros i j a b Hij Ea Eb; destruct (M i j a b Hij Ea Eb); lia.
Qed.

Lemma zone_index_ok t : t ∈ ts -> exists lt, localtimes d !! localtimeIdx t = Some lt /\ utcOffset lt = offset t.
Proof.
  intros Ht. destruct (zk_index Ok_ t Ht) as [Hi _]. apply lookup_lt_is_Some_2 in Hi as [lt E]. exists lt.
  unfold offset. by rewrite E.
Qed.

Lemma findLocalTime_ok t : exists lt, findLocalTime d t = Ok lt /\ utcOffset lt = offset_at t.
Proof.
  destruct (zk_front Ok_) as [lt0 E0]. unfold findLocalTime, offset_at, front, index.
  destruct (first_above_spec utctime t ts) as (L & B & A). destruct ts as [|first rest] eqn:Et; [by rewrite E0; eexists|].
  rewrite <- Et in *. assert (ts !! 0%nat = Some first) as Ef by (by rewrite Et). case_decide as Hf.
  - assert (first_above utctime t ts = 0%nat) as ->; [|by rewrite E0; eexists].
    apply first_above_at; [lia|lia|]. intros x Hx. congruence.
  - rewrite upper_bound_ok by apply zone_in_order. cbn [mbind outcome_bind].
    destruct (first_above utctime t ts) as [|i] eqn:Eu; [specialize (A first Ef); lia|]. rewrite decide_False by done.
    replace (S i - 1)%nat with i by lia. destruct (lookup_lt_is_Some_2 ts i) as [x Ex]; [lia|].
    destruct (zone_index_ok x (list_elem_of_lookup_2 _ _ _ Ex)) as (lt & El & Eo).
    exists lt. split; [|rewrite Ex; exact Eo]. case_decide as Hi; [by rewrite Ex; cbn; rewrite El|].
    replace (length ts - 1)%nat with i by lia. rewrite Ex. cbn. by rewrite El.
Qed.

(** [localtime] grows along the transitions. *)
Lemma localtime_mono i j a b : (i < j)%nat -> ts !! i = Some a -> ts !! j = Some b -> localtime a < localtime b.
Proof.
  intros Hij Ea. revert b. induction Hij as [|j Hij IH]; intros b Eb; [by eapply zk_step|].
  destruct (lookup_lt_is_Some_2 ts j) as [x Ex]; [apply lookup_lt_Some in Eb; lia|].
  specialize (IH x Ex). destruct (zk_step Ok_ _ _ _ Ex Eb). lia.
Qed.

(** Local times that are not in a repetition the reader does not look for: around the first
    and the last transition. *)
Definition outer_ok (t : Z) : Prop :=
  (forall first, ts !! 0%nat = Some first -> t < utctime first -> t + front < localtime first)
  /\ (forall i a b, ts !! i = Some a -> ts !! S i = Some b -> length ts = S (S i) ->
        utctime a <= t < utctime b -> t + offset a < localtime b).

(** The cases of [findLocal], once its index is known. *)
Lemma index_some {A} (l : list A) i x : l !! i = Some x -> index l i = Ok x.
Proof. unfold index. by intros ->. Qed.

Lemma local_index x : x ∈ ts -> exists lt, index (localtimes d) (localtimeIdx x) = Ok lt /\ utcOffset lt = offset x.
Proof. intros (lt & E & O)%zone_index_ok. exists lt. by rewrite (index_some _ _ _ E). Qed.

Lemma prior_second_ok i y x : ts !! i = Some x -> ts !! S i = Some y -> prior_second d y x = Ok (utctime y - 1 + offset x).
Proof.
  intros Ex Ey. destruct (local_index x (list_elem_of_lookup_2 _ _ _ Ex)) as (lt & E & O). destruct (zk_i64 Ok_ i x y Ex Ey) as [B1 B2].
  unfold prior_second. rewrite E, outcome_bind_ok, O. unfold long_add. change (utctime y + -1) with (utctime y - 1).
  by rewrite decide_True, outcome_bind_ok, decide_True.
Qed.

Section local.
Context (local : Z) (post : bool) (first : Transition) (Ef : ts !! 0%nat = Some first) (Hf : localtime first <= local).

Lemma not_empty : exists r, ts = first :: r.
Proof. pose proof Ef as E. destruct ts as [|f r]; [done|]. injection E as ->. by exists r. Qed.

Lemma findLocal_last x : first_above localtime local ts = length ts -> ts !! (length ts - 1)%nat = Some x ->
  findLocal d local post = index (localtimes d) (localtimeIdx x).
Proof.
  intros Eu Ex. unfold findLocal. destruct not_empty as [r Et]. rewrite Et at 1.
  rewrite decide_False, upper_bound_ok, outcome_bind_ok, Eu by (apply zone_in_order || lia).
  rewrite decide_False by (apply lookup_lt_Some in Ef; lia). rewrite decide_True by done. by rewrite (index_some _ _ _ Ex).
Qed.

(** In the zone of [x], which [y] ends, and not in a skip. *)
Lemma findLocal_inner i x y : first_above localtime local ts = S i -> ts !! i = Some x -> ts !! S i = Some y ->
  local <= utctime y - 1 + offset x ->
  findLocal d local post = match i with
    | O => index (localtimes d) (localtimeIdx x)
    | S j => from_option (fun w => index (localtimes d) (localtimeIdx
               (if decide (local <= utctime x - 1 + offset w) then if post then x else w else x))) (Undef OutOfBounds) (ts !! j)
    end.
Proof.
  intros Eu Ex Ey Hl. pose proof (list_elem_of_lookup_2 _ _ _ Ex) as Ix. unfold findLocal.
  assert (S i < length ts)%nat as Li by (by eapply lookup_lt_Some).
  destruct not_empty as [r Et]. rewrite Et at 1. rewrite decide_False, upper_bound_ok, outcome_bind_ok, Eu by (apply zone_in_order || lia).
  rewrite !decide_False by lia. rewrite (index_some _ _ _ Ey), outcome_bind_ok.
  replace (S i - 1)%nat with i by lia. rewrite (index_some _ _ _ Ex), outcome_bind_ok, (prior_second_ok i), outcome_bind_ok by done.
  rewrite decide_False by lia. destruct i as [|j].
  - rewrite decide_True, outcome_bind_ok, decide_True by done. by destruct post.
  - rewrite decide_False by lia. replace (S (S j) - 2)%nat with j by lia.
    destruct (lookup_lt_is_Some_2 ts j) as [w Ew]; [lia|]. rewrite (index_some _ _ _ Ew), outcome_bind_ok.
    rewrite (prior_second_ok j), !outcome_bind_ok by done. rewrite Ew. cbn [from_option].
    case_decide; [|done]. by destruct post.
Qed.
End local.

Lemma findLocal_ok t : outer_ok t -> exists post lt, findLocal d (t + offset_at t) post = Ok lt /\ utcOffset lt = offset_at t.
Proof.
  intros [Of Ol]. destruct (zk_front Ok_) as [lt0 E0]. unfold offset_at.
  destruct (first_above_spec utctime t ts) as (L & B & A).
  destruct (first_above utctime t ts) as [|i].
  { (* before the first transition *)
    exists false, lt0. unfold findLocal, index, front in *. rewrite E0 in *. cbn [fmap option_fmap option_map default from_option] in *.
    split; [|done]. destruct ts as [|first rest]; [done|]. rewrite decide_True; [done|]. by apply Of, A. }
  destruct (lookup_lt_is_Some_2 ts i) as [x Ex]; [lia|]. rewrite Ex. cbn [from_option].
  assert (utctime x <= t) as Hx by (eapply B; [|exact Ex]; lia). pose proof (list_elem_of_lookup_2 _ _ _ Ex) as Ix.
  destruct (zk_index Ok_ x Ix) as [_ Lx]. destruct (local_index x Ix) as (lt & El & Eo).
  destruct (lookup_lt_is_Some_2 ts 0) as [first Ef]; [lia|].
  assert (forall j b, (j <= i)%nat -> ts !! j = Some b -> localtime b <= t + offset x) as Below.
  { intros j b Hj Eb. destruct (decide (j = i)) as [->|]; [assert (b = x) as -> by congruence; lia|].
    pose proof (localtime_mono j i b x ltac:(lia) Eb Ex). lia. }
  pose proof (Below 0%nat first ltac:(lia) Ef) as Hf.
  destruct (ts !! S i) as [y|] eqn:Ey.
  2:{ apply lookup_ge_None in Ey. assert (i = length ts - 1)%nat as Ei by lia. exists true, lt. split; [|done].
      rewrite (findLocal_last _ _ first Ef Hf x), El; [done| |by rewrite <- Ei].
      apply first_above_at; [done| |intros z Hz; by rewrite lookup_ge_None_2 in Hz].
      intros j b Hj. apply Below. lia. }
  specialize (A y eq_refl). destruct (decide (t + offset x < localtime y)) as [Hn|Hr].
  - (* not repeated by the next one *)
    exists true, lt. split; [|done]. rewrite (findLocal_inner _ _ first Ef Hf i x y); [|apply first_above_at|done..|lia].
    + destruct i as [|j]; [done|]. destruct (lookup_lt_is_Some_2 ts j) as [w Ew]; [lia|]. rewrite Ew. cbn [from_option].
      by case_decide.
    + apply lookup_lt_Some in Ey. lia.
    + intros j b Hj. apply Below. lia.
    + intros b Eb. by assert (b = y) as -> by congruence.
  - (* repeated *)
    destruct (ts !! S (S i)) as [z|] eqn:Ez.
    2:{ apply lookup_ge_None in Ez. apply lookup_lt_Some in Ey as Ly. specialize (Ol i x y Ex Ey ltac:(lia) ltac:(lia)). lia. }
    destruct (zk_spaced Ok_ i x y z Ex Ey Ez) as [S1 S2].
    exists false, lt. split; [|done]. rewrite (findLocal_inner _ _ first Ef Hf (S i) y z); [|apply first_above_at|done..|lia].
    + rewrite Ex. cbn [from_option]. rewrite decide_True by lia. exact El.
    + apply lookup_lt_Some in Ez. lia.
    + intros j b Hj Eb. destruct (decide (j = S i)) as [->|]; [assert (b = y) as -> by congruence; lia|]. eapply Below; [|exact Eb]. lia.
    + intros b Eb. assert (b = z) as -> by congruence. lia.
Qed.
End zone.

Definition in_days (t : Z) : Prop := -32044 - kJulianDayOf1970_01_01 <= t / 86400 <= 530000000.

(** Civil time in UTC. Every second from March of 4801 BC to beyond the year 1400000 has its
    date and time of day, in the calendar of the days, from which it is computed again; and
    every such date and time is that of one second. *)
Theorem civil_time_exact :
  (forall t, in_days t -> exists dt, a_time dt /\ toUtcTime t = Ok dt /\ fromUtcTime dt = Ok t)
  /\ (forall dt, a_time dt -> exists t, fromUtcTime dt = Ok t /\ toUtcTime t = Ok dt).
Proof.
  split.
  - intros t Ht. destruct (every_second t Ht) as (dt & V & <-). exists dt. split; [done|].
    split; [by apply BreakTime_ok|by apply fromUtcTime_ok].
  - intros dt V. exists (seconds_of dt). split; [by apply fromUtcTime_ok|by apply BreakTime_ok].
Qed.

(** Local time. In a zone whose transitions are in order and far enough apart, the local time
    of a second is its UTC time shifted by the offset of the last transition up to it, and the
    second is computed again from the local time with one of the two answers to what a time
    that occurs twice means; but for times that the first or the last transition repeats, which
    the search does not look at. *)
Theorem local_time_roundtrip d t : zone_ok d -> outer_ok d t -> in_days (t + offset_at d t) ->
  exists dt post, toLocalTime d t = Ok (dt, offset_at d t)
    /\ a_time dt /\ fromUtcTime dt = Ok (t + offset_at d t)
    /\ fromLocalTime d dt post = Ok t.
Proof.
  intros Z O R. destruct (every_second _ R) as (dt & V & E). destruct (findLocalTime_ok d Z t) as (lt & El & Eo).
  destruct (findLocal_ok d Z t O) as (post & lt' & El' & Eo'). exists dt, post.
  unfold toLocalTime, fromLocalTime. rewrite El, fromUtcTime_ok, !outcome_bind_ok, E, El', !outcome_bind_ok, Eo, Eo' by done.
  assert (long_add t (offset_at d t) = Ok (t + offset_at d t)) as ->.
  { unfold long_add. rewrite decide_True; [done|]. apply is_i64_lit. unfold in_days, kJulianDayOf1970_01_01 in R. dlia. }
  rewrite outcome_bind_ok, <- E, BreakTime_ok, outcome_bind_ok by done. split; [done|]. split; [done|]. split; [done|]. f_equal. lia.
Qed.

(** ** At work *)

Lemma civil_time_exact_witness : exists dt, toUtcTime 1709164800 = Ok dt /\ fromUtcTime dt = Ok 1709164800 /\ date_of dt = {| year := 2024; month := 2; day := 29 |}.
Proof.
  destruct civil_time_exact as [T _]. destruct (T 1709164800) as (dt & _ & E & F).
  - unfold in_days. apply (bool_decide_unpack _). vm_compute. exact I.
  - exists dt. split; [exact E|]. split; [exact F|]. vm_compute in E. injection E as <-. reflexivity.
Defined.

(** Two hours east, three in summer; from October to March. *)
Definition zone : Data := {|
  transitions := [{| utctime := 1711846800; localtime := 1711857600; localtimeIdx := 1 |};
                  {| utctime := 1729990800; localtime := 1729998000; localtimeIdx := 0 |};
                  {| utctime := 1743296400; localtime := 1743307200; localtimeIdx := 1 |}];
  localtimes := [{| utcOffset := 7200; isDst := false; desigIdx := 0 |}; {| utcOffset := 10800; isDst := true; desigIdx := 4 |}];
  abbreviation := []; tzstring := [] |}.

Lemma zone_is_ok : zone_ok zone.
Proof.
  split.
  - eexists. reflexivity.
  - intros t. cbn [transitions zone]. rewrite !elem_of_cons, elem_of_nil. intros [-> | [-> | [-> | []]]]; (split; [cbn; lia|reflexivity]).
  - intros [|[|[|i]]] a b; cbn; intros [= <-] [= <-] || done; cbn; lia.
  - intros [|[|i]] a b c; cbn; try done. intros [= <-] [= <-] [= <-]. unfold offset. cbn. lia.
  - intros [|[|[|i]]] a b; cbn; intros [= <-] [= <-] || done; apply (bool_decide_unpack _); vm_compute; exact I.
Qed.

(** Half past three on the 27th of October 2024 was twice: the first time. *)
Lemma local_time_roundtrip_witness : exists dt post, toLocalTime zone 1729989000 = Ok (dt, 10800)
  /\ fromLocalTime zone dt post = Ok 1729989000 /\ (hour dt, minute dt) = (3, 30).
Proof.
  destruct (local_time_roundtrip zone 1729989000 zone_is_ok) as (dt & post & E & _ & _ & F).
  - split; [intros first [= <-]; cbn; lia|]. intros [|[|i]] a b; cbn; try done. intros [= <-] [= <-] _. cbn. lia.
  - unfold in_days. apply (bool_decide_unpack _). vm_compute. exact I.
  - exists dt, post. split; [exact E|]. split; [exact F|]. vm_compute in E. injection E as <-. reflexivity.
Defined.

(** The same hour when there is no later transition in the file: it means the second time,
    whatever is asked for. *)
Definition zone_cut : Data := {| transitions := take 2 (transitions zone); localtimes := localtimes zone; abbreviation := []; tzstring := [] |}.

Definition half_past_three : DateTime := {| dt_year := 2024; dt_month := 10; dt_day := 27; hour := 3; minute := 30; second := 0 |}.

Example last_repeat_lost :
  toLocalTime zone_cut 1729989000 = Ok (half_past_three, 10800)
  /\ fromLocalTime zone_cut half_past_three false = Ok 1729992600 /\ fromLocalTime zone_cut half_past_three true = Ok 1729992600.
Proof. vm_compute. done. Qed.
