(* ===== verification/TimeZoneFile.v ===== *)
(** * Zone files (base/TimeZone.cc)

    The reader of compiled zone files (RFC 8536), on a file and a position in it, with the
    exceptions it catches; and that a file written by the book is read back. *)

From S2P Require Import Prelude Bytes Text Date TimeZone TimeZoneProofs.

(** ** The file *)

(** [detail::File]: a stream opened for reading. *)
Record File := { data : bytes; pos : nat }.

Abbreviation R := (M File).

(** [fread] of [n] bytes: as many as there are. *)
Definition fread (n : nat) : R bytes := fun f =>
  let b := take n (drop (pos f) (data f)) in Ok (b, {| data := data f; pos := (pos f + length b)%nat |}).

(** An exact read, or a [std::logic_error]. *)
Definition read_exactly (n : nat) : R bytes :=
  b ← fread n;
  if decide (length b = n) then mret b else throw LogicError.

(** [readBytes]: a negative size of the array is undefined. *)
Definition readBytes (n : Z) : R bytes :=
  if decide (n < 0) then undef OutOfBounds else read_exactly (Z.to_nat n).

Definition readToEnd : R bytes := fun f =>
  let b := drop (pos f) (data f) in Ok (b, {| data := data f; pos := (pos f + length b)%nat |}).

Definition readInt64 : R Z := b ← read_exactly 8; mret (to_i64 (be_val b)).
Definition readInt32 : R Z := b ← read_exactly 4; mret (to_i32 (be_val b)).
Definition readUInt8 : R Z := b ← read_exactly 1; mret (be_val b).

(** [fseek] from where the stream is; there is nothing before the start. *)
Definition skip (n : Z) : R unit := fun f =>
  Ok (tt, if decide (0 <= Z.of_nat (pos f) + n) then {| data := data f; pos := Z.to_nat (Z.of_nat (pos f) + n) |} else f).

(** [vector::reserve] of an [int]: a negative one is a huge size, a [std::length_error]. *)
Definition reserve (n : Z) : R unit := if decide (n < 0) then throw LogicError else mret tt.

Fixpoint read_many {A} (n : nat) (m : R A) : R (list A) :=
  match n with
  | O => mret []
  | S n => x ← m; l ← read_many n m; mret (x :: l)
  end.

(** ** The reader *)

(** The counts of a header. *)
Record Counts := { isutccnt : Z; isstdcnt : Z; leapcnt : Z; timecnt : Z; typecnt : Z; charcnt : Z }.

Definition read_counts : R Counts :=
  a ← readInt32; b ← readInt32; c ← readInt32; t ← readInt32; y ← readInt32; h ← readInt32;
  mret {| isutccnt := a; isstdcnt := b; leapcnt := c; timecnt := t; typecnt := y; charcnt := h |}.

Definition set_abbreviation (s : bytes) (d : Data) : Data :=
  {| transitions := transitions d; localtimes := localtimes d; abbreviation := s; tzstring := tzstring d |}.
Definition set_tzstring (s : bytes) (d : Data) : Data :=
  {| transitions := transitions d; localtimes := localtimes d; abbreviation := abbreviation d; tzstring := s |}.

Definition read_type : R (Z * Z * Z) :=
  gmtoff ← readInt32; isdst ← readUInt8; abbrind ← readUInt8; mret (gmtoff, isdst, abbrind).

(** [readDataBlock]; the data of a file that is refused is dropped. *)
Definition readDataBlock (d : Data) (v1 : bool) : R (option Data) :=
  let time_size := if v1 then 4 else 8 in
  c ← read_counts;
  if decide (leapcnt c <> 0) then mret None
  else if decide (isutccnt c <> 0 /\ isutccnt c <> typecnt c) then mret None
  else if decide (isstdcnt c <> 0 /\ isstdcnt c <> typecnt c) then mret None
  else
    _ ← reserve (timecnt c);
    trans ← read_many (Z.to_nat (timecnt c)) (if v1 then readInt32 else readInt64);
    indices ← read_many (Z.to_nat (timecnt c)) readUInt8;
    _ ← reserve (typecnt c);
    types ← read_many (Z.to_nat (typecnt c)) read_type;
    let d := fold_left (fun d '(off, dst, idx) => addLocalTime off (bool_decide (dst <> 0)) idx d) types d in
    d ← for_fold (fun d '(t, i) => lift (addTransition t (Z.to_nat i) d)) d (zip trans indices);
    abbr ← readBytes (charcnt c);
    _ ← skip (leapcnt c * (time_size + 4));
    _ ← skip (isstdcnt c);
    _ ← skip (isutccnt c);
    let d := set_abbreviation abbr d in
    if v1 : bool then mret (Some d)
    else s ← readToEnd; mret (Some (set_tzstring s d)).

Definition magic : bytes := bs "TZif".

(** The [int] products in the size of the first block. *)
Definition int_mul (a b : Z) : outcome Z := checked [a * b] (a * b).

(** What [readTimeZoneFile] does in its [try]. *)
Definition read_zone : R (option Data) :=
  head ← readBytes 4;
  if decide (head <> magic) then throw LogicError
  else
    version ← readBytes 1;
    _ ← readBytes 15;
    c ← read_counts;
    if decide (version = bs "2") then
      types ← lift (int_mul 6 (typecnt c));
      leaps ← lift (int_mul 8 (leapcnt c));
      _ ← skip (4 * timecnt c + timecnt c + types + charcnt c + leaps + isstdcnt c + isutccnt c);
      head ← readBytes 4;
      if decide (head <> magic) then throw LogicError
      else
        _ ← skip 16;
        readDataBlock Data_new false
    else
      _ ← skip (-4 * 6);
      readDataBlock Data_new true.

(** [loadZoneFile]: a zone, or none if the file cannot be opened or is refused. *)
Definition loadZoneFile (file : option bytes) : outcome (option Data) :=
  match file with
  | None => Ok None
  | Some b =>
      match read_zone {| data := b; pos := 0 |} with
      | Ok (z, _) => Ok z
      | Throw LogicError => Ok None
      | Throw e => Throw e
      | Undef u => Undef u
      end
  end.

(** ** Reading what was written *)

(** The stream between what was read and what is left. *)
Definition at_ (pre rest : bytes) : File := {| data := pre ++ rest; pos := length pre |}.

Lemma fread_at pre b rest n : length b = n -> fread n (at_ pre (b ++ rest)) = Ok (b, at_ (pre ++ b) rest).
Proof.
  intros <-. unfold fread, at_. cbn [data pos]. rewrite drop_app_length, take_app_length. by rewrite length_app, <- app_assoc.
Qed.

Lemma read_exactly_at pre b rest n : length b = n -> read_exactly n (at_ pre (b ++ rest)) = Ok (b, at_ (pre ++ b) rest).
Proof. intros L. unfold read_exactly. rewrite (bind_ok _ _ _ _ _ (fread_at pre b rest n L)). by rewrite decide_True. Qed.

Lemma readBytes_at pre b rest n : len b = n -> readBytes n (at_ pre (b ++ rest)) = Ok (b, at_ (pre ++ b) rest).
Proof.
  intros <-. unfold readBytes. rewrite decide_False by (pose proof (len_nonneg b); lia). by rewrite len_to_nat, read_exactly_at.
Qed.

Lemma readInt32_at pre z rest : is_i32 z -> readInt32 (at_ pre (be_bytes 4 z ++ rest)) = Ok (z, at_ (pre ++ be_bytes 4 z) rest).
Proof.
  intros Hz. unfold readInt32. rewrite (bind_ok _ _ _ _ _ (read_exactly_at pre _ rest 4 (length_be_bytes 4 z))).
  by rewrite be_val_bytes_i32.
Qed.

Lemma readInt64_at pre z rest : is_i64 z -> readInt64 (at_ pre (be_bytes 8 z ++ rest)) = Ok (z, at_ (pre ++ be_bytes 8 z) rest).
Proof.
  intros Hz. unfold readInt64. rewrite (bind_ok _ _ _ _ _ (read_exactly_at pre _ rest 8 (length_be_bytes 8 z))).
  unfold be_val, be_bytes. rewrite rev_involutive. by rewrite le_val_bytes_i64.
Qed.

Lemma readUInt8_at pre z rest : 0 <= z < 256 -> readUInt8 (at_ pre (z2b z :: rest)) = Ok (z, at_ (pre ++ [z2b z]) rest).
Proof.
  intros Hz. unfold readUInt8. rewrite (bind_ok _ _ _ _ _ (read_exactly_at pre [z2b z] rest 1 eq_refl)).
  assert (be_val [z2b z] = z) as ->; [|done]. change (b2z (z2b z) + 256 * 0 = z). rewrite b2z_z2b, Z.mod_small by lia. lia.
Qed.

Lemma readToEnd_at pre rest : readToEnd (at_ pre rest) = Ok (rest, at_ (pre ++ rest) []).
Proof. unfold readToEnd, at_. cbn [data pos]. by rewrite drop_app_length, length_app, app_nil_r. Qed.

Lemma skip_at pre b rest n : len b = n -> skip n (at_ pre (b ++ rest)) = Ok (tt, at_ (pre ++ b) rest).
Proof.
  intros <-. unfold skip, at_. cbn [data pos]. rewrite decide_True by (pose proof (len_nonneg b); lia).
  rewrite length_app, <- app_assoc. unfold len. do 3 f_equal. lia.
Qed.

(** Going back over what was read. *)
Lemma unskip_at pre b rest n : n = - len b -> skip n (at_ (pre ++ b) rest) = Ok (tt, at_ pre (b ++ rest)).
Proof.
  intros ->. unfold skip, at_. cbn [data pos]. rewrite length_app. unfold len. rewrite decide_True by lia.
  rewrite <- app_assoc. do 3 f_equal. lia.
Qed.

Lemma read_many_at {A B} (m : R A) (f : B -> A) (enc : B -> bytes) (P : B -> Prop) l pre rest :
  (forall x pre rest, P x -> m (at_ pre (enc x ++ rest)) = Ok (f x, at_ (pre ++ enc x) rest)) ->
  Forall P l -> read_many (length l) m (at_ pre ((l ≫= enc) ++ rest)) = Ok (f <$> l, at_ (pre ++ (l ≫= enc)) rest).
Proof.
  intros Hm F. revert pre. induction F as [|x l Hx F IH]; intros pre.
  - cbn. by rewrite app_nil_r.
  - change ((x :: l) ≫= enc) with (enc x ++ (l ≫= enc)). rewrite <- app_assoc. cbn [length read_many].
    rewrite (bind_ok _ _ _ _ _ (Hm x _ _ Hx)). rewrite (bind_ok _ _ _ _ _ (IH _)). by rewrite <- app_assoc.
Qed.

(** ** Files by the book *)

Definition counts_bytes (c : Counts) : bytes :=
  be_bytes 4 (isutccnt c) ++ be_bytes 4 (isstdcnt c) ++ be_bytes 4 (leapcnt c) ++ be_bytes 4 (timecnt c)
  ++ be_bytes 4 (typecnt c) ++ be_bytes 4 (charcnt c).

Definition counts_ok (c : Counts) : Prop :=
  is_i32 (isutccnt c) /\ is_i32 (isstdcnt c) /\ is_i32 (leapcnt c) /\ is_i32 (timecnt c) /\ is_i32 (typecnt c) /\ is_i32 (charcnt c).

Lemma read_counts_at pre c rest : counts_ok c -> read_counts (at_ pre (counts_bytes c ++ rest)) = Ok (c, at_ (pre ++ counts_bytes c) rest).
Proof.
  intros (H1 & H2 & H3 & H4 & H5 & H6). unfold read_counts, counts_bytes. rewrite <- !app_assoc.
  rewrite (bind_ok _ _ _ _ _ (readInt32_at _ _ _ H1)), (bind_ok _ _ _ _ _ (readInt32_at _ _ _ H2)),
    (bind_ok _ _ _ _ _ (readInt32_at _ _ _ H3)), (bind_ok _ _ _ _ _ (readInt32_at _ _ _ H4)),
    (bind_ok _ _ _ _ _ (readInt32_at _ _ _ H5)), (bind_ok _ _ _ _ _ (readInt32_at _ _ _ H6)).
  rewrite <- !app_assoc. by destruct c.
Qed.

(** What a file can hold. *)
Record data_ok (d : Data) : Prop := {
  do_types : Forall (fun lt => is_i32 (utcOffset lt) /\ 0 <= desigIdx lt < 256) (localtimes d);
  do_times : Forall (fun t => is_i64 (utctime t) /\ is_i64 (localtime t) /\ (localtimeIdx t < 256)%nat
                      /\ exists lt, localtimes d !! localtimeIdx t = Some lt /\ localtime t = utctime t + utcOffset lt) (transitions d);
  do_counts : len (transitions d) <= INT_MAX /\ len (localtimes d) <= INT_MAX /\ len (abbreviation d) <= INT_MAX;
}.

Definition type_bytes (lt : LocalTime) : bytes :=
  be_bytes 4 (utcOffset lt) ++ [z2b (if isDst lt then 1 else 0)] ++ [z2b (desigIdx lt)].

Definition counts_of (d : Data) : Counts := {| isutccnt := 0; isstdcnt := 0; leapcnt := 0;
  timecnt := len (transitions d); typecnt := len (localtimes d); charcnt := len (abbreviation d) |}.

(** The second block of a file of version 2, with times of 64 bits. *)
Definition block_bytes (d : Data) : bytes :=
  counts_bytes (counts_of d)
  ++ (transitions d ≫= fun t => be_bytes 8 (utctime t))
  ++ (transitions d ≫= fun t => [z2b (Z.of_nat (localtimeIdx t))])
  ++ (localtimes d ≫= type_bytes)
  ++ abbreviation d
  ++ tzstring d.

Lemma read_type_at lt pre rest : is_i32 (utcOffset lt) /\ 0 <= desigIdx lt < 256 ->
  read_type (at_ pre (type_bytes lt ++ rest)) = Ok ((utcOffset lt, if isDst lt then 1 else 0, desigIdx lt), at_ (pre ++ type_bytes lt) rest).
Proof.
  intros [H1 H2]. unfold read_type, type_bytes. rewrite <- !app_assoc. cbn [app]. rewrite (bind_ok _ _ _ _ _ (readInt32_at _ _ _ H1)).
  rewrite (bind_ok _ _ _ _ _ (readUInt8_at _ (if isDst lt then 1 else 0) _ ltac:(destruct (isDst lt); lia))).
  rewrite (bind_ok _ _ _ _ _ (readUInt8_at _ _ _ H2)). by rewrite <- !app_assoc.
Qed.

Lemma add_types l d :
  fold_left (fun d '(off, dst, idx) => addLocalTime off (bool_decide (dst <> 0)) idx d)
    ((fun lt => (utcOffset lt, if isDst lt then 1 else 0, desigIdx lt)) <$> l) d
  = {| transitions := transitions d; localtimes := localtimes d ++ l; abbreviation := abbreviation d; tzstring := tzstring d |}.
Proof.
  revert d. induction l as [|[o [] i] l IH]; intros d; cbn [fmap list_fmap fold_left]; [by rewrite app_nil_r; destruct d|..];
    rewrite IH; unfold addLocalTime; cbn; by rewrite <- app_assoc.
Qed.

Lemma add_transitions l d (f : File) : Forall (fun t => is_i64 (utctime t) /\ is_i64 (localtime t) /\ (localtimeIdx t < 256)%nat
    /\ exists lt, localtimes d !! localtimeIdx t = Some lt /\ localtime t = utctime t + utcOffset lt) l ->
  for_fold (fun d '(t, i) => lift (addTransition t (Z.to_nat i) d)) d
    (zip (utctime <$> l) ((fun t => Z.of_nat (localtimeIdx t)) <$> l)) f
  = Ok ({| transitions := transitions d ++ l; localtimes := localtimes d; abbreviation := abbreviation d; tzstring := tzstring d |}, f).
Proof.
  revert d. induction l as [|t l IH]; intros d F; cbn [fmap list_fmap zip zip_with for_fold]; [by rewrite app_nil_r; destruct d|].
  apply Forall_cons in F as [(H1 & H2 & _ & lt & El & Et) F].
  assert (lift (addTransition (utctime t) (Z.to_nat (Z.of_nat (localtimeIdx t))) d) f
    = Ok ({| transitions := transitions d ++ [t]; localtimes := localtimes d; abbreviation := abbreviation d; tzstring := tzstring d |}, f)) as E.
  { unfold addTransition, lift. rewrite Nat2Z.id, El. unfold long_add. rewrite <- Et, decide_True by done.
    rewrite outcome_bind_ok. by destruct t. }
  rewrite (bind_ok _ _ _ _ _ E), IH by done. cbn [transitions localtimes abbreviation tzstring]. by rewrite <- app_assoc.
Qed.

(** Runs the first read, by a lemma for any position. *)
Ltac reading L := match goal with |- context [at_ ?p _] => step (L p) end.

Lemma readDataBlock_at d pre : data_ok d -> exists f,
  readDataBlock Data_new false (at_ pre (block_bytes d)) = Ok (Some d, f).
Proof.
  intros [Ty Ti (N1 & N2 & N3)]. eexists. unfold readDataBlock, block_bytes.
  assert (counts_ok (counts_of d)) as C.
  { unfold counts_ok, counts_of, is_i32, INT_MIN, INT_MAX in *. cbn.
    pose proof (len_nonneg (transitions d)). pose proof (len_nonneg (localtimes d)). pose proof (len_nonneg (abbreviation d)). lia. }
  rewrite (bind_ok _ _ _ _ _ (read_counts_at _ _ _ C)).
  cbn [counts_of isutccnt isstdcnt leapcnt timecnt typecnt charcnt]. rewrite !decide_False by lia.
  unfold reserve. rewrite !decide_False by (pose proof (len_nonneg (transitions d)); pose proof (len_nonneg (localtimes d)); lia).
  rewrite !len_to_nat.
  assert (Forall (fun t => is_i64 (utctime t)) (transitions d)) as T8 by (eapply Forall_impl; [exact Ti|]; cbv beta; tauto).
  assert (Forall (fun t => 0 <= Z.of_nat (localtimeIdx t) < 256) (transitions d)) as T1
    by (eapply Forall_impl; [exact Ti|]; cbv beta; intros; lia).
  rewrite ret_bind.
  reading (fun p => read_many_at readInt64 utctime (fun t => be_bytes 8 (utctime t)) _ (transitions d) p
    ((transitions d ≫= fun t => [z2b (Z.of_nat (localtimeIdx t))]) ++ (localtimes d ≫= type_bytes) ++ abbreviation d ++ tzstring d)
    (fun t p r => readInt64_at p (utctime t) r) T8).
  reading (fun p => read_many_at readUInt8 (fun t => Z.of_nat (localtimeIdx t)) (fun t => [z2b (Z.of_nat (localtimeIdx t))]) _
    (transitions d) p ((localtimes d ≫= type_bytes) ++ abbreviation d ++ tzstring d)
    (fun t p r => readUInt8_at p (Z.of_nat (localtimeIdx t)) r) T1).
  rewrite ret_bind.
  reading (fun p => read_many_at read_type _ type_bytes _ (localtimes d) p (abbreviation d ++ tzstring d) read_type_at Ty).
  rewrite add_types. cbn [transitions localtimes abbreviation tzstring Data_new app].
  rewrite (bind_ok _ _ _ _ _ (add_transitions (transitions d) {| transitions := []; localtimes := localtimes d; abbreviation := [];
    tzstring := [] |} _ Ti)). cbn [transitions localtimes abbreviation tzstring app].
  reading (fun p => readBytes_at p (abbreviation d) (tzstring d) _ eq_refl).
  do 3 reading (fun p => skip_at p [] (tzstring d) 0 eq_refl).
  reading (fun p => readToEnd_at p (tzstring d)). by destruct d.
Qed.

(** A file of version 2: a header and a block for old readers, [body], then a header and the block. *)
Definition zone_file (reserved body second : bytes) (old : Counts) (d : Data) : bytes :=
  magic ++ bs "2" ++ reserved ++ counts_bytes old ++ body ++ magic ++ second ++ block_bytes d.

Definition old_size (c : Counts) : Z :=
  4 * timecnt c + timecnt c + 6 * typecnt c + charcnt c + 8 * leapcnt c + isstdcnt c + isutccnt c.

(** A zone file is read back: from a file of version 2 that was written with the transitions,
    local times and texts of a zone, whatever its block for old readers holds and its reserved
    bytes are, the reader makes exactly that zone. *)
Theorem zone_file_roundtrip reserved body second old d : data_ok d -> counts_ok old ->
  is_i32 (6 * typecnt old) -> is_i32 (8 * leapcnt old) ->
  len reserved = 15 -> len body = old_size old -> len second = 16 ->
  loadZoneFile (Some (zone_file reserved body second old d)) = Ok (Some d).
Proof.
  intros D C I6 I8 Lr Lb Ls. unfold loadZoneFile. destruct (readDataBlock_at d
    ((((((([] ++ magic) ++ bs "2") ++ reserved) ++ counts_bytes old) ++ body) ++ magic) ++ second) D) as [f E].
  assert (read_zone {| data := zone_file reserved body second old d; pos := 0 |} = Ok (Some d, f)) as ->; [|done].
  change {| data := zone_file reserved body second old d; pos := 0 |} with (at_ [] (zone_file reserved body second old d)).
  unfold read_zone, zone_file.
  step (readBytes_at [] magic (bs "2" ++ reserved ++ counts_bytes old ++ body ++ magic ++ second ++ block_bytes d) 4 eq_refl).
  rewrite decide_False by tauto.
  reading (fun p => readBytes_at p (bs "2") (reserved ++ counts_bytes old ++ body ++ magic ++ second ++ block_bytes d) 1 eq_refl).
  reading (fun p => readBytes_at p reserved (counts_bytes old ++ body ++ magic ++ second ++ block_bytes d) 15 Lr).
  reading (fun p => read_counts_at p old (body ++ magic ++ second ++ block_bytes d) C).
  rewrite decide_True by done. unfold int_mul.
  rewrite (checked_ok [6 * typecnt old]), (checked_ok [8 * leapcnt old]) by (by apply Forall_singleton).
  unfold old_size in Lb. rewrite !lift_bind.
  reading (fun p => skip_at p body (magic ++ second ++ block_bytes d) _ Lb).
  reading (fun p => readBytes_at p magic (second ++ block_bytes d) 4 eq_refl).
  rewrite decide_False by tauto.
  reading (fun p => skip_at p second (block_bytes d) 16 Ls).
  exact E.
Qed.

(** ** Whatever the file holds *)

(** Every transition goes to a local time that is there. *)
Definition well_indexed (d : Data) : Prop :=
  Forall (fun t => exists lt, localtimes d !! localtimeIdx t = Some lt /\ localtime t = utctime t + utcOffset lt) (transitions d).

Lemma addTransition_indexed t i d d' : well_indexed d -> addTransition t i d = Ok d' -> well_indexed d'.
Proof.
  unfold addTransition. destruct (localtimes d !! i) as [lt|] eqn:E; [|done]. intros W.
  unfold long_add. case_decide; [|done]. rewrite outcome_bind_ok. intros [= <-]. unfold well_indexed. cbn [transitions localtimes].
  apply Forall_app. split; [exact W|]. apply Forall_singleton. cbn [localtimeIdx localtime utctime]. by exists lt.
Qed.

Lemma add_all_indexed l d (f : File) d' f' : well_indexed d ->
  for_fold (fun d '(t, i) => lift (addTransition t (Z.to_nat i) d)) d l f = Ok (d', f') -> well_indexed d'.
Proof.
  revert d f. induction l as [|[t i] l IH]; intros d f W; [by intros [= <- <-]|]. cbn [for_fold].
  intros (d1 & f1 & E1 & E2)%bind_inv. unfold lift in E1. destruct (addTransition t (Z.to_nat i) d) as [d2| |] eqn:Ea; [|done..].
  injection E1 as <- <-. eapply IH; [|exact E2]. by eapply addTransition_indexed.
Qed.

Lemma add_types_no_transitions types d :
  transitions (fold_left (fun d '(off, dst, idx) => addLocalTime off (bool_decide (dst <> 0)) idx d) types d) = transitions d.
Proof. revert d. induction types as [|[[o b] i] l IH]; intros d; [done|]. cbn [fold_left]. by rewrite IH. Qed.

Lemma readDataBlock_indexed v1 f d f' : readDataBlock Data_new v1 f = Ok (Some d, f') -> well_indexed d.
Proof.
  unfold readDataBlock. intros (c & f1 & _ & E)%bind_inv. repeat (case_decide; [done|]).
  apply bind_inv in E as (? & f2 & _ & E). apply bind_inv in E as (trans & f3 & _ & E).
  apply bind_inv in E as (indices & f4 & _ & E). apply bind_inv in E as (? & f5 & _ & E).
  apply bind_inv in E as (types & f6 & _ & E). apply bind_inv in E as (d1 & f7 & E1 & E).
  apply bind_inv in E as (abbr & f8 & _ & E). apply bind_inv in E as (? & f9 & _ & E).
  apply bind_inv in E as (? & f10 & _ & E). apply bind_inv in E as (? & f11 & _ & E).
  apply add_all_indexed in E1; [|unfold well_indexed; by rewrite add_types_no_transitions; constructor].
  destruct v1; [by injection E as <- <-|]. apply bind_inv in E as (s & f12 & _ & E). by injection E as <- <-.
Qed.

Lemma loaded_indexed b d : loadZoneFile b = Ok (Some d) -> well_indexed d.
Proof.
  unfold loadZoneFile. destruct b as [b|]; [|done]. destruct (read_zone _) as [[z f]|e|] eqn:E; [|by destruct e|done]. intros [= ->].
  unfold read_zone in E. apply bind_inv in E as (h & f1 & _ & E). case_decide; [done|].
  apply bind_inv in E as (v & f2 & _ & E). apply bind_inv in E as (r & f3 & _ & E). apply bind_inv in E as (c & f4 & _ & E).
  case_decide.
  - apply bind_inv in E as (? & f5 & _ & E). apply bind_inv in E as (? & f6 & _ & E). apply bind_inv in E as (? & f7 & _ & E).
    apply bind_inv in E as (? & f8 & _ & E). case_decide; [done|]. apply bind_inv in E as (? & f9 & _ & E).
    by eapply readDataBlock_indexed.
  - apply bind_inv in E as (? & f5 & _ & E). by eapply readDataBlock_indexed.
Qed.

(** Looking up a transition's local time. *)
Lemma indexed_at d i : well_indexed d -> (i < length (transitions d))%nat ->
  exists t lt, index (transitions d) i = Ok t /\ t ∈ transitions d /\ index (localtimes d) (localtimeIdx t) = Ok lt /\ lt ∈ localtimes d.
Proof.
  intros W Hi. apply lookup_lt_is_Some_2 in Hi as [t Et]. pose proof (list_elem_of_lookup_2 _ _ _ Et) as It.
  unfold well_indexed in W. rewrite Forall_forall in W. destruct (W t It) as (lt & El & _). exists t, lt. unfold index.
  rewrite Et, El. do 3 (split; [done|]). by eapply list_elem_of_lookup_2.
Qed.

Lemma outcome_bind_assoc {A B C} (o : outcome A) (f : A -> outcome B) (g : B -> outcome C) :
  ((o ≫= f) ≫= g) = (o ≫= fun x => f x ≫= g).
Proof. by destruct o. Qed.

Lemma index_inv {A} (l : list A) i x : index l i = Ok x -> l !! i = Some x.
Proof. unfold index. destruct (l !! i); [by intros [= ->]|done]. Qed.

(** A transition whose last second before it does not fit into 64 bits, under some local time. *)
Definition beyond_64 (d : Data) : Prop := exists t lt, t ∈ transitions d /\ lt ∈ localtimes d
  /\ ~ (is_i64 (utctime t - 1) /\ is_i64 (utctime t - 1 + utcOffset lt)).

(** A search gives a local time of the zone; it may only go wrong for a reason [why]. *)
Definition settles (d : Data) (why : ub -> Prop) (r : outcome LocalTime) : Prop :=
  match r with Ok lt => lt ∈ localtimes d | Throw _ => False | Undef u => why u end.

Lemma settles_at d why i : well_indexed d -> (i < length (transitions d))%nat ->
  settles d why (t ← index (transitions d) i; index (localtimes d) (localtimeIdx t)).
Proof. intros W L. destruct (indexed_at d i W L) as (t & lt & -> & _ & E & I). by rewrite outcome_bind_ok, E. Qed.

(** The last second before a transition, for whatever comes after it. *)
Lemma settles_prior d (why : ub -> Prop) i j k t prior : well_indexed d -> transitions d !! i = Some t -> transitions d !! j = Some prior ->
  (beyond_64 d -> why SignedOverflow) -> (forall s, settles d why (k s)) -> settles d why (s ← prior_second d t prior; k s).
Proof.
  intros W Et Ep B K. destruct (indexed_at d j W (lookup_lt_Some _ _ _ Ep)) as (p & lt & E1 & _ & E2 & I).
  unfold index at 1 in E1. rewrite Ep in E1. injection E1 as <-. unfold prior_second. rewrite E2, outcome_bind_ok. unfold long_add.
  change (utctime t + -1) with (utctime t - 1). pose proof (list_elem_of_lookup_2 _ _ _ Et) as It.
  case_decide as D1; [|apply B; exists t, lt; naive_solver]. rewrite outcome_bind_ok.
  case_decide as D2; [|apply B; exists t, lt; naive_solver]. rewrite outcome_bind_ok. apply K.
Qed.

(** C38: The zones that are read from files. Whatever bytes the file held, and unless it has no local
    time at all, the search for the local time of a second, and of a local time with either answer,
    ends with one of the zone's local times, and no index is out of its vector; but for two things
    that the reader does not look at: transitions that are not in the order of the search, on which
    [std::upper_bound] is not defined, and, for a local time, a transition so near to the end of the
    64 bits that the second before it overflows. *)
Theorem loaded_zone_safe b d : loadZoneFile b = Ok (Some d) -> localtimes d <> [] ->
  (forall t, settles d (fun u => u = Precondition /\ ~ in_order utctime (transitions d)) (findLocalTime d t))
  /\ (forall local post, settles d (fun u => u = Precondition /\ ~ in_order localtime (transitions d)
         \/ u = SignedOverflow /\ beyond_64 d) (findLocal d local post)).
Proof.
  intros W%loaded_indexed Ne. assert (forall why, settles d why (index (localtimes d) 0)) as F.
  { intros why. destruct (localtimes d) as [|lt l] eqn:E; [done|]. unfold index, settles. rewrite E. by left. }
  split.
  - intros t. unfold findLocalTime. pose proof (first_above_spec utctime t (transitions d)) as (L & _ & A).
    destruct (transitions d) as [|first r] eqn:Et; [apply F|]. rewrite <- Et in *. case_decide as Hf; [apply F|].
    assert (transitions d !! 0%nat = Some first) as Ef by (by rewrite Et).
    destruct (upper_bound_inv utctime t (transitions d)) as [->|[-> N]]; [|by cbn]. rewrite outcome_bind_ok.
    rewrite decide_False by (intros E; rewrite E in A; specialize (A _ Ef); lia).
    apply lookup_lt_Some in Ef. case_decide; apply settles_at; (done || lia).
  - intros local post. unfold findLocal. pose proof (first_above_spec localtime local (transitions d)) as (L & _ & A).
    destruct (transitions d) as [|first r] eqn:Et; [apply F|]. rewrite <- Et in *. case_decide as Hf; [apply F|].
    assert (transitions d !! 0%nat = Some first) as Ef by (by rewrite Et).
    set (why := fun u => _ \/ _). destruct (upper_bound_inv localtime local (transitions d)) as [->|[-> N]]; [|left; split; [done|exact N]]. rewrite outcome_bind_ok.
    set (i := first_above localtime local (transitions d)) in *.
    assert (i <> 0%nat) as N0 by (intros E; rewrite E in A; specialize (A _ Ef); lia). rewrite decide_False by done.
    apply lookup_lt_Some in Ef. case_decide as Hi; [apply settles_at; (done || lia)|].
    destruct (indexed_at d i W) as (x & lx & Ex & _ & Elx & Ix); [lia|].
    destruct (indexed_at d (i - 1) W) as (y & ly & Ey & _ & Ely & Iy); [lia|]. rewrite Ex, Ey, !outcome_bind_ok.
    apply index_inv in Ex, Ey. eapply settles_prior; [done..|by right|]. intros s.
    case_decide; [destruct post; unfold settles; by rewrite ?Elx, ?Ely|].
    case_decide; rewrite ?outcome_bind_ok; [case_decide; [destruct post|]; unfold settles; by rewrite Ely|].
    destruct (indexed_at d (i - 2) W) as (z & lz & Ez & _ & Elz & Iz); [lia|]. rewrite Ez, outcome_bind_ok.
    apply index_inv in Ez. rewrite outcome_bind_assoc. eapply settles_prior; [done..|by right|]. intros s'. rewrite outcome_bind_ok.
    case_decide; [destruct post|]; unfold settles; by rewrite ?Ely, ?Elz.
Qed.

(** ** At work *)

Definition zone_bytes : bytes :=
  zone_file (replicate 15 Byte.x00) [] (replicate 16 Byte.x00)
    {| isutccnt := 0; isstdcnt := 0; leapcnt := 0; timecnt := 0; typecnt := 0; charcnt := 0 |} zone.

Lemma zone_data_ok : data_ok zone.
Proof.
  split.
  - repeat (apply Forall_cons; split; [apply (bool_decide_unpack _); vm_compute; exact I|]). constructor.
  - repeat (apply Forall_cons; split; [split; [apply (bool_decide_unpack _); vm_compute; exact I|];
      split; [apply (bool_decide_unpack _); vm_compute; exact I|]; split; [cbn; lia|eexists; split; reflexivity]|]). constructor.
  - apply (bool_decide_unpack _). vm_compute. exact I.
Qed.

Lemma zone_file_roundtrip_witness : loadZoneFile (Some zone_bytes) = Ok (Some zone).
Proof.
  apply (zone_file_roundtrip (replicate 15 Byte.x00) [] (replicate 16 Byte.x00)
    {| isutccnt := 0; isstdcnt := 0; leapcnt := 0; timecnt := 0; typecnt := 0; charcnt := 0 |} zone zone_data_ok);
    apply (bool_decide_unpack _); vm_compute; exact I.
Defined.

Lemma loaded_zone_safe_witness : exists lt, findLocal zone 1729999800 true = Ok lt /\ lt ∈ localtimes zone /\ utcOffset lt = 7200.
Proof.
  assert (loadZoneFile (Some zone_bytes) = Ok (Some zone)) as E by (vm_compute; reflexivity).
  destruct (loaded_zone_safe _ _ E) as [_ F]; [discriminate|]. pose proof (F 1729999800 true) as G.
  assert (findLocal zone 1729999800 true = Ok {| utcOffset := 7200; isDst := false; desigIdx := 0 |}) as El by (vm_compute; reflexivity).
  rewrite El in G. eexists. split; [exact El|]. split; [exact G|reflexivity].
Defined.

(** The two things the reader does not look at, in files made for them. *)
Definition crafted (second_time second_local third_time : Z) : Data := {|
  transitions := [{| utctime := 0; localtime := 3600; localtimeIdx := 0 |};
                  {| utctime := second_time; localtime := second_local; localtimeIdx := 1 |};
                  {| utctime := third_time; localtime := third_time; localtimeIdx := 1 |}];
  localtimes := [{| utcOffset := 3600; isDst := false; desigIdx := 0 |}; {| utcOffset := 0; isDst := false; desigIdx := 0 |}];
  abbreviation := []; tzstring := [] |}.

Definition crafted_bytes (d : Data) : bytes :=
  zone_file (replicate 15 Byte.x00) [] (replicate 16 Byte.x00)
    {| isutccnt := 0; isstdcnt := 0; leapcnt := 0; timecnt := 0; typecnt := 0; charcnt := 0 |} d.

Example unsorted_zone : let d := crafted 30000 30000 20000 in
  loadZoneFile (Some (crafted_bytes d)) = Ok (Some d) /\ findLocalTime d 25000 = Undef Precondition.
Proof. vm_compute. done. Qed.

Example last_second_overflows : let d := crafted (2 ^ 63 - 1) (2 ^ 63 - 1) (2 ^ 63 - 1) in
  loadZoneFile (Some (crafted_bytes d)) = Ok (Some d) /\ findLocal d 5000 true = Undef SignedOverflow.
Proof. vm_compute. done. Qed.

(** A file of version 3 is read by its block for old readers, which is empty in the files of
    today: the zone has no local time, and asking for one reads outside the vector. *)
Definition version_3 : bytes :=
  magic ++ bs "3" ++ replicate 15 Byte.x00
  ++ counts_bytes {| isutccnt := 0; isstdcnt := 0; leapcnt := 0; timecnt := 0; typecnt := 0; charcnt := 0 |}
  ++ magic ++ bs "3" ++ replicate 15 Byte.x00 ++ block_bytes zone.

Example version_3_is_empty : loadZoneFile (Some version_3) = Ok (Some Data_new) /\ toLocalTime Data_new 0 = Undef OutOfBounds.
Proof. vm_compute. done. Qed.
