(* ===== verification/TimerQueue.v ===== *)
(** * Timers (net/Timer.h, net/Timer.cc, net/TimerQueue.h, net/TimerQueue.cc)

    The timers of a loop: objects on the heap, a set of them by expiration and one by address,
    and the descriptor that wakes the loop for the earliest. A timer's callback is a number; what
    it does, and what the clock and the allocator say, are parameters. Everything runs in the
    loop's thread, where [runInLoop] calls at once. *)

From S2P Require Import Prelude Bytes StdMap Double Timestamp.

Definition UINTPTR_MAX : Z := 2 ^ 64 - 1.

Record Timer := {
  callback_ : Z;
  expiration_ : Z;
  interval_ : spec_float;
  repeat_ : bool;
  sequence_ : Z;
}.

(** The constructor, with the value of [s_numCreated_] after its increment. *)
Definition Timer_new (cb when : Z) (interval : spec_float) (numCreated : Z) : Timer := {|
  callback_ := cb; expiration_ := when; interval_ := interval;
  repeat_ := SFltb (S754_zero false) interval; sequence_ := to_i64 numCreated |}.

Definition set_expiration (e : Z) (t : Timer) : Timer := {|
  callback_ := callback_ t; expiration_ := e; interval_ := interval_ t; repeat_ := repeat_ t;
  sequence_ := sequence_ t |}.

(** [Timer::restart] *)
Definition restart (now : Z) (t : Timer) : outcome Timer :=
  if repeat_ t then
    e ← addTime now (interval_ t);
    mret (set_expiration e t)
  else mret (set_expiration invalid t).

(** What a callback asks of the queue. *)
Inductive timer_call :=
| AddTimer (cb when : Z) (interval : spec_float)
| CancelTimer (timer sequence : Z).

(** [operator new] for a timer: a free address, or [None] for [std::bad_alloc]. *)
Class TimerAlloc := {
  alloc_timer : gmap Z Timer -> option Z;
  alloc_free : forall h p, alloc_timer h = Some p -> h !! p = None /\ 0 < p < UINTPTR_MAX;
}.

(** [howMuchTimeFromNow], when it is [now]: seconds and nanoseconds. *)
Definition howMuchTimeFromNow (when now : Z) : outcome (Z * Z) :=
  microseconds ← long_add when (- now);
  let microseconds := if decide (microseconds < 100) then 100 else microseconds in
  mret (microseconds / kMicroSecondsPerSecond, microseconds mod kMicroSecondsPerSecond * 1000).

Section queue.
Context {U : Type} (react : Z -> U -> list timer_call * U) (clock : nat -> Z) `{TimerAlloc}.

Record TimerQueue := {
  theap : gmap Z Timer;
  timers_ : list (Z * Z);              (* std::set<pair<Timestamp, Timer*>> *)
  activeTimers_ : list (Z * Z);        (* std::set<pair<Timer*, int64_t>> *)
  callingExpiredTimers_ : bool;
  cancelingTimers_ : list (Z * Z);
  s_numCreated_ : Z;                   (* how often it was incremented *)
  timerfd_ : option (Z * (Z * Z));     (* when it was armed, and for how long *)
  readings : nat;                      (* of the clock *)
  owner : U;                           (* the state the callbacks work on *)
  ran : list Z;                        (* the sequence numbers of the timers run so far *)
}.

Definition Q (A : Type) : Type := M TimerQueue A.

Definition set_theap (h : gmap Z Timer) (s : TimerQueue) : TimerQueue := {|
  theap := h; timers_ := timers_ s; activeTimers_ := activeTimers_ s;
  callingExpiredTimers_ := callingExpiredTimers_ s; cancelingTimers_ := cancelingTimers_ s;
  s_numCreated_ := s_numCreated_ s; timerfd_ := timerfd_ s; readings := readings s; owner := owner s;
  ran := ran s |}.
Definition set_lists (t a : list (Z * Z)) (s : TimerQueue) : TimerQueue := {|
  theap := theap s; timers_ := t; activeTimers_ := a;
  callingExpiredTimers_ := callingExpiredTimers_ s; cancelingTimers_ := cancelingTimers_ s;
  s_numCreated_ := s_numCreated_ s; timerfd_ := timerfd_ s; readings := readings s; owner := owner s;
  ran := ran s |}.
Definition set_calling (b : bool) (s : TimerQueue) : TimerQueue := {|
  theap := theap s; timers_ := timers_ s; activeTimers_ := activeTimers_ s;
  callingExpiredTimers_ := b; cancelingTimers_ := cancelingTimers_ s;
  s_numCreated_ := s_numCreated_ s; timerfd_ := timerfd_ s; readings := readings s; owner := owner s;
  ran := ran s |}.
Definition set_canceling (l : list (Z * Z)) (s : TimerQueue) : TimerQueue := {|
  theap := theap s; timers_ := timers_ s; activeTimers_ := activeTimers_ s;
  callingExpiredTimers_ := callingExpiredTimers_ s; cancelingTimers_ := l;
  s_numCreated_ := s_numCreated_ s; timerfd_ := timerfd_ s; readings := readings s; owner := owner s;
  ran := ran s |}.
Definition set_numCreated (n : Z) (s : TimerQueue) : TimerQueue := {|
  theap := theap s; timers_ := timers_ s; activeTimers_ := activeTimers_ s;
  callingExpiredTimers_ := callingExpiredTimers_ s; cancelingTimers_ := cancelingTimers_ s;
  s_numCreated_ := n; timerfd_ := timerfd_ s; readings := readings s; owner := owner s; ran := ran s |}.
Definition set_timerfd (a : option (Z * (Z * Z))) (s : TimerQueue) : TimerQueue := {|
  theap := theap s; timers_ := timers_ s; activeTimers_ := activeTimers_ s;
  callingExpiredTimers_ := callingExpiredTimers_ s; cancelingTimers_ := cancelingTimers_ s;
  s_numCreated_ := s_numCreated_ s; timerfd_ := a; readings := readings s; owner := owner s;
  ran := ran s |}.
Definition set_readings (n : nat) (s : TimerQueue) : TimerQueue := {|
  theap := theap s; timers_ := timers_ s; activeTimers_ := activeTimers_ s;
  callingExpiredTimers_ := callingExpiredTimers_ s; cancelingTimers_ := cancelingTimers_ s;
  s_numCreated_ := s_numCreated_ s; timerfd_ := timerfd_ s; readings := n; owner := owner s;
  ran := ran s |}.
(** A callback has run. *)
Definition set_ran (q : Z) (u : U) (s : TimerQueue) : TimerQueue := {|
  theap := theap s; timers_ := timers_ s; activeTimers_ := activeTimers_ s;
  callingExpiredTimers_ := callingExpiredTimers_ s; cancelingTimers_ := cancelingTimers_ s;
  s_numCreated_ := s_numCreated_ s; timerfd_ := timerfd_ s; readings := readings s; owner := u;
  ran := ran s ++ [q] |}.

Definition TimerQueue_new (u : U) : TimerQueue := {|
  theap := ∅; timers_ := []; activeTimers_ := []; callingExpiredTimers_ := false;
  cancelingTimers_ := []; s_numCreated_ := 0; timerfd_ := None; readings := 0; owner := u; ran := [] |}.

(** [Timestamp::now()] *)
Definition Timestamp_now : Q Z := fun s => Ok (clock (readings s), set_readings (S (readings s)) s).

(** [*p] *)
Definition timer (p : Z) : Q Timer := fun s =>
  match theap s !! p with Some t => Ok (t, s) | None => Undef Dangling end.

Definition delete_timer (p : Z) : Q unit := modify (fun s => set_theap (delete p (theap s)) s).

(** [assert(timers_.size() == activeTimers_.size())] *)
Definition assert_sizes : Q unit := fun s =>
  if decide (length (timers_ s) = length (activeTimers_ s)) then Ok (tt, s) else Undef AssertFailed.

Definition assert_that (b : bool) : Q unit := if b then mret tt else undef AssertFailed.

Definition resetTimerfd (expiration : Z) : Q unit :=
  now ← Timestamp_now;
  ts ← lift (howMuchTimeFromNow expiration now);
  modify (set_timerfd (Some (now, ts))).

Definition insert_timer (p : Z) : Q bool :=
  _ ← assert_sizes;
  t ← timer p;
  let when := expiration_ t in
  l ← gets timers_;
  let earliestChanged := match l with [] => true | (e, _) :: _ => when <? e end in
  a ← gets activeTimers_;
  _ ← assert_that (bool_decide ((when, p) ∉ l));
  _ ← assert_that (bool_decide ((p, sequence_ t) ∉ a));
  _ ← modify (set_lists (sinsert (when, p) l) (sinsert (p, sequence_ t) a));
  _ ← assert_sizes;
  mret earliestChanged.

Definition addTimerInLoop (p : Z) : Q unit :=
  earliestChanged ← insert_timer p;
  if earliestChanged : bool then
    t ← timer p;
    resetTimerfd (expiration_ t)
  else mret tt.

(** [addTimer]: the [TimerId]. *)
Definition addTimer (cb when : Z) (interval : spec_float) : Q (Z * Z) := fun s =>
  match alloc_timer (theap s) with
  | None => Throw BadAlloc
  | Some p =>
      let n := s_numCreated_ s + 1 in
      let t := Timer_new cb when interval n in
      (_ ← addTimerInLoop p; mret (p, sequence_ t))
        (set_numCreated n (set_theap (<[p := t]> (theap s)) s))
  end.

Definition cancelInLoop (p q : Z) : Q unit :=
  _ ← assert_sizes;
  a ← gets activeTimers_;
  _ ← (if decide ((p, q) ∈ a) then
         t ← timer p;
         l ← gets timers_;
         _ ← assert_that (bool_decide ((expiration_ t, p) ∈ l));
         _ ← delete_timer p;
         modify (set_lists (serase (expiration_ t, p) l) (serase (p, q) a))
       else
         calling ← gets callingExpiredTimers_;
         if calling : bool then modify (fun s => set_canceling (sinsert (p, q) (cancelingTimers_ s)) s)
         else mret tt);
  assert_sizes.

Definition perform_call (k : timer_call) : Q unit :=
  match k with
  | AddTimer cb when interval => _ ← addTimer cb when interval; mret tt
  | CancelTimer p q => cancelInLoop p q
  end.

(** [Timer::run] *)
Definition run_timer (p : Z) : Q unit :=
  t ← timer p;
  u ← gets owner;
  let '(calls, u) := react (callback_ t) u in
  _ ← modify (set_ran (sequence_ t) u);
  for_each perform_call calls.

Definition getExpired (now : Z) : Q (list (Z * Z)) :=
  _ ← assert_sizes;
  l ← gets timers_;
  let '(expired, rest) := lower_bound (now, UINTPTR_MAX) l in
  _ ← assert_that (match rest with [] => true | (e, _) :: _ => now <? e end);
  _ ← modify (fun s => set_lists rest (activeTimers_ s) s);
  _ ← for_each (fun it =>
        t ← timer it.2;
        a ← gets activeTimers_;
        _ ← assert_that (bool_decide ((it.2, sequence_ t) ∈ a));
        modify (fun s => set_lists (timers_ s) (serase (it.2, sequence_ t) a) s)) expired;
  _ ← assert_sizes;
  mret expired.

Definition reset_timers (expired : list (Z * Z)) (now : Z) : Q unit :=
  _ ← for_each (fun it =>
        t ← timer it.2;
        c ← gets cancelingTimers_;
        if repeat_ t && bool_decide ((it.2, sequence_ t) ∉ c) then
          t ← lift (restart now t);
          _ ← modify (fun s => set_theap (<[it.2 := t]> (theap s)) s);
          _ ← insert_timer it.2;
          mret tt
        else delete_timer it.2) expired;
  l ← gets timers_;
  nextExpire ← match l with
               | [] => mret invalid
               | (_, p) :: _ => t ← timer p; mret (expiration_ t)
               end;
  if valid nextExpire then resetTimerfd nextExpire else mret tt.

(** [handleRead]: the descriptor has expired, and reading it leaves it unarmed. *)
Definition handleTimers : Q unit :=
  now ← Timestamp_now;
  _ ← modify (set_timerfd None);
  expired ← getExpired now;
  _ ← modify (set_calling true);
  _ ← modify (set_canceling []);
  _ ← for_each (fun it => run_timer it.2) expired;
  _ ← modify (set_calling false);
  reset_timers expired now.

(** ** Runs *)

Inductive timer_event :=
| Call (k : timer_call)          (* from the program outside a timer's callback *)
| Alarm.                         (* the descriptor is readable *)

Definition timer_step (e : timer_event) : Q unit :=
  match e with
  | Call k => perform_call k
  | Alarm => handleTimers
  end.
End queue.
