(* ===== verification/TimerProofs.v ===== *)
(** * Theorems on timers

    The sets and the heap agree, the descriptor is armed soon enough, and no assertion fails,
    whatever the callbacks ask for; an alarm runs what is due, in order; a cancelled timer never
    runs. *)

From S2P Require Import Prelude Bytes StdMap Double Timestamp TimerQueue.

(** ** Ranges

    Times and intervals of some ten thousand years either way: sums and differences fit. *)

Definition time_ok (e : Z) : Prop := - 2 ^ 62 <= e <= 2 ^ 62.
Definition interval_ok (d : spec_float) : Prop :=
  match double_to_i64 (double_mul d million) with Ok delta => 0 <= delta <= 2 ^ 61 | _ => False end.
Definition timer_ok (t : Timer) : Prop :=
  time_ok (expiration_ t) /\ (repeat_ t = true -> interval_ok (interval_ t)).
Definition call_ok (k : timer_call) : Prop :=
  match k with
  | AddTimer _ when d => time_ok when /\ (SFltb (S754_zero false) d = true -> interval_ok d)
  | CancelTimer _ _ => True
  end.

#[export] Instance interval_ok_dec d : Decision (interval_ok d).
Proof. unfold interval_ok. destruct (double_to_i64 _); apply _. Defined.
#[export] Instance call_ok_dec k : Decision (call_ok k).
Proof. destruct k; cbn; unfold time_ok; apply _. Defined.

(** What is due at [n]. *)
Definition due (n : Z) (l : list (Z * Z)) : list (Z * Z) := filter (fun it => it.1 <= n) l.
Definition not_due (n : Z) (l : list (Z * Z)) : list (Z * Z) := filter (fun it => ~ it.1 <= n) l.

(** The lower bound of the sentry splits the set there. *)
Lemma expired_split n l : sorted_set l -> Forall (fun it => it.2 < UINTPTR_MAX) l ->
  lower_bound (n, UINTPTR_MAX) l = (due n l, not_due n l).
Proof.
  intros S F. induction S as [|[e p] l S IH Fl]; [done|]. apply Forall_cons in F as [Hp F].
  unfold due, not_due in *. cbn [lower_bound fst snd] in *.
  change (kcmp (e, p) (n, UINTPTR_MAX)) with (match e ?= n with Eq => p ?= UINTPTR_MAX | c => c end).
  assert (e <= n -> (match e ?= n with Eq => p ?= UINTPTR_MAX | c => c end) = Lt) as Hd.
  { intros He. destruct (Z.compare_spec e n); [by apply Z.compare_lt_iff|done|lia]. }
  assert (n < e -> (match e ?= n with Eq => p ?= UINTPTR_MAX | c => c end) = Gt) as Hn.
  { intros He. destruct (Z.compare_spec e n); [lia..|done]. }
  destruct (decide (e <= n)) as [He|He].
  - rewrite Hd, IH by done. rewrite !filter_cons_True by done. by rewrite filter_cons_False by (cbn; tauto).
  - rewrite Hn by lia. rewrite filter_cons_False, filter_cons_True by done.
    assert (Forall (fun it : Z * Z => ~ it.1 <= n) l) as G.
    { eapply Forall_impl; [exact Fl|]. intros [e' p'] Hk. unfold klt in Hk. cbn in Hk. unfold pair_cmp in Hk. cbn in Hk |- *.
      destruct (Z.compare_spec e e'); [lia..|done]. }
    f_equal; [|f_equal].
    + clear -G. induction G as [|x l Hx G IH]; [done|]. by rewrite filter_cons_False.
    + clear -G. induction G as [|x l Hx G IH]; [done|]. rewrite filter_cons_True by done. by f_equal.
Qed.

(** Whether a time is before all those in a set. *)
Definition earliest (when : Z) (l : list (Z * Z)) : bool :=
  match l with [] => true | (e, _) :: _ => when <? e end.

Lemma head_least e p (l : list (Z * Z)) : sorted_set ((e, p) :: l) ->
  forall e' p', (e', p') ∈ (e, p) :: l -> e <= e'.
Proof.
  intros S e' p' [[= -> ->]|Hx]%elem_of_cons; [lia|]. inversion S as [|? ? _ F]; subst.
  rewrite Forall_forall in F. specialize (F _ Hx). unfold klt in F. cbn in F. unfold pair_cmp in F. cbn in F.
  destruct (Z.compare_spec e e'); [lia..|done].
Qed.

Lemma earliest_spec when l : sorted_set l ->
  if earliest when l then forall e p, (e, p) ∈ l -> when < e
  else exists e p, (e, p) ∈ l /\ e <= when /\ forall e' p', (e', p') ∈ l -> e <= e'.
Proof.
  destruct l as [|[e p] l]; simpl; [set_solver|]. intros S. pose proof (head_least e p l S) as Hl.
  destruct (Z.ltb_spec when e) as [Hw|Hw].
  - intros e' p' Hx. apply Hl in Hx. lia.
  - exists e, p. split; [by left|]. by split.
Qed.

Section proofs.
Context {U : Type} (clock : nat -> Z) `{TimerAlloc}.
Hypothesis clock_ok : forall n, 0 < clock n <= 2 ^ 61.

Abbreviation TimerQueue := (TimerQueue (U := U)).
Implicit Types (s : TimerQueue) (X : list Z).

(** ** The invariant

    [X] are the timers that have been taken out of the sets and not dealt with yet. *)

Record timers_ok X s : Prop := {
  tk_sorted : sorted_set (timers_ s);
  tk_sorted_active : sorted_set (activeTimers_ s);
  tk_timers : forall e p, (e, p) ∈ timers_ s <-> exists t, theap s !! p = Some t /\ expiration_ t = e /\ p ∉ X;
  tk_active : forall p q, (p, q) ∈ activeTimers_ s <-> exists t, theap s !! p = Some t /\ sequence_ t = q /\ p ∉ X;
  tk_flight : forall p, p ∈ X -> is_Some (theap s !! p);
  tk_heap : forall p t, theap s !! p = Some t -> 0 < p < UINTPTR_MAX /\ timer_ok t;
}.

(** The descriptor will be readable by the time [e], or a tenth of a millisecond after it was
    armed. *)
Definition soon s (e : Z) : Prop :=
  match timerfd_ s with
  | Some (n, (sec, nsec)) => n + (sec * kMicroSecondsPerSecond + nsec / 1000) <= Z.max e (n + 100)
  | None => False
  end.

Definition armed_for (P : Z -> Prop) s : Prop := forall e p, (e, p) ∈ timers_ s -> P e -> soon s e.

Lemma soon_mono s e e' : soon s e -> e <= e' -> soon s e'.
Proof. unfold soon. destruct (timerfd_ s) as [[n [sec ns]]|]; [lia|done]. Qed.

(** The two sets have one element per timer. *)
Lemma sizes_ok X s : timers_ok X s -> assert_sizes s = Ok (tt, s).
Proof.
  intros K. unfold assert_sizes. rewrite decide_True; [done|].
  rewrite <- (length_fmap snd (timers_ s)), <- (length_fmap fst (activeTimers_ s)).
  apply Permutation_length, NoDup_Permutation.
  - apply NoDup_fmap_2_strong; [|by apply sorted_set_NoDup, K]. intros [e p] [e' p'] Hx Hy. cbn. intros <-.
    apply (tk_timers _ _ K) in Hx as (t & Et & <- & _), Hy as (t' & Et' & <- & _). by rewrite Et in Et'; simplify_eq.
  - apply NoDup_fmap_2_strong; [|by apply sorted_set_NoDup, K]. intros [p q] [p' q'] Hx Hy. cbn. intros <-.
    apply (tk_active _ _ K) in Hx as (t & Et & <- & _), Hy as (t' & Et' & <- & _). by rewrite Et in Et'; simplify_eq.
  - intros p. rewrite !list_elem_of_fmap. split.
    + intros ([e p'] & -> & Hx). apply (tk_timers _ _ K) in Hx as (t & Et & _ & Hp).
      exists (p', sequence_ t). split; [done|]. apply (tk_active _ _ K). eauto.
    + intros ([p' q] & -> & Hx). apply (tk_active _ _ K) in Hx as (t & Et & _ & Hp).
      exists (expiration_ t, p'). split; [done|]. apply (tk_timers _ _ K). eauto.
Qed.

(** Only the sets and the heap matter. *)
Lemma timers_ok_same X s s' : timers_ s' = timers_ s -> activeTimers_ s' = activeTimers_ s ->
  theap s' = theap s -> timers_ok X s -> timers_ok X s'.
Proof. intros E1 E2 E3 [? ? ? ? ? ?]. split; rewrite ?E1, ?E2, ?E3; done. Qed.

(** ** Runs that end well, or without memory *)

Definition ends {A} (P : A -> TimerQueue -> Prop) (o : outcome (A * TimerQueue)) : Prop :=
  match o with
  | Ok (a, s) => P a s
  | Throw e => e = BadAlloc
  | Undef _ => False
  end.

Lemma ends_mono {A} (P R : A -> TimerQueue -> Prop) o : ends P o -> (forall a s, P a s -> R a s) -> ends R o.
Proof. destruct o as [[a s]|e|u]; simpl; auto. Qed.

Lemma ends_bind {A B} (P : A -> TimerQueue -> Prop) (R : B -> TimerQueue -> Prop)
    (m : Q A) (k : A -> Q B) s :
  ends P (m s) -> (forall a t, P a t -> ends R (k a t)) -> ends R ((m ≫= k) s).
Proof. unfold mbind, M_bind. destruct (m s) as [[a t]|e|u]; simpl; auto. Qed.

(** A loop, with what is left of its list. *)
Lemma ends_for_each {A} (I : list A -> TimerQueue -> Prop) (f : A -> Q unit) l s :
  I l s -> (forall x l s, I (x :: l) s -> ends (fun _ => I l) (f x s)) -> ends (fun _ => I []) (for_each f l s).
Proof.
  intros Hs Step. revert s Hs. induction l as [|x l IH]; intros s Hs; [done|].
  cbn [for_each]. eapply ends_bind; [by apply Step|]. intros [] t Ht. by apply IH.
Qed.

(** ** The descriptor *)

Lemma howMuch_ok e n : time_ok e -> 0 < n <= 2 ^ 61 ->
  exists sec nsec, howMuchTimeFromNow e n = Ok (sec, nsec)
    /\ n + (sec * kMicroSecondsPerSecond + nsec / 1000) = Z.max e (n + 100).
Proof.
  intros He Hn. unfold howMuchTimeFromNow, long_add, time_ok, is_i64 in *.
  rewrite decide_True by (split; lia). unfold mbind, outcome_bind, mret, outcome_ret.
  set (us := if decide _ then _ else _). do 2 eexists. split; [reflexivity|].
  rewrite Z.div_mul by lia. pose proof (Z.div_mod us kMicroSecondsPerSecond ltac:(done)) as D.
  assert (us = Z.max (e - n) 100) as Eu by (unfold us; case_decide; lia). lia.
Qed.

(** What a call leaves alone: timers in flight, the record of runs, the owner's state. *)
Record frame X s s' : Prop := {
  fr_flight : forall p, p ∈ X -> theap s' !! p = theap s !! p;
  fr_ran : ran s' = ran s;
  fr_owner : owner s' = owner s;
}.

Lemma frame_refl X s : frame X s s.
Proof. by split. Qed.
Lemma frame_trans X s1 s2 s3 : frame X s1 s2 -> frame X s2 s3 -> frame X s1 s3.
Proof. intros [F1 R1 O1] [F2 R2 O2]. split; [intros; by rewrite F2, F1|congruence..]. Qed.

Lemma resetTimerfd_ok e s : time_ok e -> exists s', resetTimerfd clock e s = Ok (tt, s')
  /\ timers_ s' = timers_ s /\ activeTimers_ s' = activeTimers_ s /\ theap s' = theap s
  /\ ran s' = ran s /\ owner s' = owner s /\ cancelingTimers_ s' = cancelingTimers_ s
  /\ s_numCreated_ s' = s_numCreated_ s /\ soon s' e.
Proof.
  intros He. destruct (howMuch_ok e (clock (readings s)) He (clock_ok _)) as (sec & ns & E & D).
  unfold resetTimerfd, Timestamp_now, mbind, M_bind, lift. rewrite E. eexists. split; [reflexivity|].
  repeat (split; [done|]). unfold soon. simpl. lia.
Qed.

(** ** One timer into the sets *)

Definition inserted (p : Z) (t : Timer) s : TimerQueue :=
  set_lists (sinsert (expiration_ t, p) (timers_ s)) (sinsert (p, sequence_ t) (activeTimers_ s)) s.

Lemma inserted_ok X p t s : timers_ok (p :: X) s -> p ∉ X -> theap s !! p = Some t -> timers_ok X (inserted p t s).
Proof.
  intros [S1 S2 T A F Hh] Np Et. split; cbn; try done.
  - by apply sorted_sinsert.
  - by apply sorted_sinsert.
  - intros e p'. rewrite elem_of_sinsert, T. split.
    + intros [[= -> ->]|(t' & E & <- & N)]; [by exists t|]. exists t'. set_solver.
    + intros (t' & E & <- & N). destruct (decide (p' = p)) as [->|Hp].
      * left. by rewrite Et in E; simplify_eq.
      * right. exists t'. set_solver.
  - intros p' q. rewrite elem_of_sinsert, A. split.
    + intros [[= -> ->]|(t' & E & <- & N)]; [by exists t|]. exists t'. set_solver.
    + intros (t' & E & <- & N). destruct (decide (p' = p)) as [->|Hp].
      * left. by rewrite Et in E; simplify_eq.
      * right. exists t'. set_solver.
  - intros p' Hp. apply F. by right.
Qed.

Lemma timer_ok_at p t s : theap s !! p = Some t -> timer p s = Ok (t, s).
Proof. unfold timer. by intros ->. Qed.

Lemma insert_ok X p t s : timers_ok (p :: X) s -> p ∉ X -> theap s !! p = Some t ->
  insert_timer p s = Ok (earliest (expiration_ t) (timers_ s), inserted p t s).
Proof.
  intros K Np Et. pose proof (inserted_ok X p t s K Np Et) as K'. unfold insert_timer.
  step (sizes_ok _ _ K). step (timer_ok_at _ _ _ Et).
  do 2 look. rewrite !bool_decide_eq_true_2.
  - unfold mbind at 1 2, M_bind at 1 2. cbn [assert_that mret M_ret]. look. by step (sizes_ok _ _ K').
  - intros Hx. apply (tk_timers _ _ K) in Hx as (t' & _ & _ & N). set_solver.
  - intros Hx. apply (tk_active _ _ K) in Hx as (t' & _ & _ & N). set_solver.
Qed.

Section down.
Context (P : Z -> Prop) (down : forall a b, a <= b -> P b -> P a).

(** Adding a timer re-arms the descriptor when it has to. *)
Lemma addTimerInLoop_ok X p t s : timers_ok (p :: X) s -> p ∉ X -> theap s !! p = Some t -> armed_for P s ->
  exists s', addTimerInLoop clock p s = Ok (tt, s') /\ timers_ok X s' /\ armed_for P s' /\ theap s' = theap s
    /\ ran s' = ran s /\ owner s' = owner s.
Proof.
  intros K Np Et Ar. unfold addTimerInLoop. step (insert_ok X p t s K Np Et).
  pose proof (inserted_ok X p t s K Np Et) as K'. pose proof (earliest_spec (expiration_ t) _ (tk_sorted _ _ K)) as Sp.
  destruct (earliest (expiration_ t) (timers_ s)).
  - assert (theap (inserted p t s) !! p = Some t) as Et' by done.
    step (timer_ok_at _ _ _ Et').
    destruct (resetTimerfd_ok (expiration_ t) (inserted p t s)) as (s' & E & E1 & E2 & E3 & E4 & E5 & _ & _ & So).
    { by apply (tk_heap _ _ K) in Et as [_ [? _]]. }
    exists s'. split; [done|]. split; [by apply (timers_ok_same _ _ _ E1 E2 E3)|]. split; [|done].
    intros e p' Hx _. rewrite E1 in Hx. apply elem_of_sinsert in Hx as [[= -> _]|Hx]; [done|].
    eapply soon_mono; [exact So|]. apply Sp in Hx. lia.
  - exists (inserted p t s). do 2 (split; [done|]). split; [|done]. intros e p' Hx Pe.
    apply elem_of_sinsert in Hx as [[= -> _]|Hx]; [|by eapply (Ar e p')].
    destruct Sp as (b & q & Hb & Le & _). eapply (soon_mono s b); [|done]. apply (Ar b q Hb). by eapply down.
Qed.

Lemma addTimer_ok X cb when d s : timers_ok X s -> armed_for P s -> call_ok (AddTimer cb when d) ->
  ends (fun id s' => timers_ok X s' /\ armed_for P s' /\ frame X s s'
          /\ theap s !! id.1 = None /\ theap s' = <[id.1 := Timer_new cb when d (s_numCreated_ s + 1)]> (theap s)
          /\ id.2 = to_i64 (s_numCreated_ s + 1))
    (addTimer clock cb when d s).
Proof.
  intros K Ar [Hw Hd]. unfold addTimer. destruct (alloc_timer (theap s)) as [p|] eqn:Ea; [|done].
  apply alloc_free in Ea as [Fr Hp]. cbv zeta. set (t := Timer_new _ _ _ _). set (s1 := set_numCreated _ _).
  assert (p ∉ X) as Np by (intros [t' Et]%(tk_flight _ _ K); congruence).
  assert (timers_ok (p :: X) s1) as K1.
  { destruct K as [S1 S2 T A F Hh]. split; cbn; try done.
    - intros e p'. rewrite T. split; intros (t' & E & <- & N); exists t'.
      + rewrite lookup_insert_ne by congruence. set_solver.
      + apply not_elem_of_cons in N as [? ?]. by rewrite lookup_insert_ne in E by done.
    - intros p' q. rewrite A. split; intros (t' & E & <- & N); exists t'.
      + rewrite lookup_insert_ne by congruence. set_solver.
      + apply not_elem_of_cons in N as [? ?]. by rewrite lookup_insert_ne in E by done.
    - intros p' [->|Hx]%elem_of_cons; [by rewrite lookup_insert_eq|]. apply F in Hx as [t' E].
      rewrite lookup_insert_ne by congruence. eauto.
    - intros p' t' [[<- <-]|[_ E]]%lookup_insert_Some; [done|eauto]. }
  assert (theap s1 !! p = Some t) as Et by apply lookup_insert_eq.
  destruct (addTimerInLoop_ok X p t s1 K1 Np Et) as (s' & E & K' & Ar' & Eh & Er & Eo); [exact Ar|].
  step E. split; [done|]. split; [done|]. split; [|done].
  split; [|by rewrite Er|by rewrite Eo]. intros p' Hx. rewrite Eh. apply lookup_insert_ne. congruence.
Qed.

(** ** One timer out of the sets *)

Lemma cancel_ok X p q s : timers_ok X s -> armed_for P s ->
  exists s', cancelInLoop p q s = Ok (tt, s') /\ timers_ok X s' /\ armed_for P s' /\ frame X s s'
    /\ theap s' = (if decide ((p, q) ∈ activeTimers_ s) then delete p (theap s) else theap s).
Proof.
  intros K Ar. unfold cancelInLoop. step (sizes_ok _ _ K).
  look. case_decide as Hx.
  - pose proof Hx as (t & Et & Eq & Np)%(tk_active _ _ K).
    assert ((expiration_ t, p) ∈ timers_ s) as Ht by (apply (tk_timers _ _ K); eauto).
    set (s' := set_lists (serase (expiration_ t, p) (timers_ s)) (serase (p, q) (activeTimers_ s))
      (set_theap (delete p (theap s)) s)).
    assert (timers_ok X s') as K'.
    { destruct K as [S1 S2 T A F Hh]. split; cbn; try by apply sorted_serase.
      - intros e p'. rewrite elem_of_serase, T by done. split.
        + intros [Ne (t' & E & <- & N)]. exists t'. rewrite lookup_delete_ne; [done|].
          intros <-. rewrite Et in E. by simplify_eq.
        + intros (t' & [Ne E]%lookup_delete_Some & <- & N). split; [congruence|eauto].
      - intros p' q'. rewrite elem_of_serase, A by done. split.
        + intros [Ne (t' & E & <- & N)]. exists t'. rewrite lookup_delete_ne; [done|].
          intros <-. rewrite Et in E. by simplify_eq.
        + intros (t' & [Ne E]%lookup_delete_Some & <- & N). split; [congruence|eauto].
      - intros p' Hp. rewrite lookup_delete_ne by congruence. auto.
      - intros p' t' [_ E]%lookup_delete_Some. eauto. }
    exists s'. split.
    + rewrite (bind_ok _ _ s tt s').
      * exact (sizes_ok X s' K').
      * step (timer_ok_at _ _ _ Et). look.
        by rewrite bool_decide_eq_true_2.
    + split; [done|]. split; [|split; [|done]].
      * intros e p' Hy%serase_sub. by apply (Ar e p').
      * split; [|done..]. intros p' Hp. apply lookup_delete_ne. congruence.
  - destruct (callingExpiredTimers_ s) eqn:Ec.
    + exists (set_canceling (sinsert (p, q) (cancelingTimers_ s)) s). split; [|by split; [apply (timers_ok_same X s)|]].
      rewrite (bind_ok _ _ s tt (set_canceling (sinsert (p, q) (cancelingTimers_ s)) s)).
      * by apply (sizes_ok X), (timers_ok_same X s).
      * look. by rewrite Ec.
    + exists s. split; [|by split; [|split; [|split; [apply frame_refl|]]]]. rewrite (bind_ok _ _ s tt s).
      * by apply (sizes_ok X).
      * look. by rewrite Ec.
Qed.

Lemma timer_call_ok X k s : timers_ok X s -> armed_for P s -> call_ok k ->
  ends (fun _ s' => timers_ok X s' /\ armed_for P s' /\ frame X s s') (perform_call clock k s).
Proof.
  intros K Ar Hk. destruct k as [cb when d|p q]; cbn [perform_call].
  - eapply ends_bind; [by apply (addTimer_ok X)|]. intros id t (? & ? & ? & _). done.
  - destruct (cancel_ok X p q s K Ar) as (s' & -> & ? & ? & ? & _). done.
Qed.

End down.

Context (react : Z -> U -> list timer_call * U).
Hypothesis react_ok : forall cb u, Forall call_ok (react cb u).1.

(** A callback, of a timer in flight. *)
Lemma callback_ok P X p t s : (forall a b, a <= b -> P b -> P a) -> timers_ok X s -> armed_for P s -> theap s !! p = Some t ->
  ends (fun _ s' => timers_ok X s' /\ armed_for P s' /\ (forall p, p ∈ X -> theap s' !! p = theap s !! p)
          /\ ran s' = ran s ++ [sequence_ t]) (run_timer react clock p s).
Proof.
  intros Dn K Ar Et. unfold run_timer. step (timer_ok_at _ _ _ Et).
  look. destruct (react (callback_ t) (owner s)) as [calls u] eqn:Er.
  pose proof (react_ok (callback_ t) (owner s)) as Hc. rewrite Er in Hc. cbn [fst] in Hc.
  look. set (s1 := set_ran _ _ s).
  pose proof (ends_for_each (fun l s' => Forall call_ok l /\ timers_ok X s' /\ armed_for P s' /\ frame X s1 s')
    (perform_call clock) calls s1) as L. cbv beta in L. eapply ends_mono; [apply L|].
  - split; [done|]. split; [by apply (timers_ok_same X s)|]. split; [exact Ar|apply frame_refl].
  - intros k l s2 ([Hk Hl]%Forall_cons & K2 & A2 & F2). eapply ends_mono; [by apply (timer_call_ok P Dn X)|].
    intros _ s3 (K3 & A3 & F3). do 3 (split; [done|]). by eapply frame_trans.
  - intros [] s2 (_ & K2 & A2 & [F1 F2 F3]). do 2 (split; [done|]). split; [exact F1|exact F2].
Qed.

(** ** What is due *)

Lemma due_spec n e p s : (e, p) ∈ due n (timers_ s) <-> (e, p) ∈ timers_ s /\ e <= n.
Proof. unfold due. rewrite list_elem_of_filter. cbn. tauto. Qed.

Lemma not_due_sorted n (l : list (Z * Z)) : sorted_set l -> sorted_set (not_due n l).
Proof.
  unfold not_due. induction 1 as [|x l S IH F]; [constructor|]. rewrite filter_cons. case_decide; [|done].
  constructor; [done|]. rewrite Forall_forall in *. intros y [_ Hy]%list_elem_of_filter. auto.
Qed.

Lemma timers_ends X s : timers_ok X s -> NoDup (timers_ s).*2.
Proof.
  intros K. apply NoDup_fmap_2_strong; [|by apply sorted_set_NoDup, K]. intros [e p] [e' p'] Hx Hy. cbn. intros <-.
  apply (tk_timers _ _ K) in Hx as (t & Et & <- & _), Hy as (t' & Et' & <- & _). by rewrite Et in Et'; simplify_eq.
Qed.

Lemma due_NoDup n s : timers_ok [] s -> NoDup (due n (timers_ s)).*2.
Proof.
  intros K. pose proof (timers_ends _ _ K) as N. unfold due. clear -N. induction (timers_ s) as [|x l IH]; [constructor|].
  apply NoDup_cons in N as [N1 N2]. rewrite filter_cons. case_decide; [|auto]. rewrite fmap_cons. constructor; [|auto].
  intros (y & Ey & Hy)%list_elem_of_fmap. apply list_elem_of_filter in Hy as [_ Hy]. apply N1. rewrite Ey.
  apply list_elem_of_fmap. eauto.
Qed.

(** The loop that takes the expired timers out of the second set. *)
Definition deactivate (it : Z * Z) : Q (U := U) unit :=
  t ← timer it.2;
  a ← gets activeTimers_;
  _ ← assert_that (bool_decide ((it.2, sequence_ t) ∈ a));
  modify (fun s => set_lists (timers_ s) (serase (it.2, sequence_ t) a) s).

Lemma deactivate_all_ok h rest l s : NoDup l.*2 -> theap s = h -> timers_ s = rest -> sorted_set (activeTimers_ s) ->
  (forall it, it ∈ l -> exists t, h !! it.2 = Some t /\ (it.2, sequence_ t) ∈ activeTimers_ s) ->
  exists a, for_each deactivate l s = Ok (tt, set_lists rest a s) /\ sorted_set a
    /\ (forall p q, (p, q) ∈ a <-> (p, q) ∈ activeTimers_ s
          /\ ~ (exists it t, it ∈ l /\ h !! it.2 = Some t /\ (p, q) = (it.2, sequence_ t))).
Proof.
  revert s. induction l as [|x l IH]; intros s N Eh Er S Hl.
  { exists (activeTimers_ s). split; [subst rest; by destruct s|]. split; [done|]. intros p q. set_solver. }
  rewrite fmap_cons in N. apply NoDup_cons in N as [N1 N2].
  destruct (Hl x) as (t & Et & Ha); [by left|]. cbn [for_each].
  set (s1 := set_lists rest (serase (x.2, sequence_ t) (activeTimers_ s)) s).
  assert (deactivate x s = Ok (tt, s1)) as E.
  { unfold deactivate. rewrite <- Eh in Et. step (timer_ok_at _ _ _ Et). look. rewrite bool_decide_eq_true_2 by done.
    unfold s1. by rewrite <- Er. }
  step E. destruct (IH s1) as (a & Ea & Sa & Ma); try done.
  - by apply sorted_serase.
  - intros y Hy. destruct (Hl y) as (t' & Et' & Ha'); [by right|]. exists t'. split; [done|].
    apply elem_of_serase; [done|]. split; [|done]. intros [= E2 _]. apply N1. rewrite <- E2.
    apply list_elem_of_fmap. eauto.
  - exists a. split; [exact Ea|]. split; [done|]. intros p q. rewrite Ma. cbn [activeTimers_ s1 set_lists].
    unfold s1. cbn. rewrite elem_of_serase by done. split.
    + intros [[Ne Hp] Nx]. split; [done|]. intros (it & t' & [->|Hi]%elem_of_cons & Et' & E2); [|by apply Nx; eauto].
      rewrite Et in Et'. simplify_eq.
    + intros [Hp Nx]. split; [split; [|done]|].
      * intros E2. apply Nx. exists x, t. split; [by left|done].
      * intros (it & t' & Hi & Et' & E2). apply Nx. exists it, t'. split; [by right|done].
Qed.

Lemma getExpired_ok n s : timers_ok [] s -> exists s', getExpired n s = Ok (due n (timers_ s), s')
  /\ timers_ok (due n (timers_ s)).*2 s' /\ theap s' = theap s /\ timers_ s' = not_due n (timers_ s)
  /\ ran s' = ran s /\ timerfd_ s' = timerfd_ s.
Proof.
  intros K. unfold getExpired. step (sizes_ok _ _ K). look. rewrite expired_split; [|by apply K|].
  2:{ apply Forall_forall. intros [e p] Hx. apply (tk_timers _ _ K) in Hx as (t & Et & _).
      apply (tk_heap _ _ K) in Et as [[_ ?] _]. done. }
  cbv beta iota.
  assert ((match not_due n (timers_ s) with [] => true | (e, _) :: _ => n <? e end) = true) as ->.
  { destruct (not_due n (timers_ s)) as [|[e p] l] eqn:E; [done|].
    assert ((e, p) ∈ not_due n (timers_ s)) as Hx by (rewrite E; by left).
    apply list_elem_of_filter in Hx as [Hx _]. cbn in Hx. by apply Z.ltb_lt; lia. }
  unfold mbind at 1, M_bind at 1. cbn [assert_that mret M_ret]. look.
  set (s1 := set_lists (not_due n (timers_ s)) (activeTimers_ s) s).
  destruct (deactivate_all_ok (theap s) (not_due n (timers_ s)) (due n (timers_ s)) s1) as (a & Ea & Sa & Ma); try done.
  - by apply due_NoDup.
  - apply K.
  - intros [e p] [Hx _]%due_spec. apply (tk_timers _ _ K) in Hx as (t & Et & _). exists t. split; [done|].
    apply (tk_active _ _ K). exists t. split; [done|]. split; [done|]. set_solver.
  - step Ea. set (s2 := set_lists (not_due n (timers_ s)) a s1).
    assert (timers_ok (due n (timers_ s)).*2 s2) as K2.
    { destruct K as [S1 S2 T A F Hh]. split; cbn; try done.
      - by apply not_due_sorted.
      - intros e p. unfold not_due. rewrite list_elem_of_filter, T. cbn. split.
        + intros [Ne (t & Et & <- & _)]. exists t. split; [done|]. split; [done|].
          intros ([e' p'] & -> & Hx)%list_elem_of_fmap. apply due_spec in Hx as [Hx Le].
          apply T in Hx as (t' & Et' & <- & _). cbn in Et. rewrite Et in Et'. by simplify_eq.
        + intros (t & Et & <- & N). assert ((expiration_ t, p) ∈ timers_ s) as Hx by (apply T; exists t; set_solver).
          split; [|exists t; set_solver]. intros Le. apply N, list_elem_of_fmap.
          exists (expiration_ t, p). split; [done|]. by apply due_spec.
      - intros p q. rewrite Ma. unfold s1. cbn. rewrite A. split.
        + intros [(t & Et & <- & _) N]. exists t. split; [done|]. split; [done|].
          intros ([e' p'] & -> & Hx)%list_elem_of_fmap. apply N. exists (e', p'), t. done.
        + intros (t & Et & <- & N). split; [exists t; set_solver|].
          intros ([e' p'] & t' & Hx & Et' & [= -> E2]). apply N, list_elem_of_fmap. by exists (e', p').
      - intros p ([e' p'] & -> & Hx)%list_elem_of_fmap. apply due_spec in Hx as [Hx _].
        apply T in Hx as (t' & Et' & _). eauto. }
    exists s2. change (s1 : TimerQueue) with s1. step (sizes_ok _ _ K2). done.
Qed.

(** ** The callbacks of what is due *)

Definition sequence_at s (p : Z) : Z := match theap s !! p with Some t => sequence_ t | None => 0 end.

Lemma callbacks_ok P X (l : list (Z * Z)) s : (forall a b, a <= b -> P b -> P a) -> timers_ok X s -> armed_for P s -> l.*2 ⊆ X ->
  ends (fun _ s' => timers_ok X s' /\ armed_for P s' /\ (forall p, p ∈ X -> theap s' !! p = theap s !! p)
          /\ ran s' = ran s ++ (sequence_at s <$> l.*2))
    (for_each (fun it => run_timer react clock it.2) l s).
Proof.
  intros Dn. revert s. induction l as [|[e p] l IH]; intros s K Ar Sub.
  { cbn. split; [done|]. split; [done|]. split; [done|]. by rewrite app_nil_r. }
  cbn [for_each fst snd]. assert (p ∈ X) as Hp by (apply Sub; by left).
  destruct (tk_flight _ _ K p Hp) as [t Et].
  eapply ends_bind; [by apply (callback_ok P X p t s)|]. intros [] s1 (K1 & A1 & F1 & R1).
  eapply ends_mono; [apply IH; try done; set_solver|]. intros [] s2 (K2 & A2 & F2 & R2).
  split; [done|]. split; [done|]. split; [intros p' Hp'; by rewrite F2, F1|].
  rewrite R2, R1, !fmap_cons, <- app_assoc. cbn [snd]. f_equal. unfold sequence_at at 2. rewrite Et. simpl. f_equal.
  apply list_fmap_ext. intros i p' Hi. unfold sequence_at. rewrite F1; [done|]. apply Sub.
  right. by eapply list_elem_of_lookup_2.
Qed.

(** ** What becomes of them *)

Definition delay (t : Timer) : Z :=
  match double_to_i64 (double_mul (interval_ t) million) with Ok delta => delta | _ => 0 end.

(** A timer that has run at [n]: due again after its interval, unless it does not repeat or was
    cancelled meanwhile. *)
Definition after_run (n : Z) (c : list (Z * Z)) (p : Z) (t : Timer) : option Timer :=
  if repeat_ t && bool_decide ((p, sequence_ t) ∉ c) then Some (set_expiration (n + delay t) t) else None.

Lemma restart_ok n t : 0 < n <= 2 ^ 61 -> timer_ok t -> repeat_ t = true ->
  restart n t = Ok (set_expiration (n + delay t) t) /\ n <= n + delay t /\ timer_ok (set_expiration (n + delay t) t).
Proof.
  intros Hn [_ Hi] Er. specialize (Hi Er). unfold restart, delay, timer_ok, interval_ok, addTime, time_ok in *.
  rewrite Er. cbn [expiration_ interval_ repeat_ set_expiration]. destruct (double_to_i64 _) as [d| |] eqn:E; [|done..].
  unfold mbind, outcome_bind, long_add, is_i64. rewrite decide_True by lia.
  split; [done|]. split; [lia|]. split; [lia|]. intros _. exact Hi.
Qed.

Lemma flight_update X p t s : timers_ok (p :: X) s -> timer_ok t -> 0 < p < UINTPTR_MAX ->
  timers_ok (p :: X) (set_theap (<[p := t]> (theap s)) s).
Proof.
  intros [S1 S2 T A F Hh] Ht Hp. split; cbn; try done.
  - intros e p'. rewrite T. split; intros (t' & E & <- & N); exists t'; apply not_elem_of_cons in N as N'; destruct N';
      (rewrite lookup_insert_ne in * by done); done.
  - intros p' q. rewrite A. split; intros (t' & E & <- & N); exists t'; apply not_elem_of_cons in N as N'; destruct N';
      (rewrite lookup_insert_ne in * by done); done.
  - intros p' Hx. destruct (decide (p = p')) as [->|]; [rewrite lookup_insert_eq; eauto|].
    rewrite lookup_insert_ne by done. auto.
  - intros p' t' [[<- <-]|[_ E]]%lookup_insert_Some; [done|eauto].
Qed.

Lemma flight_delete X p s : timers_ok (p :: X) s -> p ∉ X -> timers_ok X (set_theap (delete p (theap s)) s).
Proof.
  intros [S1 S2 T A F Hh] Np. split; cbn; try done.
  - intros e p'. rewrite T. split; intros (t' & E & <- & N).
    + apply not_elem_of_cons in N as []. exists t'. by rewrite lookup_delete_ne.
    + apply lookup_delete_Some in E as [Ne E]. exists t'. set_solver.
  - intros p' q. rewrite A. split; intros (t' & E & <- & N).
    + apply not_elem_of_cons in N as []. exists t'. by rewrite lookup_delete_ne.
    + apply lookup_delete_Some in E as [Ne E]. exists t'. set_solver.
  - intros p' Hx. rewrite lookup_delete_ne by congruence. apply F. by right.
  - intros p' t' [_ E]%lookup_delete_Some. eauto.
Qed.

(** The body of the loop of [reset]. *)
Definition reset_one (n : Z) (it : Z * Z) : Q (U := U) unit :=
  t ← timer it.2;
  c ← gets cancelingTimers_;
  if repeat_ t && bool_decide ((it.2, sequence_ t) ∉ c) then
    t ← lift (restart n t);
    _ ← modify (fun s => set_theap (<[it.2 := t]> (theap s)) s);
    _ ← insert_timer it.2;
    mret tt
  else delete_timer it.2.

(** What [reset] leaves alone. *)
Record kept s s' : Prop := {
  kp_fd : timerfd_ s' = timerfd_ s;
  kp_ran : ran s' = ran s;
  kp_canceling : cancelingTimers_ s' = cancelingTimers_ s;
}.

Lemma reset_one_ok n X e p t s : timers_ok (p :: X) s -> p ∉ X -> theap s !! p = Some t -> 0 < n <= 2 ^ 61 ->
  armed_for (fun e => e <= 0) s ->
  exists s', reset_one n (e, p) s = Ok (tt, s') /\ timers_ok X s' /\ armed_for (fun e => e <= 0) s' /\ kept s s'
    /\ theap s' !! p = after_run n (cancelingTimers_ s) p t /\ forall p', p' <> p -> theap s' !! p' = theap s !! p'.
Proof.
  intros K Np Et Hn Ar. destruct (tk_heap _ _ K _ _ Et) as [Hp Ht]. unfold reset_one. cbn [snd].
  step (timer_ok_at _ _ _ Et). look. unfold after_run. destruct (repeat_ t && _) eqn:Er.
  - apply andb_true_iff in Er as [Er _]. destruct (restart_ok n t Hn Ht Er) as (E & Le & Ht').
    set (t' := set_expiration (n + delay t) t) in *.
    unfold lift at 1, mbind at 1, M_bind at 1. rewrite E. look. set (s1 := set_theap _ s).
    pose proof (flight_update X p t' s K Ht' Hp) as K1. fold s1 in K1.
    assert (theap s1 !! p = Some t') as Et1 by apply lookup_insert_eq.
    step (insert_ok X p t' s1 K1 Np Et1). exists (inserted p t' s1). split; [done|].
    split; [by apply inserted_ok|]. split; [|split; [done|split; [done|intros; by apply lookup_insert_ne]]].
    intros e' p' [[= -> _]|Hx]%elem_of_sinsert; [lia|]. by apply (Ar e' p').
  - exists (set_theap (delete p (theap s)) s). split; [done|]. split; [by apply flight_delete|].
    split; [exact Ar|]. split; [done|]. split; [apply lookup_delete_eq|]. intros. by apply lookup_delete_ne.
Qed.

Lemma reset_all_ok n (l : list (Z * Z)) s : timers_ok l.*2 s -> NoDup l.*2 -> 0 < n <= 2 ^ 61 ->
  armed_for (fun e => e <= 0) s ->
  exists s', for_each (reset_one n) l s = Ok (tt, s') /\ timers_ok [] s' /\ armed_for (fun e => e <= 0) s' /\ kept s s'
    /\ (forall p t, p ∈ l.*2 -> theap s !! p = Some t -> theap s' !! p = after_run n (cancelingTimers_ s) p t)
    /\ forall p, p ∉ l.*2 -> theap s' !! p = theap s !! p.
Proof.
  revert s. induction l as [|[e p] l IH]; intros s K N Hn Ar.
  { exists s. split; [done|]. split; [done|]. split; [done|]. split; [done|]. split; [set_solver|done]. }
  rewrite fmap_cons in K, N. cbn [snd] in K, N. apply NoDup_cons in N as [Np N].
  destruct (tk_flight _ _ K p) as [t Et]; [by left|].
  destruct (reset_one_ok n _ e p t s K Np Et Hn Ar) as (s1 & E1 & K1 & A1 & [F1 R1 C1] & H1 & O1).
  destruct (IH s1 K1 N Hn A1) as (s2 & E2 & K2 & A2 & [F2 R2 C2] & H2 & O2).
  exists s2. cbn [for_each]. step E1. split; [done|]. split; [done|]. split; [done|]. split; [split; congruence|].
  rewrite fmap_cons. cbn [snd]. split.
  - intros p' t' [->|Hx]%elem_of_cons Et'; [rewrite O2 by done; rewrite Et in Et'; by simplify_eq|].
    rewrite <- C1. apply H2; [done|]. rewrite O1; [done|]. congruence.
  - intros p' [? ?]%not_elem_of_cons. rewrite O2, O1 by done. done.
Qed.

(** ** An alarm *)

(** Whatever is in the sets is looked after by the descriptor. *)
Definition armed s : Prop := armed_for (fun _ => True) s.

Lemma reset_ok n (l : list (Z * Z)) s : timers_ok l.*2 s -> NoDup l.*2 -> 0 < n <= 2 ^ 61 ->
  armed_for (fun e => e <= 0) s ->
  exists s', reset_timers clock l n s = Ok (tt, s') /\ timers_ok [] s' /\ armed s'
    /\ ran s' = ran s /\ cancelingTimers_ s' = cancelingTimers_ s
    /\ (forall p t, p ∈ l.*2 -> theap s !! p = Some t -> theap s' !! p = after_run n (cancelingTimers_ s) p t).
Proof.
  intros K N Hn Ar. destruct (reset_all_ok n l s K N Hn Ar) as (s1 & E & K1 & A1 & [F1 R1 C1] & H1 & _).
  unfold reset_timers. fold (reset_one n). step E. look.
  destruct (timers_ s1) as [|[e p] rest] eqn:El.
  { exists s1. split; [done|]. split; [done|]. split; [|done]. intros e' p'. rewrite El. set_solver. }
  assert ((e, p) ∈ timers_ s1) as Hx by (rewrite El; by left).
  pose proof Hx as (t & Et & Ee & _)%(tk_timers _ _ K1).
  rewrite (bind_ok _ _ s1 e s1); [|by step (timer_ok_at _ _ _ Et); rewrite Ee].
  assert (forall e' p', (e', p') ∈ timers_ s1 -> e <= e') as Hmin.
  { pose proof (tk_sorted _ _ K1) as S1. rewrite El in *. exact (head_least e p rest S1). }
  unfold valid. destruct (Z.ltb_spec 0 e) as [He|He].
  - destruct (resetTimerfd_ok e s1) as (s2 & E2 & T2 & B2 & P2 & Q2 & _ & C2 & _ & So).
    { apply (tk_heap _ _ K1) in Et as [_ [Ht _]]. by rewrite <- Ee. }
    exists s2. split; [done|]. split; [by apply (timers_ok_same _ s1)|].
    split; [|split; [congruence|split; [congruence|intros p' t' Hp Ht; rewrite P2; by apply H1]]].
    intros e' p' Hy _. rewrite T2 in Hy. eapply soon_mono; [exact So|eauto].
  - exists s1. split; [done|]. split; [done|]. split; [|done].
    intros e' p' Hy _. eapply soon_mono; [by apply (A1 e p)|eauto].
Qed.

Lemma alarm_ok s : timers_ok [] s ->
  let n := clock (readings s) in
  ends (fun _ s' => timers_ok [] s' /\ armed s'
      /\ ran s' = ran s ++ (sequence_at s <$> (due n (timers_ s)).*2)
      /\ forall e p t, (e, p) ∈ due n (timers_ s) -> theap s !! p = Some t ->
           theap s' !! p = after_run n (cancelingTimers_ s') p t)
    (handleTimers react clock s).
Proof.
  intros K n. unfold handleTimers, Timestamp_now at 1. unfold mbind at 1, M_bind at 1. fold n. look.
  set (s0 := set_timerfd None _).
  assert (timers_ok [] s0) as K0 by (by apply (timers_ok_same [] s)).
  destruct (getExpired_ok n s0 K0) as (s1 & E1 & K1 & H1 & T1 & R1 & _). step E1. clear E1.
  change (timers_ s0) with (timers_ s) in *. do 2 look. set (l := due n (timers_ s)) in *.
  set (s2 := set_canceling [] (set_calling true s1)).
  assert (timers_ok l.*2 s2) as K2 by (by apply (timers_ok_same _ s1)).
  assert (armed_for (fun e => e <= n) s2) as A2.
  { intros e p Hx Le. change (timers_ s2) with (timers_ s1) in Hx. rewrite T1 in Hx.
    apply list_elem_of_filter in Hx as [Hx _]. cbn in Hx. lia. }
  eapply ends_bind; [apply (callbacks_ok (fun e => e <= n) l.*2 l s2); [intros a b ? ?; lia|done..]|].
  intros [] s3 (K3 & A3 & F3 & R3). look. set (s4 := set_calling false s3).
  assert (0 < n <= 2 ^ 61) as Hn by apply clock_ok.
  destruct (reset_ok n l s4) as (s5 & E5 & K5 & A5 & R5 & C5 & H5); [by apply (timers_ok_same _ s3)|by apply due_NoDup|done| |].
  { intros e p Hx Le. change (soon s3 e). apply (A3 e p Hx). lia. }
  rewrite E5. cbn [ends]. split; [done|]. split; [done|]. split.
  - rewrite R5. change (ran s4) with (ran s3). rewrite R3. change (ran s2) with (ran s1). rewrite R1. f_equal.
    apply list_fmap_ext. intros i p _. unfold sequence_at. change (theap s2) with (theap s1). by rewrite H1.
  - intros e p t Hx Et. rewrite C5. apply H5; [apply list_elem_of_fmap; by exists (e, p)|].
    change (theap s4) with (theap s3). rewrite F3 by (apply list_elem_of_fmap; by exists (e, p)).
    change (theap s2) with (theap s1). by rewrite H1.
Qed.
End proofs.
