(* ===== verification/TimerRuns.v ===== *)
(** * Timers, from the first one on

    What holds of every run of the queue: the invariant, what an alarm does, and that a
    cancelled timer is never heard of again. *)

From S2P Require Import Prelude Bytes StdMap Double Timestamp TimerQueue TimerProofs.

Definition timer_event_ok (e : timer_event) : Prop :=
  match e with Call k => call_ok k | Alarm => True end.

#[export] Instance timer_event_ok_dec e : Decision (timer_event_ok e).
Proof. destruct e; cbn; apply _. Defined.

Section runs.
Context {U : Type} (react : Z -> U -> list timer_call * U) (clock : nat -> Z) `{TimerAlloc}.

Abbreviation TimerQueue := (TimerQueue (U := U)).
Implicit Types (s : TimerQueue).

(** A run: the events in order. *)
Definition timer_run (es : list timer_event) : Q (U := U) unit := for_each (timer_step react clock) es.

(** ** Where timers come from *)

(** The number of a timer at [p], or one given out since. *)
Definition known s s' (q : Z) : Prop :=
  exists k, s_numCreated_ s < k <= s_numCreated_ s' /\ q = to_i64 k.

Record grows s s' : Prop := {
  gr_created : s_numCreated_ s <= s_numCreated_ s';
  gr_heap : forall p t', theap s' !! p = Some t' ->
    (exists t, theap s !! p = Some t /\ sequence_ t = sequence_ t') \/ known s s' (sequence_ t');
  gr_ran : exists l, ran s' = ran s ++ l
    /\ Forall (fun q => (exists p t, theap s !! p = Some t /\ sequence_ t = q) \/ known s s' q) l;
}.

Lemma known_mono s1 s2 s3 q : s_numCreated_ s2 <= s_numCreated_ s3 -> known s1 s2 q -> known s1 s3 q.
Proof. intros L (k & Hk & ->). exists k. split; [lia|done]. Qed.

#[export] Instance grows_refl : Reflexive grows.
Proof. intros s. split; [lia|eauto|]. exists []. by rewrite app_nil_r. Qed.

#[export] Instance grows_trans : Transitive grows.
Proof.
  intros s1 s2 s3 [C1 H1 (l1 & E1 & F1)] [C2 H2 (l2 & E2 & F2)].
  assert (forall q, known s2 s3 q -> known s1 s3 q) as Kn by (intros q (k & Hk & ->); exists k; split; [lia|done]).
  split; [lia| |].
  - intros p t' E. apply H2 in E as [(t & E & <-)|K]; [|auto]. apply H1 in E as [?|K]; [auto|].
    right. by apply (known_mono s1 s2).
  - exists (l1 ++ l2). rewrite E2, E1, app_assoc. split; [done|]. apply Forall_app. split.
    + eapply Forall_impl; [exact F1|]. intros q [?|K]; [auto|]. right. by apply (known_mono s1 s2).
    + eapply Forall_impl; [exact F2|]. intros q [(p & t & E & <-)|K]; [|auto].
      apply H1 in E as [(t1 & E & <-)|K]; [eauto|]. right. by apply (known_mono s1 s2).
Qed.

(** A call after which, if it returns, that is all that can have happened. *)
Definition growing {A} (m : Q (U := U) A) : Prop := forall s a s', m s = Ok (a, s') -> grows s s'.

Lemma growing_bind {A B} (m : Q A) (k : A -> Q B) : growing m -> (forall a, growing (k a)) -> growing (m ≫= k).
Proof.
  intros Hm Hk s b s' E. apply bind_inv in E as (a & t & E1 & E2). etrans; [by eapply Hm|by eapply Hk].
Qed.
Lemma growing_same {A} (m : Q A) : (forall s a s', m s = Ok (a, s') ->
  theap s' = theap s /\ ran s' = ran s /\ s_numCreated_ s' = s_numCreated_ s) -> growing m.
Proof.
  intros Hm s a s' E. apply Hm in E as (E1 & E2 & E3). split; [lia| |].
  - intros p t. rewrite E1. eauto.
  - exists []. by rewrite app_nil_r.
Qed.
Lemma growing_for_each {A} (f : A -> Q unit) l : (forall x, growing (f x)) -> growing (for_each f l).
Proof.
  intros Hf. induction l as [|x l IH]; [by apply growing_same; intros s a s' [= _ ->]|].
  cbn [for_each]. by apply growing_bind.
Qed.
Lemma growing_delete p : growing (delete_timer p).
Proof.
  intros s a s' [= _ <-]. split; cbn; [lia| |].
  - intros p' t [_ E]%lookup_delete_Some. eauto.
  - exists []. by rewrite app_nil_r.
Qed.

Ltac same := apply growing_same; intros ? ? ? HE; revert HE;
  unfold assert_sizes, assert_that, timer, gets, modify, lift, mret, M_ret, undef, Timestamp_now;
  repeat case_match; intros; simplify_eq/=; done.
Ltac grow := repeat match goal with |- growing (_ ≫= _) => apply growing_bind; [same|intros ?] end.

Lemma growing_reset e : growing (resetTimerfd clock e).
Proof. unfold resetTimerfd. grow. same. Qed.
Lemma growing_insert p : growing (insert_timer p).
Proof. unfold insert_timer. grow. same. Qed.
Lemma growing_add_in_loop p : growing (addTimerInLoop clock p).
Proof.
  unfold addTimerInLoop. apply growing_bind; [apply growing_insert|]. intros b.
  case_match; [grow; apply growing_reset|same].
Qed.
Lemma growing_add cb when d : growing (addTimer clock cb when d).
Proof.
  intros s a s'. unfold addTimer. destruct (alloc_timer (theap s)) as [p|] eqn:Ea; [|done].
  apply alloc_free in Ea as [Fr _]. intros E. transitivity (set_numCreated (s_numCreated_ s + 1)
    (set_theap (<[p := Timer_new cb when d (s_numCreated_ s + 1)]> (theap s)) s)).
  - split; cbn; [lia| |].
    + intros p' t' [[<- <-]|[_ E']]%lookup_insert_Some; [|eauto]. right. exists (s_numCreated_ s + 1). cbn. split; [lia|done].
    + exists []. by rewrite app_nil_r.
  - revert E. eapply growing_bind; [apply growing_add_in_loop|]. intros. same.
Qed.
Lemma growing_cancel p q : growing (cancelInLoop p q).
Proof.
  unfold cancelInLoop. grow. apply growing_bind; [|intros; same]. case_decide; grow; [|case_match; same].
  apply growing_bind; [apply growing_delete|intros; same].
Qed.
Lemma growing_call k : growing (perform_call clock k).
Proof. destruct k; cbn; [apply growing_bind; [apply growing_add|intros; same]|apply growing_cancel]. Qed.

Lemma growing_run p : growing (run_timer react clock p).
Proof.
  intros s a s'. unfold run_timer. intros E. apply bind_inv in E as (t & s1 & E1 & E).
  unfold timer in E1. destruct (theap s !! p) as [t1|] eqn:Et; [|done]. injection E1 as -> ->.
  apply bind_inv in E as (u & s2 & E2 & E). injection E2 as <- <-.
  destruct (react _ _) as [calls u']. apply bind_inv in E as (x & s3 & E3 & E). injection E3 as <- <-.
  transitivity (set_ran (sequence_ t) u' s1); [|by eapply growing_for_each, E; apply growing_call].
  split; cbn; [lia|eauto|]. exists [sequence_ t]. split; [done|]. constructor; [eauto|done].
Qed.

Lemma growing_reset_one n it : growing (reset_one n it).
Proof.
  intros s a s'. unfold reset_one. intros E. apply bind_inv in E as (t & s1 & E1 & E).
  unfold timer in E1. destruct (theap s !! it.2) as [t1|] eqn:Et; [|done]. injection E1 as -> ->.
  apply bind_inv in E as (c & s2 & E2 & E). injection E2 as <- <-.
  destruct (repeat_ t && _); [|by eapply growing_delete]. apply bind_inv in E as (t' & s3 & E3 & E).
  assert (sequence_ t' = sequence_ t /\ s3 = s1) as [Es ->].
  { revert E3. unfold lift, restart, mbind, outcome_bind, mret, outcome_ret. repeat case_match; intros; simplify_eq; done. }
  apply bind_inv in E as (x & s4 & E4 & E). injection E4 as <- <-.
  transitivity (set_theap (<[it.2 := t']> (theap s1)) s1);
    [|revert E; eapply growing_bind; [apply growing_insert|intros; same]].
  split; cbn; [lia| |by exists []; rewrite app_nil_r].
  intros p t2 [[<- <-]|[_ E']]%lookup_insert_Some; eauto.
Qed.

Lemma growing_alarm : growing (handleTimers react clock).
Proof.
  unfold handleTimers. grow. apply growing_bind.
  { unfold getExpired. grow. case_match. grow. apply growing_bind; [|intros; grow; same].
    apply growing_for_each. intros it. grow. same. }
  intros l. grow. apply growing_bind; [apply growing_for_each; intros it; apply growing_run|]. intros. grow.
  unfold reset_timers. apply growing_bind; [apply growing_for_each; intros it; apply growing_reset_one|].
  intros _. grow. apply growing_bind; [repeat case_match; grow; same|]. intros e. case_match; [apply growing_reset|same].
Qed.

Lemma growing_events es : growing (timer_run es).
Proof. apply growing_for_each. intros [k|]; [apply growing_call|apply growing_alarm]. Qed.

(** ** The properties *)

Section ok.
Hypothesis react_ok : forall cb u, Forall call_ok (react cb u).1.
Hypothesis clock_ok : forall n, 0 < clock n <= 2 ^ 61.

Lemma timer_start (u : U) : timers_ok [] (TimerQueue_new u) /\ armed (TimerQueue_new u).
Proof. split; [|intros e p; cbn; set_solver]. split; cbn; try constructor; set_solver. Qed.

Lemma timer_run_ok es s : timers_ok [] s -> armed s -> Forall timer_event_ok es ->
  ends (fun _ s' => timers_ok [] s' /\ armed s') (timer_run es s).
Proof.
  intros K A F. pose proof (ends_for_each (fun l s' => Forall timer_event_ok l /\ timers_ok [] s' /\ armed s')
    (timer_step react clock) es s) as L. cbv beta in L. eapply ends_mono; [apply L; [done|]|by intros [] s' (_ & ? & ?)].
  clear K A F L. intros e l s1 ([He F]%Forall_cons & K & A). destruct e as [k|]; cbn [timer_step].
  - eapply ends_mono; [apply (timer_call_ok clock clock_ok (fun _ => True)); done|]. by intros [] s2 (? & ? & _).
  - eapply ends_mono; [by apply (alarm_ok clock clock_ok react react_ok)|]. by intros [] s2 (? & ? & _).
Qed.


(** C22: An alarm at [n] runs the callbacks of the timers whose time has come, each once, in the
    order of their times, those that are cancelled by one of these callbacks included. Then a
    timer that repeats, and was not cancelled meanwhile, is due again its interval after [n];
    the others are gone. *)
Theorem alarm_exact (u : U) es s : Forall timer_event_ok es -> timer_run es (TimerQueue_new u) = Ok (tt, s) ->
  let n := clock (readings s) in
  ends (fun _ s' => ran s' = ran s ++ (sequence_at s <$> (due n (timers_ s)).*2)
      /\ forall e p t, (e, p) ∈ due n (timers_ s) -> theap s !! p = Some t ->
           theap s' !! p = after_run n (cancelingTimers_ s') p t)
    (handleTimers react clock s).
Proof.
  intros F E n. destruct (timer_start u) as [K A]. pose proof (timer_run_ok es _ K A F) as O. rewrite E in O.
  eapply ends_mono; [apply (alarm_ok clock clock_ok react react_ok), O|]. intros [] s' (_ & _ & ? & ?). done.
Qed.

(** *** Cancelling *)

(** The number [q] is no timer's, and never will be. *)
Definition gone (q : Z) s : Prop :=
  (exists k, 0 < k <= s_numCreated_ s /\ q = to_i64 k) /\ forall p t, theap s !! p = Some t -> sequence_ t <> q.

(** The number [q] can only be that of the timer at [p]. *)
Definition only_at (p q : Z) s : Prop :=
  (exists k, 0 < k <= s_numCreated_ s /\ q = to_i64 k)
  /\ forall p' t, theap s !! p' = Some t -> sequence_ t = q -> p' = p.

Lemma known_fresh s s' q : 0 <= s_numCreated_ s -> s_numCreated_ s' < 2 ^ 63 ->
  (exists k, 0 < k <= s_numCreated_ s /\ q = to_i64 k) -> ~ known s s' q.
Proof.
  intros H0 L (k & Hk & ->) (k' & Hk' & E). rewrite !to_i64_id in E by (split; lia). lia.
Qed.

Lemma issued_grows s s' q : grows s s' -> (exists k, 0 < k <= s_numCreated_ s /\ q = to_i64 k) ->
  exists k, 0 < k <= s_numCreated_ s' /\ q = to_i64 k.
Proof. intros [C _ _] (k & Hk & E). exists k. split; [lia|done]. Qed.

Lemma gone_grows q s s' : grows s s' -> gone q s -> s_numCreated_ s' < 2 ^ 63 ->
  gone q s' /\ exists l, ran s' = ran s ++ l /\ q ∉ l.
Proof.
  intros G [I N] L. pose proof G as [C Hh (l & E & F)].
  assert (~ known s s' q) as Nk by (apply known_fresh; [destruct I as (k & ? & _); lia|done..]).
  split; [split; [by eapply issued_grows|]|].
  - intros p t' Et' <-. apply Hh in Et' as [(t & Et & Es)|K]; [by eapply N|done].
  - exists l. split; [done|]. intros Hq. rewrite Forall_forall in F.
    destruct (F q Hq) as [(p & t & Et & Es)|K]; [by eapply N|done].
Qed.

Lemma only_at_grows p q s s' : grows s s' -> only_at p q s -> s_numCreated_ s' < 2 ^ 63 -> only_at p q s'.
Proof.
  intros G [I N] L. pose proof G as [C Hh _].
  assert (~ known s s' q) as Nk by (apply known_fresh; [destruct I as (k & ? & _); lia|done..]).
  split; [by eapply issued_grows|]. intros p' t' Et' <-. apply Hh in Et' as [(t & Et & Es)|K]; [by eapply N|done].
Qed.

(** C23: A timer that was cancelled from outside the callbacks never runs again, whatever comes
    later, even if its memory is used for another timer: here is a run in which it was added,
    and cancelled with the id it got, and then any other run; the second one does not run it.
    (Numbers are not given out twice as long as fewer than 2^63 timers are made.) *)
Theorem cancelled_never_runs (u : U) es1 es2 es3 cb when d id s0 s1 s2 s3 s4 :
  Forall timer_event_ok (es1 ++ Call (AddTimer cb when d) :: es2) ->
  timer_run es1 (TimerQueue_new u) = Ok (tt, s0) ->
  addTimer clock cb when d s0 = Ok (id, s1) ->
  timer_run es2 s1 = Ok (tt, s2) ->
  cancelInLoop id.1 id.2 s2 = Ok (tt, s3) ->
  timer_run es3 s3 = Ok (tt, s4) -> s_numCreated_ s4 < 2 ^ 63 ->
  exists l, ran s4 = ran s3 ++ l /\ id.2 ∉ l.
Proof.
  intros F E0 E1 E2 E3 E4 L. apply Forall_app in F as [F1 [Fc F2]%Forall_cons].
  destruct (timer_start u) as [K A]. pose proof (timer_run_ok es1 _ K A F1) as O. rewrite E0 in O. destruct O as [K0 A0].
  pose proof (addTimer_ok clock clock_ok (fun _ => True) ltac:(done) [] cb when d s0 K0 A0 Fc) as O. rewrite E1 in O.
  destruct O as (K1 & A1 & _ & Fr & Eh & Eq).
  pose proof (timer_run_ok es2 s1 K1 A1 F2) as O. rewrite E2 in O. destruct O as [K2 A2].
  pose proof (growing_events _ _ _ _ E0) as G0. pose proof (growing_events _ _ _ _ E2) as G2.
  pose proof (growing_cancel _ _ _ _ _ E3) as G3. pose proof (growing_events _ _ _ _ E4) as G4.
  pose proof (growing_add _ _ _ _ _ _ E1) as G1.
  assert (0 <= s_numCreated_ s0) as P0 by apply (gr_created _ _ G0).
  assert (s_numCreated_ s1 <= s_numCreated_ s4 /\ s_numCreated_ s2 <= s_numCreated_ s4) as [L1 L2]
    by (pose proof (gr_created _ _ G2); pose proof (gr_created _ _ G3); pose proof (gr_created _ _ G4); lia).
  assert (s_numCreated_ s0 + 1 <= s_numCreated_ s1) as P1.
  { pose proof (gr_heap _ _ G1 id.1 _ ltac:(rewrite Eh; apply lookup_insert_eq)) as [(t & E & _)|(k & Hk & _)];
      [by rewrite Fr in E|lia]. }
  assert (only_at id.1 id.2 s1) as O1.
  { split; [exists (s_numCreated_ s0 + 1); split; [lia|done]|]. intros p' t Et Es. rewrite Eh in Et.
    apply lookup_insert_Some in Et as [[<- _]|[_ Et]]; [done|].
    apply (gr_heap _ _ G0) in Et as [(t' & Et' & _)|(k & Hk & Ek)]; [done|].
    exfalso. cbn in Hk. rewrite Es, Eq in Ek. rewrite !to_i64_id in Ek by (split; lia). lia. }
  apply (only_at_grows _ _ _ _ G2) in O1 as [I2 N2]; [|lia].
  destruct (cancel_ok (fun _ => True) [] id.1 id.2 s2 K2 A2) as (s3' & E3' & _ & _ & _ & Eh3).
  rewrite E3 in E3'. injection E3' as <-.
  apply (gone_grows id.2 s3 s4 G4); [|done]. split; [by eapply issued_grows|].
  intros p t Et Es. rewrite Eh3 in Et. case_decide as Ha.
  - apply lookup_delete_Some in Et as [Ne Et]. by apply Ne, eq_sym, (N2 p t).
  - pose proof (N2 p t Et Es) as ->. apply Ha, (tk_active _ _ K2). exists t. split; [done|]. split; [done|]. set_solver.
Qed.
End ok.
End runs.

(** ** At work *)

(** The next address after the highest one in use. *)
#[export] Program Instance next_timer : TimerAlloc := {|
  alloc_timer h := let p := map_fold (fun k _ m => Z.max (k + 64) m) 4096 h in
    if decide (h !! p = None /\ 0 < p < UINTPTR_MAX) then Some p else None |}.
Next Obligation. cbn. intros h p. case_decide; naive_solver. Qed.

(** Callback 1 adds a timer, callback 2 cancels the timer with number 1, which repeats. *)
Definition two_callbacks (cb : Z) (u : unit) : list timer_call * unit :=
  (if decide (cb = 1) then [AddTimer 3 5000000 (S754_zero false)]
   else if decide (cb = 2) then [CancelTimer 4096 1] else [], u).

Definition half_seconds (n : nat) : Z := 1 + Z.of_nat (Nat.min n 1000) * 500000.

Lemma two_callbacks_ok cb u : Forall call_ok (two_callbacks cb u).1.
Proof. unfold two_callbacks. repeat case_decide; apply (bool_decide_unpack _); vm_compute; exact I. Qed.
Lemma half_seconds_ok n : 0 < half_seconds n <= 2 ^ 61.
Proof. unfold half_seconds. lia. Qed.

Definition a_second : spec_float := S754_finite false 1 0.

(** A timer for every second, and one that cancels it when it is due, in the middle of an alarm
    that runs both. *)
Definition some_events : list timer_event :=
  [Call (AddTimer 1 1000000 a_second); Call (AddTimer 2 2000000 (S754_zero false)); Alarm; Alarm; Alarm; Alarm].

Definition queue_after (es : list timer_event) : TimerQueue (U := unit) :=
  match timer_run two_callbacks half_seconds es (TimerQueue_new tt) with
  | Ok (_, s) => s
  | _ => TimerQueue_new tt
  end.

Example some_events_run : ran (queue_after some_events) = [1; 2; 1].
Proof. vm_compute. reflexivity. Qed.


(** The alarm that runs both: the first is not put back. *)
Definition before_both : TimerQueue (U := unit) := queue_after (take 4 some_events).

Lemma alarm_exact_witness : exists s',
  handleTimers two_callbacks half_seconds before_both = Ok (tt, s')
  /\ ran before_both = [1] /\ ran s' = [1; 2; 1] /\ theap s' !! 4096 = None.
Proof.
  destruct (handleTimers two_callbacks half_seconds before_both) as [[[] s']| |] eqn:E.
  2-3: vm_compute in E; discriminate.
  exists s'. split; [done|]. split; [vm_compute; reflexivity|].
  pose proof (alarm_exact two_callbacks half_seconds two_callbacks_ok half_seconds_ok tt (take 4 some_events) before_both
    ltac:(apply (bool_decide_unpack _); vm_compute; exact I) ltac:(vm_compute; reflexivity)) as P.
  cbv zeta in P. rewrite E in P. cbn [ends] in P. destruct P as [-> P].
  split; [vm_compute; reflexivity|].
  assert (cancelingTimers_ s' = [(4096, 1)]) as Ec by (vm_compute in E; injection E as <-; reflexivity).
  rewrite Ec in P. rewrite (P 2500001 4096 (default (Timer_new 0 0 a_second 0) (theap before_both !! 4096))).
  - vm_compute; reflexivity.
  - apply (bool_decide_unpack _); vm_compute; exact I.
  - vm_compute; reflexivity.
Defined.

(** Cancelled, and its memory used again; alarms after that run the other timer only. *)
Definition cancel_then : list timer_event := [Call (AddTimer 1 1000000 a_second); Alarm; Alarm; Alarm; Alarm].

Lemma cancelled_never_runs_witness : exists s3 s4,
  cancelInLoop 4096 1 (queue_after (take 1 some_events)) = Ok (tt, s3)
  /\ timer_run two_callbacks half_seconds cancel_then s3 = Ok (tt, s4)
  /\ 1 ∉ ran s4 /\ ran s4 <> [] /\ 4096 ∈ (timers_ s4).*2.
Proof.
  destruct (cancelInLoop 4096 1 (queue_after (take 1 some_events))) as [[[] s3]| |] eqn:E3.
  2-3: vm_compute in E3; discriminate.
  destruct (timer_run two_callbacks half_seconds cancel_then s3) as [[[] s4]| |] eqn:E4.
  2-3: vm_compute in E3; injection E3 as <-; vm_compute in E4; discriminate.
  exists s3, s4. split; [done|]. split; [done|].
  destruct (cancelled_never_runs two_callbacks half_seconds two_callbacks_ok half_seconds_ok tt [] [] cancel_then
    1 1000000 a_second (4096, 1) (TimerQueue_new tt) (queue_after (take 1 some_events)) (queue_after (take 1 some_events)) s3 s4)
    as (l & El & Nl).
  - apply (bool_decide_unpack _); vm_compute; exact I.
  - reflexivity.
  - vm_compute; reflexivity.
  - reflexivity.
  - exact E3.
  - exact E4.
  - vm_compute in E3; injection E3 as <-; vm_compute in E4; injection E4 as <-. reflexivity.
  - assert (ran s3 = []) as R3 by (vm_compute in E3; injection E3 as <-; reflexivity).
    split; [by rewrite El, R3|]. vm_compute in E3; injection E3 as <-; vm_compute in E4; injection E4 as <-.
    split; [vm_compute; discriminate|apply (bool_decide_unpack _); vm_compute; exact I].
Defined.
