(* ===== verification/Channel.v ===== *)
(** * Channels (net/Channel.h, net/Channel.cc)

    A file descriptor's events: what the loop is asked to watch for, and the order in which
    what it reports is handled. Descriptor, events and the flag of the loop are the state; the
    callbacks are parameters of [handleEvent]. *)

From S2P Require Import Prelude.

Definition POLLIN : Z := 0x1.
Definition POLLPRI : Z := 0x2.
Definition POLLOUT : Z := 0x4.
Definition POLLERR : Z := 0x8.
Definition POLLHUP : Z := 0x10.
Definition POLLNVAL : Z := 0x20.
Definition POLLRDHUP : Z := 0x2000.

Definition kNoneEvent : Z := 0.
Definition kReadEvent : Z := Z.lor POLLIN POLLPRI.
Definition kWriteEvent : Z := POLLOUT.

Record Channel := {
  fd_ : Z;
  events_ : Z;
  addedToLoop_ : bool;
}.

Definition Channel_new (fd : Z) : Channel := {| fd_ := fd; events_ := 0; addedToLoop_ := false |}.

(** The new events, and [update()]. *)
Definition set_events (e : Z) (c : Channel) : Channel := {| fd_ := fd_ c; events_ := e; addedToLoop_ := true |}.

Definition isNoneEvent (c : Channel) : bool := events_ c =? kNoneEvent.
Definition enableReading (c : Channel) : Channel := set_events (Z.lor (events_ c) kReadEvent) c.
Definition disableReading (c : Channel) : Channel := set_events (Z.land (events_ c) (Z.lnot kReadEvent)) c.
Definition enableWriting (c : Channel) : Channel := set_events (Z.lor (events_ c) kWriteEvent) c.
Definition disableWriting (c : Channel) : Channel := set_events (Z.land (events_ c) (Z.lnot kWriteEvent)) c.
Definition disableAll (c : Channel) : Channel := set_events kNoneEvent c.
Definition isWriting (c : Channel) : bool := negb (Z.land (events_ c) kWriteEvent =? 0).
Definition isReading (c : Channel) : bool := negb (Z.land (events_ c) kReadEvent =? 0).

(** [remove()]. *)
Definition remove (c : Channel) : outcome Channel :=
  if isNoneEvent c then Ok {| fd_ := fd_ c; events_ := events_ c; addedToLoop_ := false |} else Undef AssertFailed.

Definition has (bits r : Z) : bool := negb (Z.land r bits =? 0).

(** [handleEventWithGuard]. *)
Definition handleEventWithGuard {S} (closeCallback errorCallback readCallback writeCallback : M S unit)
    (revents : Z) : M S unit :=
  _ ← (if has POLLHUP revents && negb (has POLLIN revents) then closeCallback else mret tt);
  _ ← (if has (Z.lor POLLERR POLLNVAL) revents then errorCallback else mret tt);
  _ ← (if has (Z.lor (Z.lor POLLIN POLLPRI) POLLRDHUP) revents then readCallback else mret tt);
  if has POLLOUT revents then writeCallback else mret tt.

(** ** Lemmas *)

(** Every event set the class can make. *)
Definition channel_events (e : Z) : Prop := e ∈ [0; kReadEvent; kWriteEvent; Z.lor kReadEvent kWriteEvent].

Lemma set_events_ok c : channel_events (events_ c) ->
  channel_events (events_ (enableReading c)) /\ channel_events (events_ (disableReading c))
  /\ channel_events (events_ (enableWriting c)) /\ channel_events (events_ (disableWriting c)).
Proof.
  unfold channel_events, enableReading, disableReading, enableWriting, disableWriting, set_events.
  destruct c as [fd e ad]; simpl. intros E. set_unfold. destruct_or!; subst; vm_compute; tauto.
Qed.

Lemma writing_spec c : channel_events (events_ c) ->
  isWriting (enableWriting c) = true /\ isWriting (disableWriting c) = false
  /\ isWriting (enableReading c) = isWriting c /\ isWriting (disableReading c) = isWriting c
  /\ isReading (enableReading c) = true /\ isReading (disableReading c) = false
  /\ isReading (enableWriting c) = isReading c /\ isReading (disableWriting c) = isReading c.
Proof.
  unfold channel_events, enableReading, disableReading, enableWriting, disableWriting, set_events, isWriting, isReading.
  destruct c as [fd e ad]; simpl. intros E. set_unfold. destruct_or!; subst; vm_compute; tauto.
Qed.

Lemma none_event c : channel_events (events_ c) ->
  isNoneEvent c = negb (isWriting c) && negb (isReading c).
Proof.
  unfold channel_events, isNoneEvent, isWriting, isReading.
  destruct c as [fd e ad]; simpl. intros E. set_unfold. destruct_or!; subst; reflexivity.
Qed.

Lemma has_lor a b r : has (Z.lor a b) r = has a r || has b r.
Proof.
  unfold has. rewrite Z.land_lor_distr_r, <- negb_andb. f_equal.
  destruct (Z.eqb_spec (Z.land r a) 0) as [->|Ha]; [by rewrite Z.lor_0_l|].
  simpl. apply Z.eqb_neq. intros [? _]%Z.lor_eq_0_iff. done.
Qed.

(** The callbacks before the write callback. *)
Definition before_write {S} (closeCallback errorCallback readCallback : M S unit) (revents : Z) : M S unit :=
  _ ← (if has POLLHUP revents && negb (has POLLIN revents) then closeCallback else mret tt);
  _ ← (if has (Z.lor POLLERR POLLNVAL) revents then errorCallback else mret tt);
  if has (Z.lor (Z.lor POLLIN POLLPRI) POLLRDHUP) revents then readCallback else mret tt.

Lemma handleEvent_split {S} (c e r w : M S unit) revents s s' : before_write c e r revents s = Ok (tt, s') ->
  handleEventWithGuard c e r w revents s = (if has POLLOUT revents then w else mret tt) s'.
Proof.
  unfold before_write, handleEventWithGuard, mbind, M_bind.
  repeat match goal with |- context [match ?x with Ok _ => _ | _ => _ end] =>
    destruct x as [[[] ?]| |]; [|done..] end.
  by intros [= ->].
Qed.
