(* ===== verification/EventLoop.v ===== *)
(** * The event loop among threads (net/EventLoop.h, net/EventLoop.cc)

    The loop thread polls, handles what is ready and runs the functors that were queued; other
    threads queue functors and wake it up, or tell it to quit. Threads interleave between the
    critical sections and system calls: one step of the machine is one of these. What callbacks
    do is given by [body], the calls on the loop that each makes. *)

From S2P Require Import Prelude.

(** What the wake-up descriptor can hold. *)
Definition eventfd_max : Z := 2 ^ 64 - 2.

Section loop.
Context {F : Type}.

(** Calls on the loop. [Wakeup] is not made by callbacks: it is what is left to do of
    [queueInLoop] and [quit] after their first step. *)
Inductive loop_call :=
| RunInLoop (f : F)
| QueueInLoop (f : F)
| Quit
| Wakeup.

Context (body : F -> list loop_call).

(** What a poll reports: the wake-up channel, or another, by its callback. *)
Inductive source :=
| WakeupChannel
| Other (f : F).

(** Where the loop thread is in [loop()]; [todo] is what is left of the callback it is in. *)
Inductive place :=
| Top                                                  (* before the test of quit_ *)
| Polling
| Handling (todo : list loop_call) (rest : list source)
| Running (todo : list loop_call) (rest : list F)      (* in doPendingFunctors *)
| Left.                                                (* loop() has returned *)

Record EventLoop := {
  place_ : place;
  quit_ : bool;
  pendingFunctors_ : list F;
  wakeupFd_ : Z;
  others : list (list loop_call);                      (* the other threads: what each has to do *)
  queued : list F;                                     (* ever, in order *)
  started : list F;                                    (* functors that doPendingFunctors has called *)
}.

Definition set_place (p : place) (s : EventLoop) : EventLoop := {|
  place_ := p; quit_ := quit_ s; pendingFunctors_ := pendingFunctors_ s; wakeupFd_ := wakeupFd_ s;
  others := others s; queued := queued s; started := started s |}.
Definition set_quit (b : bool) (s : EventLoop) : EventLoop := {|
  place_ := place_ s; quit_ := b; pendingFunctors_ := pendingFunctors_ s; wakeupFd_ := wakeupFd_ s;
  others := others s; queued := queued s; started := started s |}.
Definition set_wakeupFd (n : Z) (s : EventLoop) : EventLoop := {|
  place_ := place_ s; quit_ := quit_ s; pendingFunctors_ := pendingFunctors_ s; wakeupFd_ := n;
  others := others s; queued := queued s; started := started s |}.
Definition set_others (l : list (list loop_call)) (s : EventLoop) : EventLoop := {|
  place_ := place_ s; quit_ := quit_ s; pendingFunctors_ := pendingFunctors_ s; wakeupFd_ := wakeupFd_ s;
  others := l; queued := queued s; started := started s |}.

(** The critical section of [queueInLoop]. *)
Definition push (f : F) (s : EventLoop) : EventLoop := {|
  place_ := place_ s; quit_ := quit_ s; pendingFunctors_ := pendingFunctors_ s ++ [f]; wakeupFd_ := wakeupFd_ s;
  others := others s; queued := queued s ++ [f]; started := started s |}.

(** The critical section of [doPendingFunctors], and the call of a functor. *)
Definition swap (s : EventLoop) : EventLoop := {|
  place_ := Running [] (pendingFunctors_ s); quit_ := quit_ s; pendingFunctors_ := []; wakeupFd_ := wakeupFd_ s;
  others := others s; queued := queued s; started := started s |}.
Definition call_functor (f : F) (rest : list F) (s : EventLoop) : EventLoop := {|
  place_ := Running (body f) rest; quit_ := quit_ s; pendingFunctors_ := pendingFunctors_ s; wakeupFd_ := wakeupFd_ s;
  others := others s; queued := queued s; started := started s ++ [f] |}.

(** [wakeup]: the write adds one; where that is too much it fails, and is logged. *)
Definition wakeup (s : EventLoop) : EventLoop :=
  if decide (wakeupFd_ s < eventfd_max) then set_wakeupFd (wakeupFd_ s + 1) s else s.

(** [handleRead]: the read takes all. *)
Definition handleRead (s : EventLoop) : EventLoop := set_wakeupFd 0 s.

(** [callingPendingFunctors_]; only the loop thread's view of it matters. *)
Definition callingPendingFunctors (p : place) : bool := match p with Running _ _ => true | _ => false end.

(** One call up to its next step: the state, and what the thread does before the rest. In the
    loop thread [runInLoop] is the callback itself. *)
Definition call_step (isInLoopThread : bool) (c : loop_call) (s : EventLoop) : EventLoop * list loop_call :=
  match c with
  | RunInLoop f => if isInLoopThread then (s, body f) else (push f s, [Wakeup])
  | QueueInLoop f =>
      (push f s, if negb isInLoopThread || callingPendingFunctors (place_ s) then [Wakeup] else [])
  | Quit => (set_quit true s, if isInLoopThread then [] else [Wakeup])
  | Wakeup => (wakeup s, [])
  end.

(** The loop thread's next step; [active] is what [poll] reports if that is it. *)
Definition loop_thread (active : list source) (s : EventLoop) : EventLoop :=
  match place_ s with
  | Top => if quit_ s then set_place Left s else set_place Polling s
  | Polling => set_place (Handling [] active) s
  | Handling (c :: todo) rest =>
      let '(s, more) := call_step true c s in
      set_place (Handling (more ++ todo) rest) s
  | Handling [] (WakeupChannel :: rest) => set_place (Handling [] rest) (handleRead s)
  | Handling [] (Other f :: rest) => set_place (Handling (body f) rest) s
  | Handling [] [] => swap s
  | Running (c :: todo) rest =>
      let '(s, more) := call_step true c s in
      set_place (Running (more ++ todo) rest) s
  | Running [] (f :: rest) => call_functor f rest s
  | Running [] [] => set_place Top s
  | Left => s
  end.

(** Thread [i]'s next step. *)
Definition other_thread (i : nat) (s : EventLoop) : EventLoop :=
  match others s !! i with
  | Some (c :: todo) =>
      let '(s', more) := call_step false c s in
      set_others (<[i := more ++ todo]> (others s)) s'
  | _ => s
  end.

(** [loop()] is called, with threads that are about to make calls. *)
Definition loop_start (threads : list (list loop_call)) : EventLoop := {|
  place_ := Top; quit_ := false; pendingFunctors_ := []; wakeupFd_ := 0; others := threads; queued := []; started := [] |}.

(** The system reports the wake-up channel exactly when its descriptor can be read. *)
Definition reported (active : list source) : bool :=
  existsb (fun x => match x with WakeupChannel => true | Other _ => false end) active.
Definition poll_ok (active : list source) (s : EventLoop) : Prop :=
  place_ s = Polling -> reported active = bool_decide (0 < wakeupFd_ s).

Inductive loop_step : EventLoop -> EventLoop -> Prop :=
| step_loop active s : poll_ok active s -> loop_step s (loop_thread active s)
| step_other i s : loop_step s (other_thread i s).

Definition loop_reach (threads : list (list loop_call)) : EventLoop -> Prop := rtc loop_step (loop_start threads).

(** A run of given steps. *)
Inductive turn_of := Loop (active : list source) | Thread (i : nat).

Definition take_turn (t : turn_of) (s : EventLoop) : option EventLoop :=
  match t with
  | Loop active =>
      match place_ s with
      | Polling => if bool_decide (reported active = bool_decide (0 < wakeupFd_ s)) then Some (loop_thread active s) else None
      | _ => Some (loop_thread active s)
      end
  | Thread i => Some (other_thread i s)
  end.

Fixpoint loop_run (l : list turn_of) (s : EventLoop) : option EventLoop :=
  match l with
  | [] => Some s
  | t :: l' => s' ← take_turn t s; loop_run l' s'
  end.

Lemma loop_run_reach l s0 s s' : rtc loop_step s0 s -> loop_run l s = Some s' -> rtc loop_step s0 s'.
Proof.
  revert s. induction l as [|t l IH]; intros s R; simpl; [by intros [= <-]|].
  destruct (take_turn t s) as [s1|] eqn:E; [|done]. simpl. apply IH. eapply rtc_r; [exact R|].
  destruct t as [active|i]; simpl in E; [|injection E as <-; constructor].
  destruct (place_ s) eqn:Ep; try (injection E as <-; constructor; unfold poll_ok; by rewrite Ep).
  case_bool_decide as Hr; [|done]. injection E as <-. constructor. by intros _.
Qed.

(** ** The invariant *)

(** The poll will not block: it can be read, or a thread is about to write. *)
Definition signalled (s : EventLoop) : Prop :=
  0 < wakeupFd_ s \/ exists i todo, others s !! i = Some (Wakeup :: todo).

(** What doPendingFunctors has taken and not called yet. *)
Definition taken (p : place) : list F := match p with Running _ rest => rest | _ => [] end.

Record loop_ok (s : EventLoop) : Prop := {
  lo_fd : 0 <= wakeupFd_ s;
  lo_order : queued s = started s ++ taken (place_ s) ++ pendingFunctors_ s;
  lo_awake : match place_ s with
             | Polling => pendingFunctors_ s <> [] \/ quit_ s = true -> signalled s
             | Top => pendingFunctors_ s <> [] -> signalled s
             | Running todo _ => pendingFunctors_ s <> [] -> signalled s \/ head todo = Some Wakeup
             | _ => True
             end;
}.

Lemma wakeup_signals s : 0 <= wakeupFd_ s -> 0 < wakeupFd_ (wakeup s).
Proof. intros. unfold wakeup, eventfd_max. case_decide; simpl; lia. Qed.

Lemma wakeup_same s : place_ (wakeup s) = place_ s /\ quit_ (wakeup s) = quit_ s
  /\ pendingFunctors_ (wakeup s) = pendingFunctors_ s /\ others (wakeup s) = others s
  /\ queued (wakeup s) = queued s /\ started (wakeup s) = started s.
Proof. unfold wakeup. by case_decide. Qed.

Lemma order_push s f (p : place) : queued s = started s ++ taken p ++ pendingFunctors_ s ->
  queued (push f s) = started (push f s) ++ taken p ++ pendingFunctors_ (push f s).
Proof. intros E. simpl. by rewrite E, <- !app_assoc. Qed.

(** A call of the loop thread, in a callback. *)
Lemma call_loop_ok c s s' more : loop_ok s -> call_step true c s = (s', more) ->
  0 <= wakeupFd_ s' /\ queued s' = started s' ++ taken (place_ s) ++ pendingFunctors_ s'
  /\ forall todo rest, place_ s = Running (c :: todo) rest ->
       pendingFunctors_ s' <> [] -> signalled s' \/ head (more ++ todo) = Some Wakeup.
Proof.
  intros [Fd Or Aw] E. destruct c; simpl in E; injection E as <- <-.
  - split; [done|]. split; [done|]. intros todo rest Ep Hp. rewrite Ep in Aw. destruct (Aw Hp); [by left|done].
  - split; [done|]. split; [by apply order_push|]. intros todo rest Ep _. rewrite Ep. simpl. by right.
  - split; [done|]. split; [done|]. intros todo rest Ep Hp. rewrite Ep in Aw. simpl in Hp. destruct (Aw Hp); [by left|done].
  - pose proof (wakeup_signals s Fd). destruct (wakeup_same s) as (_ & _ & -> & _ & -> & ->).
    split; [lia|]. split; [done|]. intros todo rest _ _. left. by left.
Qed.

Lemma loop_thread_ok active s : loop_ok s -> loop_ok (loop_thread active s).
Proof.
  intros O. pose proof O as [Fd Or Aw]. unfold loop_thread. destruct (place_ s) as [| |[|c todo] [|[|f] rest]|[|c todo] [|f rest]|] eqn:Ep;
    rewrite ?Ep in Or, Aw; simpl in Or.
  - destruct (quit_ s) eqn:Eq; split; simpl; try done. intros [Hp|Hq]; [by apply Aw|congruence].
  - by split.
  - split; simpl; try done. by rewrite app_nil_r.
  - by split.
  - by split.
  - destruct (call_step true c s) as [s' more] eqn:E. destruct (call_loop_ok c s s' more O E) as (? & O1 & _).
    rewrite Ep in O1. by split.
  - destruct (call_step true c s) as [s' more] eqn:E. destruct (call_loop_ok c s s' more O E) as (? & O1 & _).
    rewrite Ep in O1. by split.
  - destruct (call_step true c s) as [s' more] eqn:E. destruct (call_loop_ok c s s' more O E) as (? & O1 & _).
    rewrite Ep in O1. by split.
  - split; simpl; try done. intros Hp. by destruct (Aw Hp).
  - split; simpl; [done|by rewrite <- app_assoc|]. intros Hp. destruct (Aw Hp); [by left|done].
  - destruct (call_step true c s) as [s' more] eqn:E. destruct (call_loop_ok c s s' more O E) as (? & O1 & A1).
    rewrite Ep in O1. split; simpl; [done..|]. intros Hp. destruct (A1 todo [] Ep Hp) as [|]; [by left|by right].
  - destruct (call_step true c s) as [s' more] eqn:E. destruct (call_loop_ok c s s' more O E) as (? & O1 & A1).
    rewrite Ep in O1. split; simpl; [done..|]. intros Hp. destruct (A1 todo (f :: rest) Ep Hp) as [|]; [by left|by right].
  - by split; rewrite ?Ep.
Qed.

Lemma signalled_ok s : 0 <= wakeupFd_ s -> queued s = started s ++ taken (place_ s) ++ pendingFunctors_ s -> signalled s ->
  loop_ok s.
Proof. intros Fd Or Sg. split; [done..|]. destruct (place_ s); auto. Qed.

(** Whatever another thread does next, the loop will be woken up. *)
Lemma other_thread_ok i s : loop_ok s -> loop_ok (other_thread i s).
Proof.
  intros O. pose proof O as [Fd Or Aw]. unfold other_thread. destruct (others s !! i) as [[|c todo]|] eqn:Ei; [done| |done].
  assert (forall l, (<[i := l]> (others s)) !! i = Some l) as Li.
  { intros l. apply list_lookup_insert_eq. by eapply lookup_lt_Some. }
  destruct c; simpl; (apply signalled_ok; simpl; [|simpl|]).
  1-9: try done; try (by apply order_push).
  - right. exists i, todo. apply Li.
  - right. exists i, todo. apply Li.
  - right. exists i, todo. apply Li.
  - pose proof (wakeup_signals s Fd). lia.
  - destruct (wakeup_same s) as (-> & _ & -> & _ & -> & ->). done.
  - left. by apply wakeup_signals.
Qed.

Lemma loop_reach_ok threads s : loop_reach threads s -> loop_ok s.
Proof.
  unfold loop_reach. assert (loop_ok (loop_start threads)) as O by (by split; simpl). revert O. generalize (loop_start threads).
  intros s0 O R. induction R as [s|s s1 s2 St _ IH]; [done|]. apply IH.
  destruct St; [by apply loop_thread_ok|by apply other_thread_ok].
Qed.

(** ** What the loop comes to *)

(** Callbacks that return, and do not tell the loop to quit. *)
Inductive returns : list loop_call -> Prop :=
| returns_nil : returns []
| returns_run f todo : returns (body f ++ todo) -> returns (RunInLoop f :: todo)
| returns_queue f todo : returns todo -> returns (QueueInLoop f :: todo)
| returns_wakeup todo : returns todo -> returns (Wakeup :: todo).

(** Steps of the loop thread alone, none of which waits in [poll]. *)
Inductive prompt_step : EventLoop -> EventLoop -> Prop :=
| step_prompt active s : poll_ok active s -> (place_ s = Polling -> active <> []) -> place_ s <> Left ->
    prompt_step s (loop_thread active s).

Lemma prompt_is_step s s' : prompt_step s s' -> loop_step s s'.
Proof. intros [active s0 Po _ _]. by constructor. Qed.

Lemma prompt_once s : place_ s <> Polling -> place_ s <> Left -> prompt_step s (loop_thread [] s).
Proof. intros Np Nl. constructor; [by intros ?|by intros ?|done]. Qed.

(** The rest of a callback, whichever phase of the turn it is called from. *)
Definition in_callback (k : list loop_call -> place) : Prop :=
  (exists rest, k = fun todo => Running todo rest) \/ exists rest, k = fun todo => Handling todo rest.

Lemma in_callback_step k c todo s : in_callback k -> place_ s = k (c :: todo) ->
  prompt_step s (set_place (k ((call_step true c s).2 ++ todo)) (call_step true c s).1).
Proof.
  intros [[rest ->]|[rest ->]] Ep; pose proof (prompt_once s) as St; rewrite Ep in St; specialize (St ltac:(done) ltac:(done));
    unfold loop_thread in St; rewrite Ep in St; by destruct (call_step true c s).
Qed.

(** What one turn leaves alone, and lengthens. *)
Definition goes_on (s s' : EventLoop) : Prop :=
  started s' = started s /\ quit_ s' = quit_ s /\ queued s `prefix_of` queued s'.

Lemma goes_on_trans s1 s2 s3 : goes_on s1 s2 -> goes_on s2 s3 -> goes_on s1 s3.
Proof. intros (E1 & E2 & E3) (G1 & G2 & G3). split; [congruence|]. split; [congruence|by etransitivity]. Qed.

Lemma todo_done todo s k : returns todo -> in_callback k -> place_ s = k todo ->
  exists s', rtc prompt_step s s' /\ place_ s' = k [] /\ goes_on s s'.
Proof.
  intros T Hk. revert s. induction T as [|f todo T IH|f todo T IH|todo T IH]; intros s Ep; [by exists s| | |];
    pose proof (in_callback_step k _ _ s Hk Ep) as St; simpl in St.
  - destruct (IH (set_place (k (body f ++ todo)) s) eq_refl) as (s' & R & E1 & G). exists s'.
    split; [by eapply rtc_l|done].
  - set (more := if callingPendingFunctors (place_ s) then [Wakeup] else []) in St.
    set (s1 := set_place _ (push f s)) in St.
    assert (exists s2, rtc prompt_step s1 s2 /\ place_ s2 = k todo /\ goes_on s s2) as (s2 & R2 & E2 & G2).
    { assert (goes_on s s1) as G1 by (split; [done|]; split; [done|]; by apply prefix_app_r).
      destruct (callingPendingFunctors (place_ s)); [|by exists s1].
      pose proof (in_callback_step k Wakeup todo s1 Hk eq_refl) as St1. simpl in St1.
      destruct (wakeup_same s1) as (W1 & W2 & W3 & W4 & W5 & W6).
      eexists. split; [by apply rtc_once|]. split; [done|]. eapply goes_on_trans; [exact G1|].
      split; [exact W6|]. split; [exact W2|]. cbn [queued set_place]. by rewrite W5. }
    destruct (IH s2 E2) as (s' & R & E1 & G). exists s'. split; [|split; [done|by eapply goes_on_trans]].
    eapply rtc_l; [exact St|]. by etransitivity.
  - destruct (wakeup_same s) as (W1 & W2 & W3 & W4 & W5 & W6).
    destruct (IH (set_place (k todo) (wakeup s)) eq_refl) as (s' & R & E1 & G). exists s'.
    split; [by eapply rtc_l|]. split; [done|]. eapply goes_on_trans; [|exact G].
    split; [exact W6|]. split; [exact W2|]. cbn [queued set_place]. by rewrite W5.
Qed.

Lemma sources_done rest s : (forall f, returns (body f)) -> place_ s = Handling [] rest ->
  exists s', rtc prompt_step s s' /\ place_ s' = Handling [] [] /\ goes_on s s'.
Proof.
  intros B. revert s. induction rest as [|[|f] rest IH]; intros s Ep; [by exists s| |];
    pose proof (prompt_once s) as St; rewrite Ep in St; specialize (St ltac:(done) ltac:(done));
    unfold loop_thread in St; rewrite Ep in St.
  - destruct (IH (set_place (Handling [] rest) (handleRead s)) eq_refl) as (s' & R & E1 & G). exists s'.
    split; [by eapply rtc_l|done].
  - destruct (todo_done (body f) (set_place (Handling (body f) rest) s) (fun todo => Handling todo rest) (B f)) as (s1 & R1 & P1 & G1);
      [by right; exists rest|done|].
    destruct (IH s1 P1) as (s2 & R2 & P2 & G2). exists s2. split; [|split; [done|by eapply goes_on_trans]].
    eapply rtc_l; [exact St|]. by etransitivity.
Qed.

Lemma functors_done rest s : (forall f, returns (body f)) -> place_ s = Running [] rest ->
  exists s', rtc prompt_step s s' /\ place_ s' = Top /\ started s' = started s ++ rest /\ quit_ s' = quit_ s.
Proof.
  intros B. revert s. induction rest as [|f rest IH]; intros s Ep;
    pose proof (prompt_once s) as St; rewrite Ep in St; specialize (St ltac:(done) ltac:(done));
    unfold loop_thread in St; rewrite Ep in St.
  - eexists. split; [by apply rtc_once|]. by rewrite app_nil_r.
  - destruct (todo_done (body f) (call_functor f rest s) (fun todo => Running todo rest) (B f)) as (s1 & R1 & P1 & E1 & Q1 & _);
      [by left; exists rest|done|].
    destruct (IH s1 P1) as (s2 & R2 & P2 & E2 & Q2). exists s2. split; [|split; [done|]].
    + eapply rtc_l; [exact St|]. by etransitivity.
    + rewrite E2, E1, Q2, Q1. simpl. by rewrite <- app_assoc.
Qed.

(** C24: the loop cannot miss what other threads give it. However the threads interleave,
    functors have been called in the order in which they were queued, each once and none out of
    turn; and whenever the loop thread sits in [poll] with a functor waiting, or told to quit,
    the wake-up descriptor can be read, or some thread is just about to write to it. *)
Theorem no_lost_wakeup threads s : loop_reach threads s ->
  queued s = started s ++ taken (place_ s) ++ pendingFunctors_ s
  /\ (place_ s = Polling -> pendingFunctors_ s <> [] \/ quit_ s = true ->
      0 < wakeupFd_ s \/ exists i todo, others s !! i = Some (Wakeup :: todo)).
Proof.
  intros [Fd Or Aw]%loop_reach_ok. split; [done|]. intros Ep. rewrite Ep in Aw. exact Aw.
Qed.

(** C25: what is queued gets run. Where the loop thread sits in [poll], whatever happened before,
    with a functor waiting and nothing left to do for the other threads, it does not wait for
    the time limit: the system has something to report, and whatever else it reports, the loop
    thread's next steps lead through one turn at whose end every functor queued before has been
    called, provided that callbacks return and do not quit the loop. *)
Theorem queued_functors_run threads s active : loop_reach threads s -> place_ s = Polling ->
  Forall (fun t => t = []) (others s) -> started s <> queued s -> (forall f, returns (body f)) -> poll_ok active s ->
  active <> []
  /\ exists s', rtc prompt_step (loop_thread active s) s' /\ place_ s' = Top
       /\ queued s `prefix_of` started s' /\ quit_ s' = quit_ s.
Proof.
  intros O%loop_reach_ok Ep Idle Ne B Po. pose proof O as [Fd Or Aw]. rewrite Ep in Or, Aw. simpl in Or.
  assert (pendingFunctors_ s <> []) as Hp by (intros E; rewrite E, app_nil_r in Or; by apply Ne).
  assert (0 < wakeupFd_ s) as Hw.
  { destruct (Aw (or_introl Hp)) as [|(i & todo & Hi)]; [done|]. rewrite Forall_lookup in Idle. by apply Idle in Hi. }
  specialize (Po Ep). rewrite bool_decide_true in Po by done. split; [by intros ->|].
  destruct (sources_done active (loop_thread active s) B) as (s1 & R1 & P1 & G1); [unfold loop_thread; by rewrite Ep|].
  assert (started (loop_thread active s) = started s /\ quit_ (loop_thread active s) = quit_ s
    /\ queued (loop_thread active s) = queued s) as (S0 & Q0 & U0) by (unfold loop_thread; by rewrite Ep).
  assert (loop_ok s1) as O1.
  { clear -O R1. pose proof (loop_thread_ok active s O) as O0. induction R1 as [|x y z St _ IH]; [done|]. apply IH.
    destruct St. by apply loop_thread_ok. }
  destruct (functors_done (pendingFunctors_ s1) (swap s1) B eq_refl) as (s2 & R2 & P2 & E2 & Q2).
  exists s2. destruct G1 as (G1 & G2 & G3). split; [|split; [done|split]].
  - etransitivity; [exact R1|]. eapply rtc_l; [|exact R2].
    pose proof (prompt_once s1) as St. rewrite P1 in St. specialize (St ltac:(done) ltac:(done)).
    unfold loop_thread in St. by rewrite P1 in St.
  - rewrite E2. cbn [started swap]. pose proof (lo_order _ O1) as O2. rewrite P1 in O2. simpl in O2. rewrite <- O2, <- U0. done.
  - rewrite Q2. cbn [quit_ swap]. by rewrite G2.
Qed.
End loop.

(** ** A run *)

(** Callback 0 queues 1; the others do nothing. *)
Definition small_body (f : nat) : list loop_call := match f with 0%nat => [QueueInLoop 1%nat; RunInLoop 3%nat] | _ => [] end.

(** The loop goes to poll; two threads queue 0 and 2, and are done. *)
Definition small_turns : list (turn_of (F := nat)) :=
  [Loop []; Thread 0; Thread 1; Thread 1; Thread 0; Loop []; Loop [WakeupChannel]].
Definition small_threads : list (list (loop_call (F := nat))) := [[RunInLoop 0%nat]; [QueueInLoop 2%nat]].
Definition small_state : EventLoop (F := nat) :=
  default (loop_start []) (loop_run small_body (take 5 small_turns) (loop_start small_threads)).

Lemma small_reach : loop_reach small_body small_threads small_state.
Proof. apply (loop_run_reach small_body (take 5 small_turns) _ (loop_start small_threads)); [done|vm_compute; reflexivity]. Qed.

Lemma small_body_returns f : returns small_body (small_body f).
Proof. destruct f; repeat constructor. Qed.

Lemma no_lost_wakeup_witness :
  queued small_state = [0%nat; 2%nat] /\ place_ small_state = Polling
  /\ (0 < wakeupFd_ small_state \/ exists i todo, others small_state !! i = Some (Wakeup :: todo)).
Proof.
  destruct (no_lost_wakeup small_body small_threads small_state small_reach) as [_ W].
  split; [vm_compute; reflexivity|]. split; [vm_compute; reflexivity|]. apply W; [vm_compute; reflexivity|].
  left. vm_compute. discriminate.
Defined.

Lemma queued_functors_run_witness :
  exists s', rtc (prompt_step small_body) (loop_thread small_body [Other 5%nat; WakeupChannel] small_state) s'
    /\ place_ s' = Top /\ [0%nat; 2%nat] `prefix_of` started s' /\ quit_ s' = false.
Proof.
  apply (queued_functors_run small_body small_threads small_state [Other 5%nat; WakeupChannel] small_reach).
  - vm_compute. reflexivity.
  - vm_compute. repeat constructor.
  - vm_compute. discriminate.
  - exact small_body_returns.
  - intros _. vm_compute. reflexivity.
Defined.
