(* ===== verification/Client.v ===== *)
(** * Client (net/Connector.h, net/Connector.cc, net/TcpClient.h, net/TcpClient.cc)

    A client's connector: it makes a socket, waits until it is connected or not, tries again after
    a while, and hands the connected one on; and the client that keeps the connection. What the
    system answers is input of the calls. *)

From S2P Require Import Prelude.

(** ** State *)

Inductive States := kDisconnected | kConnecting | kConnected.

#[export] Instance States_eq_dec : EqDecision States.
Proof. solve_decision. Defined.

Definition kMaxRetryDelayMs : Z := 30 * 1000.
Definition kInitRetryDelayMs : Z := 500.

(** What the two queue in the loop. *)
Inductive functor := StartInLoop | StopInLoop | ResetChannel | ConnectDestroyed (sockfd : Z).

#[export] Instance functor_eq_dec : EqDecision functor.
Proof. solve_decision. Defined.

Record Connector := {
  connect_ : bool;
  state_ : States;
  channel_ : option (Z * bool);     (* its socket; whether the poller watches it *)
  retryDelayMs_ : Z;
}.

Record TcpClient := {
  connector_ : Connector;
  retry_ : bool;
  client_connect_ : bool;
  nextConnId_ : Z;
  connection_ : option Z;           (* its socket *)
  (** of the loop: functors; timers that call [startInLoop], by their delay *)
  pending : list functor;
  timers : list Z;
  (** of the system: how many sockets were made, so the next one's number; those closed, and those
      that a connection got *)
  made : Z;
  closed : list Z;
  given : list Z;
  (** whether the last [connect] failed for a reason that is not tried again *)
  gave_up : bool;
}.

Definition TcpClient_new : TcpClient := {|
  connector_ := {| connect_ := false; state_ := kDisconnected; channel_ := None; retryDelayMs_ := kInitRetryDelayMs |};
  retry_ := false; client_connect_ := true; nextConnId_ := 1; connection_ := None; pending := []; timers := []; made := 0;
  closed := []; given := []; gave_up := false |}.

Definition C (A : Type) : Type := M TcpClient A.

Definition set_connector (c : Connector) (s : TcpClient) : TcpClient := {|
  connector_ := c; retry_ := retry_ s; client_connect_ := client_connect_ s; nextConnId_ := nextConnId_ s;
  connection_ := connection_ s; pending := pending s; timers := timers s; made := made s; closed := closed s; given := given s;
  gave_up := gave_up s |}.
Definition set_client (retry connect : bool) (id : Z) (conn : option Z) (g : list Z) (s : TcpClient) : TcpClient := {|
  connector_ := connector_ s; retry_ := retry; client_connect_ := connect; nextConnId_ := id;
  connection_ := conn; pending := pending s; timers := timers s; made := made s; closed := closed s; given := g;
  gave_up := gave_up s |}.
Definition set_loop (p : list functor) (t : list Z) (s : TcpClient) : TcpClient := {|
  connector_ := connector_ s; retry_ := retry_ s; client_connect_ := client_connect_ s; nextConnId_ := nextConnId_ s;
  connection_ := connection_ s; pending := p; timers := t; made := made s; closed := closed s; given := given s;
  gave_up := gave_up s |}.
Definition set_system (m : Z) (l : list Z) (g : bool) (s : TcpClient) : TcpClient := {|
  connector_ := connector_ s; retry_ := retry_ s; client_connect_ := client_connect_ s; nextConnId_ := nextConnId_ s;
  connection_ := connection_ s; pending := pending s; timers := timers s; made := m; closed := l; given := given s;
  gave_up := g |}.

Definition on_connector (f : Connector -> Connector) : C unit := modify (fun s => set_connector (f (connector_ s)) s).

Definition setState (t : States) : C unit :=
  on_connector (fun c => {| connect_ := connect_ c; state_ := t; channel_ := channel_ c; retryDelayMs_ := retryDelayMs_ c |}).
Definition set_connect (b : bool) : C unit :=
  on_connector (fun c => {| connect_ := b; state_ := state_ c; channel_ := channel_ c; retryDelayMs_ := retryDelayMs_ c |}).
Definition set_channel (o : option (Z * bool)) : C unit :=
  on_connector (fun c => {| connect_ := connect_ c; state_ := state_ c; channel_ := o; retryDelayMs_ := retryDelayMs_ c |}).
Definition set_delay (d : Z) : C unit :=
  on_connector (fun c => {| connect_ := connect_ c; state_ := state_ c; channel_ := channel_ c; retryDelayMs_ := d |}).

Definition check (b : bool) : C unit := if b then mret tt else undef AssertFailed.

Definition queueInLoop (f : functor) : C unit := modify (fun s => set_loop (pending s ++ [f]) (timers s) s).
Definition runAfter (delay : Z) : C unit := modify (fun s => set_loop (pending s) (timers s ++ [delay]) s).

Definition createNonblocking : C Z := fun s => Ok (made s, set_system (made s + 1) (closed s) false s).
Definition close (sockfd : Z) : C unit := modify (fun s => set_system (made s) (closed s ++ [sockfd]) (gave_up s) s).

(** ** The connector *)

(** [EINPROGRESS], [EINTR], [EISCONN]; and [EAGAIN], [EADDRINUSE], [EADDRNOTAVAIL], [ECONNREFUSED],
    [ENETUNREACH]. *)
Definition in_progress (e : Z) : bool := bool_decide (e ∈ [0; 115; 4; 106]).
Definition tried_again (e : Z) : bool := bool_decide (e ∈ [11; 98; 99; 111; 101]).

Definition retry (sockfd : Z) : C unit :=
  _ ← close sockfd;
  _ ← setState kDisconnected;
  c ← gets connector_;
  if connect_ c then
    _ ← runAfter (retryDelayMs_ c);
    set_delay (Z.min (retryDelayMs_ c * 2) kMaxRetryDelayMs)
  else mret tt.

Definition connecting (sockfd : Z) : C unit :=
  _ ← setState kConnecting;
  c ← gets connector_;
  _ ← check (bool_decide (channel_ c = None));
  set_channel (Some (sockfd, true)).

(** [connect]; [e] is what the system call says. *)
Definition connect (e : Z) : C unit :=
  sockfd ← createNonblocking;
  if in_progress e then connecting sockfd
  else if tried_again e then retry sockfd
  else
    _ ← close sockfd;
    modify (fun s => set_system (made s) (closed s) true s).

Definition startInLoop (e : Z) : C unit :=
  c ← gets connector_;
  _ ← check (bool_decide (state_ c = kDisconnected));
  if connect_ c then connect e else mret tt.

Definition restart (e : Z) : C unit :=
  _ ← setState kDisconnected;
  _ ← set_delay kInitRetryDelayMs;
  _ ← set_connect true;
  startInLoop e.

Definition removeAndResetChannel : C Z :=
  c ← gets connector_;
  match channel_ c with
  | None => undef NullDeref
  | Some (sockfd, _) =>
      _ ← set_channel (Some (sockfd, false));
      _ ← queueInLoop ResetChannel;
      mret sockfd
  end.

Definition stopInLoop : C unit :=
  c ← gets connector_;
  if decide (state_ c = kConnecting) then
    _ ← setState kDisconnected;
    sockfd ← removeAndResetChannel;
    retry sockfd
  else mret tt.

(** [TcpClient::newConnection] *)
Definition newConnection (sockfd : Z) : C unit :=
  modify (fun s => set_client (retry_ s) (client_connect_ s) (nextConnId_ s + 1) (Some sockfd) (given s ++ [sockfd]) s).

(** [handleWrite]; [err] is [SO_ERROR], [self] whether the socket is connected to itself. *)
Definition handleWrite (err : Z) (self : bool) : C unit :=
  c ← gets connector_;
  if decide (state_ c = kConnecting) then
    sockfd ← removeAndResetChannel;
    if decide (err <> 0) then retry sockfd
    else if self then retry sockfd
    else
      _ ← setState kConnected;
      if connect_ c then newConnection sockfd else close sockfd
  else check (bool_decide (state_ c = kDisconnected)).

Definition handleError : C unit :=
  c ← gets connector_;
  if decide (state_ c = kConnecting) then sockfd ← removeAndResetChannel; retry sockfd
  else mret tt.

(** ** The client *)

(** [TcpClient::removeConnection], the close callback of a connection. *)
Definition removeConnection (conn e : Z) : C unit :=
  s ← gets id;
  _ ← check (bool_decide (connection_ s = Some conn));
  _ ← modify (fun s => set_client (retry_ s) (client_connect_ s) (nextConnId_ s) None (given s) s);
  _ ← queueInLoop (ConnectDestroyed conn);
  if retry_ s && client_connect_ s then restart e else mret tt.

Definition set_client_connect (b : bool) : C unit :=
  modify (fun s => set_client (retry_ s) b (nextConnId_ s) (connection_ s) (given s) s).

(** [TcpClient::connect], in the loop's thread or another. *)
Definition client_connect (in_loop : bool) (e : Z) : C unit :=
  _ ← set_client_connect true;
  _ ← set_connect true;
  if in_loop then startInLoop e else queueInLoop StartInLoop.

(** [disconnect]; what [shutdown] does is the connection's matter. *)
Definition disconnect : C unit := set_client_connect false.

Definition client_stop : C unit :=
  _ ← set_client_connect false;
  _ ← set_connect false;
  queueInLoop StopInLoop.

Definition enableRetry : C unit :=
  modify (fun s => set_client true (client_connect_ s) (nextConnId_ s) (connection_ s) (given s) s).

(** ** What can happen *)

Definition run_functor (f : functor) (e : Z) : C unit :=
  match f with
  | StartInLoop => startInLoop e
  | StopInLoop => stopInLoop
  | ResetChannel => set_channel None
  | ConnectDestroyed _ => mret tt
  end.

(** Calls of the user; the next functor; a timer; the channel with what poll says of it; the end
    of the connection. [e] is what [connect] says if it is called. *)
Inductive client_move :=
| Connect (in_loop : bool) (e : Z)
| Disconnect
| Stop
| EnableRetry
| Functor (e : Z)
| Fire (i : nat) (e : Z)
| Ready (pollerr pollout : bool) (err : Z) (self : bool)
| Closed (e : Z).

Definition do_move (m : client_move) : C unit :=
  s ← gets id;
  match m with
  | Connect in_loop e => client_connect in_loop e
  | Disconnect => disconnect
  | Stop => client_stop
  | EnableRetry => enableRetry
  | Functor e =>
      match pending s with
      | [] => mret tt
      | f :: fs => _ ← modify (set_loop fs (timers s)); run_functor f e
      end
  | Fire i e => _ ← modify (set_loop (pending s) (delete i (timers s))); startInLoop e
  | Ready pollerr pollout err self =>
      _ ← (if pollerr then handleError else mret tt);
      if pollout then handleWrite err self else mret tt
  | Closed e => match connection_ s with None => mret tt | Some conn => removeConnection conn e end
  end.

(** What the loop and the user can do: the channel is reported while it is watched, and a connection
    ends in a later turn than the one that made it, with that turn's functors run. *)
Definition can_happen (m : client_move) (s : TcpClient) : Prop :=
  match m with
  | Functor _ => pending s <> []
  | Fire i _ => (i < length (timers s))%nat
  | Ready _ _ _ _ => exists sockfd, channel_ (connector_ s) = Some (sockfd, true)
  | Closed _ => connection_ s <> None /\ ResetChannel ∉ pending s
  | _ => True
  end.

(** Two rules of use. [connect] is called when the connector is [kDisconnected] with no channel and
    no attempt to come: on a new client, or after it gave up or was stopped between attempts, but
    neither after a connection has ended nor while the timer of a retry is left over. And the
    handlers of one turn of the loop take less time than a retry waits, so that its timer, which is
    set in the turn that queues [resetChannel], does not fire before [resetChannel] has run. *)
Definition by_the_rules (m : client_move) (s : TcpClient) : Prop :=
  match m with
  | Connect _ _ => state_ (connector_ s) = kDisconnected /\ channel_ (connector_ s) = None /\ timers s = [] /\ StartInLoop ∉ pending s
  | Fire _ _ => ResetChannel ∉ pending s
  | _ => True
  end.

Inductive client_reach : TcpClient -> Prop :=
| reach_new : client_reach TcpClient_new
| reach_move s m s' : client_reach s -> can_happen m s -> by_the_rules m s -> do_move m s = Ok (tt, s') -> client_reach s'.

(** ** The invariant *)

Definition count (f : functor) (l : list functor) : nat := length (filter (f =.) l).

(** Attempts to come: timers and functors. *)
Definition starts (s : TcpClient) : nat := length (timers s) + count StartInLoop (pending s).

(** The socket that is being connected; whether a channel waits to be destroyed. *)
Definition trying (o : option (Z * bool)) : list Z := match o with Some (sockfd, true) => [sockfd] | _ => [] end.
Definition to_reset (o : option (Z * bool)) : nat := match o with Some (_, false) => 1 | _ => 0 end.

Definition delays : list Z := [500; 1000; 2000; 4000; 8000; 16000; 30000].

(** What holds whatever the state. *)
Record parts_ok (tried : list Z) (s : TcpClient) : Prop := {
  cl_reset : count ResetChannel (pending s) = to_reset (channel_ (connector_ s));
  cl_first : StartInLoop ∈ pending s -> channel_ (connector_ s) = None;
  cl_sockets : closed s ++ given s ++ tried ≡ₚ seqZ 0 (made s);
  cl_made : 0 <= made s;
  cl_delay : retryDelayMs_ (connector_ s) ∈ delays;
  cl_timers : Forall (.∈ delays) (timers s);
}.

Record client_ok (s : TcpClient) : Prop := {
  cl_parts : parts_ok (trying (channel_ (connector_ s))) s;
  cl_state : match state_ (connector_ s) with
             | kDisconnected => connection_ s = None /\ trying (channel_ (connector_ s)) = [] /\ (starts s <= 1)%nat
                                /\ (connect_ (connector_ s) = true -> gave_up s = false -> starts s = 1%nat)
             | kConnecting => connection_ s = None /\ starts s = 0%nat /\ trying (channel_ (connector_ s)) <> []
             | kConnected => starts s = 0%nat /\ trying (channel_ (connector_ s)) = []
             end;
}.

Lemma count_snoc f g l : count f (l ++ [g]) = (count f l + if decide (f = g) then 1 else 0)%nat.
Proof. unfold count. rewrite filter_app, length_app. f_equal. rewrite filter_cons. by case_decide. Qed.

Lemma count_cons f g l : count f (g :: l) = ((if decide (f = g) then 1 else 0) + count f l)%nat.
Proof. unfold count. rewrite filter_cons. by case_decide. Qed.

Lemma count_0 f l : count f l = 0%nat <-> f ∉ l.
Proof.
  unfold count. split.
  - intros E H. apply length_zero_iff_nil in E. assert (f ∈ filter (f =.) l) as H' by (by apply list_elem_of_filter). rewrite E in H'.
    by apply elem_of_nil in H'.
  - intros H. induction l as [|g l IH]; [done|]. rewrite not_elem_of_cons in H. destruct H as [Hg H]. rewrite filter_cons, decide_False by done. auto.
Qed.

Lemma next_delay d : d ∈ delays -> Z.min (d * 2) kMaxRetryDelayMs ∈ delays.
Proof.
  intros D. unfold delays in D. repeat (apply elem_of_cons in D as [-> |D]; [by apply (bool_decide_unpack _)|]).
  by apply elem_of_nil in D.
Qed.

#[local] Arguments count : simpl never.
#[local] Arguments starts : simpl never.

Lemma client_check_ok {A} b (k : unit -> C A) s : b = true -> (check b ≫= k) s = k tt s.
Proof. by intros ->. Qed.

(** A socket is given up: it is closed, and the next attempt put off. *)
Lemma retry_ok sockfd s : parts_ok [sockfd] s -> trying (channel_ (connector_ s)) = [] -> starts s = 0%nat -> connection_ s = None ->
  exists s', retry sockfd s = Ok (tt, s') /\ client_ok s' /\ state_ (connector_ s') = kDisconnected.
Proof.
  intros [R F K M D T] U S N. unfold retry, close, setState, on_connector. do 3 look.
  destruct s as [[con st ch del] rt cc id conn pend tms mk cls gvn gu].
  unfold starts in *. cbn [connector_ connection_ pending timers made closed given gave_up connect_ state_ channel_ retryDelayMs_ set_system set_connector] in *.
  assert ((cls ++ [sockfd]) ++ gvn ≡ₚ seqZ 0 mk) as K' by (rewrite <- K, <- app_assoc; apply Permutation_app_head, Permutation_app_comm).
  apply Nat.eq_add_0 in S as [S1 S2]. apply nil_length_inv in S1 as ->. destruct con.
  - eexists. split; [reflexivity|]. split; [|done]. split; cbn.
    + split; cbn; try done; [by rewrite U, app_nil_r|by apply next_delay|by apply Forall_singleton].
    + rewrite U. unfold starts. cbn. rewrite S2. repeat split; (done || lia).
  - eexists. split; [reflexivity|]. split; [|done]. split; cbn.
    + split; cbn; try done. by rewrite U, app_nil_r.
    + rewrite U. unfold starts. cbn. rewrite S2. repeat split; (done || lia).
Qed.

(** An attempt, when there is none and no connection. *)
Definition idle (s : TcpClient) : Prop :=
  parts_ok [] s /\ channel_ (connector_ s) = None /\ starts s = 0%nat /\ connection_ s = None.

Lemma connect_ok e s : idle s -> state_ (connector_ s) = kDisconnected -> exists s', connect e s = Ok (tt, s') /\ client_ok s'.
Proof.
  intros ([R F K M D T] & U & S & N) St. rewrite app_nil_r in K. unfold connect.
  set (s1 := set_system (made s + 1) (closed s) false s). rewrite (bind_ok _ _ _ _ _ (eq_refl : createNonblocking s = Ok (made s, s1))).
  assert (parts_ok [made s] s1) as P1.
  { split; try done; cbn; [|lia]. rewrite app_assoc, K, (seqZ_app 0 (made s) 1) by lia. done. }
  destruct (in_progress e); [|destruct (tried_again e)].
  - unfold connecting, setState, set_channel, on_connector. do 2 look. cbn [connector_ set_connector channel_ s1 set_system]. rewrite U.
    eexists. split; [reflexivity|]. destruct P1 as [R1 F1 K1 M1 D1 T1]. split.
    + split; try done; cbn in *; [by rewrite R, U|]. intros H. unfold starts in S. apply Nat.eq_add_0 in S as [_ S]. by apply count_0 in S.
    + cbn. split; [done|]. split; [exact S|done].
  - destruct (retry_ok (made s) s1) as (s' & E & O & _); [done|cbn; by rewrite U|exact S|exact N|by exists s'].
  - eexists. split; [reflexivity|]. destruct P1 as [R1 F1 K1 M1 D1 T1]. split.
    + split; try done; cbn in *. rewrite U. cbn. rewrite app_nil_r, <- K1, <- app_assoc. apply Permutation_app_head, Permutation_app_comm.
    + cbn. rewrite St, U. split; [done|]. split; [done|]. change (starts _) with (starts s). rewrite S. split; [lia|]. by intros _ [=].
Qed.

Lemma startInLoop_ok e s : idle s -> state_ (connector_ s) = kDisconnected -> exists s', startInLoop e s = Ok (tt, s') /\ client_ok s'.
Proof.
  intros I St. unfold startInLoop. look. rewrite client_check_ok by (by apply bool_decide_true).
  destruct (connect_ (connector_ s)) eqn:Ec; [by apply connect_ok|]. exists s. split; [done|]. destruct I as (P & U & S & N).
  split; [by rewrite U|]. rewrite St, U. cbn. rewrite S, Ec. repeat split; (done || lia).
Qed.

(** The channel is taken away from the poller, to be destroyed after this turn. *)
Lemma remove_ok s : parts_ok (trying (channel_ (connector_ s))) s -> trying (channel_ (connector_ s)) <> [] -> starts s = 0%nat ->
  exists sockfd s', removeAndResetChannel s = Ok (sockfd, s') /\ parts_ok [sockfd] s' /\ trying (channel_ (connector_ s')) = []
    /\ starts s' = 0%nat /\ connection_ s' = connection_ s
    /\ connect_ (connector_ s') = connect_ (connector_ s) /\ state_ (connector_ s') = state_ (connector_ s).
Proof.
  intros [R F K M D T] U S. unfold removeAndResetChannel. look. destruct (channel_ (connector_ s)) as [[sockfd []]|] eqn:E; try done.
  eexists sockfd, _. split; [reflexivity|]. cbn in *.
  assert (starts (set_loop (pending s ++ [ResetChannel]) (timers s) s) = 0%nat) as S'.
  { unfold starts in *. cbn [timers pending set_loop]. rewrite count_snoc, decide_False by done. lia. }
  split; [|done]. split; cbn; try done.
  - by rewrite count_snoc, R.
  - intros H. unfold starts in S. apply Nat.eq_add_0 in S as [_ S]. apply count_0 in S. apply elem_of_app in H as [H|H]; [done|].
    by apply list_elem_of_singleton in H.
Qed.

(** The end of an attempt. *)
Lemma attempt_failed_ok s : client_ok s -> state_ (connector_ s) = kConnecting ->
  exists s', (sockfd ← removeAndResetChannel; retry sockfd) s = Ok (tt, s') /\ client_ok s' /\ state_ (connector_ s') = kDisconnected.
Proof.
  intros [P St] E. rewrite E in St. destruct St as (N & S & U).
  destruct (remove_ok s P U S) as (sockfd & s1 & E1 & P1 & U1 & S1 & N1 & _). step E1.
  destruct (retry_ok sockfd s1 P1 U1 S1) as (s' & E' & O & D); [by rewrite N1|]. by exists s'.
Qed.

Lemma handleError_ok s : client_ok s ->
  exists s', handleError s = Ok (tt, s') /\ client_ok s' /\ (s' = s \/ state_ (connector_ s') = kDisconnected).
Proof.
  intros O. unfold handleError. look. case_decide as E; [|exists s; auto].
  destruct (attempt_failed_ok s O E) as (s' & E' & O' & D). exists s'. auto.
Qed.

Lemma stopInLoop_ok s : client_ok s -> exists s', stopInLoop s = Ok (tt, s') /\ client_ok s'.
Proof.
  intros O. unfold stopInLoop. look. case_decide as E; [|by exists s]. destruct O as [P St]. rewrite E in St.
  destruct St as (N & S & U). unfold setState, on_connector. look. set (s0 := set_connector _ s).
  destruct (remove_ok s0) as (sockfd & s1 & E1 & P1 & U1 & S1 & N1 & _); [by destruct P; split|done|done|]. step E1.
  destruct (retry_ok sockfd s1 P1 U1 S1) as (s' & E' & O & D); [by rewrite N1|]. by exists s'.
Qed.

Lemma client_handleWrite_ok err self s : client_ok s -> state_ (connector_ s) <> kConnected ->
  exists s', handleWrite err self s = Ok (tt, s') /\ client_ok s'.
Proof.
  intros O Nc. unfold handleWrite. look. case_decide as E.
  - pose proof O as [P St]. rewrite E in St. destruct St as (N & S & U).
    destruct (remove_ok s P U S) as (sockfd & s1 & E1 & P1 & U1 & S1 & N1 & C1 & _). step E1.
    case_decide as He; [|destruct self]; [destruct (retry_ok sockfd s1 P1 U1 S1) as (s' & E' & O' & D); [by rewrite N1|]; by exists s'..|].
    unfold setState, on_connector. look. destruct P1 as [R1 F1 K1 M1 D1 T1].
    destruct (connect_ (connector_ s)); (eexists; split; [reflexivity|split; [split; cbn; try done|by cbn]]).
    + rewrite U1, app_nil_r. by rewrite <- app_assoc in K1 || exact K1.
    + rewrite U1, app_nil_r, <- K1, <- app_assoc. apply Permutation_app_head, Permutation_app_comm.
  - exists s. split; [|done]. rewrite bool_decide_true; [done|]. by destruct (state_ (connector_ s)).
Qed.

(** Changes that the invariant does not see. *)
Definition with_flags (rt cc : bool) (con : bool) (p : list functor) (s : TcpClient) : TcpClient :=
  set_loop p (timers s) (set_client rt cc (nextConnId_ s) (connection_ s) (given s)
    (set_connector {| connect_ := con; state_ := state_ (connector_ s); channel_ := channel_ (connector_ s);
                      retryDelayMs_ := retryDelayMs_ (connector_ s) |} s)).

Lemma parts_flags l rt cc con p s : parts_ok l s -> count ResetChannel p = count ResetChannel (pending s) ->
  (StartInLoop ∈ p -> channel_ (connector_ s) = None) -> parts_ok l (with_flags rt cc con p s).
Proof. intros [R F K M D T] Er Es. split; cbn; try done. by rewrite Er. Qed.

Lemma ok_flags rt cc con p s : client_ok s -> (con = true -> connect_ (connector_ s) = true) ->
  count ResetChannel p = count ResetChannel (pending s) -> count StartInLoop p = count StartInLoop (pending s) ->
  client_ok (with_flags rt cc con p s).
Proof.
  intros [P St] Hc Er Es. split.
  - apply parts_flags; [done|done|]. intros H. apply (cl_first _ _ P). destruct (decide (StartInLoop ∈ pending s)) as [|N]; [done|].
    apply count_0 in N. rewrite N in Es. apply count_0 in Es. done.
  - assert (starts (with_flags rt cc con p s) = starts s) as E by (unfold starts; cbn; by rewrite Es).
    cbn [with_flags set_loop set_client set_connector connector_ state_ channel_ connection_ gave_up connect_]. rewrite E.
    destruct (state_ (connector_ s)); [|done..]. destruct St as (N & U & S & A). repeat split; try done. auto.
Qed.

(** A functor that has been taken off. *)
Lemma ok_popped f fs s : client_ok s -> pending s = f :: fs -> f <> StartInLoop -> f <> ResetChannel -> client_ok (set_loop fs (timers s) s).
Proof.
  intros O E Hs Hr. replace (set_loop fs (timers s) s) with (with_flags (retry_ s) (client_connect_ s) (connect_ (connector_ s)) fs s)
    by (by destruct s as [[]]). by apply ok_flags; [..|rewrite E, count_cons, decide_False|rewrite E, count_cons, decide_False].
Qed.

Lemma channel_none s : client_ok s -> trying (channel_ (connector_ s)) = [] -> count ResetChannel (pending s) = 0%nat -> channel_ (connector_ s) = None.
Proof. intros [P _] U C. rewrite (cl_reset _ _ P) in C. by destruct (channel_ (connector_ s)) as [[? []]|]. Qed.

Lemma must_be_disconnected s : client_ok s -> (1 <= starts s)%nat ->
  state_ (connector_ s) = kDisconnected /\ connection_ s = None /\ trying (channel_ (connector_ s)) = [] /\ starts s = 1%nat.
Proof.
  intros [_ St] H. destruct (state_ (connector_ s)).
  - destruct St as (N & U & S & _). repeat split; (done || lia).
  - destruct St as (_ & S & _). lia.
  - destruct St as [S _]. lia.
Qed.

Lemma parts_less l p t s : parts_ok l s -> count ResetChannel p = count ResetChannel (pending s) -> (StartInLoop ∈ p -> StartInLoop ∈ pending s) ->
  Forall (.∈ delays) t -> parts_ok l (set_loop p t s).
Proof. intros [R F K M D T] Er Es Ht. split; cbn; try done; [by rewrite Er|auto]. Qed.

Lemma functor_ok f fs e s : client_ok s -> pending s = f :: fs -> exists s', run_functor f e (set_loop fs (timers s) s) = Ok (tt, s') /\ client_ok s'.
Proof.
  intros O E. destruct f; cbn [run_functor].
  - assert (StartInLoop ∈ pending s) as H by (rewrite E; apply elem_of_cons; by left).
    assert (starts s = S (length (timers s) + count StartInLoop fs)) as Hs by (unfold starts; rewrite E, count_cons, decide_True by done; lia).
    destruct (must_be_disconnected s O) as (Ed & N & U & S1); [lia|]. apply startInLoop_ok; [|done]. destruct O as [P _].
    split; [|split; [by apply (cl_first _ _ P)|split; [|done]]].
    + rewrite U in P. apply parts_less; [done|by rewrite E, count_cons| |by apply (cl_timers _ _ P)].
      intros H'. rewrite E. apply elem_of_cons. by right.
    + unfold starts. cbn [timers pending set_loop]. lia.
  - apply stopInLoop_ok. by eapply ok_popped.
  - eexists. split; [reflexivity|]. destruct O as [P St]. pose proof (cl_reset _ _ P) as R. rewrite E, count_cons, decide_True in R by done.
    destruct (channel_ (connector_ s)) as [[fd []]|] eqn:Ec; cbn [to_reset] in R; try lia.
    assert (count ResetChannel fs = 0%nat) as R0 by lia. destruct P as [_ F K M D T].
    assert (starts (set_connector {| connect_ := connect_ (connector_ s); state_ := state_ (connector_ s); channel_ := None;
              retryDelayMs_ := retryDelayMs_ (connector_ s) |} (set_loop fs (timers s) s)) = starts s) as Es
      by (unfold starts; cbn [timers pending set_loop set_connector]; by rewrite E, count_cons).
    split; [split; cbn in *; try done|]. cbn [set_connector set_loop connector_ state_ channel_ connection_ connect_ gave_up]. by rewrite Es.
  - eexists. split; [reflexivity|]. by eapply ok_popped.
Qed.

Lemma connect_move_ok in_loop e s : client_ok s -> by_the_rules (Connect in_loop e) s ->
  exists s', client_connect in_loop e s = Ok (tt, s') /\ client_ok s'.
Proof.
  intros [P St] (Ed & U & Tm & Ns). rewrite Ed in St. destruct St as (N & _ & _ & _). unfold client_connect.
  set (s1 := with_flags (retry_ s) true true (pending s) s).
  unfold set_client_connect, set_connect, on_connector. do 2 look.
  assert (parts_ok [] s1) as P1 by (rewrite U in P; by apply parts_flags).
  assert (starts s = 0%nat) as S by (unfold starts; rewrite Tm; by apply count_0).
  assert (set_connector {| connect_ := true; state_ := state_ (connector_ s); channel_ := channel_ (connector_ s);
            retryDelayMs_ := retryDelayMs_ (connector_ s) |} (set_client (retry_ s) true (nextConnId_ s) (connection_ s) (given s) s) = s1) as Es
    by (by destruct s as [[]]).
  change (connector_ (set_client _ _ _ _ _ s)) with (connector_ s). rewrite Es. destruct in_loop; [by apply startInLoop_ok|].
  eexists. split; [reflexivity|].
  assert (count StartInLoop (pending s1 ++ [StartInLoop]) = 1%nat) as C1 by (cbn; rewrite count_snoc, decide_True by done; by apply count_0 in Ns as ->).
  split.
  - destruct P1 as [R F K M D T]. split; cbn in *; try done; [by rewrite count_snoc, R|by rewrite U].
  - cbn [set_loop connector_ s1 with_flags set_client set_connector state_ channel_ connection_ connect_ gave_up]. rewrite Ed, U.
    assert (starts (set_loop (pending s1 ++ [StartInLoop]) (timers s1) s1) = 1%nat) as -> by (unfold starts; cbn [timers pending set_loop];
      rewrite C1; cbn; by rewrite Tm).
    repeat split; (done || lia).
Qed.

Lemma fire_ok i e s : client_ok s -> can_happen (Fire i e) s -> by_the_rules (Fire i e) s ->
  exists s', startInLoop e (set_loop (pending s) (delete i (timers s)) s) = Ok (tt, s') /\ client_ok s'.
Proof.
  intros O Hi Hr. cbn in Hi, Hr. destruct (must_be_disconnected s O) as (Ed & N & U & S); [unfold starts; lia|].
  apply count_0 in Hr. pose proof (channel_none s O U Hr) as Uc. apply startInLoop_ok; [|done]. destruct O as [P _]. rewrite U in P.
  split; [apply parts_less; try done; apply Forall_delete, (cl_timers _ _ P)|]. split; [done|]. split; [|done].
  unfold starts in *. cbn [timers pending set_loop]. rewrite length_delete by (by apply lookup_lt_is_Some_2). lia.
Qed.

Lemma ready_ok pollerr pollout err self s : client_ok s -> can_happen (Ready pollerr pollout err self) s ->
  exists s', do_move (Ready pollerr pollout err self) s = Ok (tt, s') /\ client_ok s'.
Proof.
  intros O [fd Ec]. pose proof O as [P St]. rewrite Ec in St. cbn [trying] in St. unfold do_move. look.
  assert (state_ (connector_ s) = kConnecting) as E by (destruct (state_ (connector_ s)); [by destruct St as (_ & H & _)|done|by destruct St as [_ H]]).
  assert (exists s1, (if pollerr then handleError else mret tt) s = Ok (tt, s1) /\ client_ok s1 /\ state_ (connector_ s1) <> kConnected) as (s1 & E1 & O1 & N1).
  { destruct pollerr; [|exists s; split; [done|split; [done|congruence]]].
    destruct (handleError_ok s O) as (s1 & E1 & O1 & [-> | D]); eexists; split; [done|split; [done|congruence]|done|split; [done|congruence]]. }
  step E1. destruct pollout; [by apply client_handleWrite_ok|by exists s1].
Qed.

Lemma closed_ok e s : client_ok s -> can_happen (Closed e) s -> exists s', do_move (Closed e) s = Ok (tt, s') /\ client_ok s'.
Proof.
  intros O [Hc Hr]. unfold do_move. look. change (id s) with s. destruct (connection_ s) as [conn|] eqn:Ec; [|done].
  pose proof O as [P St].
  assert (state_ (connector_ s) = kConnected) as E by (destruct (state_ (connector_ s)); [destruct St; congruence..|done]).
  rewrite E in St. destruct St as [S U]. apply count_0 in Hr. pose proof (channel_none s O U Hr) as Uc.
  unfold removeConnection. look. change (id s) with s. rewrite client_check_ok by (by apply bool_decide_true). unfold queueInLoop. do 2 look.
  set (s1 := set_loop _ _ _).
  assert (parts_ok [] s1) as P1.
  { rewrite U in P. destruct P as [R F K M D T]. split; cbn in *; try done. by rewrite count_snoc, Hr, Uc. }
  assert (starts s1 = 0%nat) as S1 by (unfold starts in *; cbn [s1 timers pending set_loop set_client]; rewrite count_snoc, decide_False by done; lia).
  destruct (retry_ s && client_connect_ s).
  - unfold restart, setState, set_delay, set_connect, on_connector. do 3 look. apply startInLoop_ok; [|done].
    split; [|by split]. destruct P1 as [R F K M D T]. split; cbn in *; try done. by apply (bool_decide_unpack _).
  - eexists. split; [reflexivity|]. split; [by change (channel_ (connector_ s1)) with (channel_ (connector_ s)); rewrite Uc|].
    change (state_ (connector_ s1)) with (state_ (connector_ s)). rewrite E. by split.
Qed.

Lemma client_move_ok m s : client_ok s -> can_happen m s -> by_the_rules m s -> exists s', do_move m s = Ok (tt, s') /\ client_ok s'.
Proof.
  intros O H U. destruct m as [in_loop e| | | |e|i e|pe po err self|e].
  - unfold do_move. look. by apply connect_move_ok.
  - eexists. split; [reflexivity|]. pose proof (ok_flags (retry_ s) false (connect_ (connector_ s)) (pending s) s O) as O'.
    destruct s as [[]]. by apply O'.
  - eexists. split; [reflexivity|].
    pose proof (ok_flags (retry_ s) false false (pending s ++ [StopInLoop]) s O) as O'. rewrite !count_snoc, !decide_False, !Nat.add_0_r in O' by done.
    destruct s as [[]]. by apply O'.
  - eexists. split; [reflexivity|]. pose proof (ok_flags true (client_connect_ s) (connect_ (connector_ s)) (pending s) s O) as O'.
    destruct s as [[]]. by apply O'.
  - unfold do_move. look. change (id s) with s. cbn in H. destruct (pending s) as [|f fs] eqn:E; [done|]. look. by apply functor_ok.
  - unfold do_move. look. look. by apply fire_ok.
  - by apply ready_ok.
  - by apply closed_ok.
Qed.

Lemma client_reach_ok s : client_reach s -> client_ok s.
Proof.
  induction 1 as [|s m s' R O H U E].
  - split; [split; cbn; try done; by apply (bool_decide_unpack _)|]. cbn. change (starts _) with 0%nat. repeat split; (done || lia).
  - destruct (client_move_ok m s O H U) as (s'' & E' & O'). rewrite E in E'. by injection E' as <-.
Qed.

(** C30: The client's connector, in runs of the moves that the loop and its user can make
    ([can_happen]; in particular, a connection ends in a later turn than the one that made it) as
    long as they keep to two rules ([by_the_rules]): [connect] is only called while the connector is
    [kDisconnected], without a channel and without an attempt to come (so not again after a
    connection has ended), and no timer of a retry fires before the functor that resets the channel
    has run. Whatever the system answers and whenever the client is stopped, no assertion fails in a
    further such move; every socket is being connected, or was closed, or was given to a connection,
    once and one of these; there is never more than one attempt, under way or to come, and none
    beside a connection; until it is connected, stopped or gives up there is one; it waits from half
    a second to thirty between attempts. *)
Theorem client_sound s : client_reach s ->
  (forall m, can_happen m s -> by_the_rules m s -> exists s', do_move m s = Ok (tt, s'))
  /\ closed s ++ given s ++ trying (channel_ (connector_ s)) ≡ₚ seqZ 0 (made s)
  /\ (length (trying (channel_ (connector_ s))) + starts s <= 1)%nat
  /\ (connection_ s <> None -> length (trying (channel_ (connector_ s))) + starts s = 0)%nat
  /\ (connect_ (connector_ s) = true -> gave_up s = false -> state_ (connector_ s) <> kConnected ->
      length (trying (channel_ (connector_ s))) + starts s = 1)%nat
  /\ retryDelayMs_ (connector_ s) ∈ delays /\ Forall (.∈ delays) (timers s).
Proof.
  intros O%client_reach_ok. split; [intros m H U; destruct (client_move_ok m s O H U) as (s' & E & _); by exists s'|].
  destruct O as [[R F K M D T] St]. split; [done|].
  assert (length (trying (channel_ (connector_ s))) <= 1)%nat as L by (destruct (channel_ (connector_ s)) as [[? []]|]; cbn; lia).
  destruct (state_ (connector_ s)).
  - destruct St as (N & U & S & A). rewrite U. cbn. repeat split; (done || lia || auto).
  - destruct St as (N & S & U). assert (length (trying (channel_ (connector_ s))) = 1%nat) as ->
      by (by destruct (channel_ (connector_ s)) as [[? []]|]). rewrite S. repeat split; (done || lia).
  - destruct St as [S U]. rewrite U, S. cbn. repeat split; (done || lia).
Qed.

(** ** Runs *)

Fixpoint run_moves (l : list client_move) (s : TcpClient) : outcome TcpClient :=
  match l with
  | [] => Ok s
  | m :: l => r ← do_move m s; run_moves l r.2
  end.

Fixpoint all_happen (l : list client_move) (s : TcpClient) : Prop :=
  match l with
  | [] => True
  | m :: l => can_happen m s /\ by_the_rules m s /\ match do_move m s with Ok (_, s') => all_happen l s' | _ => False end
  end.

Lemma run_moves_reach l s s' : client_reach s -> all_happen l s -> run_moves l s = Ok s' -> client_reach s'.
Proof.
  revert s. induction l as [|m l IH]; intros s R H E; cbn in *; [by injection E as <-|]. destruct H as (Hm & Hu & H).
  destruct (do_move m s) as [[[] s1]| |] eqn:Em; [|done..]. rewrite outcome_bind_ok in E. apply (IH s1); [|done|done]. by eapply reach_move.
Qed.

(** Refused at first, connected half a second later. *)
Definition second_time : list client_move :=
  [Connect false 0; Functor 115; Ready true true 111 false; Functor 0; Fire 0 115; Ready false true 0 false; Functor 0].

Definition connected : TcpClient := match run_moves second_time TcpClient_new with Ok s => s | _ => TcpClient_new end.

Lemma client_sound_witness : connection_ connected = Some 1 /\ closed connected = [0] /\ timers connected = []
  /\ retryDelayMs_ (connector_ connected) = 1000 /\ (forall m, can_happen m connected -> by_the_rules m connected -> exists s', do_move m connected = Ok (tt, s')).
Proof.
  destruct (client_sound connected) as (A & _).
  - apply (run_moves_reach second_time TcpClient_new); [apply reach_new| |vm_compute; reflexivity].
    vm_compute. repeat match goal with |- _ /\ _ => split end; try discriminate; try (eexists; reflexivity); try exact I;
      try reflexivity; try lia; intros H; inversion H.
  - split; [vm_compute; reflexivity|]. split; [vm_compute; reflexivity|]. split; [vm_compute; reflexivity|].
    split; [vm_compute; reflexivity|exact A].
Defined.

(** What [connect] does on other clients: after a connection that has ended the state is still
    [kConnected]; and a timer that was set before [stop] is still there. *)
Example connect_again_aborts : run_moves (second_time ++ [Closed 0; Functor 0; Connect true 0]) TcpClient_new = Undef AssertFailed.
Proof. vm_compute. reflexivity. Qed.

Example stop_and_connect_aborts :
  run_moves [Connect true 111; Stop; Functor 0; Connect true 111; Fire 0 115; Fire 0 115] TcpClient_new = Undef AssertFailed.
Proof. vm_compute. reflexivity. Qed.

(** The timer of a retry fires in the turn in which the channel is still there: handlers between the
    two took half a second. Everything that happens can happen, and the second rule is not kept. *)
Example early_retry_aborts :
  run_moves [Connect true 115; Ready false true 111 false; Fire 0 115] TcpClient_new = Undef AssertFailed
  /\ (forall s, run_moves [Connect true 115; Ready false true 111 false] TcpClient_new = Ok s ->
        can_happen (Fire 0 115) s /\ ~ by_the_rules (Fire 0 115) s).
Proof.
  split; [vm_compute; reflexivity|]. intros s E. vm_compute in E. injection E as <-. split; [cbn; lia|].
  intros N. apply N. by left.
Qed.

(** No route to the host is not one of the errors after which it is tried again. *)
Example no_route_gives_up : run_moves [Connect true 113] TcpClient_new
  = Ok (set_system 1 [0] true (set_connector {| connect_ := true; state_ := kDisconnected; channel_ := None; retryDelayMs_ := 500 |} TcpClient_new)).
Proof. vm_compute. reflexivity. Qed.
