(* ===== verification/Monitor.v ===== *)
(** * Monitors (base/Mutex.h, base/Condition.h)

    Threads that share an object under its mutex and wait on its conditions. A class is given by
    what a thread does from one point of its code to the next while it holds the mutex; threads
    interleave between these. [wait] gives the mutex up and comes back to its point, when it was
    notified or for no reason, as condition variables allow. *)

From S2P Require Import Prelude.

(** What leaving a section signals. *)
Inductive signal {C : Type} := Notify (c : C) | NotifyAll (c : C).
#[global] Arguments signal : clear implicits.

(** Where a section ends: at another point of the code, on a condition, or with the thread. *)
Inductive next {C L : Type} := Go (l : L) | Wait (c : C) (l : L) | Finish.
#[global] Arguments next : clear implicits.

(** A thread. *)
Inductive status {C L : Type} := Ready (l : L) | Waiting (c : C) (l : L) | Finished.
#[global] Arguments status : clear implicits.

Definition status_of {C L} (x : next C L) : status C L :=
  match x with Go l => Ready l | Wait c l => Waiting c l | Finish => Finished end.

Section monitor.
Context {S L C : Type} `{EqDecision C}.

Abbreviation Status := (status C L).

(** The section at a point. *)
Context (section : L -> S -> S * list (signal C) * next C L).

Definition waits (c : C) (x : Status) : bool :=
  match x with Waiting c' _ => bool_decide (c' = c) | _ => false end.

Definition wake (c : C) (x : Status) : Status :=
  match x with Waiting c' l => if decide (c' = c) then Ready l else x | _ => x end.

(** [notify] wakes one of the threads that wait on the condition, which is the system's choice,
    here [j]; [notifyAll] all of them. *)
Definition notify (c : C) (j : nat) (ts : list Status) : option (list Status) :=
  if existsb (waits c) ts then
    match ts !! j with
    | Some x => if waits c x then Some (<[j := wake c x]> ts) else None
    | None => None
    end
  else Some ts.

Definition notifyAll (c : C) (ts : list Status) : list Status := wake c <$> ts.

Fixpoint deliver (l : list (signal C)) (choices : list nat) (ts : list Status) : option (list Status) :=
  match l with
  | [] => Some ts
  | Notify c :: l' => ts' ← notify c (default 0%nat (head choices)) ts; deliver l' (tail choices) ts'
  | NotifyAll c :: l' => deliver l' choices (notifyAll c ts)
  end.

(** The object and the threads. *)
Record Monitor := { shared : S; threads : list Status }.

Inductive move :=
| Enter (i : nat) (choices : list nat)        (* thread [i] gets the mutex *)
| Spurious (i : nat).                         (* thread [i] wakes up for no reason, or after its time *)

Definition take_move (t : move) (m : Monitor) : option Monitor :=
  match t with
  | Enter i choices =>
      match threads m !! i with
      | Some (Ready l) =>
          let '(s, signals, x) := section l (shared m) in
          ts ← deliver signals choices (<[i := status_of x]> (threads m));
          Some {| shared := s; threads := ts |}
      | _ => None
      end
  | Spurious i =>
      match threads m !! i with
      | Some (Waiting c l) => Some {| shared := shared m; threads := <[i := Ready l]> (threads m) |}
      | _ => None
      end
  end.

Definition move_to (m m' : Monitor) : Prop := exists t, take_move t m = Some m'.

Definition start (s : S) (points : list L) : Monitor := {| shared := s; threads := Ready <$> points |}.

Fixpoint moves (l : list move) (m : Monitor) : option Monitor :=
  match l with
  | [] => Some m
  | t :: l' => m' ← take_move t m; moves l' m'
  end.

Lemma moves_reach l m0 m m' : rtc move_to m0 m -> moves l m = Some m' -> rtc move_to m0 m'.
Proof.
  revert m. induction l as [|t l IH]; intros m R; simpl; [by intros [= <-]|].
  destruct (take_move t m) as [m1|] eqn:E; [|done]. apply IH. eapply rtc_r; [exact R|]. by exists t.
Qed.

(** What every section keeps of the object, the runs keep. *)
Lemma shared_reach (P : S -> Prop) s points m : P s -> (forall l s s' signals x, P s -> section l s = (s', signals, x) -> P s') ->
  rtc move_to (start s points) m -> P (shared m).
Proof.
  intros H0 Hs R. assert (P (shared (start s points))) as O by done. revert R O. generalize (start s points). intros m0 R O.
  induction R as [m1|m1 m2 m3 [t E] _ IH]; [done|]. apply IH.
  destruct t as [i choices|i]; simpl in E; destruct (threads m1 !! i) as [[l|c l|]|]; try done; [|by injection E as <-].
  destruct (section l (shared m1)) as [[s' signals] x] eqn:Es. destruct (deliver _ _ _); [|done]. injection E as <-. by eapply Hs.
Qed.

(** ** No lost wake-ups

    Whatever is there for the threads that wait on a condition, as many threads that will take
    it are awake; and on a condition that is closed, nobody waits. *)

Definition flag (b : bool) : nat := if b then 1 else 0.

Fixpoint tally {A} (f : A -> bool) (l : list A) : nat :=
  match l with [] => 0 | x :: l' => flag (f x) + tally f l' end.

Lemma tally_insert {A} (f : A -> bool) l i x y : l !! i = Some x ->
  (tally f (<[i := y]> l) + flag (f x) = tally f l + flag (f y))%nat.
Proof.
  revert i. induction l as [|z l IH]; intros [|i] E; simpl in *; [done|done|injection E as ->; lia|].
  specialize (IH i E). lia.
Qed.

Lemma existsb_elem {A} (f : A -> bool) l : existsb f l = true <-> exists i x, l !! i = Some x /\ f x = true.
Proof.
  rewrite existsb_exists. split.
  - intros (x & Hx & E). apply list_elem_of_In, list_elem_of_lookup in Hx as [i Hi]. eauto.
  - intros (i & x & Hi & E). exists x. split; [|done]. apply list_elem_of_In. by eapply list_elem_of_lookup_2.
Qed.

Context (open : C -> S -> bool) (demand : C -> S -> nat) (asks : C -> L -> bool).

Definition ready_for (c : C) (x : Status) : bool := match x with Ready l => asks c l | _ => false end.

(** Threads wait where they will ask again. *)
Definition waits_well (ts : list Status) : Prop := Forall (fun x => match x with Waiting c l => asks c l = true | _ => True end) ts.

Record monitor_ok (m : Monitor) : Prop := {
  mo_point : waits_well (threads m);
  mo_open : forall c, open c (shared m) = false -> existsb (waits c) (threads m) = false;
  mo_demand : forall c, open c (shared m) = true -> existsb (waits c) (threads m) = true ->
    (demand c (shared m) <= tally (ready_for c) (threads m))%nat;
}.

Lemma waits_wake c c' x : waits c (wake c' x) = true -> waits c x = true /\ c <> c'.
Proof.
  destruct x as [l|c0 l|]; simpl; try done. case_decide; simpl; [done|]. intros E. split; [done|].
  apply bool_decide_eq_true in E. congruence.
Qed.

Lemma notify_ok c j ts ts' : waits_well ts -> notify c j ts = Some ts' ->
  waits_well ts' /\ forall c', existsb (waits c') ts' = true ->
    existsb (waits c') ts = true
    /\ (tally (ready_for c') ts + flag (bool_decide (c' = c)) <= tally (ready_for c') ts')%nat.
Proof.
  unfold notify. intros W. destruct (existsb (waits c) ts) eqn:Ew.
  - destruct (ts !! j) as [x|] eqn:Ej; [|done]. destruct (waits c x) eqn:Ex; [|done]. intros [= <-].
    destruct x as [l|c0 l|]; try done. simpl in Ex. apply bool_decide_eq_true in Ex as ->. simpl. rewrite decide_True by done.
    pose proof (Forall_lookup_1 _ _ _ _ W Ej) as Al. simpl in Al.
    split; [by apply Forall_insert|]. intros c' (k & y & Hk & Ey)%existsb_elem. split.
    + apply existsb_elem. apply list_lookup_insert_Some in Hk as [(<- & <- & _)|[Nk Hk]]; [done|eauto].
    + pose proof (tally_insert (ready_for c') ts j _ (Ready l) Ej) as T. simpl in T.
      case_bool_decide as Hc; [subst c'; rewrite Al in T; simpl in *; lia|]. simpl. lia.
  - intros [= <-]. split; [done|]. intros c' Ec. split; [done|].
    case_bool_decide as Hc; [subst; congruence|simpl; lia].
Qed.

Lemma notifyAll_ok c ts : waits_well ts ->
  waits_well (notifyAll c ts) /\ existsb (waits c) (notifyAll c ts) = false
  /\ forall c', existsb (waits c') (notifyAll c ts) = true ->
       existsb (waits c') ts = true /\ (tally (ready_for c') ts <= tally (ready_for c') (notifyAll c ts))%nat.
Proof.
  intros W. unfold notifyAll. induction W as [|x ts Hx W IH]; [split; [constructor|by split]|]. destruct IH as (W1 & E1 & T1). rewrite fmap_cons.
  assert (match wake c x with Waiting c l => asks c l = true | _ => True end) as Hx'
    by (destruct x; simpl in *; [done|by case_decide|done]).
  assert (waits c (wake c x) = false) as Nw by (destruct (waits c (wake c x)) eqn:E; [by apply waits_wake in E as []|done]).
  split; [by constructor|]. split; [simpl; by rewrite Nw|].
  intros c' E. simpl in E |- *. apply orb_true_iff in E.
  assert (flag (ready_for c' x) <= flag (ready_for c' (wake c x)))%nat as Fx.
  { destruct x as [l|c0 l|]; simpl; [done|lia|done]. }
  destruct (existsb (waits c') (wake c <$> ts)) eqn:Ets.
  - destruct (T1 c' Ets) as [-> ?]. rewrite orb_true_r. split; [done|lia].
  - destruct E as [E|]; [|done]. apply waits_wake in E as [-> Nc]. split; [done|].
    assert (forall l : list Status, tally (ready_for c') l <= tally (ready_for c') (wake c <$> l))%nat as Le.
    { clear. intros l. induction l as [|x l IH]; [done|]. rewrite fmap_cons. cbn [tally].
      enough (flag (ready_for c' x) <= flag (ready_for c' (wake c x)))%nat by lia. destruct x; simpl; [done|apply Nat.le_0_l|done]. }
    specialize (Le ts). lia.
Qed.

(** How often a condition is notified. *)
Definition notes (c : C) (l : list (signal C)) : nat :=
  tally (fun x => match x with Notify c' => bool_decide (c = c') | NotifyAll _ => false end) l.

Lemma deliver_ok l choices ts ts' : waits_well ts -> deliver l choices ts = Some ts' ->
  waits_well ts' /\ forall c, existsb (waits c) ts' = true ->
    ~ List.In (NotifyAll c) l /\ existsb (waits c) ts = true
    /\ (tally (ready_for c) ts + notes c l <= tally (ready_for c) ts')%nat.
Proof.
  revert choices ts. induction l as [|[c|c] l IH]; intros choices ts W; simpl; [intros [= <-]|intros E|intros E].
  - split; [done|]. intros c Ec. split; [by intros []|]. split; [done|]. unfold notes. simpl. lia.
  - destruct (notify c _ ts) as [ts1|] eqn:En; [|done]. simpl in E. destruct (notify_ok _ _ _ _ W En) as [W1 T1].
    destruct (IH _ _ W1 E) as [W2 T2]. split; [done|]. intros c' Ec. destruct (T2 c' Ec) as (N2 & E2 & L2).
    destruct (T1 c' E2) as [E1 L1]. split; [by intros [|]|]. split; [done|]. unfold notes in *. simpl. lia.
  - destruct (notifyAll_ok c ts W) as (W1 & Nc & T1). destruct (IH _ _ W1 E) as [W2 T2]. split; [done|].
    intros c' Ec. destruct (T2 c' Ec) as (N2 & E2 & L2). destruct (T1 c' E2) as [E1 L1].
    split; [|split; [done|unfold notes in *; simpl; lia]]. intros [[= ->]|]; [congruence|done].
Qed.

(** What a class has to show of its sections, where the object is well-formed. *)
Context (wf : S -> Prop).

Record section_ok (l : L) (s s' : S) (signals : list (signal C)) (x : next C L) : Prop := {
  so_wf : wf s';
  (** a thread waits when there is nothing for it, where it will ask again *)
  so_wait : forall c l', x = Wait c l' -> open c s' = true /\ demand c s' = 0%nat /\ asks c l' = true;
  (** closing wakes everybody, for good *)
  so_close : forall c, open c s' = false -> open c s = false \/ List.In (NotifyAll c) signals;
  so_open : forall c, open c s' = true -> open c s = true;
  (** what there is more than before is announced, or taken by the thread itself *)
  so_demand : forall c, open c s' = true -> (forall l', x <> Wait c l') -> List.In (NotifyAll c) signals
    \/ (demand c s' + flag (asks c l) <= demand c s + flag (ready_for c (status_of x)) + notes c signals)%nat;
}.

Hypothesis sections_ok : forall l s s' signals x, wf s -> section l s = (s', signals, x) -> section_ok l s s' signals x.

Lemma waits_insert c i x y (ts : list Status) : ts !! i = Some x -> waits c y = false ->
  existsb (waits c) (<[i := y]> ts) = true -> existsb (waits c) ts = true.
Proof.
  intros Ei Ey (k & z & Hk & Ez)%existsb_elem. apply list_lookup_insert_Some in Hk as [(<- & <- & _)|[_ Hk]]; [congruence|].
  apply existsb_elem. eauto.
Qed.

Lemma enter_ok m i l choices s' signals x ts : wf (shared m) -> monitor_ok m -> threads m !! i = Some (Ready l) ->
  section l (shared m) = (s', signals, x) -> deliver signals choices (<[i := status_of x]> (threads m)) = Some ts ->
  monitor_ok {| shared := s'; threads := ts |}.
Proof.
  intros Hw [Pt Op De] Ei Es Ed. destruct (sections_ok _ _ _ _ _ Hw Es) as [W1 Wa Cl Opn Dm].
  assert (waits_well (<[i := status_of x]> (threads m))) as Pt1.
  { apply Forall_insert; [done|]. destruct x as [l'|c l'|]; try done. by destruct (Wa c l' eq_refl) as (_ & _ & ?). }
  destruct (deliver_ok _ _ _ _ Pt1 Ed) as [Pt2 T]. split; cbn; [done| |].
  - intros c Hc. destruct (existsb (waits c) ts) eqn:E; [|done]. destruct (T c E) as (Nn & E1 & _).
    destruct (Cl c Hc) as [Ho|Ha]; [|by destruct Nn]. apply (waits_insert c i (Ready l)) in E1; [by rewrite Op in E1|done|].
    destruct x as [l'|c0 l'|]; try done. destruct (Wa c0 l' eq_refl) as (H1 & _). apply bool_decide_eq_false. congruence.
  - intros c Ho E. destruct (T c E) as (Nn & E1 & Le).
    assert (forall l', x = Wait c l' -> demand c s' = 0%nat) as Z by (intros l' Ex; by destruct (Wa c l' Ex) as (_ & ? & _)).
    destruct x as [l'|c0 l'|] eqn:Ex.
    2: destruct (decide (c0 = c)) as [->|Nc]; [rewrite (Z l' eq_refl); apply Nat.le_0_l|].
    all: (destruct (Dm c Ho) as [|Le1]; [congruence|done|]);
      apply (waits_insert c i (Ready l)) in E1; [|done|first [done|by apply bool_decide_eq_false]];
      specialize (De c (Opn c Ho) E1); rewrite <- Ex in *;
      pose proof (tally_insert (ready_for c) (threads m) i _ (status_of x) Ei) as Tl; cbn in Tl; lia.
Qed.

Lemma spurious_ok m i c l : monitor_ok m -> threads m !! i = Some (Waiting c l) ->
  monitor_ok {| shared := shared m; threads := <[i := Ready l]> (threads m) |}.
Proof.
  intros [Pt Op De] Ei. split; cbn; [by apply Forall_insert| |].
  - intros c' Hc. destruct (existsb (waits c') _) eqn:E; [|done]. apply (waits_insert c' i (Waiting c l)) in E; [|done|done].
    by rewrite Op in E.
  - intros c' Ho E. apply (waits_insert c' i (Waiting c l)) in E; [|done|done]. specialize (De c' Ho E).
    pose proof (tally_insert (ready_for c') (threads m) i _ (Ready l) Ei) as Tl. cbn in Tl. lia.
Qed.

Lemma move_ok m m' : wf (shared m) -> monitor_ok m -> move_to m m' -> wf (shared m') /\ monitor_ok m'.
Proof.
  intros Hw O [t E]. destruct t as [i choices|i]; simpl in E; destruct (threads m !! i) as [[l|c l|]|] eqn:Ei; try done.
  - destruct (section l (shared m)) as [[s' signals] x] eqn:Es. destruct (deliver _ _ _) as [ts|] eqn:Ed; [|done]. injection E as <-.
    split; [by destruct (sections_ok _ _ _ _ _ Hw Es)|by eapply enter_ok].
  - injection E as <-. split; [done|by eapply spurious_ok].
Qed.

Lemma start_ok s points : monitor_ok (start s points).
Proof.
  assert (forall c, existsb (waits c) (Ready <$> points : list Status) = false) as N.
  { intros c. induction points; [done|]. by rewrite fmap_cons. }
  split; cbn; [apply Forall_fmap; by apply Forall_true|done|by intros c _; rewrite N].
Qed.

Lemma monitor_reach_ok s points m : wf s -> rtc move_to (start s points) m -> wf (shared m) /\ monitor_ok m.
Proof.
  intros Hw R. assert (wf (shared (start s points)) /\ monitor_ok (start s points)) as O by (split; [done|apply start_ok]).
  revert R O. generalize (start s points). intros m0 R O. induction R as [m1|m1 m2 m3 St _ IH]; [done|].
  apply IH. destruct O. by apply (move_ok m1 m2).
Qed.

(** When every thread waits or has finished, there is nothing for the conditions waited on; and
    nobody waits on one that is closed. *)
Lemma stuck m c : monitor_ok m -> Forall (fun x => forall l, x <> Ready l) (threads m) ->
  existsb (waits c) (threads m) = true -> open c (shared m) = true /\ demand c (shared m) = 0%nat.
Proof.
  intros [Pt Op De] N E. destruct (open c (shared m)) eqn:Ho; [|by rewrite Op in E]. split; [done|].
  specialize (De c Ho E). assert (tally (ready_for c) (threads m) = 0%nat); [|lia]. clear -N.
  induction N as [|x l Hx N IH]; [done|]. simpl. rewrite IH. destruct x; [by destruct (Hx l0)|done|done].
Qed.
End monitor.

(** Closes a goal on what there is for whom. *)
Ltac counts :=
  repeat match goal with
    |- context [notes ?c ?l] => let v := eval vm_compute in (notes c l) in change (notes c l) with v
  end; simpl; rewrite ?length_app; simpl; try lia;
  match goal with |- context [match ?rest with _ => _ end] => destruct rest; simpl; try lia; counts end.
