(* ===== verification/Queues.v ===== *)
(** * The blocking queues and the latch (base/BlockingQueue.h, base/BoundedBlockingQueue.h, base/CountDownLatch.cc)

    Each as a monitor: what [put], [take], [drain], [wait] and [countDown] do under the mutex. A
    thread is the list of calls that it makes. The queues keep, besides their contents, what was
    ever put in and taken out, in order. *)

From S2P Require Import Prelude.
From S2P Require Import Monitor.

(** ** Queues *)

Inductive queue_cond := notEmpty | notFull.
#[export] Instance queue_cond_dec : EqDecision queue_cond.
Proof. solve_decision. Defined.

Section queues.
Context {T : Type}.

Inductive queue_call :=
| Put (x : T)
| Take
| Drain.                         (* of BlockingQueue only *)

Record Queue := {
  queue_ : list T;
  was_put : list T;
  was_taken : list T;
}.

Definition Queue_new : Queue := {| queue_ := []; was_put := []; was_taken := [] |}.

Definition push_back (x : T) (q : Queue) : Queue :=
  {| queue_ := queue_ q ++ [x]; was_put := was_put q ++ [x]; was_taken := was_taken q |}.
Definition pop_front (q : Queue) : Queue :=
  match queue_ q with
  | [] => q
  | x :: l => {| queue_ := l; was_put := was_put q; was_taken := was_taken q ++ [x] |}
  end.
Definition clear_queue (q : Queue) : Queue :=
  {| queue_ := []; was_put := was_put q; was_taken := was_taken q ++ queue_ q |}.

(** [BlockingQueue]: a call up to its end, or to its [wait]. *)
Definition blocking_section (calls : list queue_call) (q : Queue)
    : Queue * list (signal queue_cond) * next queue_cond (list queue_call) :=
  match calls with
  | [] => (q, [], Finish)
  | Put x :: rest => (push_back x q, [Notify notEmpty], Go rest)
  | Take :: rest => if decide (queue_ q = []) then (q, [], Wait notEmpty calls) else (pop_front q, [], Go rest)
  | Drain :: rest => (clear_queue q, [], Go rest)
  end.

(** [BoundedBlockingQueue] with room for [maxSize]; it has no [drain]. *)
Definition bounded_section (maxSize : nat) (calls : list queue_call) (q : Queue)
    : Queue * list (signal queue_cond) * next queue_cond (list queue_call) :=
  match calls with
  | [] => (q, [], Finish)
  | Put x :: rest =>
      if decide (length (queue_ q) = maxSize) then (q, [], Wait notFull calls)
      else (push_back x q, [Notify notEmpty], Go rest)
  | Take :: rest =>
      if decide (queue_ q = []) then (q, [], Wait notEmpty calls) else (pop_front q, [Notify notFull], Go rest)
  | Drain :: rest => (q, [], Go rest)
  end.

(** First in, first out, each once. *)
Definition fifo (q : Queue) : Prop := was_put q = was_taken q ++ queue_ q.

(** What a thread is at. *)
Definition asks (c : queue_cond) (calls : list queue_call) : bool :=
  match c, calls with
  | notEmpty, Take :: _ | notFull, Put _ :: _ => true
  | _, _ => false
  end.

Lemma fifo_push x q : fifo q -> fifo (push_back x q).
Proof. unfold fifo. simpl. intros ->. by rewrite <- app_assoc. Qed.

Lemma fifo_pop q : fifo q -> fifo (pop_front q).
Proof. unfold fifo, pop_front. destruct (queue_ q) as [|x l] eqn:E; simpl; [by rewrite E|]. intros ->. by rewrite <- app_assoc. Qed.

Lemma fifo_clear q : fifo q -> fifo (clear_queue q).
Proof. unfold fifo. simpl. intros ->. by rewrite app_nil_r. Qed.

Lemma length_pop q : queue_ q <> [] -> length (queue_ (pop_front q)) = (length (queue_ q) - 1)%nat.
Proof. unfold pop_front. destruct (queue_ q); simpl; [done|lia]. Qed.

Lemma length_queue q : queue_ q <> [] -> (0 < length (queue_ q))%nat.
Proof. destruct (queue_ q); simpl; [done|lia]. Qed.

(** What there is for those that wait. *)
Definition blocking_demand (c : queue_cond) (q : Queue) : nat := match c with notEmpty => length (queue_ q) | notFull => 0 end.
Definition blocking_open (c : queue_cond) (q : Queue) : bool := match c with notEmpty => true | notFull => false end.

Lemma blocking_ok calls q q' signals x : fifo q -> blocking_section calls q = (q', signals, x) ->
  section_ok blocking_open blocking_demand asks fifo calls q q' signals x.
Proof.
  intros F. destruct calls as [|[y| |] rest]; simpl.
  - intros [= <- <- <-]. split; try done; [by intros []; auto|]. intros [|] Ho _; [right; counts|done].
  - intros [= <- <- <-]. split; try done; [by apply fifo_push|by intros []; auto|].
    intros [|] Ho _; [right; counts|done].
  - case_decide as Hq; intros [= <- <- <-].
    + split; try done; [|by intros []; auto|].
      * intros c l' [= <- <-]. simpl. by rewrite Hq.
      * intros [|] Ho Nw; [by destruct (Nw (Take :: rest))|done].
    + split; try done; [by apply fifo_pop|by intros []; auto|]. intros [|] Ho _; [right|done].
      pose proof (length_queue q Hq). cbn [blocking_demand]. rewrite length_pop by done. counts.
  - intros [= <- <- <-]. split; try done; [by apply fifo_clear|by intros []; auto|].
    intros [|] Ho _; [right; counts|done].
Qed.

Definition bounded_demand (maxSize : nat) (c : queue_cond) (q : Queue) : nat :=
  match c with notEmpty => length (queue_ q) | notFull => maxSize - length (queue_ q) end.

Definition bounded_wf (maxSize : nat) (q : Queue) : Prop := fifo q /\ (length (queue_ q) <= maxSize)%nat.

Lemma bounded_ok n calls q q' signals x : bounded_wf n q -> bounded_section n calls q = (q', signals, x) ->
  section_ok (fun _ _ => true) (bounded_demand n) asks (bounded_wf n) calls q q' signals x.
Proof.
  intros [F Hn]. destruct calls as [|[y| |] rest]; simpl.
  - intros [= <- <- <-]. split; try done. intros [|] Ho _; right; counts.
  - case_decide as Hq; intros [= <- <- <-].
    + split; try done.
      * intros c l' [= <- <-]. simpl. split; [done|]. split; [lia|done].
      * intros [|] Ho Nw; [right; counts|by destruct (Nw (Put y :: rest))].
    + split; try done.
      * split; [by apply fifo_push|]. simpl. rewrite length_app. simpl. lia.
      * intros [|] Ho _; right; counts.
  - case_decide as Hq; intros [= <- <- <-].
    + split; try done.
      * intros c l' [= <- <-]. simpl. by rewrite Hq.
      * intros [|] Ho Nw; [by destruct (Nw (Take :: rest))|right; counts].
    + pose proof (length_queue q Hq). split; try done.
      * split; [by apply fifo_pop|]. rewrite length_pop by done. lia.
      * intros [|] Ho _; right; cbn [bounded_demand]; rewrite length_pop by done; counts.
  - intros [= <- <- <-]. split; try done. intros [|] Ho _; right; counts.
Qed.
End queues.

(** ** The latch *)

Inductive latch_cond := condition_.
#[export] Instance latch_cond_dec : EqDecision latch_cond.
Proof. solve_decision. Defined.

Inductive latch_call := WaitZero | CountDown.

Record Latch := {
  count_ : Z;
  released : Z;              (* calls of [wait] that have returned *)
}.

Definition Latch_new (count : Z) : Latch := {| count_ := count; released := 0 |}.

Definition latch_section (calls : list latch_call) (s : Latch)
    : Latch * list (signal latch_cond) * next latch_cond (list latch_call) :=
  match calls with
  | [] => (s, [], Finish)
  | WaitZero :: rest =>
      if decide (count_ s > 0) then (s, [], Wait condition_ calls)
      else ({| count_ := count_ s; released := released s + 1 |}, [], Go rest)
  | CountDown :: rest =>
      let s := {| count_ := count_ s - 1; released := released s |} in
      (s, if decide (count_ s = 0) then [NotifyAll condition_] else [], Go rest)
  end.

Definition latch_open (c : latch_cond) (s : Latch) : bool := bool_decide (count_ s > 0).
Definition latch_asks (c : latch_cond) (calls : list latch_call) : bool :=
  match calls with WaitZero :: _ => true | _ => false end.
Definition latch_wf (s : Latch) : Prop := 0 <= released s /\ (released s > 0 -> count_ s <= 0).

Lemma latch_ok calls s s' signals x : latch_wf s -> latch_section calls s = (s', signals, x) ->
  section_ok latch_open (fun _ _ => 0%nat) latch_asks latch_wf calls s s' signals x.
Proof.
  intros [W0 W]. destruct calls as [|[|] rest]; simpl.
  - intros [= <- <- <-]. split; try done; [by left|]. intros c Ho _. right. simpl. lia.
  - case_decide as Hc; intros [= <- <- <-].
    + split; try done; [|by left|].
      * intros [] l' [= <-]. split; [by apply bool_decide_eq_true|done].
      * intros [] Ho Nw. by destruct (Nw (WaitZero :: rest)).
    + split; try done; [split; simpl; lia|by left|]. intros c Ho _. apply bool_decide_eq_true in Ho. cbn in Ho. lia.
  - intros [= <- <- <-]. split; try done.
    + split; simpl; [done|]. intros Hr. specialize (W Hr). lia.
    + intros [] Hc. apply bool_decide_eq_false in Hc. cbn in Hc. destruct (decide (count_ s - 1 = 0)); [by right; left|].
      left. apply bool_decide_eq_false. lia.
    + intros c Ho. apply bool_decide_eq_true in Ho. cbn in Ho. apply bool_decide_eq_true. lia.
    + intros c Ho _. right. destruct rest as [|[]]; simpl; lia.
Qed.

(** ** Properties *)

(** A thread that can go on. *)
Definition idle {C L} (x : status C L) : Prop := match x with Ready _ => False | _ => True end.
#[export] Instance idle_dec {C L} (x : status C L) : Decision (idle x).
Proof. destruct x; apply _. Defined.

Lemma idle_not_ready {C L} (ts : list (status C L)) : Forall idle ts -> Forall (fun x => forall l, x <> Ready l) ts.
Proof. intros F. eapply Forall_impl; [exact F|]. intros x Hx l ->. done. Qed.

(** the bounded queue between any number of threads that put and take, however they
    interleave and wake up: it never holds more than it has room for; things come out in the
    order in which they went in, each once; and no wake-up is lost: when all threads that have
    not finished wait, those that take wait on an empty queue and those that put on a full one. *)
Theorem bounded_queue_correct {T} n (points : list (list (queue_call (T := T)))) m :
  rtc (move_to (bounded_section n)) (start Queue_new points) m ->
  fifo (shared m) /\ (length (queue_ (shared m)) <= n)%nat
  /\ (Forall idle (threads m) -> forall i c calls, threads m !! i = Some (Waiting c calls) ->
        match c with notEmpty => queue_ (shared m) = [] | notFull => length (queue_ (shared m)) = n end).
Proof.
  intros R. destruct (monitor_reach_ok (bounded_section n) (fun _ _ => true) (bounded_demand n) asks (bounded_wf n)
    (bounded_ok n) Queue_new points m) as [[F L] O]; [split; [done|simpl; lia]|done|].
  split; [done|]. split; [done|]. intros N i c calls Hi.
  destruct (stuck _ _ _ m c O (idle_not_ready _ N)) as [_ D].
  { apply existsb_elem. exists i, (Waiting c calls). split; [done|]. by apply bool_decide_eq_true. }
  destruct c; simpl in D; [by apply length_zero_iff_nil|lia].
Qed.

(** The unbounded queue, the same way; [drain] takes everything there is. *)
Lemma blocking_queue_correct {T} (points : list (list (queue_call (T := T)))) m :
  rtc (move_to blocking_section) (start Queue_new points) m ->
  fifo (shared m)
  /\ (Forall idle (threads m) -> forall i c calls, threads m !! i = Some (Waiting c calls) ->
        c = notEmpty /\ queue_ (shared m) = []).
Proof.
  intros R. destruct (monitor_reach_ok blocking_section blocking_open blocking_demand asks fifo
    blocking_ok Queue_new points m) as [F O]; [done|done|].
  split; [done|]. intros N i c calls Hi.
  destruct (stuck _ _ _ m c O (idle_not_ready _ N)) as [Op D].
  { apply existsb_elem. exists i, (Waiting c calls). split; [done|]. by apply bool_decide_eq_true. }
  destruct c; [|done]. split; [done|]. by apply length_zero_iff_nil.
Qed.

(** No [wait] returns before the count is zero, and none sleeps when it is. *)
Lemma latch_correct count (points : list (list latch_call)) m :
  rtc (move_to latch_section) (start (Latch_new count) points) m ->
  (released (shared m) > 0 -> count_ (shared m) <= 0)
  /\ (count_ (shared m) <= 0 -> forall i c calls, threads m !! i <> Some (Waiting c calls)).
Proof.
  intros R. destruct (monitor_reach_ok latch_section latch_open (fun _ _ => 0%nat) latch_asks latch_wf
    latch_ok (Latch_new count) points m) as [[_ W] O]; [split; simpl; lia|done|].
  split; [done|]. intros Hc i c calls Hi. assert (existsb (waits c) (threads m) = true) as E.
  { apply existsb_elem. exists i, (Waiting c calls). split; [done|]. by apply bool_decide_eq_true. }
  rewrite (mo_open _ _ _ _ O c) in E; [done|]. apply bool_decide_eq_false. lia.
Qed.

(** ** A run *)

(** Two that put and two that take, with room for one. *)
Definition four_threads : list (list (queue_call (T := nat))) := [[Put 1%nat; Put 2%nat]; [Put 3%nat]; [Take]; [Take; Take; Take]].
Definition four_moves : list move :=
  [Enter 2 []; Enter 0 [2%nat]; Enter 1 []; Enter 0 []; Spurious 1; Enter 1 []; Enter 2 [1%nat]; Enter 1 []; Enter 3 [0%nat];
   Enter 0 []; Enter 3 []; Enter 3 []; Enter 0 []; Enter 1 []; Enter 2 []].
Definition four_end : Monitor :=
  default (start Queue_new []) (moves (bounded_section 1) four_moves (start Queue_new four_threads)).

Lemma bounded_queue_correct_witness :
  fifo (shared four_end) /\ was_taken (shared four_end) = [1%nat; 3%nat; 2%nat] /\ queue_ (shared four_end) = []
  /\ threads four_end !! 3%nat = Some (Waiting notEmpty [Take]).
Proof.
  assert (rtc (move_to (bounded_section 1)) (start Queue_new four_threads) four_end) as R
    by (apply (moves_reach (bounded_section 1) four_moves _ (start Queue_new four_threads)); [done|vm_compute; reflexivity]).
  destruct (bounded_queue_correct 1 four_threads four_end R) as (F & _ & N).
  split; [exact F|]. split; [vm_compute; reflexivity|]. split; [|vm_compute; reflexivity].
  apply (N ltac:(apply (bool_decide_unpack _); vm_compute; exact I) 3%nat notEmpty [Take]). vm_compute. reflexivity.
Defined.
