(* ===== verification/ThreadPool.v ===== *)
(** * ThreadPool (base/ThreadPool.h, base/ThreadPool.cc)

    Workers that take tasks from a queue, bounded or not, and whoever gives them tasks, other
    threads or the tasks themselves, until someone stops the pool; as a monitor. A task is given
    by the tasks that it passes to [run]; threads are started and joined outside the model. *)

From S2P Require Import Prelude.
From S2P Require Import Monitor.
From S2P Require Import Queues.

Section pool.
Context {Task : Type} (body : Task -> list Task).
Context (maxQueueSize_ : nat).           (* 0 for no bound; set before the start *)

Record Pool := {
  pool_queue : list Task;
  running_ : bool;
  accepted : list Task;                  (* ever queued, in order *)
  begun : list Task;                     (* ever taken by a worker, in order *)
}.

(** After [start]. *)
Definition Pool_started : Pool := {| pool_queue := []; running_ := true; accepted := []; begun := [] |}.

(** Where a thread is: a worker in [runInThread], before its test of [running_] or in [take];
    somewhere in a piece of code that has calls of [run] to make, of a task ([worker]) or of
    another thread; or about to call [stop]. *)
Inductive pool_point :=
| AtLoop
| InTake
| Giving (l : list Task) (worker : bool)
| AtStop.

Definition isFull (s : Pool) : bool := bool_decide (0 < maxQueueSize_ /\ maxQueueSize_ <= length (pool_queue s))%nat.

(** [run], from the lock on: [threads_] is not empty. *)
Definition run (task : Task) (s : Pool) : Pool :=
  {| pool_queue := pool_queue s ++ [task]; running_ := running_ s; accepted := accepted s ++ [task]; begun := begun s |}.

(** [take]: nothing, if the pool was stopped and the queue is empty. *)
Definition take (s : Pool) : option Task * Pool :=
  match pool_queue s with
  | [] => (None, s)
  | task :: l => (Some task, {| pool_queue := l; running_ := running_ s; accepted := accepted s; begun := begun s ++ [task] |})
  end.

Definition stop (s : Pool) : Pool :=
  {| pool_queue := pool_queue s; running_ := false; accepted := accepted s; begun := begun s |}.

Definition pool_section (p : pool_point) (s : Pool) : Pool * list (signal queue_cond) * next queue_cond pool_point :=
  match p with
  | AtLoop => (s, [], if running_ s then Go InTake else Finish)
  | InTake =>
      if decide (pool_queue s = [] /\ running_ s = true) then (s, [], Wait notEmpty InTake)
      else
        let '(task, s') := take s in
        match task with
        | None => (s', [], Go AtLoop)
        | Some t => (s', if decide (0 < maxQueueSize_)%nat then [Notify notFull] else [], Go (Giving (body t) true))
        end
  | Giving [] worker => (s, [], if worker then Go AtLoop else Finish)
  | Giving (t :: l) worker =>
      if decide (isFull s = true /\ running_ s = true) then (s, [], Wait notFull p)
      else if running_ s then (run t s, [Notify notEmpty], Go (Giving l worker))
      else (s, [], Go (Giving l worker))
  | AtStop => (stop s, [NotifyAll notEmpty; NotifyAll notFull], Finish)
  end.

(** ** What keeps it going *)

Definition pool_open (c : queue_cond) (s : Pool) : bool :=
  match c with notEmpty => running_ s | notFull => running_ s && bool_decide (0 < maxQueueSize_)%nat end.

Definition pool_demand (c : queue_cond) (s : Pool) : nat :=
  match c with notEmpty => length (pool_queue s) | notFull => maxQueueSize_ - length (pool_queue s) end.

Definition pool_asks (c : queue_cond) (p : pool_point) : bool :=
  match c, p with
  | notEmpty, InTake | notFull, Giving (_ :: _) _ => true
  | _, _ => false
  end.

(** Each task that was accepted is in the queue or was begun, once and in order; the queue keeps
    its bound. *)
Definition pool_wf (s : Pool) : Prop :=
  accepted s = begun s ++ pool_queue s /\ (0 < maxQueueSize_ -> length (pool_queue s) <= maxQueueSize_)%nat.

Lemma take_some s : pool_queue s <> [] -> exists t, take s
  = (Some t, {| pool_queue := tail (pool_queue s); running_ := running_ s; accepted := accepted s; begun := begun s ++ [t] |})
    /\ pool_queue s = t :: tail (pool_queue s).
Proof. unfold take. destruct (pool_queue s) as [|t l]; [done|]. intros _. by exists t. Qed.

Lemma take_wf s t : pool_wf s -> pool_queue s = t :: tail (pool_queue s) ->
  pool_wf {| pool_queue := tail (pool_queue s); running_ := running_ s; accepted := accepted s; begun := begun s ++ [t] |}.
Proof.
  intros [O B] E. rewrite E in O, B. split; simpl in *; [by rewrite <- app_assoc|]. intros Hm. specialize (B Hm). lia.
Qed.

Lemma run_wf s t : pool_wf s -> isFull s = false -> pool_wf (run t s).
Proof.
  intros [O B] F. split; simpl; [by rewrite O, <- app_assoc|]. intros Hm. apply bool_decide_eq_false in F.
  rewrite length_app. simpl. lia.
Qed.

Lemma pool_ok p s s' signals x : pool_wf s -> pool_section p s = (s', signals, x) ->
  section_ok pool_open pool_demand pool_asks pool_wf p s s' signals x.
Proof.
  intros W. destruct p as [| |[|t l] worker|]; simpl.
  - intros [= <- <- <-]. split; try done; [by destruct (running_ s)|by left|].
    intros [|] Ho _; right; destruct (running_ s); counts.
  - destruct (decide (pool_queue s = [] /\ running_ s = true)) as [[Hq Hr]|Hq].
    + intros [= <- <- <-]. split; try done; [|by left|].
      * intros c l' [= <- <-]. simpl. by rewrite Hq.
      * intros [|] Ho Nw; [by destruct (Nw InTake)|right; counts].
    + destruct (decide (pool_queue s = [])) as [Hn|Hn].
      * assert (running_ s = false) as Hr by (destruct (running_ s); naive_solver).
        unfold take. rewrite Hn. intros [= <- <- <-]. split; try done; [by left|].
        intros [|] Ho _; simpl in Ho; by rewrite Hr in Ho.
      * destruct (take_some s Hn) as (t & -> & E). intros [= <- <- <-].
        split; try done; [by apply take_wf|by left|]. intros [|] Ho _; right; simpl in Ho; cbn [pool_demand pool_queue].
        -- rewrite E. cbn [length tail]. assert (flag (pool_asks notEmpty InTake) = 1%nat) as -> by done. lia.
        -- apply andb_true_iff in Ho as [_ Ho%bool_decide_eq_true]. rewrite decide_True by done. rewrite E. cbn [length tail].
           change (notes notFull [Notify notFull]) with 1%nat. simpl. lia.
  - intros [= <- <- <-]. split; try done; [by destruct worker|by left|].
    intros [|] Ho _; right; destruct worker; counts.
  - destruct (decide (isFull s = true /\ running_ s = true)) as [[Hf Hr]|Hf].
    + intros [= <- <- <-]. pose proof Hf as [Hm Hl]%bool_decide_eq_true. split; try done; [|by left|].
      * intros c l' [= <- <-]. simpl. rewrite Hr. split; [by apply bool_decide_eq_true|]. split; [lia|done].
      * intros [|] Ho Nw; [right; counts|by destruct (Nw (Giving (t :: l) worker))].
    + destruct (running_ s) eqn:Hr; intros [= <- <- <-].
      * assert (isFull s = false) as F by (destruct (isFull s); naive_solver).
        split; try done; [by apply run_wf|by left|]. intros [|] Ho _; right; cbn [pool_demand pool_queue run].
        -- counts.
        -- simpl in Ho. apply andb_true_iff in Ho as [_ Ho%bool_decide_eq_true]. apply bool_decide_eq_false in F.
           rewrite length_app. change (notes notFull [Notify notEmpty]) with 0%nat. simpl. destruct l; simpl; lia.
      * split; try done; [by left|]. intros [|] Ho _; simpl in Ho; by rewrite Hr in Ho.
  - intros [= <- <- <-]. split; try done.
    + intros [|] _; right; [by left|by right; left].
    + by intros [|].
    + by intros [|].
Qed.
(** ** The end of a stopped pool

    What is left to do, as a number: a section of a thread in a stopped pool takes at least one
    off, the tasks that a worker takes from the queue included. *)

Definition point_work (p : pool_point) : nat :=
  match p with AtLoop => 1 | InTake => 2 | Giving l _ => length l + 2 | AtStop => 1 end.

Definition thread_work (x : status queue_cond pool_point) : nat :=
  match x with Ready p | Waiting _ p => point_work p | Finished => 0 end.

Definition queue_work (l : list Task) : nat := sum_list ((fun t => length (body t) + 1) <$> l)%nat.

Definition pool_work (m : Monitor) : nat := (sum_list (thread_work <$> threads m) + queue_work (pool_queue (shared m)))%nat.

Definition awake (x : status queue_cond pool_point) : Prop := match x with Waiting _ _ => False | _ => True end.

(** A stopped pool with nobody waiting. *)
Definition stopped (m : Monitor) : Prop := running_ (shared m) = false /\ Forall awake (threads m).

Lemma stopped_section p s s' signals x : running_ s = false -> pool_section p s = (s', signals, x) ->
  running_ s' = false /\ awake (status_of x)
  /\ (thread_work (status_of x) + queue_work (pool_queue s') < point_work p + queue_work (pool_queue s))%nat.
Proof.
  intros Hr. destruct p as [| |[|t l] worker|]; simpl.
  - rewrite Hr. intros [= <- <- <-]. simpl. repeat split; (done || lia).
  - rewrite decide_False by (rewrite Hr; naive_solver). unfold take. destruct (pool_queue s) as [|t l] eqn:Eq; intros [= <- <- <-]; cbn.
    + rewrite Eq. cbn. repeat split; (done || lia).
    + unfold queue_work. cbn. repeat split; (done || lia).
  - intros [= <- <- <-]. destruct worker; cbn; repeat split; (done || lia).
  - rewrite decide_False, Hr by (rewrite Hr; naive_solver). intros [= <- <- <-]. cbn. repeat split; (done || lia).
  - intros [= <- <- <-]. unfold stop, thread_work, status_of, point_work. cbn [pool_queue running_]. repeat split; (done || lia).
Qed.

(** Signals find nobody. *)
Lemma deliver_awake signals choices (ts : list (status queue_cond pool_point)) : Forall awake ts -> deliver signals choices ts = Some ts.
Proof.
  intros F. assert (forall c, existsb (waits c) ts = false /\ notifyAll c ts = ts) as N.
  { intros c. induction F as [|x ts Hx F [IH1 IH2]]; [done|]. unfold notifyAll in *. rewrite fmap_cons, IH2. cbn [existsb]. rewrite IH1.
    by destruct x. }
  revert choices. induction signals as [|[c|c] l IH]; intros choices; [done|..]; cbn [deliver]; [|by rewrite (proj2 (N c))].
  unfold notify. rewrite (proj1 (N c)). apply IH.
Qed.

Lemma sum_insert l i x y : l !! i = Some x -> (sum_list (<[i := y]> l) + x = sum_list l + y)%nat.
Proof.
  revert i. induction l as [|z l IH]; intros [|i] E; simpl in *; [done|done|injection E as ->; lia|]. specialize (IH i E). lia.
Qed.

Lemma stopped_move m m' : stopped m -> move_to pool_section m m' -> stopped m' /\ (pool_work m' < pool_work m)%nat.
Proof.
  intros [Hr F] [t E]. destruct t as [i choices|i]; simpl in E; destruct (threads m !! i) as [[p|c p|]|] eqn:Ei; try done.
  - destruct (pool_section p (shared m)) as [[s' signals] x] eqn:Es. destruct (stopped_section _ _ _ _ _ Hr Es) as (Hr' & Hx & Hw).
    assert (Forall awake (<[i := status_of x]> (threads m))) as F' by (by apply Forall_insert).
    rewrite deliver_awake in E by done. injection E as <-. split; [by split|]. unfold pool_work. cbn [threads shared].
    pose proof (sum_insert (thread_work <$> threads m) i (point_work p) (thread_work (status_of x))) as S.
    rewrite list_lookup_fmap, Ei, <- list_fmap_insert in S. specialize (S eq_refl). lia.
  - by apply (Forall_lookup_1 _ _ _ _ F) in Ei.
Qed.

(** Every run ends, and where it cannot go on everybody is at the end. *)
Lemma stopped_ends k m m' : stopped m -> nsteps (move_to pool_section) k m m' ->
  (k <= pool_work m)%nat /\ ((forall m'', ~ move_to pool_section m' m'') -> Forall (fun x => x = Finished) (threads m')).
Proof.
  intros St R. induction R as [m|k m m1 m' M R IH].
  - split; [lia|]. intros N. destruct St as [Hr F]. apply Forall_lookup. intros i x Hx. pose proof (Forall_lookup_1 _ _ _ _ F Hx) as A.
    destruct x as [p| |]; [|done..]. exfalso. destruct (pool_section p (shared m)) as [[s' signals] y] eqn:Es.
    destruct (deliver signals [] (<[i := status_of y]> (threads m))) as [ts|] eqn:Ed.
    + apply (N {| shared := s'; threads := ts |}). exists (Enter i []). simpl. by rewrite Hx, Es, Ed.
    + rewrite deliver_awake in Ed; [done|]. apply Forall_insert; [done|]. destruct (stopped_section p _ _ _ _ Hr Es) as (_ & A' & _). exact A'.
  - destruct (stopped_move _ _ St M) as [St1 L]. destruct (IH St1) as [Lk E]. split; [lia|done].
Qed.
End pool.

(** ** Properties *)

(** C26: the pool, with any number of workers and of threads that give it tasks or stop it, and
    tasks that give it more: each task that it accepts is begun at most once, in the order of
    acceptance, and until then is in the queue, which keeps its bound; no wake-up is lost, so
    when nobody can go on, workers wait for an empty queue and givers for a full one; and from
    the moment it is stopped nobody waits any more, no run goes on for longer than a number of
    sections that is known then, [pool_work], and where a run cannot go on every thread has got to
    its end. *)
Theorem thread_pool_correct {Task} (body : Task -> list Task) n points m :
  rtc (move_to (pool_section body n)) (start Pool_started points) m ->
  accepted (shared m) = begun (shared m) ++ pool_queue (shared m)
  /\ (0 < n -> length (pool_queue (shared m)) <= n)%nat
  /\ (Forall idle (threads m) -> forall i c p, threads m !! i = Some (Waiting c p) ->
        match c with notEmpty => pool_queue (shared m) = [] | notFull => length (pool_queue (shared m)) = n end)
  /\ (running_ (shared m) = false -> (forall i c p, threads m !! i <> Some (Waiting c p))
      /\ forall k m', nsteps (move_to (pool_section body n)) k m m' -> (k <= pool_work body m)%nat
           /\ ((forall m'', ~ move_to (pool_section body n) m' m'') -> Forall (fun x => x = Finished) (threads m'))).
Proof.
  intros R. destruct (monitor_reach_ok (pool_section body n) (pool_open n) (pool_demand n) pool_asks (pool_wf n)
    (pool_ok body n) Pool_started points m) as [[W B] O]; [split; [done|simpl; lia]|done|].
  assert (forall i c p, threads m !! i = Some (Waiting c p) -> existsb (waits c) (threads m) = true) as Ex.
  { intros i c p Hi. apply existsb_elem. exists i, (Waiting c p). split; [done|]. by apply bool_decide_eq_true. }
  split; [done|]. split; [done|]. split.
  - intros N i c p Hi%Ex. destruct (stuck _ _ _ m c O (idle_not_ready _ N) Hi) as [Op D].
    destruct c; simpl in D; [by apply length_zero_iff_nil|]. simpl in Op. apply andb_true_iff in Op as [_ Op%bool_decide_eq_true].
    specialize (B Op). lia.
  - intros Hs. assert (forall i c p, threads m !! i <> Some (Waiting c p)) as N.
    { intros i c p Hi%Ex. rewrite (mo_open _ _ _ _ O c) in Hi; [done|]. destruct c; simpl; by rewrite Hs. }
    split; [done|]. intros k m' St. apply stopped_ends; [|done]. split; [done|].
    apply Forall_lookup. intros i [p|c p|] Hi; [done|by apply N in Hi|done].
Qed.

(** ** Runs *)

(** Task 0 gives tasks 1 and 2. *)
Definition small_tasks (t : nat) : list nat := match t with 0%nat => [1%nat; 2%nat] | _ => [] end.

(** Two workers; a thread gives task 0, another one stops the pool. *)
Definition pool_points : list (pool_point (Task := nat)) := [AtLoop; AtLoop; Giving [0%nat] false; AtStop].
Definition pool_moves : list move :=
  [Enter 0 []; Enter 1 []; Enter 0 []; Enter 1 []; Enter 2 [1%nat]; Enter 2 []; Enter 1 [0%nat]; Enter 1 [0%nat]; Enter 0 [0%nat];
   Enter 1 []; Enter 3 []; Enter 0 []; Enter 0 []; Enter 1 []; Enter 1 []].
Definition pool_end : Monitor :=
  default (start Pool_started []) (moves (pool_section small_tasks 1) pool_moves (start Pool_started pool_points)).

Lemma thread_pool_correct_witness :
  accepted (shared pool_end) = [0%nat; 1%nat; 2%nat] /\ begun (shared pool_end) = [0%nat; 1%nat]
  /\ pool_queue (shared pool_end) = [2%nat]
  /\ accepted (shared pool_end) = begun (shared pool_end) ++ pool_queue (shared pool_end).
Proof.
  assert (rtc (move_to (pool_section small_tasks 1)) (start Pool_started pool_points) pool_end) as R
    by (apply (moves_reach (pool_section small_tasks 1) pool_moves _ (start Pool_started pool_points)); [done|vm_compute; reflexivity]).
  destruct (thread_pool_correct small_tasks 1 pool_points pool_end R) as (F & _ & _).
  split; [vm_compute; reflexivity|]. split; [vm_compute; reflexivity|]. split; [vm_compute; reflexivity|exact F].
Defined.

(** A task that gives tasks can block the pool for good: its worker waits for room that only a
    worker could make. *)
Definition blocking_moves : list move := [Enter 1 []; Enter 0 []; Enter 0 []; Enter 0 []; Enter 0 []; Enter 1 []].

Lemma pool_blocks_itself : exists m,
  moves (pool_section small_tasks 1) blocking_moves (start Pool_started [AtLoop; Giving [0%nat] false]) = Some m
  /\ running_ (shared m) = true /\ Forall idle (threads m)
  /\ threads m !! 0%nat = Some (Waiting notFull (Giving [2%nat] true)).
Proof.
  eexists. split; [vm_compute; reflexivity|]. split; [vm_compute; reflexivity|].
  split; [apply (bool_decide_unpack _); vm_compute; exact I|vm_compute; reflexivity].
Qed.
