(* ===== verification/LoopThreads.v ===== *)
(** * Loop threads (net/EventLoopThread.h, net/EventLoopThread.cc, net/EventLoopThreadPool.h, net/EventLoopThreadPool.cc)

    A thread that runs a loop of its own, as a monitor; and the pool that deals connections out
    to several of them. *)

From S2P Require Import Prelude Monitor.

(** ** EventLoopThread *)

Record EventLoopThread := {
  loop_ : option Z;          (* the loop, while its thread has it *)
  quit_ : bool;              (* of the loop *)
  got : option Z;            (* what [startLoop] returned *)
}.

Definition EventLoopThread_new : EventLoopThread := {| loop_ := None; quit_ := false; got := None |}.

Inductive loop_cond := cond_.
#[export] Instance loop_cond_dec : EqDecision loop_cond.
Proof. solve_decision. Defined.

(** The owner's code: [startLoop] and the destructor; the thread's: [threadFunc], [loop.loop()],
    and its end. *)
Inductive loop_point := StartLoop | Destroy | ThreadFunc | Looping | LoopEnds.

Definition loop_section (loop : Z) (p : loop_point) (s : EventLoopThread)
    : EventLoopThread * list (signal loop_cond) * next loop_cond loop_point :=
  match p with
  | StartLoop =>
      match loop_ s with
      | None => (s, [], Wait cond_ StartLoop)
      | Some l => ({| loop_ := loop_ s; quit_ := quit_ s; got := Some l |}, [], Go Destroy)
      end
  | Destroy =>
      match loop_ s with
      | None => (s, [], Finish)
      | Some _ => ({| loop_ := loop_ s; quit_ := true; got := got s |}, [], Finish)
      end
  | ThreadFunc => ({| loop_ := Some loop; quit_ := quit_ s; got := got s |}, [Notify cond_], Go Looping)
  | Looping => (s, [], Go (if quit_ s then LoopEnds else Looping))
  | LoopEnds => ({| loop_ := None; quit_ := quit_ s; got := got s |}, [], Finish)
  end.

(** How far the two have come. *)
Inductive loop_phase (loop : Z) : Monitor -> Prop :=
| phase_starting a : a = Ready StartLoop \/ a = Waiting cond_ StartLoop ->
    loop_phase loop {| shared := EventLoopThread_new; threads := [a; Ready ThreadFunc] |}
| phase_there : loop_phase loop {| shared := {| loop_ := Some loop; quit_ := false; got := None |};
                                  threads := [Ready StartLoop; Ready Looping] |}
| phase_running : loop_phase loop {| shared := {| loop_ := Some loop; quit_ := false; got := Some loop |};
                                    threads := [Ready Destroy; Ready Looping] |}
| phase_ending p : p = Looping \/ p = LoopEnds ->
    loop_phase loop {| shared := {| loop_ := Some loop; quit_ := true; got := Some loop |}; threads := [Finished; Ready p] |}
| phase_over : loop_phase loop {| shared := {| loop_ := None; quit_ := true; got := Some loop |}; threads := [Finished; Finished] |}.

Lemma phase_step loop m m' : loop_phase loop m -> move_to (loop_section loop) m m' -> loop_phase loop m'.
Proof.
  intros P [[i choices|i] E]; destruct P as [a Ha| | |p Hp|]; destruct i as [|[|i]]; try done; cbn in E.
  - destruct Ha as [-> | ->]; [|done]. injection E as <-. constructor. by right.
  - destruct Ha as [-> | ->]; cbn in E.
    + injection E as <-. constructor.
    + destruct choices as [|[|[|j]] choices]; cbn in E; try done; injection E as <-; constructor.
  - injection E as <-. constructor.
  - injection E as <-. constructor.
  - injection E as <-. constructor. by left.
  - injection E as <-. constructor.
  - destruct Hp as [-> | ->]; cbn in E; injection E as <-; [constructor; by right|constructor].
  - destruct Ha as [-> | ->]; [done|]. injection E as <-. constructor. by left.
Qed.

(** [startLoop] returns the loop of the thread, whoever comes first; it does not sleep once the
    loop is there; and when nothing can move both are over. *)
Lemma start_loop_returns loop m : rtc (move_to (loop_section loop)) (start EventLoopThread_new [StartLoop; ThreadFunc]) m ->
  (got (shared m) = None \/ got (shared m) = Some loop)
  /\ (threads m !! 0%nat = Some (Waiting cond_ StartLoop) -> loop_ (shared m) = None /\ threads m !! 1%nat = Some (Ready ThreadFunc))
  /\ (Forall (fun x => forall l, x <> Ready l) (threads m) -> Forall (fun x => x = Finished) (threads m) /\ got (shared m) = Some loop).
Proof.
  intros R. assert (loop_phase loop m) as P.
  { assert (loop_phase loop (start EventLoopThread_new [StartLoop; ThreadFunc])) as P by (constructor; by left). revert P.
    induction R as [|m1 m2 m3 St _ IH]; [done|]. intros P. apply IH. by eapply phase_step. }
  destruct P as [a [-> | ->]| | |p [-> | ->]|]; cbn; (split; [auto|split; [by intros|]]); rewrite !Forall_cons;
    try (intros (H & H' & _); exfalso; (by eapply H) || (by eapply H')). by repeat split.
Qed.

(** ** EventLoopThreadPool *)

Record LoopPool := { baseLoop_ : Z; started_ : bool; numThreads_ : nat; next_ : nat; loops_ : list Z }.

Definition LoopPool_new (baseLoop : Z) : LoopPool :=
  {| baseLoop_ := baseLoop; started_ := false; numThreads_ := 0; next_ := 0; loops_ := [] |}.

Definition setThreadNum (n : nat) (p : LoopPool) : LoopPool :=
  {| baseLoop_ := baseLoop_ p; started_ := started_ p; numThreads_ := n; next_ := next_ p; loops_ := loops_ p |}.

(** [start]; [loop i] is what [startLoop] of the [i]-th thread returns. *)
Definition pool_start (loop : nat -> Z) (p : LoopPool) : outcome LoopPool :=
  if started_ p then Undef AssertFailed
  else Ok {| baseLoop_ := baseLoop_ p; started_ := true; numThreads_ := numThreads_ p; next_ := next_ p;
             loops_ := loops_ p ++ (loop <$> seq 0 (numThreads_ p)) |}.

Definition getNextLoop (p : LoopPool) : outcome (Z * LoopPool) :=
  if started_ p then
    match loops_ p with
    | [] => Ok (baseLoop_ p, p)
    | _ =>
        match loops_ p !! next_ p with
        | None => Undef OutOfBounds
        | Some l =>
            let n := S (next_ p) in
            Ok (l, {| baseLoop_ := baseLoop_ p; started_ := started_ p; numThreads_ := numThreads_ p;
                      next_ := if decide (length (loops_ p) <= n)%nat then 0%nat else n; loops_ := loops_ p |})
        end
    end
  else Undef AssertFailed.

Definition getLoopForHash (hashCode : nat) (p : LoopPool) : outcome Z :=
  match loops_ p with
  | [] => Ok (baseLoop_ p)
  | _ => match loops_ p !! (hashCode mod length (loops_ p))%nat with None => Undef OutOfBounds | Some l => Ok l end
  end.

Definition getAllLoops (p : LoopPool) : outcome (list Z) :=
  if started_ p then Ok (match loops_ p with [] => [baseLoop_ p] | l => l end) else Undef AssertFailed.

(** The loops that a number of calls deal out. *)
Fixpoint next_loops (k : nat) (p : LoopPool) : outcome (list Z * LoopPool) :=
  match k with
  | O => Ok ([], p)
  | S k => '(l, p) ← getNextLoop p; '(ls, p) ← next_loops k p; Ok (l :: ls, p)
  end.

Definition all_loops (p : LoopPool) : list Z := match loops_ p with [] => [baseLoop_ p] | l => l end.

Lemma all_loops_length p : (0 < length (all_loops p))%nat.
Proof. unfold all_loops. destruct (loops_ p); cbn; lia. Qed.

Lemma getNextLoop_ok p : started_ p = true -> (next_ p < length (all_loops p))%nat ->
  exists p', getNextLoop p = Ok (default 0 (all_loops p !! next_ p), p') /\ started_ p' = true /\ all_loops p' = all_loops p
    /\ next_ p' = (S (next_ p) mod length (all_loops p))%nat.
Proof.
  intros S N. unfold getNextLoop, all_loops in *. rewrite S. destruct (loops_ p) as [|x l] eqn:E.
  - cbn in N. exists p. rewrite E. assert (next_ p = 0%nat) as -> by lia. done.
  - destruct (lookup_lt_is_Some_2 _ _ N) as [y Ey]. rewrite Ey. eexists. split; [reflexivity|]. cbn [started_ loops_ next_ baseLoop_].
    do 2 (split; [done|]). case_decide as D.
    + assert (Datatypes.S (next_ p) = length (x :: l)) as -> by lia. by rewrite Nat.Div0.mod_same.
    + rewrite Nat.mod_small; lia.
Qed.

Lemma seq_mod {A} (f : nat -> A) n k a b : n <> 0%nat -> (a mod n = b mod n)%nat ->
  (fun i => f (i mod n)%nat) <$> seq a k = (fun i => f (i mod n)%nat) <$> seq b k.
Proof.
  intros Hn. revert a b. induction k as [|k IH]; intros a b E; [done|]. cbn [seq fmap list_fmap]. rewrite E. f_equal. apply IH.
  rewrite <- (Nat.add_1_l a), <- (Nat.add_1_l b), (Nat.Div0.add_mod 1 a), (Nat.Div0.add_mod 1 b). by rewrite E.
Qed.

(** The pool deals its loops out one after the other, round and round; without threads it is
    the loop of the server. *)
Lemma round_robin k p : started_ p = true -> (next_ p < length (all_loops p))%nat ->
  exists p', next_loops k p = Ok ((fun i => default 0 (all_loops p !! (i mod length (all_loops p))%nat)) <$> seq (next_ p) k, p').
Proof.
  revert p. induction k as [|k IH]; intros p S N; [by exists p|].
  destruct (getNextLoop_ok p S N) as (p1 & E1 & S1 & A1 & N1). pose proof (all_loops_length p) as L.
  destruct (IH p1 S1) as (p2 & E2); [rewrite A1, N1; apply Nat.mod_upper_bound; lia|].
  exists p2. cbn [next_loops]. rewrite E1, outcome_bind_ok, E2, outcome_bind_ok, A1, N1. cbn [seq fmap list_fmap].
  rewrite (Nat.mod_small (next_ p)) by done. do 3 f_equal.
  apply (seq_mod (fun i => default 0 (all_loops p !! i))); [lia|]. by rewrite Nat.Div0.mod_mod.
Qed.

Lemma getLoopForHash_ok h p : getLoopForHash h p = Ok (default 0 (all_loops p !! (h mod length (all_loops p))%nat)).
Proof.
  unfold getLoopForHash, all_loops. destruct (loops_ p) as [|x l]; [cbn [length]; by rewrite Nat.mod_1_r|].
  destruct (lookup_lt_is_Some_2 (x :: l) (h mod length (x :: l))) as [y ->]; [apply Nat.mod_upper_bound; cbn; lia|done].
Qed.
