(* ===== verification/AsyncLogging.v ===== *)
(** * AsyncLogging (base/AsyncLogging.h, base/AsyncLogging.cc, base/LogStream.h)

    Threads append lines to a buffer in memory; the logging thread takes the full buffers away
    and writes them to the file while the others go on in a new one. As a monitor; the log file
    is the bytes handed to it. *)

From S2P Require Import Prelude.
From S2P Require Import Monitor.
From S2P Require Import Queues.

(** ** FixedBuffer *)

Section fixed.
Context (size : Z).

Definition avail (b : bytes) : Z := size - len b.

(** [append]: all or nothing. *)
Definition fixed_append (data b : bytes) : bytes := if decide (avail b > len data) then b ++ data else b.

(** ** State *)

(** Where the logging thread is: before the test of [running_]; before the mutex; back from its
    wait, with the mutex; with buffers to write. *)
Inductive back_place := BackLoop | BackLock | BackSwap | BackWrite.

Record AsyncLogging := {
  running_ : bool;
  currentBuffer_ : bytes;
  nextBuffer_ : option bytes;
  buffers_ : list bytes;
  (** the logging thread's own *)
  back_at : back_place;
  newBuffer1 : option bytes;
  newBuffer2 : option bytes;
  buffersToWrite : list bytes;
  output : bytes;                      (* of LogFile *)
  (** what the threads logged and fitted into a buffer; whether anything was dropped; whether an
      assertion failed *)
  logged : bytes;
  dropped : bool;
  asserted : bool;
}.

(** After the constructor and [start]. *)
Definition AsyncLogging_started : AsyncLogging := {|
  running_ := true; currentBuffer_ := []; nextBuffer_ := Some []; buffers_ := []; back_at := BackLoop;
  newBuffer1 := Some []; newBuffer2 := Some []; buffersToWrite := []; output := []; logged := []; dropped := false;
  asserted := false |}.

(** [append] *)
Definition append (logline : bytes) (s : AsyncLogging) : AsyncLogging * list (signal latch_cond) :=
  let logged' := if decide (len logline < size) then logged s ++ logline else logged s in
  if decide (avail (currentBuffer_ s) > len logline) then
    ({| running_ := running_ s; currentBuffer_ := fixed_append logline (currentBuffer_ s); nextBuffer_ := nextBuffer_ s;
        buffers_ := buffers_ s; back_at := back_at s; newBuffer1 := newBuffer1 s; newBuffer2 := newBuffer2 s;
        buffersToWrite := buffersToWrite s; output := output s; logged := logged'; dropped := dropped s;
        asserted := asserted s |}, [])
  else
    let fresh := default [] (nextBuffer_ s) in
    ({| running_ := running_ s; currentBuffer_ := fixed_append logline fresh; nextBuffer_ := None;
        buffers_ := buffers_ s ++ [currentBuffer_ s]; back_at := back_at s; newBuffer1 := newBuffer1 s;
        newBuffer2 := newBuffer2 s; buffersToWrite := buffersToWrite s; output := output s; logged := logged';
        dropped := dropped s; asserted := asserted s |}, [Notify condition_]).

(** The logging thread's part under the mutex, after the wait. *)
Definition swap_buffers (s : AsyncLogging) : AsyncLogging := {|
  running_ := running_ s; currentBuffer_ := default [] (newBuffer1 s);
  nextBuffer_ := match nextBuffer_ s with Some b => Some b | None => newBuffer2 s end;
  buffers_ := []; back_at := BackWrite; newBuffer1 := None;
  newBuffer2 := match nextBuffer_ s with Some _ => newBuffer2 s | None => None end;
  buffersToWrite := buffers_ s ++ [currentBuffer_ s]; output := output s; logged := logged s; dropped := dropped s;
  asserted := asserted s |}.

(** What it says of dropped buffers: the time in it is the system's. *)
Context (drop_note : nat -> bytes).

(** A fresh buffer, from the back of those that were written if it has none. *)
Definition refill (b : option bytes) (l : list bytes) : option bytes * list bytes * bool :=
  match b with
  | Some b => (Some b, l, true)
  | None => match last l with Some _ => (Some [], removelast l, true) | None => (None, l, false) end
  end.

(** The rest of its turn: writing, and getting its two spare buffers back. *)
Definition write_buffers (s : AsyncLogging) : AsyncLogging :=
  let many := bool_decide (25 < length (buffersToWrite s))%nat in
  let note := if many then drop_note (length (buffersToWrite s) - 2) else [] in
  let kept := if many then take 2 (buffersToWrite s) else buffersToWrite s in
  let out := output s ++ note ++ concat kept in
  let spare := if bool_decide (2 < length kept)%nat then take 2 kept else kept in
  let '(b1, spare, ok1) := refill (newBuffer1 s) spare in
  let '(b2, spare, ok2) := refill (newBuffer2 s) spare in
  {| running_ := running_ s; currentBuffer_ := currentBuffer_ s; nextBuffer_ := nextBuffer_ s; buffers_ := buffers_ s;
     back_at := BackLoop; newBuffer1 := b1; newBuffer2 := b2; buffersToWrite := []; output := out; logged := logged s;
     dropped := dropped s || many; asserted := asserted s || negb (ok1 && ok2) |}.

Definition set_back_at (p : back_place) (s : AsyncLogging) : AsyncLogging := {|
  running_ := running_ s; currentBuffer_ := currentBuffer_ s; nextBuffer_ := nextBuffer_ s; buffers_ := buffers_ s;
  back_at := p; newBuffer1 := newBuffer1 s; newBuffer2 := newBuffer2 s; buffersToWrite := buffersToWrite s;
  output := output s; logged := logged s; dropped := dropped s; asserted := asserted s |}.

Definition fail_assert (b : bool) (s : AsyncLogging) : AsyncLogging := {|
  running_ := running_ s; currentBuffer_ := currentBuffer_ s; nextBuffer_ := nextBuffer_ s; buffers_ := buffers_ s;
  back_at := back_at s; newBuffer1 := newBuffer1 s; newBuffer2 := newBuffer2 s; buffersToWrite := buffersToWrite s;
  output := output s; logged := logged s; dropped := dropped s; asserted := asserted s || negb b |}.

Definition stop_logging (s : AsyncLogging) : AsyncLogging := {|
  running_ := false; currentBuffer_ := currentBuffer_ s; nextBuffer_ := nextBuffer_ s; buffers_ := buffers_ s;
  back_at := back_at s; newBuffer1 := newBuffer1 s; newBuffer2 := newBuffer2 s; buffersToWrite := buffersToWrite s;
  output := output s; logged := logged s; dropped := dropped s; asserted := asserted s |}.

(** A thread that logs lines, the logging thread, and one that calls [stop]: the flag, then the
    notification, without the mutex. *)
Inductive log_point :=
| Logging (lines : list bytes)
| Backend
| Stopping
| Stopped.

Definition backend_section (s : AsyncLogging) : AsyncLogging * list (signal latch_cond) * next latch_cond log_point :=
  match back_at s with
  | BackLoop =>
      if running_ s then
        (set_back_at BackLock
           (fail_assert (bool_decide (newBuffer1 s = Some [] /\ newBuffer2 s = Some [] /\ buffersToWrite s = [])) s), [], Go Backend)
      else (s, [], Finish)
  | BackLock =>
      if decide (buffers_ s = []) then (set_back_at BackSwap s, [], Wait condition_ Backend)
      else (swap_buffers s, [], Go Backend)
  | BackSwap => (swap_buffers s, [], Go Backend)
  | BackWrite => (write_buffers s, [], Go Backend)
  end.

Definition log_section (p : log_point) (s : AsyncLogging)
    : AsyncLogging * list (signal latch_cond) * next latch_cond log_point :=
  match p with
  | Logging [] => (s, [], Finish)
  | Logging (line :: lines) => let '(s', signals) := append line s in (s', signals, Go (Logging lines))
  | Backend => backend_section s
  | Stopping => (stop_logging s, [], Go Stopped)
  | Stopped => (s, [Notify condition_], Finish)
  end.

(** ** The invariant *)

Record logging_ok (s : AsyncLogging) : Prop := {
  lg_assert : asserted s = false;
  lg_next : nextBuffer_ s = Some [] \/ nextBuffer_ s = None /\ buffers_ s <> [];
  lg_back : match back_at s with
            | BackWrite => newBuffer1 s = None /\ (newBuffer2 s = Some [] /\ (1 <= length (buffersToWrite s))%nat
                                                  \/ newBuffer2 s = None /\ (2 <= length (buffersToWrite s))%nat)
            | _ => newBuffer1 s = Some [] /\ newBuffer2 s = Some [] /\ buffersToWrite s = []
            end;
  lg_lines : dropped s = false ->
    logged s = output s ++ concat (buffersToWrite s) ++ concat (buffers_ s) ++ currentBuffer_ s;
}.

Lemma log_append_ok line s s' signals : 0 < size -> logging_ok s -> append line s = (s', signals) -> logging_ok s'.
Proof.
  intros Hs [A N B Li]. unfold append, fixed_append. destruct (decide (avail (currentBuffer_ s) > len line)) as [Ha|Ha];
    intros [= <- _]; split; cbn; try done.
  - intros Hd. pose proof (len_nonneg (currentBuffer_ s)). unfold avail in Ha. rewrite decide_True by lia.
    rewrite (Li Hd), <- !app_assoc. done.
  - right. split; [done|]. by intros [_ [=]]%app_nil.
  - intros Hd. assert (default [] (nextBuffer_ s) = []) as -> by (destruct N as [-> | [-> _]]; done).
    rewrite concat_app, (Li Hd). cbn. rewrite app_nil_r. unfold avail. change (len (@nil byte)) with 0.
    case_decide as H1; [rewrite decide_True by lia; by rewrite <- !app_assoc|].
    rewrite decide_False by lia. by rewrite app_nil_r.
Qed.

Lemma swap_ok s : logging_ok s -> back_at s = BackLock \/ back_at s = BackSwap -> logging_ok (swap_buffers s).
Proof.
  intros [A N B Li] P. assert (newBuffer1 s = Some [] /\ newBuffer2 s = Some [] /\ buffersToWrite s = []) as (B1 & B2 & B3)
    by (by destruct P as [P|P]; rewrite P in B).
  split; cbn; [done| | |].
  - left. destruct N as [-> |[-> _]]; done.
  - split; [done|]. rewrite length_app. cbn. destruct N as [-> |[-> Nb]]; [left; split; [done|lia]|right].
    split; [done|]. destruct (buffers_ s); [done|]. cbn. lia.
  - intros Hd. rewrite (Li Hd), B1, B3, concat_app. cbn. by rewrite !app_nil_r.
Qed.

Lemma refill_some l : (1 <= length l)%nat -> exists l', refill None l = (Some [], l', true) /\ length l' = (length l - 1)%nat.
Proof.
  intros Hl. destruct l as [|x l _] using rev_ind; [simpl in Hl; lia|]. unfold refill. rewrite last_snoc. exists l.
  rewrite removelast_last, length_app. simpl. split; [done|lia].
Qed.

Lemma log_write_ok s : logging_ok s -> back_at s = BackWrite -> logging_ok (write_buffers s).
Proof.
  intros [A N B Li] P. rewrite P in B. destruct B as [B1 B2]. unfold write_buffers.
  set (many := bool_decide (25 < length (buffersToWrite s))%nat).
  set (kept := if many then take 2 (buffersToWrite s) else buffersToWrite s).
  set (spare := if bool_decide (2 < length kept)%nat then take 2 kept else kept).
  assert (length spare = Nat.min 2 (length (buffersToWrite s)))%nat as Hl.
  { unfold spare, kept, many. repeat case_bool_decide; rewrite ?length_take in *; lia. }
  rewrite B1. destruct (refill_some spare) as (l1 & -> & L1); [lia|].
  assert (exists l2, refill (newBuffer2 s) l1 = (Some [], l2, true)) as (l2 & ->).
  { destruct B2 as [[-> _]|[-> L2]]; [by exists l1|]. destruct (refill_some l1) as (l2 & -> & _); [lia|]. by exists l2. }
  split; cbn; [by rewrite A|done|done|]. intros [Hd Hm]%orb_false_iff. unfold kept. rewrite Hm, (Li Hd). cbn.
  by rewrite <- !app_assoc.
Qed.

Lemma log_section_ok p s s' signals x : 0 < size -> logging_ok s -> log_section p s = (s', signals, x) -> logging_ok s'.
Proof.
  intros Hs O. destruct p as [[|line lines]| | |]; simpl.
  - by intros [= <- _ _].
  - destruct (append line s) as [s1 l1] eqn:E. intros [= <- _ _]. by eapply log_append_ok.
  - pose proof O as [A N B Li]. unfold backend_section. destruct (back_at s) eqn:P.
    + destruct (running_ s); intros [= <- _ _]; [|done]. split; cbn; try done. by rewrite A, bool_decide_true.
    + case_decide; intros [= <- _ _]; [by split|]. apply swap_ok; auto.
    + intros [= <- _ _]. apply swap_ok; auto.
    + intros [= <- _ _]. by apply log_write_ok.
  - intros [= <- _ _]. by destruct O.
  - by intros [= <- _ _].
Qed.

(** C27: what the log promises. Whatever threads log lines while the logging thread swaps and
    writes buffers, whenever it wakes up, and whoever stops it: none of its assertions fails, it
    never lacks a spare buffer; and as long as it has not had to drop any (more than 25 buffers
    piled up), the file followed by what is still in memory is exactly the lines that threads
    have logged, in their order, those excepted that no buffer can hold. *)
Theorem log_in_order points m : 0 < size -> rtc (move_to log_section) (start AsyncLogging_started points) m ->
  asserted (shared m) = false
  /\ (dropped (shared m) = false -> logged (shared m)
      = output (shared m) ++ concat (buffersToWrite (shared m)) ++ concat (buffers_ (shared m)) ++ currentBuffer_ (shared m)).
Proof.
  intros Hs R. assert (logging_ok (shared m)) as [A _ _ Li]; [|by split].
  apply (shared_reach log_section logging_ok AsyncLogging_started points m); [|intros; by eapply log_section_ok|done].
  split; cbn; try done. by left.
Qed.
End fixed.

Definition kLargeBuffer : Z := 4000 * 1000.

(** ** Runs *)

Definition no_note (n : nat) : bytes := bs "Dropped\n".

(** Small buffers, two threads that log; the logging thread writes, and is stopped while it
    does: the last line is not in the file when all is over. *)
Definition log_points : list log_point := [Logging [bs "one "; bs "two "]; Logging [bs "three "]; Backend; Stopping].
Definition log_moves : list move :=
  [Enter 2 []; Enter 2 []; Enter 0 []; Enter 1 [2%nat]; Enter 2 []; Enter 0 []; Enter 3 []; Enter 2 []; Enter 2 []; Enter 3 []; Enter 0 []; Enter 1 []].
Definition log_end : Monitor :=
  default (start AsyncLogging_started []) (moves (log_section 10 no_note) log_moves (start AsyncLogging_started log_points)).

Lemma log_end_reach : rtc (move_to (log_section 10 no_note)) (start AsyncLogging_started log_points) log_end.
Proof.
  apply (moves_reach (log_section 10 no_note) log_moves _ (start AsyncLogging_started log_points)); [done|vm_compute; reflexivity].
Qed.

Lemma log_in_order_witness :
  asserted (shared log_end) = false /\ logged (shared log_end) = output (shared log_end) ++ bs "two ".
Proof.
  destruct (log_in_order 10 no_note log_points log_end ltac:(lia) log_end_reach) as [A L].
  split; [exact A|]. exact (L eq_refl).
Defined.

(** What is logged while the logging thread is writing is lost when it is stopped then: [loop]
    leaves without another swap. *)
Lemma stop_loses_lines :
  Forall (fun x => x = Finished) (threads log_end) /\ dropped (shared log_end) = false
  /\ logged (shared log_end) = bs "one three two " /\ output (shared log_end) = bs "one three ".
Proof. split; [vm_compute; repeat constructor|]. split; [vm_compute; reflexivity|]. split; vm_compute; reflexivity. Qed.
