(* ===== verification/LogStream.v ===== *)
(** * LogStream (base/LogStream.h, base/LogStream.cc)

    Items are formatted into a buffer of fixed size; one that does not fit is left out. *)

From S2P Require Import Prelude Bytes Text Monitor Queues AsyncLogging.

(** ** Numbers *)

(** [zero], the middle of [digits]: indices from -9 to 9. *)
Definition zero (lsd : Z) : byte := default Byte.x00 (bs "9876543210123456789" !! Z.to_nat (lsd + 9)).
Definition digitsHex (lsd : Z) : byte := default Byte.x00 (bs "0123456789ABCDEF" !! Z.to_nat lsd).

(** The loop of [convert]: the digits, the last one first. Remainders have the number's sign. *)
Fixpoint convert_digits (fuel : nat) (i : Z) : bytes :=
  match fuel with
  | O => []
  | S fuel => zero (Z.rem i 10) :: (if decide (i ÷ 10 = 0) then [] else convert_digits fuel (i ÷ 10))
  end.

(** [convert]; twenty turns are enough for 64 bits. *)
Definition convert (value : Z) : bytes :=
  rev (convert_digits 20 value ++ (if decide (value < 0) then bs "-" else [])).

Fixpoint hex_loop (fuel : nat) (i : Z) : bytes :=
  match fuel with
  | O => []
  | S fuel => digitsHex (i mod 16) :: (if decide (i / 16 = 0) then [] else hex_loop fuel (i / 16))
  end.

(** [convertHex], of a pointer. *)
Definition convertHex (value : Z) : bytes := rev (hex_loop 16 value).

Lemma zero_digit r : -9 <= r <= 9 -> zero r = chr (48 + Z.abs r).
Proof.
  intros Hr. assert (r = -9 \/ r = -8 \/ r = -7 \/ r = -6 \/ r = -5 \/ r = -4 \/ r = -3 \/ r = -2 \/ r = -1 \/ r = 0 \/ r = 1
    \/ r = 2 \/ r = 3 \/ r = 4 \/ r = 5 \/ r = 6 \/ r = 7 \/ r = 8 \/ r = 9) as M by lia.
  repeat destruct M as [-> | M]; [reflexivity..|by subst].
Qed.

Lemma dec_digits_S f n acc : dec_digits (S f) n acc
  = if decide (n / 10 = 0) then chr (48 + n mod 10) :: acc else dec_digits f (n / 10) (chr (48 + n mod 10) :: acc).
Proof. done. Qed.

Lemma convert_digits_abs fuel i acc : rev (convert_digits fuel i) ++ acc = dec_digits fuel (Z.abs i) acc.
Proof.
  revert i acc. induction fuel as [|fuel IH]; intros i acc; [done|]. cbn [convert_digits dec_digits rev].
  rewrite zero_digit by dlia. rewrite <- app_assoc. cbn [app].
  assert (Z.abs (Z.rem i 10) = Z.abs i mod 10) as -> by dlia.
  assert (Z.abs (i ÷ 10) = Z.abs i / 10) as Ed by dlia.
  rewrite dec_digits_S. destruct (decide (i ÷ 10 = 0)) as [E|E].
  - rewrite decide_True by lia. done.
  - rewrite decide_False by lia. by rewrite IH, Ed.
Qed.

(** It is the decimal text, of the least number too. *)
Lemma convert_dec v : convert v = to_dec v.
Proof.
  unfold convert, to_dec. rewrite rev_app_distr. pose proof (convert_digits_abs 20 v []) as E. rewrite app_nil_r in E.
  case_decide; cbn [rev bs app]; rewrite E; [rewrite Z.abs_neq by lia|rewrite Z.abs_eq by lia]; done.
Qed.

Lemma length_convert_digits fuel i : (length (convert_digits fuel i) <= fuel)%nat.
Proof. revert i. induction fuel as [|fuel IH]; intros i; [done|]. cbn. case_decide; cbn; [lia|]. specialize (IH (i ÷ 10)). lia. Qed.

Lemma length_convert v : (length (convert v) <= 21)%nat.
Proof.
  unfold convert. rewrite length_rev, length_app. pose proof (length_convert_digits 20 v) as L.
  generalize dependent (convert_digits 20 v). intros l L. case_decide; cbn; lia.
Qed.

Lemma length_hex_loop fuel i : (length (hex_loop fuel i) <= fuel)%nat.
Proof. revert i. induction fuel as [|fuel IH]; intros i; [done|]. cbn. case_decide; cbn; [lia|]. specialize (IH (i / 16)). lia. Qed.

(** ** The stream *)

Definition kSmallBuffer : Z := 4000.
Definition kMaxNumericSize : Z := 48.

(** What is logged with [<<]: an integer of any width, a pointer, a character, a string; a C
    string, which may be null. *)
Inductive log_item :=
| LogInt (v : Z)
| LogPtr (p : Z)
| LogChar (c : byte)
| LogText (s : bytes)
| LogCStr (s : option bytes).

(** Written straight into the buffer where there is room for the longest number. *)
Definition formatNumber (text b : bytes) : bytes :=
  if decide (avail kSmallBuffer b >= kMaxNumericSize) then b ++ text else b.

(** [operator<<] *)
Definition put_item (b : bytes) (i : log_item) : bytes :=
  match i with
  | LogInt v => formatNumber (convert v) b
  | LogPtr p => formatNumber (bs "0x" ++ convertHex p) b
  | LogChar c => fixed_append kSmallBuffer [c] b
  | LogText s => fixed_append kSmallBuffer s b
  | LogCStr (Some s) => fixed_append kSmallBuffer (c_str s) b
  | LogCStr None => fixed_append kSmallBuffer (bs "(null)") b
  end.

Definition put_items (b : bytes) (l : list log_item) : bytes := fold_left put_item l b.

(** ** What gets into it *)

Definition item_text (i : log_item) : bytes :=
  match i with
  | LogInt v => to_dec v
  | LogPtr p => bs "0x" ++ convertHex p
  | LogChar c => [c]
  | LogText s => s
  | LogCStr s => match s with Some s => c_str s | None => bs "(null)" end
  end.

(** The room an item asks for. *)
Definition item_room (i : log_item) : Z :=
  match i with LogInt _ | LogPtr _ => kMaxNumericSize | _ => len (item_text i) + 1 end.

Lemma item_room_text i : len (item_text i) < item_room i.
Proof.
  destruct i as [v|p|c|s|s]; cbn [item_text item_room]; try lia.
  - rewrite <- convert_dec. pose proof (length_convert v). unfold len, kMaxNumericSize. lia.
  - rewrite len_app. unfold convertHex, len. rewrite length_rev. pose proof (length_hex_loop 16 p) as L.
    generalize dependent (hex_loop 16 p). intros l L. change (length (bs "0x")) with 2%nat. unfold kMaxNumericSize. lia.
Qed.

Lemma put_item_eq b i : put_item b i = if decide (item_room i <= kSmallBuffer - len b) then b ++ item_text i else b.
Proof.
  destruct i as [v|p|c|s|[s|]]; cbn [put_item item_text item_room]; unfold formatNumber, fixed_append, avail; rewrite ?convert_dec;
    apply decide_ext; lia.
Qed.

Fixpoint taken (b : Z) (l : list log_item) : list log_item :=
  match l with
  | [] => []
  | i :: l => if decide (item_room i <= kSmallBuffer - b) then i :: taken (b + len (item_text i)) l else taken b l
  end.

Lemma put_items_eq b l : put_items b l = b ++ (taken (len b) l ≫= item_text).
Proof.
  revert b. induction l as [|i l IH]; intros b; [by rewrite app_nil_r|]. unfold put_items in *. cbn [fold_left taken].
  rewrite put_item_eq. case_decide.
  - rewrite IH, len_app. change ((i :: ?t) ≫= item_text) with (item_text i ++ (t ≫= item_text)). by rewrite app_assoc.
  - apply IH.
Qed.

Lemma put_items_bound b l : len b < kSmallBuffer -> len (put_items b l) < kSmallBuffer.
Proof.
  revert b. induction l as [|i l IH]; intros b Hb; [done|]. unfold put_items in *. cbn [fold_left]. apply IH. rewrite put_item_eq.
  case_decide; [|done]. rewrite len_app. pose proof (item_room_text i). lia.
Qed.

(** As long as there is room for one more number, nothing is left out. *)
Lemma taken_all b l : 0 <= b -> b + len (l ≫= item_text) + kMaxNumericSize <= kSmallBuffer -> taken b l = l.
Proof.
  revert b. induction l as [|i l IH]; intros b Hb; [done|]. change ((i :: l) ≫= item_text) with (item_text i ++ (l ≫= item_text)).
  rewrite len_app. intros Hl. cbn [taken]. pose proof (len_nonneg (item_text i)). pose proof (len_nonneg (l ≫= item_text)).
  rewrite decide_True, IH; [done|lia|lia|]. destruct i; cbn [item_room item_text] in *; unfold kMaxNumericSize, kSmallBuffer in *; lia.
Qed.
