(* ===== verification/TimeText.v ===== *)
(** * The text of times (base/Timestamp.cc, base/Date.cc, base/LogFile.cc)

    Numbers at a width, as [printf] pads them, the C library's broken-down time, and the texts of
    time stamps, dates and log file names. *)

From S2P Require Import Prelude Bytes Text Timestamp Date TimeZone TimeZoneProofs.

(** ** Padding *)

(** [%0nd] and [%nd]. *)
Definition fmt_0d (n : nat) (v : Z) : bytes :=
  let sign := if decide (v < 0) then bs "-" else [] in
  let digits := dec_digits 20 (Z.abs v) [] in
  sign ++ replicate (n - length sign - length digits) (chr 48) ++ digits.
Definition fmt_d (n : nat) (v : Z) : bytes := replicate (n - length (to_dec v)) (chr 32) ++ to_dec v.

Lemma read_zeros k a s : read_digits 0 (replicate k (chr 48) ++ s) = a -> read_digits 0 s = a.
Proof. induction k as [|k IH]; [done|]. cbn [replicate app read_digits]. intros E. apply IH. exact E. Qed.

Lemma length_fmt_0d n v : 0 <= v < 10 ^ Z.of_nat (S n) -> length (fmt_0d (S n) v) = S n.
Proof.
  intros Hv. unfold fmt_0d. rewrite decide_False, Z.abs_eq by lia. cbn [app]. pose proof (length_dec_digits 20 v [] n Hv) as L.
  cbn [length] in L. rewrite length_app, length_replicate. change (length (@nil byte)) with 0%nat. lia.
Qed.

(** What was padded can be read again. *)
Lemma read_fmt_0d n v : 0 <= v < 10 ^ 20 -> read_digits 0 (fmt_0d n v) = v.
Proof.
  intros Hv. unfold fmt_0d. rewrite decide_False, Z.abs_eq by lia. cbn [app]. rewrite <- (read_to_dec v Hv) at 3.
  symmetry. by eapply read_zeros.
Qed.

Lemma fmt_0d_inj n v w : 0 <= v < 10 ^ 20 -> 0 <= w < 10 ^ 20 -> fmt_0d n v = fmt_0d n w -> v = w.
Proof. intros Hv Hw E. by rewrite <- (read_fmt_0d n v), <- (read_fmt_0d n w), E. Qed.

Lemma fmt_0d_no_nul n v : 0 <= v -> Byte.x00 ∉ fmt_0d n v.
Proof.
  intros Hv. unfold fmt_0d. rewrite decide_False by lia. cbn [app]. intros [H|H]%elem_of_app.
  - by apply elem_of_replicate in H as [H _].
  - pose proof (dec_digits_digits 20 (Z.abs v) [] ltac:(lia) ltac:(constructor)) as D. rewrite Forall_forall in D.
    by specialize (D _ H).
Qed.

Lemma to_dec_inj v w : is_i64 v -> is_i64 w -> to_dec v = to_dec w -> v = w.
Proof. intros Hv Hw E. by rewrite <- (strtol_to_dec v), <- (strtol_to_dec w), E. Qed.

(** ** Broken-down time *)

Record tm := { tm_year : Z; tm_mon : Z; tm_mday : Z; tm_hour : Z; tm_min : Z; tm_sec : Z }.

(** [gmtime_r]: years from 1900 and months from 0. *)
Definition gmtime_r (t : Z) : outcome tm :=
  dt ← toUtcTime t;
  Ok {| tm_year := dt_year dt - 1900; tm_mon := dt_month dt - 1; tm_mday := dt_day dt; tm_hour := hour dt; tm_min := minute dt;
        tm_sec := second dt |}.

(** [Timestamp::toString] *)
Definition toString (microSecondsSinceEpoch_ : Z) : bytes :=
  snprintf 32 (to_dec (microSecondsSinceEpoch_ ÷ kMicroSecondsPerSecond) ++ bs "."
               ++ fmt_0d 6 (Z.rem microSecondsSinceEpoch_ kMicroSecondsPerSecond)).

(** The date and the time of day, with the year and month as given. *)
Definition stamp (year : bytes) (mon : Z) (t : tm) : bytes :=
  year ++ fmt_0d 2 mon ++ fmt_0d 2 (tm_mday t) ++ bs " " ++ fmt_0d 2 (tm_hour t) ++ bs ":" ++ fmt_0d 2 (tm_min t) ++ bs ":"
  ++ fmt_0d 2 (tm_sec t).

(** [Timestamp::toFormattedString] *)
Definition toFormattedString (microSecondsSinceEpoch_ : Z) (showMicroseconds : bool) : outcome bytes :=
  t ← gmtime_r (microSecondsSinceEpoch_ ÷ kMicroSecondsPerSecond);
  let text := stamp (fmt_d 4 (tm_year t + 1900)) (tm_mon t + 1) t in
  Ok (snprintf 64 (if showMicroseconds
                   then text ++ bs "." ++ fmt_0d 6 (Z.rem microSecondsSinceEpoch_ kMicroSecondsPerSecond) else text)).

(** [Date::toIsoString] *)
Definition toIsoString (julianDayNumber_ : Z) : outcome bytes :=
  ymd ← getYearMonthDay julianDayNumber_;
  Ok (snprintf 32 (fmt_d 4 (year ymd) ++ bs "-" ++ fmt_0d 2 (month ymd) ++ bs "-" ++ fmt_0d 2 (day ymd))).

(** [strftime] with [.%Y%m%d-%H%M%S.], as in the names of log files. *)
Definition file_time (t : tm) : bytes :=
  bs "." ++ to_dec (tm_year t + 1900) ++ fmt_0d 2 (tm_mon t + 1) ++ fmt_0d 2 (tm_mday t) ++ bs "-" ++ fmt_0d 2 (tm_hour t)
  ++ fmt_0d 2 (tm_min t) ++ fmt_0d 2 (tm_sec t) ++ bs ".".

Example toString_1 : toString 1234567890000042 = bs "1234567890.000042". Proof. reflexivity. Qed.
Example toFormattedString_1 : toFormattedString 1234567890000042 true = Ok (bs "20090213 23:31:30.000042").
Proof. vm_compute. reflexivity. Qed.
Example toIsoString_1 : toIsoString 2440588 = Ok (bs "1970-01-01"). Proof. vm_compute. reflexivity. Qed.

(** ** Ranges *)

Definition tm_ok (t : tm) : Prop :=
  0 <= tm_mon t < 12 /\ 1 <= tm_mday t <= 31 /\ 0 <= tm_hour t < 24 /\ 0 <= tm_min t < 60 /\ 0 <= tm_sec t <= 60.

Lemma month_days_31 y m : month_days y m <= 31.
Proof. unfold month_days. repeat case_match; lia. Qed.

Definition tm_of (dt : DateTime) : tm :=
  {| tm_year := dt_year dt - 1900; tm_mon := dt_month dt - 1; tm_mday := dt_day dt; tm_hour := hour dt; tm_min := minute dt;
     tm_sec := second dt |}.

Lemma gmtime_ok t : in_days t -> exists dt, a_time dt /\ seconds_of dt = t /\ gmtime_r t = Ok (tm_of dt) /\ tm_ok (tm_of dt).
Proof.
  intros Ht. destruct (every_second t Ht) as (dt & V & E). exists dt. split; [done|]. split; [done|]. unfold gmtime_r, toUtcTime.
  rewrite <- E, BreakTime_ok, outcome_bind_ok by done. split; [done|]. destruct V as ([Hm Hd] & _ & H1 & H2 & H3).
  pose proof (month_days_31 (year (date_of dt)) (month (date_of dt))). cbn [date_of year month day] in *. unfold tm_ok, tm_of.
  cbn [tm_mon tm_mday tm_hour tm_min tm_sec]. lia.
Qed.

(** Two fields of one length at the end of a text. *)
Lemma fmt_tail n v w a b : 0 <= v < 10 ^ Z.of_nat (S n) -> 0 <= w < 10 ^ Z.of_nat (S n) -> (n < 19)%nat ->
  a ++ fmt_0d (S n) v = b ++ fmt_0d (S n) w -> a = b /\ v = w.
Proof.
  intros Hv Hw Hn E. apply app_inj_2 in E as [-> E]; [|by rewrite !length_fmt_0d].
  split; [done|]. assert (10 ^ Z.of_nat (S n) <= 10 ^ 20) by (apply Z.pow_le_mono_r; lia). apply fmt_0d_inj in E; lia.
Qed.

#[local] Ltac two E F := apply fmt_tail in E as [E F]; [|change (10 ^ Z.of_nat 2) with 100; lia..|lia].

(** The time in a file's name tells the second. *)
Lemma file_time_inj s t a b : in_days s -> in_days t -> gmtime_r s = Ok a -> gmtime_r t = Ok b -> file_time a = file_time b -> s = t.
Proof.
  intros Hs Ht Ea Eb E. destruct (gmtime_ok s Hs) as (da & Va & <- & Ga & Ra). destruct (gmtime_ok t Ht) as (db & Vb & <- & Gb & Rb).
  rewrite Ga in Ea. rewrite Gb in Eb. injection Ea as <-. injection Eb as <-. unfold tm_ok in Ra, Rb. unfold file_time in E.
  apply app_inv_head in E. rewrite !app_assoc in E. apply app_inv_tail in E.
  two E E1.
  two E E2.
  two E E3.
  apply app_inv_tail in E.
  two E E4.
  two E E5.
  assert (forall d, a_time d -> is_i64 (tm_year (tm_of d) + 1900)) as Y.
  { intros d (_ & R & _). unfold in_range in R. apply is_i64_lit. cbn [tm_of tm_year date_of year] in *. lia. }
  apply to_dec_inj in E as E6; [|by apply Y..].
  unfold tm_of in *. cbn [tm_year tm_mon tm_mday tm_hour tm_min tm_sec] in *. destruct da, db. cbn in *. f_equal. f_equal; lia.
Qed.
