(* ===== verification/Logging.v ===== *)
(** * Logging (base/Logging.h, base/Logging.cc)

    A log statement: the line it formats, with the time, the thread, the level and the place in
    the source, and what it hands to the output. *)

From S2P Require Import Prelude Bytes Text AsyncLogging LogStream Timestamp Date TimeZone TimeZoneProofs TimeText.

(** ** Levels *)

Inductive LogLevel := TRACE | DEBUG | INFO | WARN | ERROR | FATAL.

#[export] Instance LogLevel_eq_dec : EqDecision LogLevel.
Proof. solve_decision. Defined.

Definition level_number (l : LogLevel) : Z :=
  match l with TRACE => 0 | DEBUG => 1 | INFO => 2 | WARN => 3 | ERROR => 4 | FATAL => 5 end.

Definition LogLevelName (l : LogLevel) : bytes :=
  bs match l with TRACE => "TRACE " | DEBUG => "DEBUG " | INFO => "INFO  " | WARN => "WARN  " | ERROR => "ERROR " | FATAL => "FATAL " end.

(** From the two environment variables. *)
Definition initLogLevel (MUDUO_LOG_TRACE MUDUO_LOG_DEBUG : bool) : LogLevel :=
  if MUDUO_LOG_TRACE then TRACE else if MUDUO_LOG_DEBUG then DEBUG else INFO.

(** The statements of a program. *)
Inductive log_macro := LOG_TRACE | LOG_DEBUG | LOG_INFO | LOG_WARN | LOG_ERROR | LOG_FATAL | LOG_SYSERR | LOG_SYSFATAL.

Definition macro_level (m : log_macro) : LogLevel :=
  match m with
  | LOG_TRACE => TRACE | LOG_DEBUG => DEBUG | LOG_INFO => INFO | LOG_WARN => WARN
  | LOG_ERROR | LOG_SYSERR => ERROR | LOG_FATAL | LOG_SYSFATAL => FATAL
  end.

(** Whether it makes a [Logger] at all; the level is looked at for the first three only. *)
Definition enabled (g_logLevel : LogLevel) (m : log_macro) : bool :=
  match m with
  | LOG_TRACE | LOG_DEBUG | LOG_INFO => level_number g_logLevel <=? level_number (macro_level m)
  | _ => true
  end.

(** [SourceFile]: what follows the last slash. *)
Fixpoint after_slash (found s : bytes) : bytes :=
  match s with
  | [] => found
  | c :: s => after_slash (if decide (c = chr 47) then s else found) s
  end.
Definition SourceFile (name : bytes) : bytes := after_slash name name.

(** ** The thread *)

(** The time as text of the last second that the thread has logged in. *)
Record TimeCache := { t_lastSecond : Z; t_time : bytes }.

Definition TimeCache_new : TimeCache := {| t_lastSecond := 0; t_time := [] |}.

(** [cacheTid]: [snprintf] with [%5d ]. *)
Definition tidString (tid : Z) : bytes := snprintf 32 (fmt_d 5 tid ++ bs " ").

(** What a statement finds: the clock in microseconds, [localtime] of [time(NULL)], [errno], the
    zone of the log if one is set. *)
Record moment := { now : Z; wall : tm; the_errno : Z; g_logTimeZone : option Data }.

(** [T]: a string with its length, which is asserted. *)
Definition T_item (s : bytes) (n : Z) : outcome log_item :=
  if decide (len (c_str s) = n) then Ok (LogText (c_str s)) else Undef AssertFailed.

(** [%04u] of an [int], and the rest as it is. *)
Definition log_time (t : tm) : bytes := stamp (fmt_0d 4 (to_u32 (tm_year t))) (tm_mon t) t.

(** [formatTime]: the two items it puts. *)
Definition formatTime (m : moment) (c : TimeCache) : outcome (TimeCache * list log_item) :=
  let seconds := now m ÷ kMicroSecondsPerSecond in
  let microseconds := Z.rem (now m) kMicroSecondsPerSecond in
  c ← (if decide (seconds = t_lastSecond c) then Ok c
       else
         _ ← match g_logTimeZone m with
             | Some d => r ← toLocalTime d seconds; Ok r.1
             | None => toUtcTime seconds
             end;
         if decide (len (log_time (wall m)) = 17)
         then Ok {| t_lastSecond := seconds; t_time := snprintf 64 (log_time (wall m)) |}
         else Undef AssertFailed);
  let '(us, n) := match g_logTimeZone m with
                  | Some _ => (bs "." ++ fmt_0d 6 microseconds ++ bs " ", 8)
                  | None => (bs "." ++ fmt_0d 6 microseconds ++ bs "Z ", 9)
                  end in
  if decide (len us = n) then
    t ← T_item (t_time c) 17;
    u ← T_item us n;
    Ok (c, [t; u])
  else Undef AssertFailed.

Section thread.
Context (strerror : Z -> bytes) (tid : Z).

(** The items of [strerror_tl(savedErrno) << " (errno=" << savedErrno << ") "]. *)
Definition errno_items (savedErrno : Z) : list log_item :=
  if decide (savedErrno = 0) then []
  else [LogCStr (Some (strerror savedErrno)); LogCStr (Some (bs " (errno=")); LogInt savedErrno; LogCStr (Some (bs ") "))].

(** [Logger::Impl::Impl] *)
Definition Impl (level : LogLevel) (savedErrno : Z) (m : moment) (c : TimeCache) : outcome (TimeCache * bytes) :=
  '(c, items) ← formatTime m c;
  tids ← T_item (tidString tid) (len (tidString tid));
  name ← T_item (LogLevelName level) 6;
  Ok (c, put_items [] (items ++ [tids; name] ++ errno_items savedErrno)).

(** [finish] *)
Definition finish (basename_ : bytes) (line_ : Z) (stream_ : bytes) : bytes :=
  put_items stream_ [LogCStr (Some (bs " - ")); LogText basename_; LogChar (chr 58); LogInt line_; LogChar (chr 10)].

(** A statement at a place of the source. *)
Record statement := { macro : log_macro; file : bytes; line : Z; func : bytes; items : list log_item }.

(** What happens to the output. *)
Inductive log_effect := g_output (text : bytes) | g_flush | aborts.

(** The constructor that the macro chooses, [<<] with the items, the destructor. *)
Definition log_statement (g_logLevel : LogLevel) (s : statement) (m : moment) (c : TimeCache) : outcome (TimeCache * list log_effect) :=
  if enabled g_logLevel (macro s) then
    let level := macro_level (macro s) in
    let savedErrno := match macro s with LOG_SYSERR | LOG_SYSFATAL => the_errno m | _ => 0 end in
    let own := match macro s with LOG_TRACE | LOG_DEBUG => [LogCStr (Some (func s)); LogChar (chr 32)] | _ => [] end in
    '(c, stream) ← Impl level savedErrno m c;
    let stream := finish (SourceFile (file s)) (line s) (put_items (put_items stream own) (items s)) in
    Ok (c, g_output stream :: (if decide (level = FATAL) then [g_flush; aborts] else []))
  else Ok (c, []).

(** ** The line *)

Definition cache_ok (c : TimeCache) : Prop := t_lastSecond c = 0 \/ len (t_time c) = 17 /\ Byte.x00 ∉ t_time c.

(** What the C library promises of the wall clock. *)
Definition wall_ok (t : tm) : Prop := tm_ok t /\ 0 <= tm_year t < 8100.

(** The zone of the log, if set, has a local time for the moment. *)
Definition zone_works (m : moment) : Prop :=
  match g_logTimeZone m with
  | Some d => exists r, toLocalTime d (now m ÷ kMicroSecondsPerSecond) = Ok r
  | None => True
  end.

(** The text of the second: what the thread has kept, or the wall clock's. *)
Definition second_text (m : moment) (c : TimeCache) : bytes :=
  if decide (now m ÷ kMicroSecondsPerSecond = t_lastSecond c) then t_time c else log_time (wall m).

(** The parts of the line. *)
Definition clock_items (m : moment) (c : TimeCache) : list log_item :=
  [LogText (second_text m c);
   LogText (bs "." ++ fmt_0d 6 (Z.rem (now m) kMicroSecondsPerSecond)
            ++ match g_logTimeZone m with Some _ => bs " " | None => bs "Z " end)].
Definition head_items (s : statement) (m : moment) (c : TimeCache) : list log_item :=
  clock_items m c ++ [LogText (tidString tid); LogText (LogLevelName (macro_level (macro s)))].
Definition line_items (s : statement) (m : moment) (c : TimeCache) : list log_item :=
  head_items s m c
  ++ errno_items (match macro s with LOG_SYSERR | LOG_SYSFATAL => the_errno m | _ => 0 end)
  ++ (match macro s with LOG_TRACE | LOG_DEBUG => [LogCStr (Some (func s)); LogChar (chr 32)] | _ => [] end)
  ++ items s
  ++ [LogCStr (Some (bs " - ")); LogText (SourceFile (file s)); LogChar (chr 58); LogInt (line s); LogChar (chr 10)].

Definition full_line (s : statement) (m : moment) (c : TimeCache) : bytes := line_items s m c ≫= item_text.

(** ** Proofs *)

Lemma log_time_ok t : wall_ok t -> len (log_time t) = 17 /\ Byte.x00 ∉ log_time t.
Proof.
  intros ((Hmo & Hd & Hh & Hm & Hs) & Hy). unfold log_time, stamp. unfold to_u. rewrite Z.mod_small by lia. split.
  - rewrite !len_app. unfold len. rewrite !length_fmt_0d; [done|..]; change (10 ^ Z.of_nat 2) with 100; change (10 ^ Z.of_nat 4) with 10000; lia.
  - rewrite !not_elem_of_app. repeat split; try (apply fmt_0d_no_nul; lia); by apply (bool_decide_unpack _).
Qed.

Lemma T_item_ok s n : len s = n -> Byte.x00 ∉ s -> T_item s n = Ok (LogText s).
Proof. intros L N. unfold T_item. by rewrite c_str_id, decide_True. Qed.

Lemma micro_text m mark k : 0 <= now m -> Byte.x00 ∉ mark -> len mark = k ->
  let us := bs "." ++ fmt_0d 6 (Z.rem (now m) kMicroSecondsPerSecond) ++ mark in len us = 7 + k /\ T_item us (7 + k) = Ok (LogText us).
Proof.
  intros Hn N Hk us. assert (0 <= Z.rem (now m) kMicroSecondsPerSecond < 1000000) as R
    by (unfold kMicroSecondsPerSecond; change (1000 * 1000) with 1000000; dlia).
  assert (len us = 7 + k) as L.
  { unfold us. rewrite !len_app, Hk. unfold len at 2. rewrite length_fmt_0d by (change (10 ^ Z.of_nat 6) with 1000000; lia).
    change (len (bs ".")) with 1. lia. }
  split; [done|]. apply T_item_ok; [done|]. unfold us. rewrite !not_elem_of_app. split; [by apply (bool_decide_unpack _)|].
  split; [apply fmt_0d_no_nul; lia|done].
Qed.

Lemma time_items m c : 1000000 <= now m < 2 ^ 63 -> cache_ok c -> wall_ok (wall m) -> zone_works m ->
  exists c', formatTime m c = Ok (c', clock_items m c) /\ cache_ok c'
    /\ t_lastSecond c' = now m ÷ kMicroSecondsPerSecond /\ t_time c' = second_text m c.
Proof.
  intros Hn C W Zw. set (sec := now m ÷ kMicroSecondsPerSecond). pose proof (log_time_ok _ W) as [L N].
  assert (1 <= sec <= 9223372036855) as Hsec by (unfold sec, kMicroSecondsPerSecond; change (1000 * 1000) with 1000000; dlia).
  exists {| t_lastSecond := sec; t_time := second_text m c |}.
  assert (len (second_text m c) = 17 /\ Byte.x00 ∉ second_text m c) as [L' N'].
  { unfold second_text. case_decide as E; [|done]. destruct C as [C|C]; [fold sec in E; lia|done]. }
  split; [|split; [by right|done]]. unfold formatTime. fold sec.
  match goal with |- context [?x ≫= _] => assert (x = Ok {| t_lastSecond := sec; t_time := second_text m c |}) as -> end.
  { unfold second_text. fold sec. case_decide as E; [by destruct c; cbn in *; subst|].
    rewrite decide_True by done. assert (snprintf 64 (log_time (wall m)) = log_time (wall m)) as ->
      by (apply take_ge; unfold len in L; lia).
    unfold zone_works in Zw. fold sec in Zw. destruct (g_logTimeZone m) as [d|]; [by destruct Zw as [r ->]|].
    destruct (every_second sec) as (dt & V & Es); [unfold kJulianDayOf1970_01_01; dlia|]. unfold toUtcTime.
    by rewrite <- Es, BreakTime_ok. }
  rewrite outcome_bind_ok. unfold clock_items. cbn [t_time].
  destruct (g_logTimeZone m) as [d|];
    [destruct (micro_text m (bs " ") 1) as [E F]|destruct (micro_text m (bs "Z ") 2) as [E F]]; try lia; try done;
    try by apply (bool_decide_unpack _).
  - change (7 + 1) with 8 in *. rewrite decide_True by exact E. rewrite (T_item_ok (second_text m c)), outcome_bind_ok, F by done. done.
  - change (7 + 2) with 9 in *. rewrite decide_True by exact E. rewrite (T_item_ok (second_text m c)), outcome_bind_ok, F by done. done.
Qed.

Lemma length_fmt_d n v : is_i64 v -> (length (fmt_d n v) <= n + 21)%nat.
Proof.
  intros Hv. unfold fmt_d. rewrite <- convert_dec. pose proof (length_convert v). rewrite length_app, length_replicate. lia.
Qed.

Lemma tid_text : is_i64 tid -> len (tidString tid) <= 27 /\ T_item (tidString tid) (len (tidString tid)) = Ok (LogText (tidString tid)).
Proof.
  intros Ht. split.
  - unfold tidString, snprintf, len. rewrite length_take, length_app. pose proof (length_fmt_d 5 tid Ht).
    change (length (bs " ")) with 1%nat. lia.
  - apply T_item_ok; [done|]. unfold tidString, snprintf. intros H. apply subseteq_take in H. unfold fmt_d in H. rewrite !elem_of_app in H. destruct H as [[H|H]|H].
    + by apply elem_of_replicate in H as [H _].
    + by apply to_dec_no_nul in H.
    + revert H. by apply (bool_decide_unpack _).
Qed.

Lemma put_items_app b l l' : put_items b (l ++ l') = put_items (put_items b l) l'.
Proof. apply fold_left_app. Qed.

(** The stream of an enabled statement. *)
Lemma statement_stream g s m c : is_i64 tid -> 1000000 <= now m < 2 ^ 63 -> cache_ok c -> wall_ok (wall m) -> zone_works m ->
  enabled g (macro s) = true ->
  exists c', log_statement g s m c = Ok (c', g_output (put_items [] (line_items s m c))
                                          :: (if decide (macro_level (macro s) = FATAL) then [g_flush; aborts] else []))
    /\ cache_ok c' /\ t_lastSecond c' = now m ÷ kMicroSecondsPerSecond /\ t_time c' = second_text m c.
Proof.
  intros Ht Hn C W Zw E. destruct (time_items m c Hn C W Zw) as (c' & Ef & C' & Es & Et). exists c'. split; [|done].
  destruct (tid_text Ht) as [_ Ti]. unfold log_statement, Impl. rewrite E, Ef, outcome_bind_ok. cbv beta iota zeta.
  rewrite Ti, outcome_bind_ok. assert (T_item (LogLevelName (macro_level (macro s))) 6 = Ok (LogText (LogLevelName (macro_level (macro s))))) as ->
    by (by destruct (macro s)). rewrite !outcome_bind_ok.
  unfold finish, line_items, head_items. by rewrite <- !put_items_app, <- !app_assoc.
Qed.

Lemma taken_sublist b l : taken b l `sublist_of` l.
Proof. revert b. induction l as [|i l IH]; intros b; cbn [taken]; [done|]. case_decide; by constructor. Qed.

Lemma taken_app b l l' : 0 <= b -> b + len (l ≫= item_text) + kMaxNumericSize <= kSmallBuffer ->
  taken b (l ++ l') = l ++ taken (b + len (l ≫= item_text)) l'.
Proof.
  revert b. induction l as [|i l IH]; intros b Hb; [by rewrite Z.add_0_r|]. change ((i :: l) ≫= item_text) with (item_text i ++ (l ≫= item_text)).
  rewrite len_app. intros Hl. cbn [taken app]. pose proof (len_nonneg (item_text i)). pose proof (len_nonneg (l ≫= item_text)).
  rewrite decide_True, IH by (try lia; destruct i; cbn [item_room item_text] in *; unfold kMaxNumericSize, kSmallBuffer in *; lia).
  f_equal. f_equal. f_equal. lia.
Qed.

Lemma head_fits s m c : is_i64 tid -> 1000000 <= now m < 2 ^ 63 -> cache_ok c -> wall_ok (wall m) ->
  len (head_items s m c ≫= item_text) <= 100.
Proof.
  intros Ht Hn C W. destruct (tid_text Ht) as [L _]. destruct (log_time_ok _ W) as [L' _].
  assert (len (second_text m c) = 17) as L2.
  { unfold second_text. case_decide as E; [|done]. destruct C as [C|[C _]]; [|done].
    unfold kMicroSecondsPerSecond in E. change (1000 * 1000) with 1000000 in E. dlia. }
  unfold head_items, clock_items. cbn [app mbind list_bind item_text]. rewrite !len_app, L2.
  assert (len (LogLevelName (macro_level (macro s))) = 6) as -> by (by destruct (macro s)).
  assert (len (fmt_0d 6 (Z.rem (now m) kMicroSecondsPerSecond)) = 6) as ->.
  { unfold len. rewrite length_fmt_0d; [done|]. change (10 ^ Z.of_nat 6) with 1000000. unfold kMicroSecondsPerSecond.
    change (1000 * 1000) with 1000000. dlia. }
  change (len (bs ".")) with 1. change (len (@nil byte)) with 0.
  destruct (g_logTimeZone m); [change (len (bs " ")) with 1|change (len (bs "Z ")) with 2]; lia.
Qed.

(** C29: a log statement. One of a level that is logged never fails an assertion: it formats one line
    of less than the buffer's size, which starts with the time, the thread and the level, is made
    of whole items in their order, and of all of them (up to the place in the source and the end
    of the line) when there is room for one more number; hands it to the output once; and a fatal
    one then flushes and aborts. One that is not logged does nothing. The thread keeps the text of
    the second. *)
Theorem log_line_exact g s m c : is_i64 tid -> 1000000 <= now m < 2 ^ 63 -> cache_ok c -> wall_ok (wall m) -> zone_works m ->
  exists c' effects, log_statement g s m c = Ok (c', effects) /\ cache_ok c'
    /\ if enabled g (macro s) then
         exists l, effects = g_output (l ≫= item_text) :: (if decide (macro_level (macro s) = FATAL) then [g_flush; aborts] else [])
           /\ len (l ≫= item_text) < kSmallBuffer
           /\ head_items s m c `prefix_of` l /\ l `sublist_of` line_items s m c
           /\ (len (full_line s m c) + kMaxNumericSize <= kSmallBuffer -> l = line_items s m c)
           /\ t_lastSecond c' = now m ÷ kMicroSecondsPerSecond /\ t_time c' = second_text m c
       else c' = c /\ effects = [].
Proof.
  intros Ht Hn C W Zw. destruct (enabled g (macro s)) eqn:E; [|exists c, []; unfold log_statement; by rewrite E].
  destruct (statement_stream g s m c Ht Hn C W Zw E) as (c' & Es & C' & E1 & E2). eexists c', _. split; [exact Es|]. split; [done|].
  exists (taken 0 (line_items s m c)). pose proof (put_items_eq [] (line_items s m c)) as P. change (len (@nil byte)) with 0 in P. cbn [app] in P. rewrite P.
  split; [done|]. split; [rewrite <- P; by apply put_items_bound|]. split.
  - pose proof (head_fits s m c Ht Hn C W). unfold line_items. rewrite taken_app by (unfold kSmallBuffer, kMaxNumericSize; lia).
    by apply prefix_app_r.
  - split; [apply taken_sublist|]. split; [|done]. intros F. by apply taken_all.
Qed.

End thread.

(** ** At work *)

Definition some_strerror (e : Z) : bytes := if decide (e = 104) then bs "Connection reset by peer" else bs "Unknown error".

Definition read_error : statement :=
  {| macro := LOG_SYSERR; file := bs "/root/net/TcpConnection.cc"; line := 372; func := bs "handleRead";
     items := [LogText (bs "TcpConnection::handleRead")] |}.

(** The 1st of March 2024, half past noon. *)
Definition a_moment : moment :=
  {| now := 1709296200000042; wall := tm_of {| dt_year := 2024; dt_month := 3; dt_day := 1; hour := 12; minute := 30; second := 0 |};
     the_errno := 104; g_logTimeZone := None |}.

(** The year and month are those of [struct tm]: 0124 for 2024, 02 for March. *)
Lemma log_line_exact_witness :
  exists c, log_statement some_strerror 77 INFO read_error a_moment TimeCache_new
    = Ok (c, [g_output (bs "01240201 12:30:00.000042Z    77 ERROR Connection reset by peer (errno=104) TcpConnection::handleRead - TcpConnection.cc:372" ++ [chr 10])]).
Proof.
  destruct (log_line_exact some_strerror 77 INFO read_error a_moment TimeCache_new) as (c & e & E & _ & l & -> & _ & _ & _ & F & _).
  - apply is_i64_lit. lia.
  - cbn. lia.
  - by left.
  - unfold wall_ok, tm_ok. cbn. lia.
  - exact I.
  - exists c. rewrite E. rewrite F by (apply (bool_decide_unpack _); vm_compute; exact I). vm_compute. reflexivity.
Defined.
