(* ===== verification/Poller.v ===== *)
(** * Pollers (net/Poller.h, net/Poller.cc)

    What the loop needs of its poller, as a class, and what the poller promises: an abstract
    table of the channels it knows, with the events each is watched for. EPollPoller and
    PollPoller are the two instances. Channels are objects on a heap that the loop and the
    poller share; the poller keeps its index in them. *)

From S2P Require Import Prelude.

(** A channel, as the poller sees it. *)
Record Chan := {
  ch_fd : Z;
  ch_events : Z;
  ch_index : Z;
  ch_revents : Z;
}.

Definition set_index (i : Z) (c : Chan) : Chan :=
  {| ch_fd := ch_fd c; ch_events := ch_events c; ch_index := i; ch_revents := ch_revents c |}.
Definition set_revents (r : Z) (c : Chan) : Chan :=
  {| ch_fd := ch_fd c; ch_events := ch_events c; ch_index := ch_index c; ch_revents := r |}.
Definition set_wanted (e : Z) (c : Chan) : Chan :=
  {| ch_fd := ch_fd c; ch_events := e; ch_index := ch_index c; ch_revents := ch_revents c |}.

(** [Channel::isNoneEvent] *)
Definition isNoneEvent (c : Chan) : bool := ch_events c =? 0.

(** The constructor of [Channel]. *)
Definition Chan_new (fd : Z) : Chan := {| ch_fd := fd; ch_events := 0; ch_index := -1; ch_revents := 0 |}.

Abbreviation Chans := (gmap Z Chan).

(** Code on the channels and a poller. *)
Definition PM (P A : Type) : Type := M (Chans * P) A.

Section ops.
Context {P : Type}.

Definition chan (p : Z) : PM P Chan := fun s =>
  match s.1 !! p with Some c => Ok (c, s) | None => Undef Dangling end.
Definition change_chan (p : Z) (f : Chan -> Chan) : PM P unit := modify (fun s => (alter f p s.1, s.2)).
Definition change_poller (f : P -> P) : PM P unit := modify (fun s => (s.1, f s.2)).
Definition check (b : bool) : PM P unit := if b then mret tt else undef AssertFailed.
End ops.

(** [updateChannel], [removeChannel] and [poll], on a list of ready descriptors with what is
    ready on each; the channels that [poll] reports. [interest] is what the system watches for
    the poller: by descriptor, the events and the channel. *)
Class Poller (P : Type) := {
  updateChannel : Z -> PM P unit;
  removeChannel : Z -> PM P unit;
  poll : list (Z * Z) -> PM P (list Z);
  interest : P -> gmap Z (Z * Z);
}.

(** [Channel::enableReading] and the like: new events, and [update()]. *)
Definition watch `{Poller P} (p e : Z) : PM P unit :=
  _ ← change_chan p (set_wanted e);
  updateChannel p.

(** ** The abstract table

    By descriptor, the channel and its events; 0 for a channel that is known and not watched. *)

Abbreviation Table := (gmap Z (Z * Z)).

Inductive poller_call :=
| Watch (p fd e : Z)          (* channel [p], on descriptor [fd] *)
| Forget (p fd : Z).

Definition table_step (k : poller_call) (t : Table) : Table :=
  match k with
  | Watch p fd e => <[fd := (p, e)]> t
  | Forget p fd => delete fd t
  end.

(** How channels are used: one per descriptor, entered to be watched for something, not
    disabled twice over, removed when it is not watched, and not entered again then; [old] are
    those removed. *)
Definition allowed (t : Table) (old : gset Z) (cs : Chans) (k : poller_call) : Prop :=
  match k with
  | Watch p fd e =>
      0 <= fd /\ 0 <= e < 2 ^ 15
      /\ match t !! fd with
         | None => e <> 0 /\ p ∉ old /\ match cs !! p with
                                        | Some c => ch_fd c = fd
                                        | None => False
                                        end /\ map_Forall (fun _ x => x.1 <> p) t
         | Some (q, e0) => q = p /\ (e0 <> 0 \/ e <> 0)
         end
  | Forget p fd => t !! fd = Some (p, 0)
  end.

Definition retire (k : poller_call) (old : gset Z) : gset Z :=
  match k with Watch _ _ _ => old | Forget p _ => {[p]} ∪ old end.

#[export] Instance allowed_dec t old cs k : Decision (allowed t old cs k).
Proof.
  destruct k; cbn; [|apply _]. apply and_dec; [apply _|]. apply and_dec; [apply _|].
  destruct (t !! fd) as [[q e0]|]; [apply _|].
  apply and_dec; [apply _|]. apply and_dec; [apply _|]. apply and_dec; [|apply _]. destruct (cs !! p); apply _.
Defined.

(** What is watched according to the table. *)
Definition watched (t : Table) : gmap Z (Z * Z) :=
  omap (fun x => if decide (x.2 = 0) then None else Some (x.2, x.1)) t.

Lemma watched_lookup t fd e p : watched t !! fd = Some (e, p) <-> t !! fd = Some (p, e) /\ e <> 0.
Proof.
  unfold watched. rewrite lookup_omap. destruct (t !! fd) as [[q e0]|]; cbn; [|naive_solver].
  case_decide; naive_solver.
Qed.

Lemma watched_insert t fd p e :
  watched (<[fd := (p, e)]> t) = if decide (e = 0) then delete fd (watched t) else <[fd := (e, p)]> (watched t).
Proof. unfold watched. rewrite omap_insert. cbn. by case_decide. Qed.

Lemma watched_delete t fd : watched (delete fd t) = delete fd (watched t).
Proof. apply omap_delete. Qed.

(** A report of the system: each descriptor once, watched, with something ready. *)
Definition report_ok (t : Table) (ready : list (Z * Z)) : Prop :=
  NoDup ready.*1 /\ Forall (fun x => is_Some (watched t !! x.1) /\ 0 < x.2 < 2 ^ 15) ready.

#[export] Instance report_ok_dec t ready : Decision (report_ok t ready).
Proof. unfold report_ok. apply _. Defined.

(** The channels do not change but for what the poller writes into them. *)
Definition same_chans (cs cs' : Chans) : Prop :=
  forall p, (fun c => (ch_fd c, ch_events c)) <$> cs' !! p = (fun c => (ch_fd c, ch_events c)) <$> cs !! p.

Lemma same_chans_refl cs : same_chans cs cs.
Proof. done. Qed.

(** A change that keeps descriptor and events. *)
Lemma same_chans_insert cs p c c' : cs !! p = Some c -> ch_fd c' = ch_fd c -> ch_events c' = ch_events c ->
  same_chans cs (<[p := c']> cs).
Proof.
  intros E E1 E2 q. destruct (decide (p = q)) as [<-|Ne]; [|by rewrite lookup_insert_ne].
  rewrite lookup_insert_eq, E. cbn. by rewrite E1, E2.
Qed.

(** What a report writes into the channels: [set_revents], each once. *)
Definition reported (evs : list (Z * Z)) (cs : Chans) : Chans :=
  fold_left (fun cs x => alter (set_revents x.1) x.2 cs) evs cs.

(** All else in a channel. *)
Definition settled (c : Chan) : Z * Z * Z := (ch_fd c, ch_events c, ch_index c).

Lemma reported_settled evs cs p : settled <$> reported evs cs !! p = settled <$> cs !! p.
Proof.
  revert cs. induction evs as [|[r q] evs IH]; intros cs; [done|]. unfold reported in *. cbn [fold_left fst snd].
  rewrite IH. destruct (decide (q = p)) as [->|Ne]; [|by rewrite lookup_alter_ne].
  rewrite lookup_alter_eq. by destruct (cs !! p).
Qed.

Lemma reported_same evs cs : same_chans cs (reported evs cs).
Proof.
  intros p. pose proof (reported_settled evs cs p) as E. destruct (reported evs cs !! p), (cs !! p); simplify_eq/=; try done.
  unfold settled in E. congruence.
Qed.

Lemma reported_other evs cs p : p ∉ evs.*2 -> reported evs cs !! p = cs !! p.
Proof.
  revert cs. induction evs as [|[r q] evs IH]; intros cs N; [done|]. unfold reported in *. cbn [fold_left fst snd].
  rewrite fmap_cons in N. apply not_elem_of_cons in N as [Ne N]. rewrite IH by done. by apply lookup_alter_ne.
Qed.

Lemma reported_is evs cs r p : NoDup evs.*2 -> (r, p) ∈ evs -> is_Some (cs !! p) -> ch_revents <$> reported evs cs !! p = Some r.
Proof.
  revert cs. induction evs as [|[r' q] evs IH]; intros cs N H S; [set_solver|].
  rewrite fmap_cons in N. apply NoDup_cons in N as [Nq N]. cbn [snd] in Nq.
  unfold reported in *. cbn [fold_left fst snd]. apply elem_of_cons in H as [[= -> ->]|H].
  - pose proof (reported_other evs (alter (set_revents r') q cs) q Nq) as E. unfold reported in E. rewrite E.
    rewrite lookup_alter_eq. destruct S as [c ->]. done.
  - apply IH; [done..|]. rewrite lookup_alter_ne; [done|]. intros ->. apply Nq, list_elem_of_fmap. by exists (r, p).
Qed.

Lemma chan_ok {P} p (c : Chan) (cs : Chans) (x : P) : cs !! p = Some c -> chan p (cs, x) = Ok (c, (cs, x)).
Proof. unfold chan. cbn. by intros ->. Qed.

Lemma change_chan_ok {P} p f (c : Chan) (cs : Chans) (x : P) : cs !! p = Some c ->
  change_chan p f (cs, x) = Ok (tt, (<[p := f c]> cs, x)).
Proof. intros E. unfold change_chan, modify. cbn. by rewrite (alter_some _ _ _ c). Qed.

Lemma change_poller_ok {P} (f : P -> P) (cs : Chans) (x : P) : change_poller f (cs, x) = Ok (tt, (cs, f x)).
Proof. done. Qed.

Lemma check_ok {P} (b : bool) (s : Chans * P) : b = true -> check b s = Ok (tt, s).
Proof. by intros ->. Qed.

(** Takes an assertion that holds. *)
Ltac pass H :=
  match goal with
  | |- context [(check ?b ≫= ?k) ?s] =>
      change ((check b ≫= k) s) with (match check b s with
                                      | Ok (a, s') => k a s' | Throw e => Throw e | Undef u => Undef u end);
      rewrite (check_ok b s H)
  end; cbv beta iota zeta.

(** ** The promise *)

Class PollerSpec (P : Type) `{Poller P} := {
  (** what relates channels and poller to the table and the channels removed from it *)
  polls : Table -> gset Z -> Chans -> P -> Prop;
  polls_interest : forall t old cs x, polls t old cs x -> interest x = watched t;
  polls_watch : forall t old cs x p fd e, polls t old cs x -> allowed t old cs (Watch p fd e) ->
    exists cs' x', watch p e (cs, x) = Ok (tt, (cs', x')) /\ polls (<[fd := (p, e)]> t) old cs' x'
      /\ same_chans (alter (set_wanted e) p cs) cs';
  polls_forget : forall t old cs x p fd, polls t old cs x -> allowed t old cs (Forget p fd) ->
    exists cs' x', removeChannel p (cs, x) = Ok (tt, (cs', x'))
      /\ polls (delete fd t) ({[p]} ∪ old) cs' x' /\ same_chans cs cs';
  polls_poll : forall t old cs x ready, polls t old cs x -> report_ok t ready ->
    exists active cs' x', poll ready (cs, x) = Ok (active, (cs', x')) /\ polls t old cs' x' /\ same_chans cs cs'
      /\ NoDup active /\ (ready <> [] -> active <> [])
      /\ forall p, p ∈ active -> exists fd e r, t !! fd = Some (p, e) /\ (fd, r) ∈ ready
           /\ ch_revents <$> cs' !! p = Some r;
}.

(** ** Runs *)

Section runs.
Context `{PollerSpec P}.

Definition poller_step (k : poller_call) : PM P unit :=
  match k with
  | Watch p fd e => watch p e
  | Forget p fd => removeChannel p
  end.

Definition poller_run (ks : list poller_call) : PM P unit := for_each poller_step ks.

(** Calls that are allowed one after the other. *)
Fixpoint allowed_all (ks : list poller_call) (t : Table) (old : gset Z) (cs : Chans) : Prop :=
  match ks with
  | [] => True
  | k :: ks' =>
      allowed t old cs k
      /\ allowed_all ks' (table_step k t) (retire k old)
           (match k with Watch p _ e => alter (set_wanted e) p cs | Forget _ _ => cs end)
  end.

#[export] Instance allowed_all_dec ks t old cs : Decision (allowed_all ks t old cs).
Proof. revert t old cs. induction ks; intros; cbn; apply _. Defined.

Definition table_run (ks : list poller_call) (t : Table) : Table := fold_left (fun t k => table_step k t) ks t.

Lemma same_chans_alter cs cs' p e : same_chans cs cs' ->
  same_chans (alter (set_wanted e) p cs) (alter (set_wanted e) p cs').
Proof.
  intros S q. specialize (S q). destruct (decide (p = q)) as [<-|Ne].
  - rewrite !lookup_alter_eq. destruct (cs !! p), (cs' !! p); simplify_eq/=; congruence.
  - by rewrite !lookup_alter_ne.
Qed.

Lemma same_chans_trans cs1 cs2 cs3 : same_chans cs1 cs2 -> same_chans cs2 cs3 -> same_chans cs1 cs3.
Proof. intros S1 S2 p. by rewrite S2, S1. Qed.

Lemma allowed_same t old cs cs' k : same_chans cs cs' -> allowed t old cs k -> allowed t old cs' k.
Proof.
  intros S. destruct k as [p fd e|]; cbn; [|done]. intros (? & ? & A). do 2 (split; [done|]).
  destruct (t !! fd); [done|]. destruct A as (? & ? & A & ?). do 2 (split; [done|]). split; [|done].
  specialize (S p). destruct (cs !! p), (cs' !! p); simplify_eq/=; congruence.
Qed.

Lemma allowed_all_same ks t old cs cs' : same_chans cs cs' -> allowed_all ks t old cs -> allowed_all ks t old cs'.
Proof.
  revert t old cs cs'. induction ks as [|k ks IH]; intros t old cs cs' S; [done|]. intros [A As].
  split; [by eapply allowed_same|]. eapply IH, As. destruct k; [by apply same_chans_alter|done].
Qed.

Definition retired (ks : list poller_call) (old : gset Z) : gset Z := fold_left (fun o k => retire k o) ks old.

Lemma poller_run_ok ks t old cs x : polls t old cs x -> allowed_all ks t old cs ->
  exists cs' x', poller_run ks (cs, x) = Ok (tt, (cs', x')) /\ polls (table_run ks t) (retired ks old) cs' x'.
Proof.
  revert t old cs x. induction ks as [|k ks IH]; intros t old cs x Po A; [by exists cs, x|].
  destruct A as [Ak A]. unfold poller_run. cbn [for_each]. destruct k as [p fd e|p fd]; cbn [poller_step].
  - destruct (polls_watch _ _ _ _ _ _ _ Po Ak) as (cs1 & x1 & E & P1 & S). step E.
    apply (IH _ _ cs1 x1 P1). by eapply allowed_all_same.
  - destruct (polls_forget _ _ _ _ _ _ Po Ak) as (cs1 & x1 & E & P1 & S). step E.
    apply (IH _ _ cs1 x1 P1). by eapply allowed_all_same.
Qed.
End runs.
