(* ===== verification/EPollPoller.v ===== *)
(** * EPollPoller (net/poller/EPollPoller.h, net/poller/EPollPoller.cc)

    The poller over [epoll]. The system's side, the interest list of the [epoll] descriptor, is
    the class [Epoll]: its calls on an abstract state, with what their manual pages say. *)

From S2P Require Import Prelude Poller.

Inductive ctl_op := EPOLL_CTL_ADD | EPOLL_CTL_MOD | EPOLL_CTL_DEL.

(** [epoll_list]: by descriptor, the events and the [data.ptr] it was entered with. Entering
    fails for a descriptor that is on the list, the other two for one that is not; the list is
    not short of memory. [epoll_wait] gives the events of the descriptors that are ready, at
    most as many as asked for. *)
Class Epoll (K : Type) := {
  epoll_ctl : ctl_op -> Z -> Z -> Z -> K -> bool * K;
  epoll_wait : list (Z * Z) -> nat -> K -> list (Z * Z);
  epoll_list : K -> gmap Z (Z * Z);
  epoll_add : forall fd e p k, epoll_list k !! fd = None ->
    exists k', epoll_ctl EPOLL_CTL_ADD fd e p k = (true, k') /\ epoll_list k' = <[fd := (e, p)]> (epoll_list k);
  epoll_mod : forall fd e p k, is_Some (epoll_list k !! fd) ->
    exists k', epoll_ctl EPOLL_CTL_MOD fd e p k = (true, k') /\ epoll_list k' = <[fd := (e, p)]> (epoll_list k);
  epoll_del : forall fd e p k, is_Some (epoll_list k !! fd) ->
    exists k', epoll_ctl EPOLL_CTL_DEL fd e p k = (true, k') /\ epoll_list k' = delete fd (epoll_list k);
  epoll_ready : forall ready n k,
    epoll_wait ready n k
    = take n (omap (fun x => (fun y => (x.2, y.2)) <$> epoll_list k !! x.1) ready);
}.

Definition kNew : Z := -1.
Definition kAdded : Z := 1.
Definition kDeleted : Z := 2.
Definition kInitEventListSize : nat := 16.

Section epoll.
Context {K : Type} `{Epoll K}.

Record EPollPoller := {
  channels_ : gmap Z Z;
  epollfd_ : K;
  events_size : nat;           (* of the vector that epoll_wait fills *)
}.

Definition EPollPoller_new (k : K) : EPollPoller :=
  {| channels_ := ∅; epollfd_ := k; events_size := kInitEventListSize |}.

Definition set_channels (m : gmap Z Z) (x : EPollPoller) : EPollPoller :=
  {| channels_ := m; epollfd_ := epollfd_ x; events_size := events_size x |}.
Definition set_epollfd (k : K) (x : EPollPoller) : EPollPoller :=
  {| channels_ := channels_ x; epollfd_ := k; events_size := events_size x |}.
Definition set_events_size (n : nat) (x : EPollPoller) : EPollPoller :=
  {| channels_ := channels_ x; epollfd_ := epollfd_ x; events_size := n |}.

(** [update]: a failure to delete is only logged. *)
Definition epoll_update (operation : ctl_op) (p : Z) : PM EPollPoller unit :=
  c ← chan p;
  x ← gets snd;
  let '(ok, k) := epoll_ctl operation (ch_fd c) (ch_events c) p (epollfd_ x) in
  _ ← change_poller (set_epollfd k);
  if ok : bool then mret tt
  else match operation with EPOLL_CTL_DEL => mret tt | _ => undef Aborted end.

Definition epoll_updateChannel (p : Z) : PM EPollPoller unit :=
  c ← chan p;
  x ← gets snd;
  let index := ch_index c in
  let fd := ch_fd c in
  if decide (index = kNew \/ index = kDeleted) then
    _ ← (if decide (index = kNew) then
           _ ← check (bool_decide (channels_ x !! fd = None));
           change_poller (set_channels (<[fd := p]> (channels_ x)))
         else check (bool_decide (channels_ x !! fd = Some p)));
    _ ← change_chan p (set_index kAdded);
    epoll_update EPOLL_CTL_ADD p
  else
    _ ← check (bool_decide (channels_ x !! fd = Some p));
    _ ← check (bool_decide (index = kAdded));
    if isNoneEvent c then
      _ ← epoll_update EPOLL_CTL_DEL p;
      change_chan p (set_index kDeleted)
    else epoll_update EPOLL_CTL_MOD p.

Definition epoll_removeChannel (p : Z) : PM EPollPoller unit :=
  c ← chan p;
  x ← gets snd;
  let fd := ch_fd c in
  _ ← check (bool_decide (channels_ x !! fd = Some p));
  _ ← check (isNoneEvent c);
  let index := ch_index c in
  _ ← check (bool_decide (index = kAdded \/ index = kDeleted));
  _ ← change_poller (set_channels (delete fd (channels_ x)));
  _ ← (if decide (index = kAdded) then epoll_update EPOLL_CTL_DEL p else mret tt);
  change_chan p (set_index kNew).

Definition epoll_fillActiveChannels (events : list (Z * Z)) : PM EPollPoller (list Z) :=
  x ← gets snd;
  _ ← check (bool_decide (length events <= events_size x)%nat);
  for_fold (fun active '(r, p) =>
    c ← chan p;
    _ ← check (bool_decide (channels_ x !! ch_fd c = Some p));
    _ ← change_chan p (set_revents r);
    mret (active ++ [p])) [] events.

Definition epoll_poll (ready : list (Z * Z)) : PM EPollPoller (list Z) :=
  x ← gets snd;
  let events := epoll_wait ready (events_size x) (epollfd_ x) in
  if decide (events = []) then mret []
  else
    active ← epoll_fillActiveChannels events;
    _ ← (if decide (length events = events_size x) then change_poller (set_events_size (events_size x * 2))
         else mret tt);
    mret active.

#[export] Instance EPollPoller_poller : Poller EPollPoller := {|
  updateChannel := epoll_updateChannel; removeChannel := epoll_removeChannel; poll := epoll_poll;
  interest x := epoll_list (epollfd_ x) |}.

(** ** It keeps the promise *)

(** The table is the map with the channels' events; the index says whether the descriptor is on
    the system's list, which is so exactly when it is watched. *)
Record epolls (t : Table) (cs : Chans) (x : EPollPoller) : Prop := {
  ep_known : forall fd p, channels_ x !! fd = Some p <-> exists e, t !! fd = Some (p, e);
  ep_chan : forall fd p e, t !! fd = Some (p, e) ->
    exists c, cs !! p = Some c /\ ch_fd c = fd /\ ch_events c = e
      /\ ch_index c = if decide (e = 0) then kDeleted else kAdded;
  ep_new : forall p c, cs !! p = Some c -> (forall fd e, t !! fd <> Some (p, e)) -> ch_index c = kNew;
  ep_list : epoll_list (epollfd_ x) = watched t;
  ep_size : (0 < events_size x)%nat;
}.

Definition ctl_ok (op : ctl_op) (fd : Z) (l : gmap Z (Z * Z)) : Prop :=
  match op with EPOLL_CTL_ADD => l !! fd = None | _ => is_Some (l !! fd) end.
Definition ctl_effect (op : ctl_op) (fd e p : Z) (l : gmap Z (Z * Z)) : gmap Z (Z * Z) :=
  match op with EPOLL_CTL_DEL => delete fd l | _ => <[fd := (e, p)]> l end.

Lemma epoll_update_ok op p c cs x : cs !! p = Some c -> ctl_ok op (ch_fd c) (epoll_list (epollfd_ x)) ->
  exists k, epoll_update op p (cs, x) = Ok (tt, (cs, set_epollfd k x))
    /\ epoll_list k = ctl_effect op (ch_fd c) (ch_events c) p (epoll_list (epollfd_ x)).
Proof.
  intros Ec O. unfold epoll_update. step (chan_ok p c cs x Ec). look. cbn [snd].
  assert (exists k, epoll_ctl op (ch_fd c) (ch_events c) p (epollfd_ x) = (true, k)
    /\ epoll_list k = ctl_effect op (ch_fd c) (ch_events c) p (epoll_list (epollfd_ x))) as (k & E & El)
    by (destruct op; cbn in *; eauto using epoll_add, epoll_mod, epoll_del).
  exists k. by rewrite E.
Qed.

(** The table, the channel and the list change together. *)
Lemma epolls_insert t cs x p c fd e k m : epolls t cs x -> (forall q e0, t !! fd = Some (q, e0) -> q = p) ->
  (forall fd' e', t !! fd' = Some (p, e') -> fd' = fd) ->
  ch_fd c = fd -> ch_events c = e -> ch_index c = (if decide (e = 0) then kDeleted else kAdded) ->
  m = <[fd := p]> (channels_ x) -> epoll_list k = watched (<[fd := (p, e)]> t) ->
  epolls (<[fd := (p, e)]> t) (<[p := c]> cs) (set_epollfd k (set_channels m x)).
Proof.
  intros [Kn Ch Nw Li Si] Own Only Ef Ee Ei -> El. split; cbn; try done.
  - intros fd' q. destruct (decide (fd = fd')) as [<-|Ne].
    + rewrite !lookup_insert_eq. split; [intros [= ->]; eauto|naive_solver].
    + rewrite !lookup_insert_ne by done. apply Kn.
  - intros fd' q e' Ht. apply lookup_insert_Some in Ht as [[<- [= <- <-]]|[Ne Ht]].
    + exists c. by rewrite lookup_insert_eq.
    + rewrite lookup_insert_ne; [eauto|]. intros <-. by apply Ne, eq_sym, (Only _ e').
  - intros q c' Hq N. destruct (decide (p = q)) as [<-|Ne].
    + destruct (N fd e). by rewrite lookup_insert_eq.
    + rewrite lookup_insert_ne in Hq by done. apply (Nw q c' Hq). intros fd' e' Ht.
      destruct (decide (fd = fd')) as [<-|Nf]; [by apply Ne, eq_sym, (Own q e')|].
      apply (N fd' e'). by rewrite lookup_insert_ne.
Qed.

Lemma epolls_own t cs x fd p e fd' e' : epolls t cs x -> t !! fd = Some (p, e) -> t !! fd' = Some (p, e') -> fd' = fd.
Proof.
  intros Ep E1 E2. destruct (ep_chan _ _ _ Ep _ _ _ E1) as (c1 & H1 & <- & _), (ep_chan _ _ _ Ep _ _ _ E2) as (c2 & H2 & <- & _).
  congruence.
Qed.

(** A descriptor that goes on the system's list, for a channel that has its new events. *)
Lemma epoll_added t cs x p c e m : epolls t cs x -> e <> 0 -> ch_events c = e ->
  watched t !! ch_fd c = None -> (forall q e0, t !! ch_fd c = Some (q, e0) -> q = p) ->
  (forall fd' e', t !! fd' = Some (p, e') -> fd' = ch_fd c) -> m = <[ch_fd c := p]> (channels_ x) ->
  exists k, (_ ← change_chan p (set_index kAdded); epoll_update EPOLL_CTL_ADD p) (<[p := c]> cs, set_channels m x)
    = Ok (tt, (<[p := set_index kAdded c]> cs, set_epollfd k (set_channels m x)))
    /\ epolls (<[ch_fd c := (p, e)]> t) (<[p := set_index kAdded c]> cs) (set_epollfd k (set_channels m x)).
Proof.
  intros Ep Ne Ee Nl Own Only Em.
  step (change_chan_ok p (set_index kAdded) c (<[p := c]> cs) (set_channels m x) (lookup_insert_eq _ _ _)).
  rewrite insert_insert_eq.
  destruct (epoll_update_ok EPOLL_CTL_ADD p (set_index kAdded c) (<[p := set_index kAdded c]> cs) (set_channels m x))
    as (k & E & El); [apply lookup_insert_eq|by cbn; rewrite (ep_list _ _ _ Ep)|].
  exists k. split; [done|]. apply epolls_insert; try done; [by rewrite decide_False|].
  rewrite El, watched_insert, decide_False by done. cbn. by rewrite Ee, (ep_list _ _ _ Ep).
Qed.

Lemma set_channels_id x : set_channels (channels_ x) x = x.
Proof. by destruct x. Qed.

Lemma epoll_watch_new t cs x p c e : epolls t cs x -> t !! ch_fd c = None -> cs !! p = Some c -> e <> 0 ->
  map_Forall (fun _ y => y.1 <> p) t ->
  exists cs' x', epoll_updateChannel p (<[p := set_wanted e c]> cs, x) = Ok (tt, (cs', x'))
    /\ epolls (<[ch_fd c := (p, e)]> t) cs' x' /\ same_chans (<[p := set_wanted e c]> cs) cs'.
Proof.
  intros Ep Et Ec Ne Np. set (c1 := set_wanted e c).
  assert (forall fd' e', t !! fd' <> Some (p, e')) as Nt by (intros fd' e' Ht; by apply (Np _ _ Ht)).
  pose proof (ep_new _ _ _ Ep p c Ec Nt) as Ei.
  destruct (epoll_added t cs x p c1 e (<[ch_fd c := p]> (channels_ x))) as (k & E & Ep'); try done.
  { change (ch_fd c1) with (ch_fd c). unfold watched. by rewrite lookup_omap, Et. }
  { intros q e0. change (ch_fd c1) with (ch_fd c). by rewrite Et. }
  { intros fd' e' Ht. by apply Nt in Ht. }
  do 2 eexists. split; [|split; [exact Ep'|]].
  - unfold epoll_updateChannel. step (chan_ok p c1 (<[p := c1]> cs) x (lookup_insert_eq _ _ _)). look. cbn [snd].
    change (ch_index c1) with (ch_index c). rewrite Ei, decide_True, decide_True by auto.
    rewrite (bind_ok _ _ _ tt (<[p := c1]> cs, set_channels (<[ch_fd c := p]> (channels_ x)) x)); [exact E|].
    assert (channels_ x !! ch_fd c1 = None) as Em.
    { change (ch_fd c1) with (ch_fd c). destruct (channels_ x !! ch_fd c) as [q|] eqn:Eq; [|done].
      apply (ep_known _ _ _ Ep) in Eq as [e0 Eq]. congruence. }
    by pass (bool_decide_eq_true_2 _ Em).
  - intros q. destruct (decide (p = q)) as [<-|Nq]; [by rewrite !lookup_insert_eq|by rewrite !lookup_insert_ne].
Qed.

Lemma epoll_watch_known t cs x p c e e0 : epolls t cs x -> t !! ch_fd c = Some (p, e0) -> cs !! p = Some c ->
  ch_index c = (if decide (e0 = 0) then kDeleted else kAdded) -> e0 <> 0 \/ e <> 0 ->
  exists cs' x', epoll_updateChannel p (<[p := set_wanted e c]> cs, x) = Ok (tt, (cs', x'))
    /\ epolls (<[ch_fd c := (p, e)]> t) cs' x' /\ same_chans (<[p := set_wanted e c]> cs) cs'.
Proof.
  intros Ep Et Ec Ei Ne. set (c1 := set_wanted e c). set (fd := ch_fd c).
  assert (forall fd' e', t !! fd' = Some (p, e') -> fd' = fd) as Only by (intros fd' e'; by apply (epolls_own t cs x fd p e0)).
  assert (forall q e', t !! fd = Some (q, e') -> q = p) as Own by (intros q e'; unfold fd; rewrite Et; naive_solver).
  assert (channels_ x !! fd = Some p) as Em by (apply (ep_known _ _ _ Ep); eauto).
  assert (channels_ x = <[fd := p]> (channels_ x)) as Ei' by (by rewrite insert_id).
  unfold epoll_updateChannel. step (chan_ok p c1 (<[p := c1]> cs) x (lookup_insert_eq _ _ _)). look. cbn [snd].
  change (ch_index c1) with (ch_index c). change (ch_fd c1) with fd. rewrite Ei.
  assert (forall c', same_chans (<[p := c1]> cs) (<[p := c']> cs) <-> ch_fd c' = fd /\ ch_events c' = e) as Sm.
  { intros c'. split.
    - intros S. specialize (S p). rewrite !lookup_insert_eq in S. by injection S.
    - intros [S1 S2] q. destruct (decide (p = q)) as [<-|Nq]; [|by rewrite !lookup_insert_ne].
      rewrite !lookup_insert_eq. cbn. by rewrite S1, S2. }
  destruct (decide (e0 = 0)) as [->|N0].
  - rewrite decide_True by auto. destruct Ne as [|Ne]; [done|].
    destruct (epoll_added t cs x p c1 e (channels_ x)) as (k & E & Ep'); try done.
    { destruct (watched t !! ch_fd c1) as [[e' q]|] eqn:Ew; [|done]. apply watched_lookup in Ew as [Ew N]. cbn in Ew.
      rewrite Et in Ew. naive_solver. }
    rewrite set_channels_id in E, Ep'. rewrite decide_False by done.
    do 2 eexists. split; [|split; [exact Ep'|by apply Sm]].
    pass (bool_decide_eq_true_2 _ Em). exact E.
  - rewrite decide_False by (by intros [|]). pass (bool_decide_eq_true_2 _ Em).
    pass (bool_decide_eq_true_2 (kAdded = kAdded) eq_refl).
    assert (is_Some (watched t !! fd)) as Ew by (exists (e0, p); by apply watched_lookup).
    unfold isNoneEvent. change (ch_events c1) with e. destruct (Z.eqb_spec e 0) as [->|Ne'].
    + destruct (epoll_update_ok EPOLL_CTL_DEL p c1 (<[p := c1]> cs) x) as (k & E & El);
        [apply lookup_insert_eq|by cbn; rewrite (ep_list _ _ _ Ep)|]. step E.
      rewrite (change_chan_ok p (set_index kDeleted) c1 (<[p := c1]> cs) (set_epollfd k x) (lookup_insert_eq _ _ _)).
      rewrite insert_insert_eq. do 2 eexists. split; [done|]. split; [|by apply Sm].
      rewrite <- (set_channels_id x). apply epolls_insert; try done.
      rewrite El, watched_insert, decide_True by done. cbn. by rewrite (ep_list _ _ _ Ep).
    + destruct (epoll_update_ok EPOLL_CTL_MOD p c1 (<[p := c1]> cs) x) as (k & E & El);
        [apply lookup_insert_eq|by cbn; rewrite (ep_list _ _ _ Ep)|].
      rewrite E. do 2 eexists. split; [done|]. split; [|by apply Sm].
      rewrite <- (set_channels_id x). apply epolls_insert; try done; [by rewrite decide_False|].
      rewrite El, watched_insert, decide_False by done. cbn. by rewrite (ep_list _ _ _ Ep).
Qed.

Lemma epoll_watch_ok t (old : gset Z) cs x p fd e : epolls t cs x -> allowed t old cs (Watch p fd e) ->
  exists cs' x', watch p e (cs, x) = Ok (tt, (cs', x')) /\ epolls (<[fd := (p, e)]> t) cs' x'
    /\ same_chans (alter (set_wanted e) p cs) cs'.
Proof.
  intros Ep (_ & _ & A). unfold watch. cbn [updateChannel EPollPoller_poller].
  destruct (t !! fd) as [[q e0]|] eqn:Et.
  - destruct A as [-> Ne]. destruct (ep_chan _ _ _ Ep _ _ _ Et) as (c & Ec & <- & _ & Ei).
    rewrite (alter_some _ _ _ c Ec). step (change_chan_ok p (set_wanted e) c cs x Ec).
    by apply (epoll_watch_known t cs x p c e e0).
  - destruct A as (Ne & _ & Ef & Np). destruct (cs !! p) as [c|] eqn:Ec; [subst fd|done].
    rewrite (alter_some _ _ _ c Ec). step (change_chan_ok p (set_wanted e) c cs x Ec).
    by apply epoll_watch_new.
Qed.

Lemma epoll_forget_ok t (old : gset Z) cs x p fd : epolls t cs x -> allowed t old cs (Forget p fd) ->
  exists cs' x', epoll_removeChannel p (cs, x) = Ok (tt, (cs', x')) /\ epolls (delete fd t) cs' x' /\ same_chans cs cs'.
Proof.
  intros Ep Et. cbn in Et. destruct (ep_chan _ _ _ Ep _ _ _ Et) as (c & Ec & <- & Ee & Ei).
  assert (channels_ x !! ch_fd c = Some p) as Em by (apply (ep_known _ _ _ Ep); eauto).
  unfold epoll_removeChannel. step (chan_ok p c cs x Ec). look. cbn [snd].
  pass (bool_decide_eq_true_2 _ Em).
  assert (isNoneEvent c = true) as En by (unfold isNoneEvent; by rewrite Ee).
  rewrite decide_True in Ei by done.
  pass En. pass (bool_decide_eq_true_2 _ (or_intror Ei : ch_index c = kAdded \/ ch_index c = kDeleted)).
  unfold change_poller at 1. look. rewrite Ei. rewrite (bind_ok _ _ _ tt (cs, set_channels (delete (ch_fd c) (channels_ x)) x)) by done.
  rewrite (change_chan_ok p (set_index kNew) c cs _ Ec). do 2 eexists. split; [done|].
  split; [|by apply (same_chans_insert _ _ c)]. pose proof (epolls_own t cs x (ch_fd c) p 0) as Own.
  destruct Ep as [Kn Ch Nw Li Si]. split; cbn; try done.
  - intros fd q. destruct (decide (ch_fd c = fd)) as [<-|Ne].
    + rewrite !lookup_delete_eq. naive_solver.
    + rewrite !lookup_delete_ne by done. apply Kn.
  - intros fd q e [Ne Ht]%lookup_delete_Some. rewrite lookup_insert_ne; [eauto|].
    intros <-. by apply Ne, eq_sym, (Own fd e).
  - intros q c' Hq N. destruct (decide (p = q)) as [<-|Ne].
    + rewrite lookup_insert_eq in Hq. by injection Hq as <-.
    + rewrite lookup_insert_ne in Hq by done. apply (Nw q c' Hq). intros fd e Ht.
      destruct (decide (ch_fd c = fd)) as [<-|Nf]; [rewrite Et in Ht; naive_solver|].
      apply (N fd e). by rewrite lookup_delete_ne.
  - rewrite Li, watched_delete. symmetry. apply delete_id.
    destruct (watched t !! ch_fd c) as [[e q]|] eqn:Ew; [|done]. apply watched_lookup in Ew as [Ew N].
    rewrite Et in Ew. naive_solver.
Qed.

(** *** Polling *)

Lemma epolls_reported t cs x evs n : epolls t cs x -> (0 < n)%nat ->
  epolls t (reported evs cs) (set_events_size n x).
Proof.
  intros [Kn Ch Nw Li Si] Hn. split; cbn; try done.
  - intros fd p e Ht. destruct (Ch fd p e Ht) as (c & Ec & E1 & E2 & E3).
    pose proof (reported_settled evs cs p) as R. rewrite Ec in R.
    destruct (reported evs cs !! p) as [c'|]; [|done]. unfold settled in R. cbn in R. exists c'.
    injection R as -> -> ->. done.
  - intros p c Hp N. pose proof (reported_settled evs cs p) as R. rewrite Hp in R. destruct (cs !! p) as [c0|] eqn:Ec; [|done].
    unfold settled in R. cbn in R. injection R as _ _ ->. by apply (Nw p c0).
Qed.

Lemma fill_ok x evs cs active : NoDup evs.*2 ->
  (forall r p, (r, p) ∈ evs -> exists c, cs !! p = Some c /\ channels_ x !! ch_fd c = Some p) ->
  for_fold (fun active '(r, p) =>
    c ← chan p;
    _ ← check (bool_decide (channels_ x !! ch_fd c = Some p));
    _ ← change_chan p (set_revents r);
    mret (active ++ [p])) active evs (cs, x) = Ok (active ++ evs.*2, (reported evs cs, x)).
Proof.
  revert cs active. induction evs as [|[r p] evs IH]; intros cs active N F; [by rewrite app_nil_r|].
  rewrite fmap_cons in N. apply NoDup_cons in N as [Np N]. cbn [snd] in Np.
  destruct (F r p) as (c & Ec & Em); [by left|]. cbn [for_fold].
  rewrite (bind_ok _ _ _ (active ++ [p]) (<[p := set_revents r c]> cs, x)).
  - rewrite IH; [|done|].
    + rewrite <- app_assoc, fmap_cons. unfold reported. cbn [fold_left fst snd]. by rewrite (alter_some _ _ _ c Ec).
    + intros r' p' Hx. destruct (F r' p') as (c' & Ec' & Em'); [by right|]. exists c'.
      rewrite lookup_insert_ne; [done|]. intros <-. apply Np, list_elem_of_fmap. by exists (r', p).
  - step (chan_ok p c cs x Ec). pass (bool_decide_eq_true_2 _ Em). by step (change_chan_ok p (set_revents r) c cs x Ec).
Qed.

(** What the system has to report, by channel. *)
Definition events_of (t : Table) (ready : list (Z * Z)) : list (Z * Z) :=
  omap (fun x => (fun y => (x.2, y.2)) <$> watched t !! x.1) ready.

Lemma events_of_elem t ready r p : (r, p) ∈ events_of t ready <->
  exists fd e, (fd, r) ∈ ready /\ t !! fd = Some (p, e) /\ e <> 0.
Proof.
  unfold events_of. rewrite list_elem_of_omap. split.
  - intros ([fd r'] & Hx & E). cbn in E. destruct (watched t !! fd) as [[e q]|] eqn:Ew; [|done].
    injection E as -> ->. apply watched_lookup in Ew as [? ?]. eauto 6.
  - intros (fd & e & Hx & Et & Ne). exists (fd, r). split; [done|]. cbn.
    assert (watched t !! fd = Some (e, p)) as -> by (by apply watched_lookup). done.
Qed.

Lemma events_of_NoDup t cs x ready : epolls t cs x -> NoDup ready.*1 -> NoDup (events_of t ready).*2.
Proof.
  intros Ep. induction ready as [|[fd r] ready IH]; intros N; [constructor|].
  rewrite fmap_cons in N. apply NoDup_cons in N as [Nf N]. cbn [fst] in Nf.
  unfold events_of in *. cbn [omap list_omap fst snd]. destruct (watched t !! fd) as [[e p]|] eqn:Ew; [|auto].
  cbn [fmap option_fmap option_map]. rewrite fmap_cons. cbn [snd]. constructor; [|auto].
  intros ([r' p'] & Ep' & Hx)%list_elem_of_fmap. cbn in Ep'. subst p'.
  apply (events_of_elem t ready r' p) in Hx as (fd' & e' & Hr & Et & _). apply watched_lookup in Ew as [Ew _].
  apply Nf. rewrite (epolls_own t cs x fd' p e' fd e Ep Et Ew). apply list_elem_of_fmap. by exists (fd', r').
Qed.

Lemma epoll_poll_ok t (old : gset Z) cs x ready : epolls t cs x -> report_ok t ready ->
  exists active cs' x', epoll_poll ready (cs, x) = Ok (active, (cs', x')) /\ epolls t cs' x' /\ same_chans cs cs'
    /\ NoDup active /\ (ready <> [] -> active <> [])
    /\ forall p, p ∈ active -> exists fd e r, t !! fd = Some (p, e) /\ (fd, r) ∈ ready /\ ch_revents <$> cs' !! p = Some r.
Proof.
  intros Ep [N F]. unfold epoll_poll. look. cbn [snd]. rewrite epoll_ready, (ep_list _ _ _ Ep). fold (events_of t ready).
  set (evs := take (events_size x) (events_of t ready)).
  assert (forall r p, (r, p) ∈ evs -> exists fd e, (fd, r) ∈ ready /\ t !! fd = Some (p, e) /\ e <> 0) as In.
  { intros r p Hx. apply (events_of_elem t ready r p). rewrite <- (take_drop (events_size x) (events_of t ready)).
    apply elem_of_app. by left. }
  assert (NoDup evs.*2) as Ne.
  { pose proof (events_of_NoDup t cs x ready Ep N) as Na. rewrite <- (take_drop (events_size x) (events_of t ready)), fmap_app in Na.
    by apply NoDup_app in Na as [? _]. }
  assert (ready <> [] -> evs <> []) as Some_.
  { destruct ready as [|[fd r] ready]; [done|]. apply Forall_cons in F as [[[y Ey] _] _]. cbn [fst] in Ey. intros _.
    unfold evs, events_of. cbn [omap list_omap fst snd]. rewrite Ey. pose proof (ep_size _ _ _ Ep).
    destruct (events_size x) as [|n]; [lia|done]. }
  case_decide as Hev.
  { exists [], cs, x. split; [done|]. split; [done|]. split; [done|]. split; [constructor|].
    split; [intros Hr; by destruct (Some_ Hr)|set_solver]. }
  assert (epoll_fillActiveChannels evs (cs, x) = Ok (evs.*2, (reported evs cs, x))) as Ef.
  { unfold epoll_fillActiveChannels. look. cbn [snd].
    assert (length evs <= events_size x)%nat as Hl by (unfold evs; rewrite length_take; lia).
    pass (bool_decide_eq_true_2 _ Hl). apply (fill_ok x evs cs []); [done|]. intros r p Hx.
    destruct (In r p Hx) as (fd & e & _ & Et & _). destruct (ep_chan _ _ _ Ep _ _ _ Et) as (c & Ec & <- & _).
    exists c. split; [done|]. apply (ep_known _ _ _ Ep). eauto. }
  step Ef. pose proof (ep_size _ _ _ Ep) as Hs.
  set (m := if decide (length evs = events_size x) then (events_size x * 2)%nat else events_size x).
  exists evs.*2, (reported evs cs), (set_events_size m x). split; [|split; [|split; [|split; [done|split]]]].
  - unfold m. by case_decide; [|destruct x].
  - apply epolls_reported; [done|]. unfold m. case_decide; lia.
  - apply reported_same.
  - intros Hr Hn. by apply fmap_nil_inv in Hn.
  - intros p ([r p'] & -> & Hx)%list_elem_of_fmap. destruct (In r p' Hx) as (fd & e & Hr & Et & _).
    exists fd, e, r. split; [done|]. split; [done|]. apply reported_is; [done..|].
    destruct (ep_chan _ _ _ Ep _ _ _ Et) as (c & Ec & _). eauto.
Qed.

#[export] Instance EPollPoller_spec : PollerSpec EPollPoller := {|
  polls t _ cs x := epolls t cs x; polls_interest t _ := ep_list t; polls_watch := epoll_watch_ok; polls_forget := epoll_forget_ok;
  polls_poll := epoll_poll_ok |}.

(** A new poller knows nothing. *)
Lemma epolls_new cs k : epoll_list k = ∅ -> map_Forall (fun _ c => ch_index c = kNew) cs ->
  epolls ∅ cs (EPollPoller_new k).
Proof.
  intros Ek F. split; cbn; try done.
  - intros fd p. rewrite !lookup_empty. naive_solver.
  - intros p c Ec _. by apply (F p c).
  - unfold kInitEventListSize. lia.
Qed.
End epoll.
