(* ===== verification/PollPoller.v ===== *)
(** * PollPoller (net/poller/PollPoller.h, net/poller/PollPoller.cc)

    The poller over [poll]: an array of descriptors with their events, in which a channel's
    index is its place; a descriptor that is not watched for anything is kept as a negative
    number. *)

From S2P Require Import Prelude Bytes Poller.

Record pollfd := {
  pf_fd : Z;
  pf_events : Z;
  pf_revents : Z;
}.

(** [poll(fds, n, timeout)] with what is ready on each descriptor: negative ones are skipped,
    the others get their events; the number of those that have any. *)
Definition ready_on (ready : list (Z * Z)) (fd : Z) : Z :=
  match List.find (fun x => x.1 =? fd) ready with Some (_, r) => r | None => 0 end.

Class PollCall := {
  sys_poll : list (Z * Z) -> list pollfd -> Z * list pollfd;
  sys_poll_spec : forall ready fds,
    let fds' := (fun y => {| pf_fd := pf_fd y; pf_events := pf_events y;
                             pf_revents := if decide (pf_fd y < 0) then 0 else ready_on ready (pf_fd y) |}) <$> fds in
    sys_poll ready fds = (len (filter (fun y => pf_revents y <> 0) fds'), fds');
}.

Record PollPoller := {
  channels_ : gmap Z Z;
  pollfds_ : list pollfd;
}.

Definition PollPoller_new : PollPoller := {| channels_ := ∅; pollfds_ := [] |}.

Definition set_channels (m : gmap Z Z) (x : PollPoller) : PollPoller := {| channels_ := m; pollfds_ := pollfds_ x |}.
Definition set_pollfds (l : list pollfd) (x : PollPoller) : PollPoller := {| channels_ := channels_ x; pollfds_ := l |}.

Definition poll_updateChannel (p : Z) : PM PollPoller unit :=
  c ← chan p;
  x ← gets snd;
  let fd := ch_fd c in
  if decide (ch_index c < 0) then
    _ ← check (bool_decide (channels_ x !! fd = None));
    let pfd := {| pf_fd := fd; pf_events := to_i 16 (ch_events c); pf_revents := 0 |} in
    _ ← change_poller (set_pollfds (pollfds_ x ++ [pfd]));
    let idx := len (pollfds_ x ++ [pfd]) - 1 in
    _ ← change_chan p (set_index idx);
    change_poller (set_channels (<[fd := p]> (channels_ x)))
  else
    _ ← check (bool_decide (channels_ x !! fd = Some p));
    let idx := Z.to_nat (ch_index c) in
    match pollfds_ x !! idx with
    | None => undef AssertFailed
    | Some pfd =>
        _ ← check (bool_decide (pf_fd pfd = fd \/ pf_fd pfd = - fd - 1));
        let pfd := {| pf_fd := if isNoneEvent c then - fd - 1 else fd; pf_events := to_i 16 (ch_events c);
                      pf_revents := 0 |} in
        change_poller (set_pollfds (<[idx := pfd]> (pollfds_ x)))
    end.

(** [iter_swap] of two places, and [pop_back]. *)
Definition iter_swap (i j : nat) (l : list pollfd) : list pollfd :=
  match l !! i, l !! j with
  | Some y, Some z => <[i := z]> (<[j := y]> l)
  | _, _ => l
  end.
Definition pop_back (l : list pollfd) : list pollfd := take (length l - 1) l.

Definition poll_removeChannel (p : Z) : PM PollPoller unit :=
  c ← chan p;
  x ← gets snd;
  let fd := ch_fd c in
  _ ← check (bool_decide (channels_ x !! fd = Some p));
  _ ← check (isNoneEvent c);
  _ ← check (0 <=? ch_index c);
  let idx := Z.to_nat (ch_index c) in
  match pollfds_ x !! idx with
  | None => undef AssertFailed
  | Some pfd =>
      _ ← check (bool_decide (pf_fd pfd = - fd - 1 /\ pf_events pfd = ch_events c));
      _ ← change_poller (set_channels (delete fd (channels_ x)));
      let last := (length (pollfds_ x) - 1)%nat in
      if decide (idx = last) then change_poller (set_pollfds (pop_back (pollfds_ x)))
      else
        match pollfds_ x !! last with
        | None => undef OutOfBounds
        | Some back =>
            _ ← change_poller (set_pollfds (iter_swap idx last (pollfds_ x)));
            let channelAtEnd := if decide (pf_fd back < 0) then - pf_fd back - 1 else pf_fd back in
            match delete fd (channels_ x) !! channelAtEnd with
            | None => undef NullDeref
            | Some q =>
                _ ← chan q;
                _ ← change_chan q (set_index (Z.of_nat idx));
                change_poller (fun x => set_pollfds (pop_back (pollfds_ x)) x)
            end
        end
  end.

Section poll.
Context `{PollCall}.

(** The loop goes on while there are entries and events left. *)
Fixpoint poll_fillActiveChannels (m : gmap Z Z) (fds : list pollfd) (numEvents : Z) (active : list Z) : PM PollPoller (list Z) :=
  match fds with
  | [] => mret active
  | pfd :: fds' =>
      if decide (numEvents > 0) then
        if decide (pf_revents pfd > 0) then
          match m !! pf_fd pfd with
          | None => undef AssertFailed
          | Some p =>
              c ← chan p;
              _ ← check (bool_decide (ch_fd c = pf_fd pfd));
              _ ← change_chan p (set_revents (pf_revents pfd));
              poll_fillActiveChannels m fds' (numEvents - 1) (active ++ [p])
          end
        else poll_fillActiveChannels m fds' numEvents active
      else mret active
  end.

Definition poll_poll (ready : list (Z * Z)) : PM PollPoller (list Z) :=
  x ← gets snd;
  let '(numEvents, fds) := sys_poll ready (pollfds_ x) in
  _ ← change_poller (set_pollfds fds);
  if decide (numEvents > 0) then poll_fillActiveChannels (channels_ x) fds numEvents []
  else mret [].

(** What [poll] watches for: the entries that are not negative. *)
Definition poll_interest (x : PollPoller) : gmap Z (Z * Z) :=
  map_imap (fun fd p => (fun y => (pf_events y, p)) <$> List.find (fun y => pf_fd y =? fd) (pollfds_ x)) (channels_ x).

#[export] Instance PollPoller_poller : Poller PollPoller := {|
  updateChannel := poll_updateChannel; removeChannel := poll_removeChannel; poll := poll_poll;
  interest := poll_interest |}.

(** ** It keeps the promise *)

(** How an entry shows a descriptor and its events. *)
Definition shown (fd e : Z) : Z := if decide (e = 0) then - fd - 1 else fd.

Lemma shown_inj fd e fd' e' : 0 <= fd -> 0 <= fd' -> shown fd e = shown fd' e' -> fd = fd'.
Proof. unfold shown. repeat case_decide; lia. Qed.

(** Every channel of the table has its entry at its index, and every entry is a channel's. *)
Record ppolls (t : Table) (old : gset Z) (cs : Chans) (x : PollPoller) : Prop := {
  pp_known : forall fd p, channels_ x !! fd = Some p <-> exists e, t !! fd = Some (p, e);
  pp_chan : forall fd p e, t !! fd = Some (p, e) ->
    0 <= fd /\ 0 <= e < 2 ^ 15
    /\ exists c i r, cs !! p = Some c /\ ch_fd c = fd /\ ch_events c = e /\ ch_index c = Z.of_nat i
      /\ pollfds_ x !! i = Some {| pf_fd := shown fd e; pf_events := e; pf_revents := r |};
  pp_slot : forall i y, pollfds_ x !! i = Some y ->
    exists fd p e c, t !! fd = Some (p, e) /\ cs !! p = Some c /\ ch_index c = Z.of_nat i;
  pp_new : forall p c, cs !! p = Some c -> p ∉ old -> (forall fd e, t !! fd <> Some (p, e)) -> ch_index c < 0;
}.

Lemma to_i16_small e : 0 <= e < 2 ^ 15 -> to_i 16 e = e.
Proof. intros. unfold to_i. change (16 - 1) with 15. rewrite Z.mod_small; lia. Qed.

Lemma ppolls_own t old cs x fd p e fd' e' : ppolls t old cs x -> t !! fd = Some (p, e) -> t !! fd' = Some (p, e') -> fd' = fd.
Proof.
  intros Pp E1 E2. destruct (pp_chan _ _ _ _ Pp _ _ _ E1) as (_ & _ & c1 & i1 & r1 & H1 & <- & _).
  destruct (pp_chan _ _ _ _ Pp _ _ _ E2) as (_ & _ & c2 & i2 & r2 & H2 & <- & _). congruence.
Qed.

(** Two channels have two places. *)
Lemma ppolls_place t old cs x fd p e fd' p' e' c c' : ppolls t old cs x -> t !! fd = Some (p, e) -> t !! fd' = Some (p', e') ->
  cs !! p = Some c -> cs !! p' = Some c' -> ch_index c = ch_index c' -> fd = fd' /\ p = p'.
Proof.
  intros Pp E1 E2 Ec Ec' Ei. destruct (pp_chan _ _ _ _ Pp _ _ _ E1) as (F1 & _ & c1 & i1 & r1 & H1 & _ & _ & I1 & S1).
  destruct (pp_chan _ _ _ _ Pp _ _ _ E2) as (F2 & _ & c2 & i2 & r2 & H2 & _ & _ & I2 & S2).
  assert (c1 = c /\ c2 = c') as [-> ->] by (split; congruence). assert (i1 = i2) as -> by lia.
  assert (fd = fd') as -> by (rewrite S1 in S2; injection S2 as S2 _ _; by apply (shown_inj fd e fd' e')).
  split; [done|congruence].
Qed.

(** One channel's place changes, and the table with it. *)
Lemma ppolls_insert t old cs x p c fd e i r l : ppolls t old cs x -> 0 <= fd -> 0 <= e < 2 ^ 15 ->
  (forall q e0, t !! fd = Some (q, e0) -> q = p) -> (forall fd' e', t !! fd' = Some (p, e') -> fd' = fd) ->
  ch_fd c = fd -> ch_events c = e -> ch_index c = Z.of_nat i ->
  l !! i = Some {| pf_fd := shown fd e; pf_events := e; pf_revents := r |} ->
  (forall j, j <> i -> l !! j = pollfds_ x !! j) ->
  (forall fd' p' e' c', t !! fd' = Some (p', e') -> cs !! p' = Some c' -> ch_index c' = Z.of_nat i <-> fd' = fd) ->
  ppolls (<[fd := (p, e)]> t) old (<[p := c]> cs) {| channels_ := <[fd := p]> (channels_ x); pollfds_ := l |}.
Proof.
  intros Pp Hfd He Own Only Ef Ee Ei Li Lj Pl. pose proof Pp as [Kn Ch Sl Nw]. split; cbn.
  - intros fd' q. destruct (decide (fd = fd')) as [<-|Ne].
    + rewrite !lookup_insert_eq. split; [intros [= ->]; eauto|naive_solver].
    + rewrite !lookup_insert_ne by done. apply Kn.
  - intros fd' q e' Ht. apply lookup_insert_Some in Ht as [[<- [= <- <-]]|[Ne Ht]].
    + do 2 (split; [done|]). exists c, i, r. by rewrite lookup_insert_eq.
    + destruct (Ch fd' q e' Ht) as (? & ? & c' & i' & r' & Ec & E1 & E2 & E3 & E4).
      do 2 (split; [done|]). exists c', i', r'. rewrite lookup_insert_ne, Lj; [done| |].
      * intros ->. by apply Ne, eq_sym, (Pl _ _ _ _ Ht Ec).
      * intros <-. by apply Ne, eq_sym, (Only _ e').
  - intros j y Hj. destruct (decide (j = i)) as [->|Nj].
    + exists fd, p, e, c. by rewrite !lookup_insert_eq.
    + rewrite Lj in Hj by done. destruct (Sl j y Hj) as (fd' & q & e' & c' & Et & Ec & Ei').
      assert (fd' <> fd) as Nf.
      { intros ->. pose proof (proj2 (Pl _ _ _ _ Et Ec) eq_refl). lia. }
      exists fd', q, e', c'. rewrite !lookup_insert_ne; [done| |done].
      intros <-. by apply Nf, (Only _ e').
  - intros q c' Hq No N. destruct (decide (p = q)) as [<-|Ne].
    + destruct (N fd e). by rewrite lookup_insert_eq.
    + rewrite lookup_insert_ne in Hq by done. apply (Nw q c' Hq No). intros fd' e' Ht.
      destruct (decide (fd = fd')) as [<-|Nf]; [by apply Ne, eq_sym, (Own q e')|].
      apply (N fd' e'). by rewrite lookup_insert_ne.
Qed.

Lemma ppolls_index t old cs x fd p e c : ppolls t old cs x -> t !! fd = Some (p, e) -> cs !! p = Some c ->
  exists i r, ch_fd c = fd /\ ch_events c = e /\ ch_index c = Z.of_nat i
    /\ pollfds_ x !! i = Some {| pf_fd := shown fd e; pf_events := e; pf_revents := r |}.
Proof.
  intros Pp Et Ec. destruct (pp_chan _ _ _ _ Pp _ _ _ Et) as (_ & _ & c' & i & r & Ec' & H1 & H2 & H3 & H4).
  exists i, r. rewrite Ec in Ec'. by injection Ec' as ->.
Qed.

Lemma poll_watch_new t old cs x p c e : ppolls t old cs x -> 0 <= ch_fd c -> 0 <= e < 2 ^ 15 ->
  t !! ch_fd c = None -> cs !! p = Some c -> e <> 0 -> p ∉ old -> map_Forall (fun _ y => y.1 <> p) t ->
  exists cs' x', poll_updateChannel p (<[p := set_wanted e c]> cs, x) = Ok (tt, (cs', x'))
    /\ ppolls (<[ch_fd c := (p, e)]> t) old cs' x' /\ same_chans (<[p := set_wanted e c]> cs) cs'.
Proof.
  intros Pp Hfd He Et Ec Ne No Np. set (c1 := set_wanted e c). set (fd := ch_fd c) in *.
  assert (forall fd' e', t !! fd' <> Some (p, e')) as Nt by (intros fd' e' Ht; by apply (Np _ _ Ht)).
  pose proof (pp_new _ _ _ _ Pp p c Ec No Nt) as Ei.
  unfold poll_updateChannel. step (chan_ok p c1 (<[p := c1]> cs) x (lookup_insert_eq _ _ _)). look. cbn [snd].
  change (ch_index c1) with (ch_index c). change (ch_fd c1) with fd. rewrite decide_True by done.
  assert (channels_ x !! fd = None) as Em.
  { destruct (channels_ x !! fd) as [q|] eqn:Eq; [|done]. apply (pp_known _ _ _ _ Pp) in Eq as [e0 Eq]. congruence. }
  pass (bool_decide_eq_true_2 _ Em). 
  set (i := length (pollfds_ x)).
  assert (len (pollfds_ x ++ [{| pf_fd := fd; pf_events := to_i 16 (ch_events c1); pf_revents := 0 |}]) - 1 = Z.of_nat i) as ->
    by (len; unfold len, i; lia).
  match goal with |- context [change_poller ?f ≫= _] => step (change_poller_ok f (<[p := c1]> cs) x) end.
  set (x1 := set_pollfds _ _).
  step (change_chan_ok p (set_index (Z.of_nat i)) c1 (<[p := c1]> cs) x1 (lookup_insert_eq _ _ _)).
  rewrite insert_insert_eq. do 2 eexists. split; [reflexivity|]. split.
  - apply (ppolls_insert t old cs x p _ fd e i 0); try done.
    + intros q e0. by rewrite Et.
    + intros fd' e' Ht. by apply Nt in Ht.
    + unfold x1. cbn [fst snd pollfds_ set_pollfds]. rewrite list_lookup_middle by done. unfold shown.
      rewrite decide_False by done. change (ch_events c1) with e. by rewrite to_i16_small.
    + intros j Hj. unfold x1. cbn [fst snd pollfds_ set_pollfds]. destruct (decide (j < i)%nat); [by apply lookup_app_l|].
      rewrite lookup_ge_None_2 by (rewrite length_app; cbn; unfold i in *; lia). symmetry. apply lookup_ge_None_2. unfold i in *; lia.
    + intros fd' p' e' c' Ht Ec'. split; [|intros ->; congruence].
      destruct (ppolls_index _ _ _ _ _ _ _ _ Pp Ht Ec') as (j & r & _ & _ & Ej & Lj). intros E.
      apply lookup_lt_Some in Lj. unfold i in E. lia.
  - cbn [fst]. intros q.
    destruct (decide (p = q)) as [<-|Nq]; [by rewrite !lookup_insert_eq|by rewrite !lookup_insert_ne].
Qed.

Lemma poll_watch_known t old cs x p c e e0 : ppolls t old cs x -> 0 <= e < 2 ^ 15 ->
  t !! ch_fd c = Some (p, e0) -> cs !! p = Some c ->
  exists cs' x', poll_updateChannel p (<[p := set_wanted e c]> cs, x) = Ok (tt, (cs', x'))
    /\ ppolls (<[ch_fd c := (p, e)]> t) old cs' x' /\ same_chans (<[p := set_wanted e c]> cs) cs'.
Proof.
  intros Pp He Et Ec. set (c1 := set_wanted e c). set (fd := ch_fd c) in *.
  destruct (ppolls_index _ _ _ _ _ _ _ _ Pp Et Ec) as (i & r & _ & _ & Ei & Li).
  assert (channels_ x !! fd = Some p) as Em by (apply (pp_known _ _ _ _ Pp); eauto).
  destruct (pp_chan _ _ _ _ Pp _ _ _ Et) as (Hfd & _).
  unfold poll_updateChannel. step (chan_ok p c1 (<[p := c1]> cs) x (lookup_insert_eq _ _ _)). look. cbn [snd].
  change (ch_index c1) with (ch_index c). change (ch_fd c1) with fd. rewrite Ei, decide_False by lia.
  pass (bool_decide_eq_true_2 _ Em). rewrite Nat2Z.id, Li. cbn [pf_fd].
  assert (shown fd e0 = fd \/ shown fd e0 = - fd - 1) as Es by (unfold shown; case_decide; auto).
  pass (bool_decide_eq_true_2 _ Es). do 2 eexists. split; [reflexivity|]. split; [|apply same_chans_refl].
  assert (channels_ x = <[fd := p]> (channels_ x)) as E1 by (by rewrite insert_id).
  unfold set_pollfds. cbn [snd]. rewrite E1. apply (ppolls_insert t old cs x p c1 fd e i 0); try done.
  - intros q e'. rewrite Et. naive_solver.
  - intros fd' e' Ht. by apply (ppolls_own t old cs x fd p e0 fd' e').
  - rewrite list_lookup_insert_eq by (by eapply lookup_lt_Some). unfold isNoneEvent, shown.
    change (ch_events c1) with e. rewrite to_i16_small by done. by destruct (Z.eqb_spec e 0); case_decide.
  - intros j Nj. by apply list_lookup_insert_ne.
  - intros fd' p' e' c' Ht Ec'. split; [|intros ->; rewrite Et in Ht; injection Ht as <- <-; congruence].
    intros E. destruct (ppolls_place t old cs x fd p e0 fd' p' e' c c') as [-> _]; try done. congruence.
Qed.

Lemma poll_watch_ok t old cs x p fd e : ppolls t old cs x -> allowed t old cs (Watch p fd e) ->
  exists cs' x', watch p e (cs, x) = Ok (tt, (cs', x')) /\ ppolls (<[fd := (p, e)]> t) old cs' x'
    /\ same_chans (alter (set_wanted e) p cs) cs'.
Proof.
  intros Pp (Hfd & He & A). unfold watch. cbn [updateChannel PollPoller_poller].
  destruct (t !! fd) as [[q e0]|] eqn:Et.
  - destruct A as [-> _]. destruct (pp_chan _ _ _ _ Pp _ _ _ Et) as (_ & _ & c & i & r & Ec & <- & _).
    rewrite (alter_some _ _ _ c Ec). step (change_chan_ok p (set_wanted e) c cs x Ec). by eapply poll_watch_known.
  - destruct A as (Ne & No & Ef & Np). destruct (cs !! p) as [c|] eqn:Ec; [subst fd|done].
    rewrite (alter_some _ _ _ c Ec). step (change_chan_ok p (set_wanted e) c cs x Ec).
    by apply poll_watch_new.
Qed.

(** *** Removing *)

Lemma swap_pop_lookup i l z j : (S i < length l)%nat -> l !! (length l - 1)%nat = Some z ->
  pop_back (iter_swap i (length l - 1) l) !! j
  = if decide (j = i) then Some z else if decide (j < length l - 1)%nat then l !! j else None.
Proof.
  intros L Ez. unfold pop_back, iter_swap. destruct (lookup_lt_is_Some_2 l i) as [y Ey]; [lia|].
  rewrite Ey, Ez, !length_insert. case_decide as Hj.
  - subst. rewrite lookup_take_lt by lia. apply list_lookup_insert_eq. rewrite length_insert. lia.
  - case_decide; [|apply lookup_take_ge; lia].
    rewrite lookup_take_lt, !list_lookup_insert_ne by lia. done.
Qed.

(** The table without a channel whose place went to the channel of the last entry, or which was
    the last itself. *)
Lemma ppolls_delete t old cs cs' x p fd e i l : ppolls t old cs x -> t !! fd = Some (p, e) ->
  (ch_index <$> cs !! p) = Some (Z.of_nat i) ->
  (forall q, (fun c => (ch_fd c, ch_events c)) <$> cs' !! q = (fun c => (ch_fd c, ch_events c)) <$> cs !! q) ->
  (forall fd' q e' c, t !! fd' = Some (q, e') -> fd' <> fd -> cs !! q = Some c ->
     exists c' j, cs' !! q = Some c' /\ ch_index c' = Z.of_nat j /\ l !! j = pollfds_ x !! Z.to_nat (ch_index c)) ->
  (forall j y, l !! j = Some y -> exists k, pollfds_ x !! k = Some y /\ k <> i
     /\ forall fd' q e' c, t !! fd' = Some (q, e') -> cs !! q = Some c -> ch_index c = Z.of_nat k ->
          ch_index <$> cs' !! q = Some (Z.of_nat j)) ->
  (forall q, (forall fd' e', t !! fd' <> Some (q, e')) -> cs' !! q = cs !! q) ->
  ppolls (delete fd t) ({[p]} ∪ old) cs' {| channels_ := delete fd (channels_ x); pollfds_ := l |}.
Proof.
  intros Pp Et Ei Sm Hc Hl Hn. pose proof Pp as [Kn Ch Sl Nw]. split; cbn.
  - intros fd' q. destruct (decide (fd = fd')) as [<-|Ne].
    + rewrite !lookup_delete_eq. naive_solver.
    + rewrite !lookup_delete_ne by done. apply Kn.
  - intros fd' q e' [Ne Ht]%lookup_delete_Some. destruct (Ch fd' q e' Ht) as (? & ? & c & k & r & Ec & E1 & E2 & E3 & E4).
    do 2 (split; [done|]). destruct (Hc fd' q e' c Ht (not_eq_sym Ne) Ec) as (c' & j & Ec' & Ej & Lj).
    exists c', j, r. specialize (Sm q). rewrite Ec', Ec in Sm. injection Sm as S1 S2.
    rewrite E3, Nat2Z.id, E4 in Lj. by rewrite S1, S2.
  - intros j y Hj. destruct (Hl j y Hj) as (k & Hk & Nk & Mv). destruct (Sl k y Hk) as (fd' & q & e' & c & Ht & Ec & Ek).
    pose proof (Mv fd' q e' c Ht Ec Ek) as Mj. destruct (cs' !! q) as [c'|] eqn:Ec'; [|done]. injection Mj as Mj.
    exists fd', q, e', c'. rewrite lookup_delete_ne; [done|].
    intros <-. rewrite Et in Ht. injection Ht as <- <-. rewrite Ec in Ei. injection Ei as Ei. lia.
  - intros q c Hq [Nq No]%not_elem_of_union N.
    assert (forall fd' e', t !! fd' <> Some (q, e')) as Nt.
    { intros fd' e' Ht. destruct (decide (fd = fd')) as [<-|Nf]; [rewrite Et in Ht; set_solver|].
      apply (N fd' e'). by rewrite lookup_delete_ne. }
    rewrite (Hn q Nt) in Hq. by apply (Nw q c Hq).
Qed.

Lemma poll_forget_last t old cs x p c i r : ppolls t old cs x -> t !! ch_fd c = Some (p, 0) -> cs !! p = Some c ->
  ch_index c = Z.of_nat i -> pollfds_ x !! i = Some r -> i = (length (pollfds_ x) - 1)%nat ->
  ppolls (delete (ch_fd c) t) ({[p]} ∪ old) cs {| channels_ := delete (ch_fd c) (channels_ x); pollfds_ := pop_back (pollfds_ x) |}.
Proof.
  intros Pp Et Ec Ei Li Hi. pose proof (lookup_lt_Some _ _ _ Li) as Hl.
  apply (ppolls_delete t old cs cs x p (ch_fd c) 0 i); try done.
  - by rewrite Ec, <- Ei.
  - intros fd' q e' c' Ht Nf Ec'. destruct (ppolls_index _ _ _ _ _ _ _ _ Pp Ht Ec') as (j & r' & _ & _ & Ej & Lj).
    exists c', j. split; [done|]. split; [done|]. rewrite Ej, Nat2Z.id. unfold pop_back. apply lookup_take_lt.
    apply lookup_lt_Some in Lj. assert (j <> i); [|lia]. intros ->. apply Nf, eq_sym.
    destruct (ppolls_place t old cs x (ch_fd c) p 0 fd' q e' c c') as [? _]; [done..|congruence|done].
  - intros j y Hj. unfold pop_back in Hj. apply lookup_take_Some in Hj as [Hj Lt]. exists j. split; [done|]. split; [lia|].
    intros fd' q e' c' _ Ec' Ej. by rewrite Ec', <- Ej.
Qed.

Lemma poll_forget_swap t old cs x p c i r q cq fdq eq back : ppolls t old cs x -> t !! ch_fd c = Some (p, 0) -> cs !! p = Some c ->
  ch_index c = Z.of_nat i -> pollfds_ x !! i = Some r -> i <> (length (pollfds_ x) - 1)%nat ->
  pollfds_ x !! (length (pollfds_ x) - 1)%nat = Some back ->
  t !! fdq = Some (q, eq) -> cs !! q = Some cq -> ch_index cq = Z.of_nat (length (pollfds_ x) - 1) ->
  ppolls (delete (ch_fd c) t) ({[p]} ∪ old) (<[q := set_index (Z.of_nat i) cq]> cs)
    {| channels_ := delete (ch_fd c) (channels_ x);
       pollfds_ := pop_back (iter_swap i (length (pollfds_ x) - 1) (pollfds_ x)) |}.
Proof.
  intros Pp Et Ec Ei Li Hi Lb Etq Ecq Eiq. pose proof (lookup_lt_Some _ _ _ Li) as Hl.
  set (n := (length (pollfds_ x) - 1)%nat) in *. assert (S i < length (pollfds_ x))%nat as Hs by (unfold n in *; lia).
  assert (forall fd' q' e' c', t !! fd' = Some (q', e') -> cs !! q' = Some c' -> ch_index c' = Z.of_nat n -> q' = q) as Last.
  { intros fd' q' e' c' Ht Ec' E. destruct (ppolls_place t old cs x fd' q' e' fdq q eq c' cq) as [_ ?]; [done..|congruence|done]. }
  apply (ppolls_delete t old cs _ x p (ch_fd c) 0 i); try done.
  - by rewrite Ec, <- Ei.
  - apply (same_chans_insert cs q cq); done.
  - intros fd' q' e' c' Ht Nf Ec'. destruct (ppolls_index _ _ _ _ _ _ _ _ Pp Ht Ec') as (j & r' & _ & _ & Ej & Lj).
    assert (j <> i) as Nj.
    { intros ->. apply Nf, eq_sym. destruct (ppolls_place t old cs x (ch_fd c) p 0 fd' q' e' c c') as [? _]; [done..|congruence|done]. }
    rewrite Ej, Nat2Z.id. destruct (decide (j = n)) as [->|Nn].
    + rewrite (Last fd' q' e' c') by (done || congruence). exists (set_index (Z.of_nat i) cq), i.
      rewrite lookup_insert_eq. split; [done|]. split; [done|]. unfold n. rewrite (swap_pop_lookup i _ back) by done.
      by rewrite decide_True.
    + exists c', j. rewrite lookup_insert_ne.
      * split; [done|]. split; [done|]. unfold n. rewrite (swap_pop_lookup i _ back) by done. rewrite decide_False by done.
        apply lookup_lt_Some in Lj. rewrite decide_True by (unfold n in *; lia). done.
      * intros <-. rewrite Ecq in Ec'. injection Ec' as <-. lia.
  - intros j y Hj. unfold n in Hj. rewrite (swap_pop_lookup i _ back) in Hj by done.
    case_decide as Hji; [injection Hj as <-; subst j; exists n; split; [done|]; split; [done|]|].
    + intros fd' q' e' c' Ht Ec' Ek. rewrite (Last fd' q' e' c' Ht Ec' Ek). by rewrite lookup_insert_eq.
    + case_decide as Hjn; [|done]. exists j. split; [done|]. split; [done|]. intros fd' q' e' c' Ht Ec' Ek.
      rewrite lookup_insert_ne; [by rewrite Ec', <- Ek|]. intros <-. rewrite Ecq in Ec'. injection Ec' as <-.
      unfold n in *. lia.
  - intros q' N. apply lookup_insert_ne. intros <-. by apply (N fdq eq).
Qed.

Lemma poll_forget_ok t old cs x p fd : ppolls t old cs x -> allowed t old cs (Forget p fd) ->
  exists cs' x', poll_removeChannel p (cs, x) = Ok (tt, (cs', x')) /\ ppolls (delete fd t) ({[p]} ∪ old) cs' x'
    /\ same_chans cs cs'.
Proof.
  intros Pp Et. cbn in Et. destruct (pp_chan _ _ _ _ Pp _ _ _ Et) as (Hfd & _ & c & i & r & Ec & <- & Ee & Ei & Li).
  assert (channels_ x !! ch_fd c = Some p) as Em by (apply (pp_known _ _ _ _ Pp); eauto).
  unfold poll_removeChannel. step (chan_ok p c cs x Ec). look. cbn [snd]. pass (bool_decide_eq_true_2 _ Em).
  assert (isNoneEvent c = true) as En by (unfold isNoneEvent; by rewrite Ee). pass En.
  assert ((0 <=? ch_index c) = true) as Ez by (apply Z.leb_le; lia). pass Ez.
  rewrite Ei, Nat2Z.id, Li. change (shown (ch_fd c) 0) with (- ch_fd c - 1) in *. cbn [pf_fd pf_events].
  pass (bool_decide_eq_true_2 _ (conj (eq_refl (- ch_fd c - 1)) (eq_sym Ee))).
  match goal with |- context [change_poller ?f ≫= _] => step (change_poller_ok f cs x) end.
  case_decide as Hi.
  - do 2 eexists. split; [reflexivity|]. split; [by eapply poll_forget_last|apply same_chans_refl].
  - pose proof (lookup_lt_Some _ _ _ Li) as Hl.
    destruct (lookup_lt_is_Some_2 (pollfds_ x) (length (pollfds_ x) - 1)) as [back Lb]; [lia|]. rewrite Lb.
    destruct (pp_slot _ _ _ _ Pp _ _ Lb) as (fdq & q & e & cq & Etq & Ecq & Eiq).
    destruct (ppolls_index _ _ _ _ _ _ _ _ Pp Etq Ecq) as (j & r' & _ & _ & Ej & Lj).
    assert (j = length (pollfds_ x) - 1)%nat as -> by lia. rewrite Lb in Lj. injection Lj as ->. cbn [pf_fd].
    destruct (pp_chan _ _ _ _ Pp _ _ _ Etq) as (Hq & _).
    match goal with |- context [change_poller ?f ≫= _] =>
      step (change_poller_ok f cs (set_channels (delete (ch_fd c) (channels_ x)) x)) end.
    assert ((if decide (shown fdq e < 0) then - shown fdq e - 1 else shown fdq e) = fdq) as ->
      by (unfold shown; repeat case_decide; lia).
    assert (fdq <> ch_fd c) as Nf.
    { intros ->. rewrite Et in Etq. injection Etq as <- <-. rewrite Ec in Ecq. injection Ecq as <-. lia. }
    rewrite lookup_delete_ne by done. rewrite (proj2 (pp_known _ _ _ _ Pp fdq q)) by eauto.
    set (x1 := set_pollfds _ _). step (chan_ok q cq cs x1 Ecq). step (change_chan_ok q (set_index (Z.of_nat i)) cq cs x1 Ecq).
    do 2 eexists. split; [reflexivity|]. split; [|by apply (same_chans_insert _ _ cq)].
    by apply (poll_forget_swap t old cs x p c i {| pf_fd := - ch_fd c - 1; pf_events := 0; pf_revents := r |} q cq fdq e
      {| pf_fd := shown fdq e; pf_events := e; pf_revents := r' |}).
Qed.

(** *** The interest *)

Lemma poll_interest_ok t old cs x : ppolls t old cs x -> poll_interest x = watched t.
Proof.
  intros Pp. apply map_eq. intros fd. apply option_eq. intros [e p].
  unfold poll_interest. rewrite map_lookup_imap, watched_lookup.
  split.
  - destruct (channels_ x !! fd) as [q|] eqn:Eq; [|done]. cbn. apply (pp_known _ _ _ _ Pp) in Eq as [e0 Et].
    destruct (List.find _ _) as [y|] eqn:Ey; [|done]. intros [= <- <-]. apply List.find_some in Ey as [Iy Fy].
    apply Z.eqb_eq in Fy. apply list_elem_of_In, list_elem_of_lookup in Iy as [i Li].
    destruct (pp_slot _ _ _ _ Pp _ _ Li) as (fd' & q' & e' & c & Et' & Ec & Ei).
    destruct (ppolls_index _ _ _ _ _ _ _ _ Pp Et' Ec) as (j & r & _ & _ & Ej & Lj).
    assert (j = i) as -> by lia. rewrite Li in Lj. injection Lj as ->. cbn in *.
    destruct (pp_chan _ _ _ _ Pp _ _ _ Et) as (H0 & _), (pp_chan _ _ _ _ Pp _ _ _ Et') as (H1 & _).
    unfold shown in Fy. case_decide; [lia|]. subst fd'. by rewrite Et in Et'; injection Et' as <- <-.
  - intros [Et Ne]. rewrite (proj2 (pp_known _ _ _ _ Pp fd p)) by eauto. cbn.
    destruct (pp_chan _ _ _ _ Pp _ _ _ Et) as (Hfd & _ & c & i & r & Ec & _ & _ & Ei & Li).
    destruct (List.find _ _) as [y|] eqn:Ey.
    + apply List.find_some in Ey as [Iy Fy]. apply Z.eqb_eq in Fy. apply list_elem_of_In, list_elem_of_lookup in Iy as [k Lk].
      destruct (pp_slot _ _ _ _ Pp _ _ Lk) as (fd' & q' & e' & c' & Et' & Ec' & Ek).
      destruct (ppolls_index _ _ _ _ _ _ _ _ Pp Et' Ec') as (j & r' & _ & _ & Ej & Lj).
      assert (j = k) as -> by lia. rewrite Lk in Lj. injection Lj as ->. cbn in *.
      destruct (pp_chan _ _ _ _ Pp _ _ _ Et') as (H1 & _).
      unfold shown in Fy. case_decide; [lia|]. subst fd'. by rewrite Et in Et'; injection Et' as <- <-.
    + assert (List.In {| pf_fd := shown fd e; pf_events := e; pf_revents := r |} (pollfds_ x)) as Iy
        by (apply list_elem_of_In; by eapply list_elem_of_lookup_2).
      pose proof (List.find_none _ _ Ey _ Iy) as Fy. cbn in Fy. unfold shown in Fy. rewrite decide_False in Fy by done.
      by rewrite Z.eqb_refl in Fy.
Qed.
(** *** Polling *)

(** What the call writes into an entry. *)
Definition polled (ready : list (Z * Z)) (y : pollfd) : pollfd :=
  {| pf_fd := pf_fd y; pf_events := pf_events y;
     pf_revents := if decide (pf_fd y < 0) then 0 else ready_on ready (pf_fd y) |}.

Lemma ppolls_reported t old cs x evs ready : ppolls t old cs x ->
  ppolls t old (reported evs cs) (set_pollfds (polled ready <$> pollfds_ x) x).
Proof.
  intros [Kn Ch Sl Nw]. split; cbn; try done.
  - intros fd p e Ht. destruct (Ch fd p e Ht) as (? & ? & c & i & r & Ec & E1 & E2 & E3 & E4). do 2 (split; [done|]).
    pose proof (reported_settled evs cs p) as R. rewrite Ec in R. destruct (reported evs cs !! p) as [c'|]; [|done].
    unfold settled in R. cbn in R. injection R as R1 R2 R3. exists c', i. rewrite list_lookup_fmap, E4, R1, R2, R3.
    eexists. split; [done|]. split; [done|]. split; [done|]. split; [done|]. reflexivity.
  - intros i y Hy. rewrite list_lookup_fmap in Hy. destruct (pollfds_ x !! i) as [y0|] eqn:Ey; [|done].
    destruct (Sl i y0 Ey) as (fd & p & e & c & Et & Ec & Ei). pose proof (reported_settled evs cs p) as R. rewrite Ec in R.
    destruct (reported evs cs !! p) as [c'|] eqn:Ec'; [|done]. unfold settled in R. cbn in R. injection R as R1 R2 R3.
    exists fd, p, e, c'. by rewrite R3.
  - intros p c Hp No N. pose proof (reported_settled evs cs p) as R. rewrite Hp in R. destruct (cs !! p) as [c0|] eqn:Ec; [|done].
    unfold settled in R. cbn in R. injection R as _ _ ->. by apply (Nw p c0).
Qed.

(** The entries with something ready, by channel. *)
Definition ready_entries (m : gmap Z Z) (fds : list pollfd) : list (Z * Z) :=
  omap (fun y => if decide (pf_revents y > 0) then (fun p => (pf_revents y, p)) <$> m !! pf_fd y else None) fds.

Lemma ready_entries_elem m fds r p : (r, p) ∈ ready_entries m fds <->
  exists y, y ∈ fds /\ 0 < r /\ pf_revents y = r /\ m !! pf_fd y = Some p.
Proof.
  unfold ready_entries. rewrite list_elem_of_omap. split.
  - intros (y & Hy & E). case_decide; [|done]. destruct (m !! pf_fd y) eqn:Em; [|done]. injection E as <- <-.
    exists y. split; [done|]. split; [lia|done].
  - intros (y & Hy & Hr & <- & Em). exists y. split; [done|]. rewrite decide_True by lia. by rewrite Em.
Qed.

Lemma ready_entries_NoDup m fds :
  (forall i j y z p, fds !! i = Some y -> fds !! j = Some z -> m !! pf_fd y = Some p -> m !! pf_fd z = Some p -> i = j) ->
  NoDup (ready_entries m fds).*2.
Proof.
  induction fds as [|y fds IH]; intros U; [constructor|]. unfold ready_entries in *. cbn [omap list_omap].
  assert (NoDup (ready_entries m fds).*2) as N.
  { apply IH. intros i j y' z p Hi Hj Ey Ez. assert (S i = S j) as E; [|by injection E]. by apply (U (S i) (S j) y' z p). }
  case_decide; [|done]. destruct (m !! pf_fd y) as [p|] eqn:Em; [|done]. cbn [fmap option_fmap option_map].
  rewrite fmap_cons. constructor; [|done]. intros ([r' p'] & Ep & Hx)%list_elem_of_fmap. cbn in Ep. subst p'.
  apply (ready_entries_elem m fds) in Hx as (z & Hz & _ & _ & Ez). apply list_elem_of_lookup in Hz as [j Hj].
  by specialize (U 0%nat (S j) y z p eq_refl Hj Em Ez).
Qed.

(** The countdown reaches every entry with something ready. *)
Lemma fill_poll_ok m x fds cs active : NoDup (ready_entries m fds).*2 -> Forall (fun y => 0 <= pf_revents y) fds ->
  (forall y, y ∈ fds -> 0 < pf_revents y -> exists p c, m !! pf_fd y = Some p /\ cs !! p = Some c /\ ch_fd c = pf_fd y) ->
  poll_fillActiveChannels m fds (len (filter (fun y => pf_revents y <> 0) fds)) active (cs, x)
  = Ok (active ++ (ready_entries m fds).*2, (reported (ready_entries m fds) cs, x)).
Proof.
  revert cs active. induction fds as [|y fds IH]; intros cs active N F K; [by rewrite app_nil_r|].
  apply Forall_cons in F as [Fy F]. cbn [poll_fillActiveChannels]. rewrite filter_cons.
  assert (forall z, z ∈ fds -> 0 < pf_revents z -> exists p c, m !! pf_fd z = Some p /\ cs !! p = Some c /\ ch_fd c = pf_fd z)
    as Kf by (intros z Hz; apply K; by right).
  destruct (decide (pf_revents y <> 0)) as [Hr|Hr].
  - destruct (K y) as (p & c & Em & Ec & Ef); [by left|lia|]. len.
    pose proof (len_nonneg (filter (fun y => pf_revents y <> 0) fds)). rewrite !decide_True by lia.
    assert (ready_entries m (y :: fds) = (pf_revents y, p) :: ready_entries m fds) as El
      by (unfold ready_entries; cbn; rewrite decide_True by lia; by rewrite Em).
    rewrite El in N |- *. rewrite fmap_cons in N. apply NoDup_cons in N as [Np N]. cbn [snd] in Np.
    rewrite Em. step (chan_ok p c cs x Ec). pass (bool_decide_eq_true_2 _ Ef).
    step (change_chan_ok p (set_revents (pf_revents y)) c cs x Ec).
    replace (1 + len (filter (fun y => pf_revents y <> 0) fds) - 1) with (len (filter (fun y => pf_revents y <> 0) fds)) by lia.
    rewrite IH; [|done..|].
    + rewrite fmap_cons, <- app_assoc. unfold reported. cbn [fold_left fst snd]. by rewrite (alter_some _ _ _ c Ec).
    + intros z Hz Hz0. destruct (Kf z Hz Hz0) as (q & d & Eq & Ed & Efd). exists q, d. rewrite lookup_insert_ne; [done|].
      intros <-. apply Np, list_elem_of_fmap. exists (pf_revents z, p). split; [done|]. apply ready_entries_elem. eauto.
  - assert (ready_entries m (y :: fds) = ready_entries m fds) as El
      by (unfold ready_entries; cbn; by rewrite decide_False by lia).
    rewrite El in N |- *. rewrite (decide_False (P := pf_revents y > 0)) by lia. case_decide as Hn; [by apply IH|].
    assert (ready_entries m fds = []) as ->; [|by rewrite app_nil_r].
    destruct (ready_entries m fds) as [|[r p] l] eqn:Er; [done|].
    assert ((r, p) ∈ ready_entries m fds) as (z & Hz & Hz0 & Ez & _)%ready_entries_elem by (rewrite Er; by left).
    assert (z ∈ filter (fun y => pf_revents y <> 0) fds) as Hf by (apply list_elem_of_filter; split; [lia|done]).
    destruct (filter _ fds) as [|w l']; [set_solver|]. exfalso. revert Hn. len. pose proof (len_nonneg l'). lia.
Qed.

Lemma ready_on_elem ready fd r : NoDup ready.*1 -> (fd, r) ∈ ready -> ready_on ready fd = r.
Proof.
  unfold ready_on. induction ready as [|[fd' r'] ready IH]; intros N Hx; [set_solver|].
  rewrite fmap_cons in N. apply NoDup_cons in N as [Nf N]. cbn [List.find fst] in *.
  apply elem_of_cons in Hx as [[= -> ->]|Hx]; [by rewrite Z.eqb_refl|].
  destruct (Z.eqb_spec fd' fd) as [->|]; [|by apply IH]. destruct Nf. apply list_elem_of_fmap. by exists (fd, r).
Qed.

Lemma ready_on_pos t ready fd : report_ok t ready -> 0 <= ready_on ready fd /\ (0 < ready_on ready fd -> (fd, ready_on ready fd) ∈ ready).
Proof.
  intros [_ F]. unfold ready_on. destruct (List.find _ ready) as [[fd' r]|] eqn:E; [|lia].
  apply List.find_some in E as [I E]. apply Z.eqb_eq in E. cbn in E. subst fd'. apply list_elem_of_In in I.
  rewrite Forall_forall in F. destruct (F _ I) as [_ ?]. cbn in *. split; [lia|done].
Qed.

(** Which channel a polled entry stands for. *)
Lemma polled_entry t old cs x ready y : ppolls t old cs x -> report_ok t ready -> y ∈ polled ready <$> pollfds_ x ->
  0 < pf_revents y -> exists p e c, t !! pf_fd y = Some (p, e) /\ cs !! p = Some c /\ ch_fd c = pf_fd y
    /\ (pf_fd y, pf_revents y) ∈ ready.
Proof.
  intros Pp R (y0 & -> & Hy)%list_elem_of_fmap Hr. apply list_elem_of_lookup in Hy as [i Li].
  destruct (pp_slot _ _ _ _ Pp _ _ Li) as (fd & p & e & c & Et & Ec & Ei).
  destruct (ppolls_index _ _ _ _ _ _ _ _ Pp Et Ec) as (j & r & Ef & _ & Ej & Lj).
  assert (j = i) as -> by lia. rewrite Li in Lj. injection Lj as ->.
  destruct (pp_chan _ _ _ _ Pp _ _ _ Et) as (Hfd & _). cbn in Hr |- *.
  destruct (decide (shown fd e < 0)) as [|Hs]; [lia|]. destruct (ready_on_pos t ready (shown fd e) R) as [_ Hin].
  unfold shown in *. case_decide; [lia|]. exists p, e, c. auto.
Qed.

Lemma polled_NoDup t old cs x ready : ppolls t old cs x -> NoDup (ready_entries (channels_ x) (polled ready <$> pollfds_ x)).*2.
Proof.
  intros Pp. apply ready_entries_NoDup.
  assert (forall i y p, (polled ready <$> pollfds_ x) !! i = Some y -> channels_ x !! pf_fd y = Some p ->
    ch_index <$> cs !! p = Some (Z.of_nat i)) as At.
  { intros i y p Hy Em. rewrite list_lookup_fmap in Hy. destruct (pollfds_ x !! i) as [y0|] eqn:Li; [|done].
    injection Hy as <-. cbn in Em. apply (pp_known _ _ _ _ Pp) in Em as [e0 Et0].
    destruct (pp_slot _ _ _ _ Pp _ _ Li) as (fd & q & e & c & Et & Ec & Ei).
    destruct (ppolls_index _ _ _ _ _ _ _ _ Pp Et Ec) as (j & r & Ef & _ & Ej & Lj).
    assert (j = i) as -> by lia. rewrite Li in Lj. injection Lj as ->. cbn in Et0.
    destruct (pp_chan _ _ _ _ Pp _ _ _ Et) as (H1 & _), (pp_chan _ _ _ _ Pp _ _ _ Et0) as (H2 & _).
    unfold shown in Et0, H2. case_decide; [lia|]. rewrite Et in Et0. injection Et0 as <- _. by rewrite Ec, <- Ei. }
  intros i j y z p Hi Hj Ey Ez. pose proof (At i y p Hi Ey) as A1. rewrite (At j z p Hj Ez) in A1. injection A1. lia.
Qed.

Lemma poll_poll_ok t old cs x ready : ppolls t old cs x -> report_ok t ready ->
  exists active cs' x', poll_poll ready (cs, x) = Ok (active, (cs', x')) /\ ppolls t old cs' x' /\ same_chans cs cs'
    /\ NoDup active /\ (ready <> [] -> active <> [])
    /\ forall p, p ∈ active -> exists fd e r, t !! fd = Some (p, e) /\ (fd, r) ∈ ready /\ ch_revents <$> cs' !! p = Some r.
Proof.
  intros Pp R. set (fds := polled ready <$> pollfds_ x). set (evs := ready_entries (channels_ x) fds).
  assert (forall y, y ∈ fds -> 0 < pf_revents y -> exists p c, channels_ x !! pf_fd y = Some p /\ cs !! p = Some c /\ ch_fd c = pf_fd y) as K.
  { intros y Hy Hr. destruct (polled_entry t old cs x ready y Pp R Hy Hr) as (p & e & c & Et & Ec & Ef & _).
    exists p, c. split; [apply (pp_known _ _ _ _ Pp); eauto|done]. }
  assert (Forall (fun y => 0 <= pf_revents y) fds) as F.
  { apply Forall_forall. intros y (y0 & -> & _)%list_elem_of_fmap. cbn. case_decide; [lia|]. by apply (ready_on_pos t). }
  pose proof (polled_NoDup t old cs x ready Pp) as N. fold fds evs in N.
  assert (poll_poll ready (cs, x) = Ok (evs.*2, (reported evs cs, set_pollfds fds x))) as ->.
  { unfold poll_poll. look. cbn [snd]. rewrite sys_poll_spec. fold (polled ready). fold fds. cbv beta iota zeta.
    pose proof (fill_poll_ok (channels_ x) (set_pollfds fds x) fds cs [] N F K) as E. fold evs in E.
    match goal with |- context [decide (?n > 0)] => destruct (decide (n > 0)) as [Hn|Hn] end; [exact E|].
    destruct fds as [|y fds']; [done|]. cbn [poll_fillActiveChannels] in E. destruct (decide (len _ > 0)); [lia|]. exact E. }
  exists evs.*2, (reported evs cs), (set_pollfds fds x). split; [done|]. split; [by apply ppolls_reported|].
  split; [apply reported_same|]. split; [done|]. split.
  - destruct ready as [|[fd r] ready]; [done|]. intros _ En%fmap_nil_inv. destruct R as [Nr Fr].
    pose proof (proj1 (Forall_cons _ _ _) Fr) as [[[[e p] Ew] Hr] _]. cbn in Ew, Hr. apply watched_lookup in Ew as [Et Ne].
    destruct (pp_chan _ _ _ _ Pp _ _ _ Et) as (Hfd & _ & c & i & r' & Ec & _ & _ & Ei & Li).
    assert ((r, p) ∈ evs); [|rewrite En in *; set_solver]. apply ready_entries_elem. eexists. split.
    { apply list_elem_of_fmap. eexists. split; [reflexivity|]. by eapply list_elem_of_lookup_2. }
    cbn. unfold shown. rewrite (decide_False (P := e = 0)) by done. rewrite decide_False by lia.
    rewrite (ready_on_elem ((fd, r) :: ready) fd r Nr) by (by left). split; [lia|]. split; [done|].
    apply (pp_known _ _ _ _ Pp). eauto.
  - intros p ([r p'] & -> & Hx)%list_elem_of_fmap. pose proof Hx as (y & Hy & Hr & <- & Em)%ready_entries_elem. cbn [snd].
    destruct (polled_entry t old cs x ready y Pp R Hy Hr) as (q & e & c & Et & Ec & Ef & Hin).
    apply (pp_known _ _ _ _ Pp) in Em as [e' Em]. rewrite Em in Et. injection Et as <- <-.
    exists (pf_fd y), e', (pf_revents y). split; [done|]. split; [done|]. apply reported_is; [done..|]. eauto.
Qed.

#[export] Instance PollPoller_spec : PollerSpec PollPoller := {|
  polls := ppolls; polls_interest := poll_interest_ok; polls_watch := poll_watch_ok; polls_forget := poll_forget_ok;
  polls_poll := poll_poll_ok |}.

(** A new poller knows nothing. *)
Lemma ppolls_new cs : map_Forall (fun _ c => ch_index c = -1) cs -> ppolls ∅ ∅ cs PollPoller_new.
Proof.
  intros F. split; cbn; try done.
  - intros fd p. rewrite !lookup_empty. naive_solver.
  - intros p c Ec _ _. rewrite (F p c Ec). lia.
Qed.
End poll.
