(* ===== verification/Pollers.v ===== *)
(** * The two pollers (net/Poller.h, net/poller/)

    What holds of both pollers, from their common promise: they run the same calls to the same
    effect, and report what the loop is to handle; and where they part, outside that promise. *)

From S2P Require Import Prelude.
From S2P Require Import Poller.
From S2P Require Import EPollPoller.
From S2P Require Import PollPoller.

(** Channels of a loop that has not used them yet. *)
Definition fresh_chans (cs : Chans) : Prop := map_Forall (fun _ c => ch_index c = kNew) cs.

#[export] Instance fresh_chans_dec cs : Decision (fresh_chans cs).
Proof. unfold fresh_chans. apply _. Defined.

(** A run of calls, and a poll. *)
Definition run_poll `{Poller P} (ks : list poller_call) (ready : list (Z * Z)) : PM P (list Z) :=
  _ ← poller_run ks;
  poll ready.

(** The channels that a poll gave, for a table and a report: each once, watched, with what is
    ready on its descriptor; some, if anything is ready. *)
Definition reports (t : Table) (ready : list (Z * Z)) (active : list Z) (cs : Chans) : Prop :=
  NoDup active /\ (ready <> [] -> active <> [])
  /\ forall p, p ∈ active -> exists fd e r, t !! fd = Some (p, e) /\ (fd, r) ∈ ready /\ ch_revents <$> cs !! p = Some r.

Section both.
Context `{PollerSpec P}.

Lemma run_poll_ok ks ready cs x : polls ∅ ∅ cs x -> allowed_all ks ∅ ∅ cs -> report_ok (table_run ks ∅) ready ->
  exists active cs' x', run_poll ks ready (cs, x) = Ok (active, (cs', x')) /\ interest x' = watched (table_run ks ∅)
    /\ reports (table_run ks ∅) ready active cs'.
Proof.
  intros Po A R. destruct (poller_run_ok ks ∅ ∅ cs x Po A) as (cs1 & x1 & E & P1). unfold run_poll. step E.
  destruct (polls_poll _ _ _ _ _ P1 R) as (active & cs2 & x2 & E2 & P2 & _ & N & Ne & F). exists active, cs2, x2.
  split; [done|]. split; [by apply (polls_interest _ _ _ _ P2)|done].
Qed.
End both.

Section pollers.
Context {K : Type} `{Epoll K} `{PollCall}.

Lemma pollers_new cs k : fresh_chans cs -> epoll_list k = ∅ ->
  polls ∅ ∅ cs (EPollPoller_new k) /\ polls ∅ ∅ cs PollPoller_new.
Proof. intros F Ek. split; [by apply epolls_new|by apply ppolls_new]. Qed.

(** C31: the two pollers are one table: any sequence of calls that is used as channels are used
    runs in both without a failed assertion or system call, and what the system then watches is
    the same for both, and is what the abstract table says: the channels that were entered and
    not removed, each with the events last asked for, if there are any. *)
Theorem pollers_agree ks cs k : fresh_chans cs -> epoll_list k = ∅ -> allowed_all ks ∅ ∅ cs ->
  exists cs1 x1 cs2 x2,
    poller_run ks (cs, EPollPoller_new k) = Ok (tt, (cs1, x1))
    /\ poller_run ks (cs, PollPoller_new) = Ok (tt, (cs2, x2))
    /\ interest x1 = watched (table_run ks ∅) /\ interest x2 = interest x1.
Proof.
  intros F Ek A. destruct (pollers_new cs k F Ek) as [P1 P2].
  destruct (poller_run_ok ks ∅ ∅ cs _ P1 A) as (cs1 & x1 & E1 & Q1).
  destruct (poller_run_ok ks ∅ ∅ cs _ P2 A) as (cs2 & x2 & E2 & Q2).
  exists cs1, x1, cs2, x2. split; [done|]. split; [done|].
  rewrite (polls_interest _ _ _ _ Q1). split; [done|]. exact (polls_interest _ _ _ _ Q2).
Qed.

(** a poll after any such calls, with any report of what is ready, gives from either poller
    channels that are in the table and watched, each once, with exactly what is ready on its
    descriptor written into it; it gives some if anything is ready; and polling changes nothing
    of what is watched. *)
Theorem pollers_report ks ready cs k : fresh_chans cs -> epoll_list k = ∅ -> allowed_all ks ∅ ∅ cs ->
  report_ok (table_run ks ∅) ready ->
  (exists active cs' x', run_poll ks ready (cs, EPollPoller_new k) = Ok (active, (cs', x'))
     /\ interest x' = watched (table_run ks ∅) /\ reports (table_run ks ∅) ready active cs')
  /\ exists active cs' x', run_poll ks ready (cs, PollPoller_new) = Ok (active, (cs', x'))
     /\ interest x' = watched (table_run ks ∅) /\ reports (table_run ks ∅) ready active cs'.
Proof.
  intros F Ek A R. destruct (pollers_new cs k F Ek) as [P1 P2].
  split; [exact (run_poll_ok ks ready cs _ P1 A R)|exact (run_poll_ok ks ready cs _ P2 A R)].
Qed.
End pollers.

(** ** On a small system *)

Abbreviation Listing := (gmap Z (Z * Z)).

Definition listing_ctl (op : ctl_op) (fd e p : Z) (k : Listing) : bool * Listing :=
  match op, k !! fd with
  | EPOLL_CTL_ADD, None | EPOLL_CTL_MOD, Some _ => (true, <[fd := (e, p)]> k)
  | EPOLL_CTL_DEL, Some _ => (true, delete fd k)
  | _, _ => (false, k)
  end.

#[refine] #[export] Instance listing_epoll : Epoll Listing := {|
  epoll_ctl := listing_ctl;
  epoll_wait ready n k := take n (omap (fun x => (fun y => (x.2, y.2)) <$> k !! x.1) ready);
  epoll_list k := k |}.
Proof.
  - intros fd e p k E. unfold listing_ctl. rewrite E. eauto.
  - intros fd e p k [y E]. unfold listing_ctl. rewrite E. eauto.
  - intros fd e p k [y E]. unfold listing_ctl. rewrite E. eauto.
  - done.
Defined.

Definition small_poll (ready : list (Z * Z)) (fds : list pollfd) : Z * list pollfd :=
  let fds' := polled ready <$> fds in
  (len (filter (fun y => pf_revents y <> 0) fds'), fds').

#[refine] #[export] Instance small_poll_call : PollCall := {| sys_poll := small_poll |}.
Proof. done. Defined.

(** Three channels: entered, changed, disabled, removed from the middle. *)
Definition three : Chans := {[1 := Chan_new 5; 2 := Chan_new 6; 3 := Chan_new 7]}.
Definition three_calls : list poller_call :=
  [Watch 1 5 3; Watch 2 6 3; Watch 3 7 3; Watch 1 5 0; Watch 3 7 7; Forget 1 5; Watch 2 6 0; Watch 2 6 4].

Lemma pollers_agree_witness : exists cs1 x1 cs2 x2,
  poller_run three_calls (three, EPollPoller_new (K := Listing) ∅) = Ok (tt, (cs1, x1))
  /\ poller_run three_calls (three, PollPoller_new) = Ok (tt, (cs2, x2))
  /\ interest x1 = watched (table_run three_calls ∅) /\ interest x2 = interest x1.
Proof.
  apply (pollers_agree (K := Listing) three_calls three ∅).
  - apply (bool_decide_unpack _). vm_compute. exact I.
  - reflexivity.
  - apply (bool_decide_unpack _). vm_compute. exact I.
Defined.

Lemma pollers_report_witness :
  (exists active cs' x', run_poll three_calls [(7, 4); (6, 4)] (three, EPollPoller_new (K := Listing) ∅) = Ok (active, (cs', x'))
     /\ interest x' = watched (table_run three_calls ∅) /\ reports (table_run three_calls ∅) [(7, 4); (6, 4)] active cs')
  /\ exists active cs' x', run_poll three_calls [(7, 4); (6, 4)] (three, PollPoller_new) = Ok (active, (cs', x'))
     /\ interest x' = watched (table_run three_calls ∅) /\ reports (table_run three_calls ∅) [(7, 4); (6, 4)] active cs'.
Proof.
  apply (pollers_report (K := Listing) three_calls [(7, 4); (6, 4)] three ∅).
  - apply (bool_decide_unpack _). vm_compute. exact I.
  - reflexivity.
  - apply (bool_decide_unpack _). vm_compute. exact I.
  - apply (bool_decide_unpack _). vm_compute. exact I.
Defined.

(** ** Where they part

    A channel that is disabled once more is entered with [epoll] again, for no event, which
    still gives errors and hang-ups; with [poll] it stays out. *)
Definition disabled_twice : list poller_call := [Watch 1 5 3; Watch 1 5 0; Watch 1 5 0].

Lemma disabled_twice_listed :
  (exists s, poller_run disabled_twice (three, EPollPoller_new (K := Listing) ∅) = Ok (tt, s) /\ interest s.2 !! 5 = Some (0, 1))
  /\ exists s, poller_run disabled_twice (three, PollPoller_new) = Ok (tt, s) /\ interest s.2 !! 5 = None.
Proof. split; eexists; (split; [vm_compute; reflexivity|vm_compute; reflexivity]). Qed.

(** A channel that was removed can be entered again with [epoll]; with [poll] it has kept its
    index, and is taken for one that is known. *)
Definition entered_again : list poller_call := [Watch 1 5 3; Watch 1 5 0; Forget 1 5; Watch 1 5 3].

Lemma entered_again_fails :
  (exists s, poller_run entered_again (three, EPollPoller_new (K := Listing) ∅) = Ok (tt, s) /\ interest s.2 !! 5 = Some (3, 1))
  /\ poller_run entered_again (three, PollPoller_new) = Undef AssertFailed.
Proof. split; [eexists; (split; [vm_compute; reflexivity|vm_compute; reflexivity])|vm_compute; reflexivity]. Qed.
