(* ===== verification/Http.v ===== *)
(** * The HTTP server of the network library (net/http/)

    HttpRequest.h, HttpContext.cc: the parser, which takes a request out of the input buffer line
    by line and goes on where it stopped when more bytes are there. HttpResponse.cc: the text of
    a response. HttpServer.cc: a user of TcpServer that keeps a parser in each connection. *)

From S2P Require Import Prelude Bytes Text StdMap Buffer Conn Timestamp.

(** ** HttpRequest *)

Inductive Method := kInvalid | kGet | kPost | kHead | kPut | kDelete.
Inductive Version := kUnknown | kHttp10 | kHttp11.

#[export] Instance Method_eq_dec : EqDecision Method.
Proof. solve_decision. Defined.
#[export] Instance Version_eq_dec : EqDecision Version.
Proof. solve_decision. Defined.

Record HttpRequest := {
  method_ : Method;
  version_ : Version;
  path_ : bytes;
  query_ : bytes;
  receiveTime_ : Z;
  headers_ : list (bytes * bytes);
}.

Definition HttpRequest_new : HttpRequest :=
  {| method_ := kInvalid; version_ := kUnknown; path_ := []; query_ := []; receiveTime_ := 0; headers_ := [] |}.

Definition set_method (m : Method) (r : HttpRequest) : HttpRequest :=
  {| method_ := m; version_ := version_ r; path_ := path_ r; query_ := query_ r; receiveTime_ := receiveTime_ r;
     headers_ := headers_ r |}.
Definition setVersion (v : Version) (r : HttpRequest) : HttpRequest :=
  {| method_ := method_ r; version_ := v; path_ := path_ r; query_ := query_ r; receiveTime_ := receiveTime_ r;
     headers_ := headers_ r |}.
Definition setPath (s : bytes) (r : HttpRequest) : HttpRequest :=
  {| method_ := method_ r; version_ := version_ r; path_ := s; query_ := query_ r; receiveTime_ := receiveTime_ r;
     headers_ := headers_ r |}.
Definition setQuery (s : bytes) (r : HttpRequest) : HttpRequest :=
  {| method_ := method_ r; version_ := version_ r; path_ := path_ r; query_ := s; receiveTime_ := receiveTime_ r;
     headers_ := headers_ r |}.
Definition setReceiveTime (t : Z) (r : HttpRequest) : HttpRequest :=
  {| method_ := method_ r; version_ := version_ r; path_ := path_ r; query_ := query_ r; receiveTime_ := t;
     headers_ := headers_ r |}.
Definition set_headers (h : list (bytes * bytes)) (r : HttpRequest) : HttpRequest :=
  {| method_ := method_ r; version_ := version_ r; path_ := path_ r; query_ := query_ r; receiveTime_ := receiveTime_ r;
     headers_ := h |}.

Definition method_of (m : bytes) : Method :=
  if decide (m = bs "GET") then kGet
  else if decide (m = bs "POST") then kPost
  else if decide (m = bs "HEAD") then kHead
  else if decide (m = bs "PUT") then kPut
  else if decide (m = bs "DELETE") then kDelete
  else kInvalid.

(** [setMethod], which asserts that there is no method yet. *)
Definition setMethod (m : bytes) (r : HttpRequest) : outcome (bool * HttpRequest) :=
  assert_ (method_ r = kInvalid) (Ok (bool_decide (method_of m <> kInvalid), set_method (method_of m) r)).

Definition methodString (m : Method) : bytes :=
  match m with
  | kGet => bs "GET" | kPost => bs "POST" | kHead => bs "HEAD" | kPut => bs "PUT" | kDelete => bs "DELETE"
  | kInvalid => bs "UNKNOWN"
  end.

(** The value of a header: without the white space around it. *)
Definition trim (s : bytes) : bytes := rev (skip_spaces (rev (skip_spaces s))).

(** [addHeader] on a line with its first colon at [i]; a later header replaces an earlier one. *)
Definition addHeader (line : bytes) (i : nat) (r : HttpRequest) : HttpRequest :=
  set_headers (mset (take i line) (trim (drop (S i) line)) (headers_ r)) r.

Definition getHeader (field : bytes) (r : HttpRequest) : bytes := default [] (mfind field (headers_ r)).

(** ** HttpContext *)

Inductive HttpRequestParseState := kExpectRequestLine | kExpectHeaders | kExpectBody | kGotAll.

#[export] Instance HttpRequestParseState_eq_dec : EqDecision HttpRequestParseState.
Proof. solve_decision. Defined.

Record HttpContext := {
  parse_state : HttpRequestParseState;
  request : HttpRequest;
}.

Definition HttpContext_new : HttpContext := {| parse_state := kExpectRequestLine; request := HttpRequest_new |}.
Definition gotAll (c : HttpContext) : bool := bool_decide (parse_state c = kGotAll).
Definition reset (c : HttpContext) : HttpContext := HttpContext_new.

Definition SP : byte := chr 32.
Definition QUESTION : byte := chr 63.
Definition COLON : byte := chr 58.
Definition CRLF : bytes := [Byte.x0d; Byte.x0a].

(** What is before and behind the first [x]. *)
Definition split_at (x : byte) (l : bytes) : option (bytes * bytes) :=
  (fun i => (take i l, drop (S i) l)) <$> memchr x l.

Definition set_target (target : bytes) (r : HttpRequest) : HttpRequest :=
  match memchr QUESTION target with
  | Some i => setQuery (drop i target) (setPath (take i target) r)
  | None => setPath target r
  end.

Definition version_of (v : bytes) : Version :=
  if decide (length v = 8%nat /\ take 7 v = bs "HTTP/1.") then
    if decide (drop 7 v = bs "1") then kHttp11
    else if decide (drop 7 v = bs "0") then kHttp10
    else kUnknown
  else kUnknown.

(** Whether the line is right; the parts that were read are kept in any case. *)
Definition processRequestLine (line : bytes) (r : HttpRequest) : outcome (bool * HttpRequest) :=
  match split_at SP line with
  | None => Ok (false, r)
  | Some (m, rest) =>
      '(ok, r) ← setMethod m r;
      if ok : bool then
        match split_at SP rest with
        | None => Ok (false, r)
        | Some (target, version) =>
            let r := set_target target r in
            match version_of version with
            | kUnknown => Ok (false, r)
            | v => Ok (true, setVersion v r)
            end
        end
      else Ok (false, r)
  end.

(** What a turn of the loop leaves: the input [b] and the parser. *)
Inductive http_turn {B : Type} :=
| TurnMore (b : B) (c : HttpContext)
| TurnStop (ok : bool) (b : B) (c : HttpContext).
Arguments http_turn : clear implicits.

(** The body of the loop of [parseRequest]. In the last two states it does nothing, and the
    loop goes on. *)
Definition parse_turn (receiveTime : Z) (b : Buffer) (c : HttpContext) : outcome (http_turn Buffer) :=
  match parse_state c with
  | kExpectRequestLine =>
      match findCRLF b with
      | Some crlf =>
          '(ok, r) ← processRequestLine (take crlf (content b)) (request c);
          if ok : bool then
            b ← retrieveUntil b (crlf + 2);
            mret (TurnMore b {| parse_state := kExpectHeaders; request := setReceiveTime receiveTime r |})
          else mret (TurnStop false b {| parse_state := kExpectRequestLine; request := r |})
      | None => Ok (TurnStop true b c)
      end
  | kExpectHeaders =>
      match findCRLF b with
      | Some crlf =>
          let line := take crlf (content b) in
          match memchr COLON line with
          | Some colon =>
              b ← retrieveUntil b (crlf + 2);
              mret (TurnMore b {| parse_state := kExpectHeaders; request := addHeader line colon (request c) |})
          | None =>
              b ← retrieveUntil b (crlf + 2);
              mret (TurnStop true b {| parse_state := kGotAll; request := request c |})
          end
      | None => Ok (TurnStop true b c)
      end
  | kExpectBody | kGotAll => Ok (TurnMore b c)
  end.

Fixpoint parse_turns (fuel : nat) (receiveTime : Z) (b : Buffer) (c : HttpContext) : outcome (bool * Buffer * HttpContext) :=
  match fuel with
  | O => Undef Diverges
  | S fuel =>
      x ← parse_turn receiveTime b c;
      match x with
      | TurnMore b c => parse_turns fuel receiveTime b c
      | TurnStop ok b c => Ok (ok, b, c)
      end
  end.

(** Every turn but the last takes a line out of the buffer. *)
Definition parseRequest (receiveTime : Z) (b : Buffer) (c : HttpContext) : outcome (bool * Buffer * HttpContext) :=
  parse_turns (S (readableBytes b)) receiveTime b c.

(** ** HttpResponse *)

Record HttpResponse := {
  statusCode_ : Z;
  statusMessage_ : bytes;
  closeConnection_ : bool;
  resp_headers : list (bytes * bytes);
  body_ : bytes;
}.

Definition HttpResponse_new (close : bool) : HttpResponse :=
  {| statusCode_ := 0; statusMessage_ := []; closeConnection_ := close; resp_headers := []; body_ := [] |}.

(** [appendToBuffer], as the bytes it appends. *)
Definition response_bytes (r : HttpResponse) : bytes :=
  snprintf 32 (bs "HTTP/1.1 " ++ to_dec (statusCode_ r) ++ [SP]) ++ statusMessage_ r ++ CRLF
  ++ (if closeConnection_ r then bs "Connection: close" ++ CRLF
      else snprintf 32 (bs "Content-Length: " ++ to_dec (len (body_ r)) ++ CRLF) ++ bs "Connection: Keep-Alive" ++ CRLF)
  ++ (resp_headers r ≫= fun h => h.1 ++ bs ": " ++ h.2 ++ CRLF)
  ++ CRLF ++ body_ r.

(** ** HttpServer *)

Definition defaultHttpCallback (r : HttpRequest) (resp : HttpResponse) : HttpResponse :=
  {| statusCode_ := 404; statusMessage_ := bs "Not Found"; closeConnection_ := true;
     resp_headers := resp_headers resp; body_ := body_ resp |}.

Section server.
(** [httpCallback_]: what the program answers. *)
Context (httpCallback_ : HttpRequest -> HttpResponse -> HttpResponse).

(** The parsers kept in the connections, and the times at which the next messages come. *)
Record HttpServer := {
  contexts : gmap Z HttpContext;
  pollTimes : list Z;
}.

Definition wants_close (r : HttpRequest) : bool :=
  let connection := getHeader (bs "Connection") r in
  bool_decide (connection = bs "close")
  || (bool_decide (version_ r = kHttp10) && bool_decide (connection <> bs "Keep-Alive")).

Definition onRequest (p : Z) (r : HttpRequest) : list call :=
  let response := httpCallback_ r (HttpResponse_new (wants_close r)) in
  CallSend p (response_bytes response) :: (if closeConnection_ response then [CallShutdown p] else []).

Definition bad_request : bytes := bs "HTTP/1.1 400 Bad Request" ++ CRLF ++ CRLF.

Definition onMessage (p : Z) (receiveTime : Z) (b : Buffer) (c : HttpContext) : outcome (list call * Buffer * HttpContext) :=
  '(ok, b, c) ← parseRequest receiveTime b c;
  let bad := if ok : bool then [] else [CallSend p bad_request; CallShutdown p] in
  if gotAll c then Ok (bad ++ onRequest p (request c), b, reset c)
  else Ok (bad, b, c).

(** A buffer with the given bytes; what a callback does with a buffer depends on no more. *)
Definition buffer_with (d : bytes) : Buffer := {| buffer_ := replicate kCheapPrepend Byte.x00 ++ d;
  readerIndex_ := kCheapPrepend; writerIndex_ := kCheapPrepend + length d |}.

Definition quiet {U} (u : U) : reaction U := {| calls := []; consumed := 0; next := u |}.

(** The server's callbacks. Its state is an [outcome]: a failed assertion ends the process. *)
Definition http_react (cb : callback) (u : outcome HttpServer) : reaction (outcome HttpServer) :=
  match u with
  | Ok s =>
      match cb with
      | CbConnection p true =>
          quiet (Ok {| contexts := <[p := HttpContext_new]> (contexts s); pollTimes := pollTimes s |})
      | CbMessage p readable =>
          match contexts s !! p with
          | None => quiet (Undef NullDeref)
          | Some c =>
              match onMessage p (default 0 (head (pollTimes s))) (buffer_with readable) c with
              | Ok (ks, b, c) =>
                  {| calls := ks; consumed := length readable - length (content b);
                     next := Ok {| contexts := <[p := c]> (contexts s); pollTimes := tail (pollTimes s) |} |}
              | Throw e => quiet (Throw e)
              | Undef e => quiet (Undef e)
              end
          end
      | _ => quiet (Ok s)
      end
  | e => quiet e
  end.
End server.
