(* ===== verification/HttpProofs.v ===== *)
(** * The HTTP parser on its input

    The parser as a function of the bytes that wait, and how it goes on when more come. *)

From S2P Require Import Prelude Bytes Text StdMap Buffer Conn Http.

(** ** The parser on bytes *)

(** The first line, without its end, and what is behind. *)
Definition line_of (d : bytes) : option (bytes * bytes) :=
  (fun i => (take i d, drop (i + 2) d)) <$> search2 Byte.x0d Byte.x0a d.

Definition turn_on (t : Z) (d : bytes) (c : HttpContext) : outcome (http_turn bytes) :=
  match parse_state c with
  | kExpectRequestLine =>
      match line_of d with
      | Some (line, rest) =>
          '(ok, r) ← processRequestLine line (request c);
          Ok (if ok : bool then TurnMore rest {| parse_state := kExpectHeaders; request := setReceiveTime t r |}
              else TurnStop false d {| parse_state := kExpectRequestLine; request := r |})
      | None => Ok (TurnStop true d c)
      end
  | kExpectHeaders =>
      match line_of d with
      | Some (line, rest) =>
          Ok (match memchr COLON line with
              | Some colon => TurnMore rest {| parse_state := kExpectHeaders; request := addHeader line colon (request c) |}
              | None => TurnStop true rest {| parse_state := kGotAll; request := request c |}
              end)
      | None => Ok (TurnStop true d c)
      end
  | kExpectBody | kGotAll => Ok (TurnMore d c)
  end.

Fixpoint turns_on (fuel : nat) (t : Z) (d : bytes) (c : HttpContext) : outcome (bool * bytes * HttpContext) :=
  match fuel with
  | O => Undef Diverges
  | S fuel =>
      x ← turn_on t d c;
      match x with
      | TurnMore d c => turns_on fuel t d c
      | TurnStop ok d c => Ok (ok, d, c)
      end
  end.

Definition scan (t : Z) (d : bytes) (c : HttpContext) : outcome (bool * bytes * HttpContext) :=
  turns_on (S (length d)) t d c.

Lemma search2_cons x y a c l :
  search2 x y (a :: c :: l) = if decide (a = x /\ c = y) then Some 0%nat else S <$> search2 x y (c :: l).
Proof. done. Qed.

Lemma search2_bound x y l i : search2 x y l = Some i -> (i + 2 <= length l)%nat.
Proof.
  revert i. induction l as [|a [|c l] IH]; intros i; try done. rewrite search2_cons. case_decide.
  - intros [= <-]. cbn. lia.
  - destruct (search2 x y (c :: l)) as [j|]; [|done]. intros [= <-]. specialize (IH j eq_refl). cbn in *. lia.
Qed.

Lemma search2_app x y l k i : search2 x y l = Some i -> search2 x y (l ++ k) = Some i.
Proof.
  revert i. induction l as [|a [|c l] IH]; intros i; try done. rewrite search2_cons. cbn [app]. rewrite search2_cons.
  case_decide; [done|]. destruct (search2 x y (c :: l)) as [j|]; [|done]. intros [= <-].
  specialize (IH j eq_refl). cbn [app] in IH. by rewrite IH.
Qed.

Lemma line_shorter d line rest : line_of d = Some (line, rest) -> (length rest + 2 <= length d)%nat.
Proof.
  unfold line_of. destruct (search2 _ _ d) as [i|] eqn:E; [|done]. intros [= <- <-].
  apply search2_bound in E. rewrite length_drop. lia.
Qed.

Lemma line_of_app d e line rest : line_of d = Some (line, rest) -> line_of (d ++ e) = Some (line, rest ++ e).
Proof.
  unfold line_of. destruct (search2 _ _ d) as [i|] eqn:E; [|done]. intros [= <- <-].
  rewrite (search2_app _ _ _ e _ E). apply search2_bound in E. simpl. rewrite take_app_le, drop_app_le by lia. done.
Qed.

(** A buffer's turn is its content's. *)
Definition turn_content (x : http_turn Buffer) : http_turn bytes :=
  match x with TurnMore b c => TurnMore (content b) c | TurnStop ok b c => TurnStop ok (content b) c end.
Definition turn_wf (x : http_turn Buffer) : Prop := match x with TurnMore b _ | TurnStop _ b _ => wf b end.

Lemma parse_turn_on t b c : wf b ->
  match parse_turn t b c, turn_on t (content b) c with
  | Ok x, Ok y => turn_wf x /\ turn_content x = y
  | Throw e, Throw e' => e = e'
  | Undef e, Undef e' => e = e'
  | _, _ => False
  end.
Proof.
  intros W. unfold parse_turn, turn_on, findCRLF, line_of.
  assert (forall i, search2 Byte.x0d Byte.x0a (content b) = Some i ->
    exists b', retrieveUntil b (i + 2) = Ok b' /\ wf b' /\ content b' = drop (i + 2) (content b)) as R.
  { intros i E%search2_bound. destruct (retrieve_ok b W (i + 2) E) as (b' & Eb & W' & C' & _). exists b'.
    split; [|done]. unfold retrieveUntil. rewrite assert_true; [done|]. by rewrite <- (length_content b W). }
  destruct (parse_state c); try done; destruct (search2 _ _ (content b)) as [i|] eqn:E; try done; cbn [fmap option_fmap option_map];
    destruct (R i eq_refl) as (b' & Eb & W' & C').
  - destruct (processRequestLine _ _) as [[[] r]| |]; cbn; try done. rewrite Eb. cbn. by rewrite C'.
  - destruct (memchr COLON _); rewrite Eb; cbn; by rewrite C'.
Qed.

Lemma parse_turns_on fuel t b c : wf b ->
  match parse_turns fuel t b c, turns_on fuel t (content b) c with
  | Ok (ok, b', c'), Ok y => wf b' /\ y = (ok, content b', c')
  | Throw e, Throw e' => e = e'
  | Undef e, Undef e' => e = e'
  | _, _ => False
  end.
Proof.
  revert b c. induction fuel as [|fuel IH]; intros b c W; [done|]. simpl.
  pose proof (parse_turn_on t b c W) as T. unfold mbind, outcome_bind.
  destruct (parse_turn t b c) as [x| |], (turn_on t (content b) c) as [y| |]; try done.
  destruct T as [W1 <-]. destruct x; [by apply IH|done].
Qed.

(** ** Enough turns *)

Definition ready (c : HttpContext) : Prop := parse_state c = kExpectRequestLine \/ parse_state c = kExpectHeaders.

Lemma turn_on_more t d c d' c' : ready c -> turn_on t d c = Ok (TurnMore d' c') ->
  ready c' /\ (length d' < length d)%nat.
Proof.
  unfold turn_on, ready. intros [-> | ->]; destruct (line_of d) as [[line rest]|] eqn:E; try done; apply line_shorter in E.
  - destruct (processRequestLine _ _) as [[[] r]| |]; cbn; try done. intros [= <- <-]. split; [by right|lia].
  - destruct (memchr _ _); intros [= <- <-]. split; [by right|lia].
Qed.

Lemma turns_on_enough fuel fuel' t d c : ready c -> (length d < fuel)%nat -> (length d < fuel')%nat ->
  turns_on fuel t d c = turns_on fuel' t d c.
Proof.
  revert fuel' d c. induction fuel as [|fuel IH]; [lia|]. intros [|fuel'] d c R H1 H2; [lia|]. simpl.
  unfold mbind, outcome_bind. destruct (turn_on t d c) as [[d' c'|ok d' c']| |] eqn:E; try done.
  apply turn_on_more in E as [R' L]; [|done]. apply IH; [done|lia..].
Qed.

Lemma scan_eq t d c : ready c ->
  scan t d c = match turn_on t d c with
               | Ok (TurnMore d' c') => scan t d' c'
               | Ok (TurnStop ok d' c') => Ok (ok, d', c')
               | Throw e => Throw e
               | Undef e => Undef e
               end.
Proof.
  intros R. unfold scan at 1. simpl. unfold mbind, outcome_bind. destruct (turn_on t d c) as [[d' c'|ok d' c']| |] eqn:E; try done.
  apply turn_on_more in E as [R' L]; [|done]. apply turns_on_enough; [done|lia..].
Qed.

(** [parseRequest] ends, and is [scan] of what the buffer holds. *)
Lemma parseRequest_scan t b c : wf b -> ready c ->
  match parseRequest t b c, scan t (content b) c with
  | Ok (ok, b', c'), Ok y => wf b' /\ y = (ok, content b', c')
  | Throw e, Throw e' => e = e'
  | Undef e, Undef e' => e = e'
  | _, _ => False
  end.
Proof.
  intros W R. unfold parseRequest, scan. rewrite <- (length_content b W). by apply parse_turns_on.
Qed.

(** ** More bytes *)

Lemma turn_on_app t d e c : ready c ->
  match turn_on t d c with
  | Ok (TurnMore d' c') => turn_on t (d ++ e) c = Ok (TurnMore (d' ++ e) c')
  | Ok (TurnStop true d' c') =>
      if gotAll c' then turn_on t (d ++ e) c = Ok (TurnStop true (d' ++ e) c') else d' = d /\ c' = c
  | Ok (TurnStop false d' c') => turn_on t (d ++ e) c = Ok (TurnStop false (d' ++ e) c')
  | Throw x => turn_on t (d ++ e) c = Throw x
  | Undef x => turn_on t (d ++ e) c = Undef x
  end.
Proof.
  unfold turn_on, ready, gotAll. intros R. destruct (line_of d) as [[line rest]|] eqn:E.
  - rewrite (line_of_app _ e _ _ E). destruct R as [-> | ->].
    + by destruct (processRequestLine _ _) as [[[] r]| |].
    + destruct (memchr _ _); [done|]. by rewrite bool_decide_true.
  - destruct R as [R|R]; rewrite R; by rewrite bool_decide_false by congruence.
Qed.

(** Where the parser stopped for want of bytes it goes on as if it had had them all along. *)
Lemma scan_app t d e c : ready c ->
  scan t (d ++ e) c = match scan t d c with
                      | Ok (ok, rest, c1) => if ok && negb (gotAll c1) then scan t (rest ++ e) c1 else Ok (ok, rest ++ e, c1)
                      | Throw x => Throw x
                      | Undef x => Undef x
                      end.
Proof.
  remember (length d) as n eqn:En. revert d c En. induction n as [n IH] using lt_wf_ind. intros d c -> R.
  pose proof (turn_on_app t d e c R) as T. rewrite (scan_eq t d c R). destruct (turn_on t d c) as [[d' c'|[] d' c']| |] eqn:E.
  - rewrite scan_eq, T by done. apply turn_on_more in E as [R' L]; [|done]. by eapply IH.
  - destruct (gotAll c'); cbn [andb negb].
    + by rewrite scan_eq, T.
    + by destruct T as [-> ->].
  - by rewrite scan_eq, T.
  - by rewrite scan_eq, T.
  - by rewrite scan_eq, T.
Qed.

Lemma scan_ready t d c ok rest c1 : ready c -> scan t d c = Ok (ok, rest, c1) -> ready c1 \/ gotAll c1 = true.
Proof.
  remember (length d) as n eqn:En. revert d c En. induction n as [n IH] using lt_wf_ind. intros d c -> R.
  rewrite scan_eq by done. destruct (turn_on t d c) as [[d' c'|ok' d' c']| |] eqn:E; try done.
  - apply turn_on_more in E as [R' L]; [|done]. by eapply IH.
  - intros [= <- <- <-]. unfold turn_on, gotAll in *. destruct R as [R|R]; rewrite R in E;
      destruct (line_of d) as [[line rest']|].
    + destruct (processRequestLine _ _) as [[[] r]| |]; try done. injection E as <- <- <-. by left; left.
    + injection E as <- <- <-. by left; left.
    + destruct (memchr _ _); [done|]. injection E as <- <- <-. right. by rewrite bool_decide_true.
    + injection E as <- <- <-. by left; right.
Qed.

(** ** The time of arrival

    A request carries the time at which its first line was complete, and nothing else depends
    on times. *)
Definition timeless (c : HttpContext) : HttpContext :=
  {| parse_state := parse_state c; request := setReceiveTime 0 (request c) |}.

Lemma processRequestLine_time line r t :
  processRequestLine line (setReceiveTime t r)
  = ('(ok, r') ← processRequestLine line r; Ok (ok, setReceiveTime t r')).
Proof.
  unfold processRequestLine. destruct (split_at SP line) as [[m rest]|]; [|done].
  unfold setMethod, assert_. cbn [method_ setReceiveTime]. destruct (decide (method_ r = kInvalid)); [|done].
  cbn. case_bool_decide; [|done]. destruct (split_at SP rest) as [[target version]|]; [|done].
  unfold set_target. destruct (memchr _ _), (version_of version); done.
Qed.

Lemma turn_on_time t d c :
  turn_on 0 d (timeless c) = (x ← turn_on t d c; Ok (match x with
    | TurnMore d c => TurnMore d (timeless c) | TurnStop ok d c => TurnStop ok d (timeless c) end)).
Proof.
  unfold turn_on. cbn [parse_state timeless request]. destruct (parse_state c); try done; destruct (line_of d) as [[line rest]|]; try done.
  - rewrite processRequestLine_time. by destruct (processRequestLine _ _) as [[[] r]| |].
  - by destruct (memchr _ _).
Qed.

Lemma scan_time t d c :
  scan 0 d (timeless c) = ('(ok, rest, c1) ← scan t d c; Ok (ok, rest, timeless c1)).
Proof.
  unfold scan. generalize (S (length d)) as fuel. intros fuel. revert d c. induction fuel as [|fuel IH]; intros d c; [done|].
  simpl. rewrite (turn_on_time t). unfold mbind, outcome_bind. destruct (turn_on t d c) as [[d' c'|ok' d' c']| |]; [|done..].
  apply IH.
Qed.

Lemma scan_headers t d c ok rest c1 : parse_state c = kExpectHeaders -> scan t d c = Ok (ok, rest, c1) ->
  receiveTime_ (request c1) = receiveTime_ (request c) /\ parse_state c1 <> kExpectRequestLine.
Proof.
  remember (length d) as n eqn:En. revert d c En. induction n as [n IH] using lt_wf_ind. intros d c -> R.
  rewrite scan_eq by (by right). destruct (turn_on t d c) as [[d' c'|ok' d' c']| |] eqn:E; try done.
  - apply turn_on_more in E as R'; [|by right]. destruct R' as [_ L]. unfold turn_on in E. rewrite R in E.
    destruct (line_of d) as [[line rest']|]; [|done]. destruct (memchr _ _) as [colon|]; [|done]. injection E as <- <-.
    intros Es. destruct (IH _ L rest' {| parse_state := kExpectHeaders; request := addHeader line colon (request c) |} eq_refl eq_refl Es) as [-> N]. done.
  - intros [= <- <- <-]. unfold turn_on in E. rewrite R in E. destruct (line_of d) as [[line rest']|]; [|by injection E as <- <- <-; rewrite R].
    destruct (memchr _ _); [done|]. by injection E as <- <- <-.
Qed.

Lemma scan_line t d c ok rest c1 : parse_state c = kExpectRequestLine -> scan t d c = Ok (ok, rest, c1) ->
  parse_state c1 = kExpectRequestLine \/ receiveTime_ (request c1) = t.
Proof.
  intros R. rewrite scan_eq by (by left). unfold turn_on. rewrite R. destruct (line_of d) as [[line rest']|]; [|intros [= <- <- <-]; by left].
  destruct (processRequestLine _ _) as [[[] r]| |]; cbn [mbind outcome_bind]; try done.
  - intros Es. apply scan_headers in Es as [E _]; [|done]. by right.
  - intros [= <- <- <-]. by left.
Qed.

Lemma line_of_length d line rest : line_of d = Some (line, rest) -> (length line + 2 <= length d)%nat.
Proof.
  unfold line_of. destruct (search2 _ _ d) as [i|] eqn:E; [|done]. intros [= <- <-]. apply search2_bound in E. rewrite length_take. lia.
Qed.

(** What is left is the end of what there was. *)
Lemma line_of_suffix d line rest : line_of d = Some (line, rest) -> rest `suffix_of` d.
Proof. unfold line_of. destruct (search2 _ _ d); [|done]. intros [= <- <-]. apply suffix_drop. Qed.

Lemma turn_on_suffix t d c x : turn_on t d c = Ok x ->
  (match x with TurnMore d' _ => d' | TurnStop _ d' _ => d' end) `suffix_of` d.
Proof.
  unfold turn_on. destruct (parse_state c); try (by intros [= <-]); destruct (line_of d) as [[line rest]|] eqn:E; try (by intros [= <-]);
    apply line_of_suffix in E.
  - by destruct (processRequestLine _ _) as [[[] r]| |]; try done; intros [= <-].
  - by destruct (memchr _ _); intros [= <-].
Qed.

Lemma scan_suffix t d c ok rest c1 : scan t d c = Ok (ok, rest, c1) -> rest `suffix_of` d.
Proof.
  unfold scan. generalize (S (length d)) as fuel. intros fuel. revert d c. induction fuel as [|fuel IH]; intros d c; [done|].
  simpl. unfold mbind, outcome_bind. destruct (turn_on t d c) as [x| |] eqn:E; [|done..]. apply turn_on_suffix in E.
  destruct x as [d' c'|ok' d' c'].
  - intros H. etransitivity; [by eapply IH|done].
  - by intros [= <- <- <-].
Qed.

(** ** The text of a request *)

Definition version_text (v : Version) : bytes :=
  match v with kHttp11 => bs "HTTP/1.1" | kHttp10 => bs "HTTP/1.0" | kUnknown => [] end.
Definition header_line (h : bytes * bytes) : bytes := h.1 ++ [COLON; SP] ++ h.2.
Definition request_line (r : HttpRequest) : bytes :=
  methodString (method_ r) ++ [SP] ++ (path_ r ++ query_ r) ++ [SP] ++ version_text (version_ r).
Definition request_text (r : HttpRequest) : bytes :=
  request_line r ++ CRLF ++ (headers_ r ≫= fun h => header_line h ++ CRLF) ++ CRLF.

Definition CR : byte := Byte.x0d.

(** A request that can be written: the separators do not occur in its parts, and values have no
    white space around them. *)
Record request_ok (r : HttpRequest) : Prop := {
  rq_method : method_ r <> kInvalid;
  rq_version : version_ r <> kUnknown;
  rq_path : Forall (fun b => b <> SP /\ b <> QUESTION /\ b <> CR) (path_ r);
  rq_query : Forall (fun b => b <> SP /\ b <> CR) (query_ r);
  rq_question : query_ r = [] \/ head (query_ r) = Some QUESTION;
  rq_headers : Forall (fun h => Forall (fun b => b <> COLON /\ b <> CR) h.1 /\ Forall (fun b => b <> CR) h.2
                                /\ trim h.2 = h.2) (headers_ r);
  rq_sorted : sorted_map (headers_ r);
}.

Lemma memchr_app x l k : Forall (fun b => b <> x) l -> memchr x (l ++ x :: k) = Some (length l).
Proof.
  induction 1 as [|b l Hb _ IH]; simpl; [by rewrite decide_True|]. by rewrite decide_False, IH.
Qed.

Lemma memchr_none x l : Forall (fun b => b <> x) l -> memchr x l = None.
Proof. induction 1 as [|b l Hb _ IH]; simpl; [done|]. by rewrite decide_False, IH. Qed.

Lemma split_at_app x l k : Forall (fun b => b <> x) l -> split_at x (l ++ x :: k) = Some (l, k).
Proof.
  intros F. unfold split_at. rewrite memchr_app by done. cbn [fmap option_fmap option_map].
  rewrite take_app_length. by rewrite cons_middle, app_assoc, drop_app_length' by (rewrite length_app; simpl; lia).
Qed.

Lemma line_of_crlf l k : Forall (fun b => b <> CR) l -> line_of (l ++ CRLF ++ k) = Some (l, k).
Proof.
  intros F. unfold line_of. assert (search2 Byte.x0d Byte.x0a (l ++ CRLF ++ k) = Some (length l)) as ->.
  { induction F as [|b l Hb F IH]; [done|]. cbn [app]. destruct (l ++ CRLF ++ k) as [|c m] eqn:E; [by destruct l|].
    rewrite search2_cons, decide_False by tauto. by rewrite IH. }
  cbn [fmap option_fmap option_map]. rewrite take_app_length, drop_app_ge by lia.
  by replace (length l + 2 - length l)%nat with 2%nat by lia.
Qed.

Lemma trim_space s : trim (SP :: s) = trim s.
Proof. done. Qed.
