(* ===== verification/TcpConnection.v ===== *)
(** * TcpConnection (net/TcpConnection.h, net/TcpConnection.cc)

    A connection's output and its states, in the loop thread, where all of the servers' code
    runs: [runInLoop] calls at once, [queueInLoop] appends to the loop's pending functors. What
    the kernel answers to writes is a list of results in the state, so that runs are functions;
    what it has accepted from a connection is kept beside it. The user's callbacks are a
    parameter (Conn.v). Log lines are left out. *)

From S2P Require Import Prelude Bytes Buffer Conn Channel.

Record TcpConnection := {
  c_name : bytes;              (* name_ *)
  c_state : StateE;            (* state_ *)
  reading_ : bool;
  channel_ : Channel;
  inputBuffer_ : Buffer;
  outputBuffer_ : Buffer;
  highWaterMark_ : Z;
  on_complete : bool;          (* whether writeCompleteCallback_ is set *)
  on_highwater : bool;         (* whether highWaterMarkCallback_ is set *)
  wire : bytes;                (* what write() accepted *)
  shut : bool;                 (* whether shutdownWrite() was called *)
}.

(** The constructor. *)
Definition TcpConnection_new (name : bytes) (sockfd : Z) : TcpConnection := {|
  c_name := name; c_state := kConnecting; reading_ := true; channel_ := Channel_new sockfd;
  inputBuffer_ := Buffer_new kInitialSize; outputBuffer_ := Buffer_new kInitialSize;
  highWaterMark_ := 64 * 1024 * 1024; on_complete := false; on_highwater := false;
  wire := []; shut := false |}.

Definition set_state (s : StateE) (c : TcpConnection) : TcpConnection := {|
  c_name := c_name c; c_state := s; reading_ := reading_ c; channel_ := channel_ c;
  inputBuffer_ := inputBuffer_ c; outputBuffer_ := outputBuffer_ c; highWaterMark_ := highWaterMark_ c;
  on_complete := on_complete c; on_highwater := on_highwater c; wire := wire c; shut := shut c |}.
Definition set_reading (r : bool) (c : TcpConnection) : TcpConnection := {|
  c_name := c_name c; c_state := c_state c; reading_ := r; channel_ := channel_ c;
  inputBuffer_ := inputBuffer_ c; outputBuffer_ := outputBuffer_ c; highWaterMark_ := highWaterMark_ c;
  on_complete := on_complete c; on_highwater := on_highwater c; wire := wire c; shut := shut c |}.
Definition set_channel (f : Channel) (c : TcpConnection) : TcpConnection := {|
  c_name := c_name c; c_state := c_state c; reading_ := reading_ c; channel_ := f;
  inputBuffer_ := inputBuffer_ c; outputBuffer_ := outputBuffer_ c; highWaterMark_ := highWaterMark_ c;
  on_complete := on_complete c; on_highwater := on_highwater c; wire := wire c; shut := shut c |}.
Definition set_input (b : Buffer) (c : TcpConnection) : TcpConnection := {|
  c_name := c_name c; c_state := c_state c; reading_ := reading_ c; channel_ := channel_ c;
  inputBuffer_ := b; outputBuffer_ := outputBuffer_ c; highWaterMark_ := highWaterMark_ c;
  on_complete := on_complete c; on_highwater := on_highwater c; wire := wire c; shut := shut c |}.
Definition set_output (b : Buffer) (c : TcpConnection) : TcpConnection := {|
  c_name := c_name c; c_state := c_state c; reading_ := reading_ c; channel_ := channel_ c;
  inputBuffer_ := inputBuffer_ c; outputBuffer_ := b; highWaterMark_ := highWaterMark_ c;
  on_complete := on_complete c; on_highwater := on_highwater c; wire := wire c; shut := shut c |}.
Definition set_wire (d : bytes) (c : TcpConnection) : TcpConnection := {|
  c_name := c_name c; c_state := c_state c; reading_ := reading_ c; channel_ := channel_ c;
  inputBuffer_ := inputBuffer_ c; outputBuffer_ := outputBuffer_ c; highWaterMark_ := highWaterMark_ c;
  on_complete := on_complete c; on_highwater := on_highwater c; wire := d; shut := shut c |}.
(** [socket_->shutdownWrite()] *)
Definition shutdownWrite (c : TcpConnection) : TcpConnection := {|
  c_name := c_name c; c_state := c_state c; reading_ := reading_ c; channel_ := channel_ c;
  inputBuffer_ := inputBuffer_ c; outputBuffer_ := outputBuffer_ c; highWaterMark_ := highWaterMark_ c;
  on_complete := on_complete c; on_highwater := on_highwater c; wire := wire c; shut := true |}.

(** ** The loop's state *)

(** What is queued in the loop; each holds its connection by a [shared_ptr]. *)
Inductive functor :=
| ForceCloseInLoop (p : Z)
| ConnectDestroyed (p : Z)
| WriteComplete (p : Z)
| HighWaterMark (p n : Z).

Definition functor_conn (f : functor) : Z :=
  match f with ForceCloseInLoop p | ConnectDestroyed p | WriteComplete p | HighWaterMark p _ => p end.

Inductive errno := EWOULDBLOCK | EPIPE | ECONNRESET | EOTHER.
Inductive write_result := Wrote (n : nat) | WriteError (e : errno).

(** What the kernel takes, and the errors after which the peer is gone. *)
Definition fatal (r : write_result) : bool :=
  match r with WriteError EPIPE | WriteError ECONNRESET => true | _ => false end.

Section connection.
Context {U : Type} (react : callback -> U -> reaction U).

Record Net := {
  heap : gmap Z TcpConnection;          (* the connection objects, by their address *)
  connections_ : gmap bytes Z;          (* TcpServer::connections_ *)
  nextConnId_ : Z;
  pendingFunctors_ : list functor;
  answers : list write_result;
  user : U;
}.

Definition N (A : Type) : Type := M Net A.

Definition set_heap (h : gmap Z TcpConnection) (s : Net) : Net := {|
  heap := h; connections_ := connections_ s; nextConnId_ := nextConnId_ s;
  pendingFunctors_ := pendingFunctors_ s; answers := answers s; user := user s |}.
Definition set_pendingFunctors (l : list functor) (s : Net) : Net := {|
  heap := heap s; connections_ := connections_ s; nextConnId_ := nextConnId_ s;
  pendingFunctors_ := l; answers := answers s; user := user s |}.
Definition set_connections (m : gmap bytes Z) (s : Net) : Net := {|
  heap := heap s; connections_ := m; nextConnId_ := nextConnId_ s;
  pendingFunctors_ := pendingFunctors_ s; answers := answers s; user := user s |}.
Definition set_nextConnId (n : Z) (s : Net) : Net := {|
  heap := heap s; connections_ := connections_ s; nextConnId_ := n;
  pendingFunctors_ := pendingFunctors_ s; answers := answers s; user := user s |}.
Definition set_answers (l : list write_result) (s : Net) : Net := {|
  heap := heap s; connections_ := connections_ s; nextConnId_ := nextConnId_ s;
  pendingFunctors_ := pendingFunctors_ s; answers := l; user := user s |}.
Definition set_net_user (u : U) (s : Net) : Net := {|
  heap := heap s; connections_ := connections_ s; nextConnId_ := nextConnId_ s;
  pendingFunctors_ := pendingFunctors_ s; answers := answers s; user := u |}.

(** A connection object, which has to be alive. *)
Definition conn (p : Z) : N TcpConnection := fun s =>
  match heap s !! p with Some c => Ok (c, s) | None => Undef Dangling end.
Definition put (p : Z) (c : TcpConnection) : N unit := modify (fun s => set_heap (<[p := c]> (heap s)) s).

Definition queueInLoop (f : functor) : N unit :=
  modify (fun s => set_pendingFunctors (pendingFunctors_ s ++ [f]) s).

(** [sockets::write]: the next answer, [EWOULDBLOCK] where there is none; no more is taken than
    there is. *)
Definition sys_write (p : Z) (data : bytes) : N write_result := fun s =>
  match answers s with
  | [] => Ok (WriteError EWOULDBLOCK, s)
  | r :: l =>
      let s := set_answers l s in
      match r with
      | Wrote n =>
          let n := Nat.min n (length data) in
          Ok (Wrote n, set_heap (alter (fun c => set_wire (wire c ++ take n data) c) p (heap s)) s)
      | WriteError e => Ok (WriteError e, s)
      end
  end.

(** ** Sending *)

(** What is left goes to the output buffer, and the loop is asked to watch for room. *)
Definition keep_rest (p : Z) (rest : bytes) : N unit :=
  c ← conn p;
  let oldLen := Z.of_nat (readableBytes (outputBuffer_ c)) in
  let newLen := oldLen + len rest in
  _ ← (if (highWaterMark_ c <=? newLen) && (oldLen <? highWaterMark_ c) && on_highwater c
       then queueInLoop (HighWaterMark p newLen) else mret tt);
  b ← lift (append (outputBuffer_ c) rest);
  let c := set_output b c in
  put p (if isWriting (channel_ c) then c else set_channel (enableWriting (channel_ c)) c).

Definition sendInLoop (p : Z) (data : bytes) : N unit :=
  c ← conn p;
  if decide (c_state c = kDisconnected) then mret tt
  else
    '(nwrote, remaining, faultError) ←
      (if negb (isWriting (channel_ c)) && (readableBytes (outputBuffer_ c) =? 0)%nat then
         r ← sys_write p data;
         match r with
         | Wrote n =>
             let remaining := (length data - n)%nat in
             _ ← (if (remaining =? 0)%nat && on_complete c then queueInLoop (WriteComplete p) else mret tt);
             mret (n, remaining, false)
         | WriteError _ => mret (0%nat, length data, fatal r)
         end
       else mret (0%nat, length data, false));
    if decide (remaining <= length data)%nat then
      if negb faultError && (0 <? remaining)%nat then keep_rest p (drop nwrote data)
      else mret tt
    else undef AssertFailed.

Definition send (p : Z) (data : bytes) : N unit :=
  c ← conn p;
  if decide (c_state c = kConnected) then sendInLoop p data else mret tt.

(** ** Closing *)

Definition shutdownInLoop (p : Z) : N unit :=
  c ← conn p;
  if isWriting (channel_ c) then mret tt else put p (shutdownWrite c).

Definition shutdown (p : Z) : N unit :=
  c ← conn p;
  if decide (c_state c = kConnected) then
    _ ← put p (set_state kDisconnecting c);
    shutdownInLoop p
  else mret tt.

Definition tcp_forceClose (p : Z) : N unit :=
  c ← conn p;
  if decide (c_state c = kConnected \/ c_state c = kDisconnecting) then
    _ ← put p (set_state kDisconnecting c);
    queueInLoop (ForceCloseInLoop p)
  else mret tt.

Definition startRead (p : Z) : N unit :=
  c ← conn p;
  if negb (reading_ c) || negb (isReading (channel_ c)) then
    put p (set_reading true (set_channel (enableReading (channel_ c)) c))
  else mret tt.

Definition stopRead (p : Z) : N unit :=
  c ← conn p;
  if reading_ c || isReading (channel_ c) then
    put p (set_reading false (set_channel (disableReading (channel_ c)) c))
  else mret tt.

(** ** Callbacks *)

(** A user's call: through a [weak_ptr], so on a connection that is gone it is none. *)
Definition perform (k : call) : N unit := fun s =>
  let on p (m : N unit) := match heap s !! p with None => Ok (tt, s) | Some _ => m s end in
  match k with
  | CallSend p d => on p (send p d)
  | CallShutdown p => on p (shutdown p)
  | CallForceClose p => on p (tcp_forceClose p)
  | CallStartRead p => on p (startRead p)
  | CallStopRead p => on p (stopRead p)
  end.

Definition run_callback (cb : callback) : N unit :=
  u ← gets user;
  let r := react cb u in
  _ ← (match cb with
       | CbMessage p _ =>
           c ← conn p;
           b ← lift (retrieve (inputBuffer_ c) (consumed r));
           put p (set_input b c)
       | _ => mret tt
       end);
  _ ← for_each perform (calls r);
  modify (set_net_user (next r)).

(** ** Events *)

(** [closeCallback_], which the server sets. *)
Context (closeCallback : Z -> N unit).

Definition connectEstablished (p : Z) : N unit :=
  c ← conn p;
  if decide (c_state c = kConnecting) then
    _ ← put p (set_channel (enableReading (channel_ c)) (set_state kConnected c));
    run_callback (CbConnection p true)
  else undef AssertFailed.

Definition connectDestroyed (p : Z) : N unit :=
  c ← conn p;
  _ ← (if decide (c_state c = kConnected) then
         _ ← put p (set_channel (disableAll (channel_ c)) (set_state kDisconnected c));
         run_callback (CbConnection p false)
       else mret tt);
  c ← conn p;
  ch ← lift (remove (channel_ c));
  put p (set_channel ch c).

Definition handleClose (p : Z) : N unit :=
  c ← conn p;
  if decide (c_state c = kConnected \/ c_state c = kDisconnecting) then
    _ ← put p (set_channel (disableAll (channel_ c)) (set_state kDisconnected c));
    _ ← run_callback (CbConnection p false);
    closeCallback p
  else undef AssertFailed.

Definition forceCloseInLoop (p : Z) : N unit :=
  c ← conn p;
  if decide (c_state c = kConnected \/ c_state c = kDisconnecting) then handleClose p else mret tt.

(** [handleError] only logs. *)
Definition handleError (p : Z) : N unit := mret tt.

(** [input] is what [readv] returns: an error, or the bytes, none at the end of the stream. *)
Definition handleRead (p : Z) (input : option bytes) : N unit :=
  c ← conn p;
  '(n, b) ← lift (readFd (inputBuffer_ c) input);
  _ ← put p (set_input b c);
  if decide (0 < n) then run_callback (CbMessage p (content b))
  else if decide (n = 0) then handleClose p
  else handleError p.

Definition handleWrite (p : Z) : N unit :=
  c ← conn p;
  if isWriting (channel_ c) then
    r ← sys_write p (content (outputBuffer_ c));
    match r with
    | Wrote (S _ as n) =>
        c ← conn p;
        b ← lift (retrieve (outputBuffer_ c) n);
        let c := set_output b c in
        if (readableBytes b =? 0)%nat then
          _ ← put p (set_channel (disableWriting (channel_ c)) c);
          _ ← (if on_complete c then queueInLoop (WriteComplete p) else mret tt);
          if decide (c_state c = kDisconnecting) then shutdownInLoop p else mret tt
        else put p c
    | _ => mret tt
    end
  else mret tt.

(** What the loop's poll reports of a connection. *)
Definition handleEvent (p revents : Z) (input : option bytes) : N unit :=
  handleEventWithGuard (handleClose p) (handleError p) (handleRead p input) (handleWrite p) revents.

Definition runFunctor (f : functor) : N unit :=
  match f with
  | ForceCloseInLoop p => forceCloseInLoop p
  | ConnectDestroyed p => connectDestroyed p
  | WriteComplete p => run_callback (CbWriteComplete p)
  | HighWaterMark p n => run_callback (CbHighWaterMark p n)
  end.
End connection.
