(* ===== verification/TcpServer.v ===== *)
(** * TcpServer and its loop (net/TcpServer.cc, net/Acceptor.cc, net/EventLoop.cc)

    Connections are accepted, entered in a map under a fresh name, and taken out of it when they
    close; the object dies when the last queued functor has let go of it. One turn of the loop
    handles what the poll reported and then runs the functors that are pending. The servers
    never call [setThreadNum] on theirs, so [getNextLoop] is the base loop and everything
    happens in this one thread. *)

From S2P Require Import Prelude Bytes Text Buffer Conn Channel TcpConnection.

Section server.
Context {U : Type} (react : callback -> U -> reaction U).
Context (name_ ipPort_ : bytes).       (* of the server *)
Context (complete : bool).             (* whether its writeCompleteCallback_ is set *)

Abbreviation Net := (Net (U := U)).
Abbreviation N := (N (U := U)).

(** ** Names *)

(** [snprintf(buf, sizeof buf, "-%s#%d", ...)] with the 64 bytes of [buf]. *)
Definition connName (id : Z) : bytes :=
  name_ ++ snprintf 64 (bs "-" ++ c_str ipPort_ ++ bs "#" ++ to_dec id).

(** ** Connections *)

(** [removeConnectionInLoop]; in its own thread [removeConnection] is this. *)
Definition removeConnection (p : Z) : N unit :=
  c ← conn p;
  m ← gets connections_;
  match m !! c_name c with
  | None => undef AssertFailed                    (* assert(n == 1) *)
  | Some _ =>
      _ ← modify (set_connections (delete (c_name c) m));
      queueInLoop (ConnectDestroyed p)
  end.

(** [newConnection]: the new object is at address [p]. *)
Definition newConnection (p sockfd : Z) : N unit :=
  id ← gets nextConnId_;
  next ← lift (int_add id 1);
  _ ← modify (set_nextConnId next);
  let c := TcpConnection_new (connName id) sockfd in
  _ ← put p {| c_name := c_name c; c_state := c_state c; reading_ := reading_ c; channel_ := channel_ c;
               inputBuffer_ := inputBuffer_ c; outputBuffer_ := outputBuffer_ c;
               highWaterMark_ := highWaterMark_ c; on_complete := complete; on_highwater := on_highwater c;
               wire := wire c; shut := shut c |};
  _ ← modify (fun s => set_connections (<[connName id := p]> (connections_ s)) s);
  connectEstablished react p.

(** ** The loop *)

(** What one poll reports: the listening socket, with what [accept] gives, or a connection with
    its events and what [readv] would return. *)
Inductive active :=
| Accept (p sockfd : Z)
| AcceptError                                  (* only logged, and the spare descriptor used *)
| Ready (p revents : Z) (input : option bytes).

Definition handle_active (a : active) : N unit :=
  match a with
  | Accept p sockfd => newConnection p sockfd
  | AcceptError => mret tt
  | Ready p revents input => handleEvent react removeConnection p revents input
  end.

(** [doPendingFunctors]: those queued meanwhile stay for the next turn. *)
Definition doPendingFunctors : N unit :=
  functors ← gets pendingFunctors_;
  _ ← modify (set_pendingFunctors []);
  for_each (runFunctor react removeConnection) functors.

(** A turn of [EventLoop::loop]. *)
Definition turn (l : list active) : N unit :=
  _ ← for_each handle_active l;
  doPendingFunctors.

(** [~TcpConnection], with the destructor of its channel. *)
Definition release (p : Z) : N unit :=
  c ← conn p;
  if decide (c_state c = kDisconnected /\ addedToLoop_ (channel_ c) = false) then
    modify (fun s => set_heap (delete p (heap s)) s)
  else undef AssertFailed.

(** ** Runs *)

Inductive loop_event :=
| Turn (l : list active)
| Release (p : Z).

Definition loop_step (e : loop_event) : N unit :=
  match e with Turn l => turn l | Release p => release p end.

(** What the poll can report: a connection it watches for something, once; new objects get
    addresses that are free. A hang-up without input comes alone: TCP reports it together with
    [POLLIN] otherwise. *)
Definition revents_ok (r : Z) : Prop :=
  has POLLHUP r && negb (has POLLIN r) = true -> has (Z.lor POLLPRI POLLRDHUP) r = false.

Definition active_ok (s : Net) (a : active) : Prop :=
  match a with
  | Accept p _ => heap s !! p = None
  | AcceptError => True
  | Ready p r _ => revents_ok r
      /\ match heap s !! p with
         | Some c => addedToLoop_ (channel_ c) = true /\ events_ (channel_ c) <> kNoneEvent
         | None => False
         end
  end.

Definition active_conn (a : active) : list Z :=
  match a with Accept p _ | Ready p _ _ => [p] | AcceptError => [] end.

(** Nothing holds a connection any more. *)
Definition unreferenced (s : Net) (p : Z) : Prop :=
  map_Forall (fun _ q => q <> p) (connections_ s) /\ p ∉ functor_conn <$> pendingFunctors_ s.

Definition loop_enabled (e : loop_event) (s : Net) : Prop :=
  match e with
  | Turn l => NoDup (l ≫= active_conn) /\ Forall (active_ok s) l
      /\ nextConnId_ s + Z.of_nat (length l) <= INT_MAX
  | Release p => is_Some (heap s !! p) /\ unreferenced s p
  end.

Definition net_start (ans : list write_result) (u : U) : Net := {|
  heap := ∅; connections_ := ∅; nextConnId_ := 1; pendingFunctors_ := []; answers := ans; user := u |}.

Inductive net_reach (s0 : Net) : Net -> Prop :=
| net_refl : net_reach s0 s0
| net_step s e s' : net_reach s0 s -> loop_enabled e s -> loop_step e s = Ok (tt, s') -> net_reach s0 s'.

#[export] Instance active_ok_dec s x : Decision (active_ok s x).
Proof.
  destruct x; cbn; unfold revents_ok; try apply _. destruct (heap s !! _); apply _.
Defined.
#[export] Instance loop_enabled_dec e s : Decision (loop_enabled e s).
Proof. destruct e; cbn; unfold unreferenced; apply _. Defined.

(** A run of given events. *)
Fixpoint net_run (es : list loop_event) (s : Net) : option Net :=
  match es with
  | [] => Some s
  | e :: es =>
      if decide (loop_enabled e s) then
        match loop_step e s with Ok (_, s') => net_run es s' | _ => None end
      else None
  end.

Lemma net_run_reach es : forall s0 s s', net_reach s0 s -> net_run es s = Some s' -> net_reach s0 s'.
Proof.
  induction es as [|e es IH]; intros s0 s s' R E; simpl in E; [by injection E as <-|].
  case_decide; [|done]. destruct (loop_step e s) as [[[] s1]| |] eqn:Es; [|done..].
  eapply IH; [by eapply net_step|exact E].
Qed.

(** ** Names are fresh *)

Lemma connName_inj i j : len ipPort_ <= 50 -> is_i32 i -> is_i32 j ->
  connName i = connName j -> i = j.
Proof.
  intros L Hi Hj E. unfold connName, snprintf in E. apply app_inv_head in E.
  assert (forall k, is_i32 k -> (length (to_dec k) <= 11)%nat) as D by apply length_to_dec.
  assert (length (c_str ipPort_) <= 50)%nat as C
    by (pose proof (length_c_str ipPort_); unfold len in L; lia).
  assert (forall k, is_i32 k -> take (64 - 1) (bs "-" ++ c_str ipPort_ ++ bs "#" ++ to_dec k)
                                = bs "-" ++ c_str ipPort_ ++ bs "#" ++ to_dec k) as T.
  { intros k Hk. apply take_ge. specialize (D k Hk). rewrite !length_app. simpl. lia. }
  rewrite !T in E by done. do 3 apply app_inv_head in E.
  rewrite <- (atoi_to_dec i), <- (atoi_to_dec j) by done. by rewrite E.
Qed.
End server.
