(* ===== verification/TcpProofs.v ===== *)
(** * One connection and its user

    What TcpConnection.v does to a connection, function by function, and the relation between a
    connection object and what its user sees of it (Conn.v), which every call of the user and
    every callback keeps. *)

From S2P Require Import Prelude Bytes Text Buffer Conn Channel TcpConnection.

(** ** One connection *)

Definition c_open (c : TcpConnection) : Prop := c_state c = kConnected \/ c_state c = kDisconnecting.

(** The output as the user wrote it: what the kernel has and what is still to go. *)
Definition stream (c : TcpConnection) : bytes := wire c ++ content (outputBuffer_ c).

(** Between two functions of the library. *)
Record good (c : TcpConnection) : Prop := {
  g_in : wf (inputBuffer_ c);
  g_out : wf (outputBuffer_ c);
  g_events : channel_events (events_ (channel_ c));
  g_state : c_state c <> kConnecting;
  g_closed : c_state c = kDisconnected -> events_ (channel_ c) = kNoneEvent;
  g_added : c_open c -> addedToLoop_ (channel_ c) = true;
  g_writing : c_open c -> isWriting (channel_ c) = bool_decide (content (outputBuffer_ c) <> []);
  g_shut : shut c = true -> c_state c <> kConnected /\ isWriting (channel_ c) = false;
}.

(** The same connection, perhaps with more output. *)
Record same_conn (c c' : TcpConnection) : Prop := {
  sc_name : c_name c' = c_name c;
  sc_input : inputBuffer_ c' = inputBuffer_ c;
}.

#[export] Instance same_conn_pre : PreOrder same_conn.
Proof. split; [done|]. intros a b c [] []. split; congruence. Qed.

Section connection.
Context {U : Type} (react : callback -> U -> reaction U).

Abbreviation Net := (Net (U := U)).

Definition quiet_functor (p : Z) (f : functor) : Prop :=
  functor_conn f = p /\ forall q, f <> ConnectDestroyed q.

(** What a library function on connection [p], which makes it [c'], leaves alone. *)
Record acts (p : Z) (c' : TcpConnection) (s s' : Net) : Prop := {
  ac_heap : heap s' = <[p := c']> (heap s);
  ac_conns : connections_ s' = connections_ s;
  ac_next : nextConnId_ s' = nextConnId_ s;
  ac_user : user s' = user s;
  ac_answers : answers s' `suffix_of` answers s;
  ac_pending : exists l, pendingFunctors_ s' = pendingFunctors_ s ++ l /\ Forall (quiet_functor p) l;
}.

Lemma acts_trans p c1 c2 s s1 s2 : acts p c1 s s1 -> acts p c2 s1 s2 -> acts p c2 s s2.
Proof.
  intros [H1 C1 N1 U1 A1 (l1 & P1 & F1)] [H2 C2 N2 U2 A2 (l2 & P2 & F2)].
  split; try congruence.
  - by rewrite H2, H1, insert_insert_eq.
  - by etransitivity.
  - exists (l1 ++ l2). rewrite P2, P1, app_assoc. split; [done|]. by apply Forall_app.
Qed.

Lemma acts_put p c' s : acts p c' s (set_heap (<[p := c']> (heap s)) s).
Proof. split; try done. exists []. by rewrite app_nil_r. Qed.

Lemma acts_refl p c s : heap s !! p = Some c -> acts p c s s.
Proof. intros E. split; try done; [by rewrite insert_id|]. exists []. by rewrite app_nil_r. Qed.

Lemma acts_queue p c f s : heap s !! p = Some c -> quiet_functor p f ->
  acts p c s (set_pendingFunctors (pendingFunctors_ s ++ [f]) s).
Proof.
  intros E Q. split; try done; [by rewrite insert_id|]. exists [f]. by split; [|constructor].
Qed.

Lemma acts_lookup p c s s' : acts p c s s' -> heap s' !! p = Some c.
Proof. intros A. rewrite (ac_heap _ _ _ _ A). apply lookup_insert_eq. Qed.

#[export] Instance c_open_dec c : Decision (c_open c).
Proof. unfold c_open. apply _. Defined.

Lemma conn_ok p c s : heap s !! p = Some c -> conn (U := U) p s = Ok (c, s).
Proof. intros E. unfold conn. by rewrite E. Qed.

Lemma sys_write_ok p d s c : heap s !! p = Some c ->
  exists r s', sys_write p d s = Ok (r, s')
    /\ acts p (set_wire (wire c ++ match r with Wrote n => take n d | _ => [] end) c) s s'
    /\ match r with Wrote n => (n <= length d)%nat | _ => True end
    /\ (fatal r = true -> r ∈ answers s).
Proof.
  intros E. unfold sys_write. destruct (answers s) as [|r l] eqn:Ea.
  - exists (WriteError EWOULDBLOCK), s. split; [done|]. split; [|done].
    assert (set_wire (wire c ++ []) c = c) as -> by (rewrite app_nil_r; by destruct c). by apply acts_refl.
  - assert (acts p c s (set_answers l s)) as A.
    { split; try done; [by rewrite insert_id|cbn; rewrite Ea; by apply suffix_cons_r|].
      exists []. by rewrite app_nil_r. }
    destruct r as [n|e].
    + exists (Wrote (n `min` length d)). eexists. split; [done|]. split; [|split; [lia|done]].
      eapply acts_trans; [exact A|].
      match goal with |- acts _ ?c' ?s0 (set_heap ?h _) => assert (h = <[p := c']> (heap s0)) as -> end.
      { cbn. apply map_eq. intros k. destruct (decide (p = k)) as [<-|Hk].
        - by rewrite lookup_alter_eq, lookup_insert_eq, E.
        - by rewrite lookup_alter_ne, lookup_insert_ne. }
      apply acts_put.
    + exists (WriteError e), (set_answers l s). split; [done|]. split; [|split; [done|by left]].
      assert (set_wire (wire c ++ []) c = c) as -> by (rewrite app_nil_r; by destruct c). done.
Qed.

(** A piece of code that may queue a notice and then goes on. *)
Lemma queue_if_ok (b : bool) p c f s : heap s !! p = Some c -> quiet_functor p f ->
  exists s', (if b then queueInLoop f else mret tt) s = Ok (tt, s') /\ acts p c s s'.
Proof.
  intros E Q. destruct b; [|exists s; split; [done|by apply acts_refl]].
  eexists. split; [done|]. by apply acts_queue.
Qed.

Lemma keep_rest_ok p rest s c : heap s !! p = Some c -> wf (outputBuffer_ c) ->
  exists s' b, keep_rest p rest s = Ok (tt, s') /\ wf b /\ content b = content (outputBuffer_ c) ++ rest
    /\ acts p (let c := set_output b c in
               if isWriting (channel_ c) then c else set_channel (enableWriting (channel_ c)) c) s s'.
Proof.
  intros E W. unfold keep_rest. rewrite (bind_ok _ _ _ _ _ (conn_ok p c s E)).
  match goal with |- context [if ?b then queueInLoop ?f else _] =>
    destruct (queue_if_ok b p c f s E) as (s1 & E1 & A1) end; [by split|].
  rewrite (bind_ok _ _ _ _ _ E1).
  destruct (append_ok _ rest W) as (b & Eb & Wb & Cb).
  unfold mbind, M_bind, lift. rewrite Eb. eexists _, b. split; [done|]. split; [done|]. split; [done|].
  eapply acts_trans; [exact A1|apply acts_put].
Qed.

(** *** Sending *)

Lemma good_wire d c : good c -> good (set_wire d c).
Proof. intros []. by split. Qed.

Lemma content_empty b : wf b -> (readableBytes b =? 0)%nat = bool_decide (content b = []).
Proof.
  intros W. pose proof (length_content b W) as L. destruct (content b) as [|x l]; simpl in L.
  - by rewrite <- L.
  - rewrite bool_decide_false by done. apply Nat.eqb_neq. lia.
Qed.

(** With something in the output buffer, and the loop asked to watch for room. *)
Lemma good_watching b c : good c -> c_open c -> shut c = false -> wf b -> content b <> [] ->
  good (let c := set_output b c in
        if isWriting (channel_ c) then c else set_channel (enableWriting (channel_ c)) c).
Proof.
  intros G O Sh W Ne. pose proof G as [Gi Go Ge Gs Gc Ga Gw Gh].
  destruct (set_events_ok _ Ge) as (_ & _ & Ee & _). destruct (writing_spec _ Ge) as (We & _).
  cbv zeta. cbn [channel_ set_output]. unfold c_open in *.
  destruct (isWriting (channel_ c)) eqn:Ew; split; cbn; auto; unfold c_open; cbn; try congruence.
  - intros _. rewrite Ew. by rewrite bool_decide_true.
  - intros Ed. rewrite Ed in O. by destruct O.
  - intros _. by rewrite bool_decide_true.
Qed.

(** What [send] puts into the stream: all of it, or nothing when the peer is gone. *)
Definition taken (d e : bytes) (s : Net) : Prop :=
  e = d \/ e = [] /\ Exists (fun r => fatal r = true) (answers s).

(** A good connection that is up, after some output [e] from [c] in [s]. *)
Record put_out (p : Z) (c : TcpConnection) (e : bytes) (s s' : Net) (c' : TcpConnection) : Prop := {
  po_acts : acts p c' s s';
  po_good : good c';
  po_same : same_conn c c';
  po_up : c_state c' = kConnected;
  po_stream : stream c' = stream c ++ e;
}.

Lemma up_not_shut c : good c -> c_state c = kConnected -> shut c = false.
Proof. intros G E. destruct (shut c) eqn:Es; [|done]. destruct (g_shut _ G Es). congruence. Qed.

(** The last part of [sendInLoop], without a fault. *)
Lemma keep_tail_ok p rest remaining s c : heap s !! p = Some c -> good c -> c_state c = kConnected ->
  remaining = length rest ->
  exists s' c', (if negb false && (0 <? remaining)%nat then keep_rest p rest else mret tt) s = Ok (tt, s')
    /\ put_out p c rest s s' c'.
Proof.
  intros E G Ec ->. cbn [negb andb]. destruct rest as [|x rest].
  - exists s, c. split; [done|]. split; try done; [by apply acts_refl|by rewrite app_nil_r].
  - destruct (keep_rest_ok p (x :: rest) s c E (g_out _ G)) as (s' & b & E' & W & C & A).
    eexists s', _. split; [exact E'|]. split; [exact A|..].
    + apply good_watching; try done; [by left|by apply up_not_shut|]. rewrite C. by destruct (content (outputBuffer_ c)).
    + cbv zeta. by destruct (isWriting _).
    + cbv zeta. by destruct (isWriting _).
    + unfold stream. cbv zeta. destruct (isWriting _); cbn; by rewrite C, app_assoc.
Qed.

Lemma put_out_after p c c1 d e s s1 s2 c2 : acts p c1 s s1 -> same_conn c c1 -> stream c1 ++ d = stream c ++ e ->
  put_out p c1 d s1 s2 c2 -> put_out p c e s s2 c2.
Proof.
  intros A S St [A2 G2 S2 U2 St2]. split; try done; [by eapply acts_trans|by etransitivity|by rewrite St2].
Qed.

Lemma sendInLoop_ok p d s c : heap s !! p = Some c -> good c -> c_state c = kConnected ->
  exists s' c' e, sendInLoop p d s = Ok (tt, s') /\ put_out p c e s s' c' /\ taken d e s.
Proof.
  intros E G Ec. pose proof (or_introl Ec : c_open c) as O.
  unfold sendInLoop. rewrite (bind_ok _ _ _ _ _ (conn_ok p c s E)), decide_False by congruence.
  rewrite content_empty, (g_writing _ G) by (done || apply G).
  destruct (decide (content (outputBuffer_ c) = [])) as [Eo|Eo].
  - rewrite bool_decide_false, bool_decide_true by (done || tauto). cbn [negb andb].
    destruct (sys_write_ok p d s c E) as (r & s1 & Es & A1 & Hn & Hf).
    unfold mbind at 1, M_bind at 1. rewrite (bind_ok _ _ _ _ _ Es).
    destruct r as [n|err].
    + set (c1 := set_wire (wire c ++ take n d) c) in *.
      destruct (queue_if_ok ((length d - n =? 0)%nat && on_complete c) p c1 (WriteComplete p) s1
        (acts_lookup _ _ _ _ A1)) as (s2 & E2 & A2); [by split|].
      rewrite (bind_ok _ _ _ _ _ E2). unfold mret, M_ret. rewrite decide_True by lia.
      pose proof (acts_trans _ _ _ _ _ _ A1 A2) as A.
      destruct (keep_tail_ok p (drop n d) (length d - n) s2 c1 (acts_lookup _ _ _ _ A)) as (s3 & c3 & E3 & P);
        [by apply good_wire|done|by rewrite length_drop|].
      exists s3, c3, d. split; [exact E3|]. split; [|by left].
      eapply put_out_after; [exact A|by split| |exact P].
      unfold stream. cbn. by rewrite Eo, !app_nil_r, <- app_assoc, take_drop.
    + unfold mret, M_ret. rewrite decide_True by lia.
      assert (set_wire (wire c ++ []) c = c) as Hc by (rewrite app_nil_r; by destruct c). rewrite Hc in A1.
      destruct (fatal (WriteError err)) eqn:Ef.
      * exists s1, c, []. split; [done|]. split.
        -- split; try done. by rewrite app_nil_r.
        -- right. split; [done|]. apply Exists_exists. exists (WriteError err). split; [by apply Hf|done].
      * destruct (keep_tail_ok p (drop 0 d) (length d) s1 c (acts_lookup _ _ _ _ A1) G Ec) as (s3 & c3 & E3 & P); [done|].
        exists s3, c3, d. split; [exact E3|]. split; [|by left]. by eapply put_out_after; [exact A1|done| |exact P].
  - rewrite bool_decide_true by done. cbn [negb andb]. unfold mbind at 1, M_bind at 1. unfold mret, M_ret.
    rewrite decide_True by lia.
    destruct (keep_tail_ok p (drop 0 d) (length d) s c E G Ec) as (s3 & c3 & E3 & P); [done|].
    exists s3, c3, d. split; [exact E3|]. split; [done|by left].
Qed.

(** *** Closing *)

Lemma good_disconnecting c : good c -> c_open c -> good (set_state kDisconnecting c).
Proof.
  intros [Gi Go Ge Gs Gc Ga Gw Gh] O. split; cbn; try done.
  - intros _. by apply Ga.
  - intros _. by apply Gw.
  - intros Sh. split; [done|]. by destruct (Gh Sh).
Qed.

Lemma good_shutdown c : good c -> c_state c <> kConnected -> isWriting (channel_ c) = false ->
  good (shutdownWrite c).
Proof. intros [] S W. by split. Qed.

(** [c'] is [c] on its way to be closed. *)
Record closing (p : Z) (c : TcpConnection) (s s' : Net) (c' : TcpConnection) : Prop := {
  cl_acts : acts p c' s s';
  cl_good : good c';
  cl_same : same_conn c c';
  cl_state : c_state c' = kDisconnecting;
  cl_stream : stream c' = stream c;
}.

Lemma shutdown_ok p s c : heap s !! p = Some c -> good c -> c_state c = kConnected ->
  exists s' c', shutdown p s = Ok (tt, s') /\ closing p c s s' c'.
Proof.
  intros E G Ec. pose proof (good_disconnecting c G (or_introl Ec)) as G1.
  unfold shutdown. rewrite (bind_ok _ _ _ _ _ (conn_ok p c s E)), decide_True by done.
  unfold mbind at 1, M_bind at 1, put at 1, modify at 1.
  set (s1 := set_heap _ s). pose proof (acts_put p (set_state kDisconnecting c) s) as A1. fold s1 in A1.
  unfold shutdownInLoop. rewrite (bind_ok _ _ _ _ _ (conn_ok p _ s1 (acts_lookup _ _ _ _ A1))).
  destruct (isWriting (channel_ (set_state kDisconnecting c))) eqn:Ew.
  - by exists s1, (set_state kDisconnecting c).
  - exists (set_heap (<[p := shutdownWrite (set_state kDisconnecting c)]> (heap s1)) s1),
      (shutdownWrite (set_state kDisconnecting c)).
    split; [done|]. split; try done; [eapply acts_trans; [exact A1|apply acts_put]|].
    by apply good_shutdown.
Qed.

Lemma tcp_forceClose_ok p s c : heap s !! p = Some c -> good c -> c_open c ->
  exists s' c', tcp_forceClose p s = Ok (tt, s') /\ closing p c s s' c'.
Proof.
  intros E G O. unfold tcp_forceClose. rewrite (bind_ok _ _ _ _ _ (conn_ok p c s E)), decide_True by done.
  unfold mbind, M_bind, put, modify. set (s1 := set_heap _ s).
  pose proof (acts_put p (set_state kDisconnecting c) s) as A1. fold s1 in A1.
  eexists _, (set_state kDisconnecting c). split; [done|].
  split; try done; [|by apply good_disconnecting].
  eapply acts_trans; [exact A1|]. apply acts_queue; [by eapply acts_lookup|by split].
Qed.

(** *** Writing *)

(** [c'] is [c] after the socket took some of its output. *)
Record written (p : Z) (c : TcpConnection) (s s' : Net) (c' : TcpConnection) : Prop := {
  wr_acts : acts p c' s s';
  wr_good : good c';
  wr_same : same_conn c c';
  wr_state : c_state c' = c_state c;
  wr_stream : stream c' = stream c;
  wr_rest : content (outputBuffer_ c') = drop (match answers s with Wrote n :: _ => n | _ => 0%nat end) (content (outputBuffer_ c));
  wr_answers : answers s' = tail (answers s);
  wr_shut : content (outputBuffer_ c') = [] -> c_state c = kDisconnecting -> shut c' = true;
}.

Lemma sys_write_answers p d (s : Net) r s' : sys_write p d s = Ok (r, s') ->
  answers s' = tail (answers s)
  /\ match answers s with Wrote n :: _ => r = Wrote (n `min` length d) | _ => exists e, r = WriteError e end.
Proof.
  unfold sys_write. destruct (answers s) as [|[n|e] l] eqn:E; intros [= <- <-]; cbn; rewrite ?E; eauto.
Qed.

Lemma good_less b c : good c -> c_open c -> isWriting (channel_ c) = true -> wf b -> content b <> [] ->
  good (set_output b c).
Proof.
  intros [Gi Go Ge Gs Gc Ga Gw Gh] O Ew W Ne. split; cbn; try done.
  intros _. rewrite Ew. by rewrite bool_decide_true.
Qed.

Lemma good_drained b c : good c -> c_open c -> isWriting (channel_ c) = true -> wf b -> content b = [] ->
  good (set_channel (disableWriting (channel_ c)) (set_output b c)).
Proof.
  intros [Gi Go Ge Gs Gc Ga Gw Gh] O Ew W Em.
  destruct (set_events_ok _ Ge) as (_ & _ & _ & Ed). destruct (writing_spec _ Ge) as (_ & Wd & _).
  split; cbn; try done.
  - intros Es. unfold c_open in O. rewrite Es in O. by destruct O.
  - intros _. by rewrite Wd, bool_decide_false by tauto.
  - intros Sh. destruct (Gh Sh). congruence.
Qed.

(** The end of [handleWrite]: a connection on its way out is shut down when nothing is left. *)
Lemma maybe_shutdown_ok p s c : heap s !! p = Some c -> good c -> isWriting (channel_ c) = false ->
  exists s' c', (if decide (c_state c = kDisconnecting) then shutdownInLoop p else mret tt) s = Ok (tt, s')
    /\ acts p c' s s' /\ good c' /\ same_conn c c' /\ c_state c' = c_state c /\ stream c' = stream c
    /\ outputBuffer_ c' = outputBuffer_ c /\ answers s' = answers s
    /\ (c_state c = kDisconnecting -> shut c' = true).
Proof.
  intros E G Ew. case_decide as Ed.
  - unfold shutdownInLoop. rewrite (bind_ok _ _ _ _ _ (conn_ok p c s E)), Ew.
    eexists _, (shutdownWrite c). split; [done|]. split; [apply acts_put|].
    split; [apply good_shutdown; [done|congruence|done]|]. by split.
  - exists s, c. split; [done|]. split; [by apply acts_refl|]. by split.
Qed.

Lemma handleWrite_open p c s : heap s !! p = Some c -> good c -> c_open c -> isWriting (channel_ c) = true ->
  exists s' c', handleWrite p s = Ok (tt, s') /\ written p c s s' c'.
Proof.
  intros E G O Ew. unfold handleWrite. rewrite (bind_ok _ _ _ _ _ (conn_ok p c s E)), Ew.
  set (d := content (outputBuffer_ c)).
  assert (d <> []) as Nd.
  { pose proof (g_writing _ G O) as H. rewrite Ew in H. symmetry in H. by apply bool_decide_eq_true in H. }
  destruct (sys_write_ok p d s c E) as (r & s1 & Es & A1 & Hn & _).
  destruct (sys_write_answers _ _ _ _ _ Es) as [Ea Er]. rewrite (bind_ok _ _ _ _ _ Es).
  set (c1 := set_wire _ c) in A1. pose proof (acts_lookup _ _ _ _ A1) as E1.
  assert (good c1) as G1 by (by apply good_wire).
  destruct r as [[|n]|e].
  - exists s1, c1. split; [done|]. split; try done.
    + unfold stream. cbn. by rewrite app_nil_r.
    + cbn. destruct (answers s) as [|[k|e] l]; try done. injection Er as Ek. fold d.
      destruct k as [|k]; [done|]. destruct d; [done|]. simpl in Ek. lia.
  - rewrite (bind_ok _ _ _ _ _ (conn_ok p c1 s1 E1)).
    destruct (retrieve_ok _ (g_out _ G1) (S n)) as (b & Eb & Wb & Cb & _); [exact Hn|].
    change (content (outputBuffer_ c1)) with d in Cb.
    unfold mbind at 1, M_bind at 1, lift. rewrite Eb. rewrite content_empty by done.
    assert (wire c1 ++ content b = wire c ++ d) as St by (cbn; by rewrite Cb, <- app_assoc, take_drop).
    assert (content b = drop (match answers s with Wrote n :: _ => n | _ => 0%nat end) d) as Rest.
    { destruct (answers s) as [|[k|e] l]; try (by destruct Er). injection Er as Ek.
      rewrite Cb, Ek. destruct (Nat.min_spec k (length d)) as [[_ ->]|[? ->]]; [done|].
      by rewrite !drop_ge by lia. }
    destruct (decide (content b = [])) as [Em|Em].
    + rewrite bool_decide_true by done. set (c2 := set_channel _ _).
      pose proof (good_drained b c1 G1 O Ew Wb Em : good c2) as G2.
      unfold mbind at 1, M_bind at 1, put at 1, modify at 1. set (s2 := set_heap _ s1).
      pose proof (acts_put p c2 s1 : acts p c2 s1 s2) as A2.
      destruct (queue_if_ok (on_complete c2) p c2 (WriteComplete p) s2 (acts_lookup _ _ _ _ A2)) as (s3 & E3 & A3); [by split|].
      change (on_complete (set_output b c1)) with (on_complete c2). rewrite (bind_ok _ _ _ _ _ E3).
      assert (answers s3 = tail (answers s)) as Ea3.
      { rewrite <- Ea. change (answers s1) with (answers s2). destruct (on_complete c2); by injection E3 as <-. }
      destruct (maybe_shutdown_ok p s3 c2 (acts_lookup _ _ _ _ A3) G2) as (s4 & c4 & E4 & A4 & G4 & S4 & T4 & St4 & O4 & Ea4 & Sh4).
      { destruct (writing_spec _ (g_events _ G)) as (_ & Wd & _). exact Wd. }
      exists s4, c4. split; [exact E4|]. split; try done.
      * eapply acts_trans; [exact A1|]. eapply acts_trans; [exact A2|]. by eapply acts_trans.
      * by transitivity c2.
      * rewrite St4. exact St.
      * by rewrite O4.
      * by rewrite Ea4.
    + rewrite bool_decide_false by done. eexists _, (set_output b c1). split; [done|].
      split; try done; [eapply acts_trans; [exact A1|apply acts_put]|by apply good_less].
  - exists s1, c1. split; [done|]. split; try done.
    + unfold stream. cbn. by rewrite app_nil_r.
    + cbn. by destruct (answers s) as [|[k|e'] l].
Qed.

(** ** The user's view *)

(** Users that leave reading alone, as the servers do, and take no more bytes than there are. *)
Definition allowed (k : call) : Prop :=
  match k with CallStartRead _ | CallStopRead _ => False | _ => True end.
Record polite : Prop := {
  po_calls : forall cb u, Forall allowed (calls (react cb u));
  po_consumed : forall p d u, (consumed (react (CbMessage p d) u) <= length d)%nat;
}.

(** Whether the kernel never gives a peer up. *)
Context (lossless : Prop).

Definition relays (c : TcpConnection) (x : Conn) : Prop :=
  stream c `sublist_of` sent x /\ (lossless -> stream c = sent x).

(** A connection object and what the user sees: the same, or nothing any more. *)
Definition conn_rel (oc : option TcpConnection) (ox : option Conn) (oi : option bytes) : Prop :=
  match oc, ox with
  | Some c, Some x => good c /\ c_state c = state_ x /\ relays c x /\ oi = Some (content (inputBuffer_ c))
  | Some c, None => good c /\ c_state c = kDisconnected
  | None, None => True
  | None, Some _ => False
  end.

Record rel (s : Net) (a : Peers) : Prop := {
  r_user : user s = a_user a;
  r_answers : lossless -> Forall (fun r => fatal r = false) (answers s);
  r_conn : forall p, conn_rel (heap s !! p) (a_conns a !! p) (a_input a !! p);
}.

(** What the user's calls leave alone in the library. *)
Definition same_object (oc oc' : option TcpConnection) : Prop :=
  match oc, oc' with
  | Some c, Some c' => c_name c' = c_name c /\ (c_open c -> c_open c') /\ (c_state c = kDisconnected -> c' = c)
  | None, None => True
  | _, _ => False
  end.

Record touch (s s' : Net) : Prop := {
  t_conns : connections_ s' = connections_ s;
  t_next : nextConnId_ s' = nextConnId_ s;
  t_heap : forall p, same_object (heap s !! p) (heap s' !! p);
  t_pending : exists l, pendingFunctors_ s' = pendingFunctors_ s ++ l
    /\ Forall (fun f => is_Some (heap s !! functor_conn f) /\ forall q, f <> ConnectDestroyed q) l;
}.

Lemma same_object_some oc oc' : same_object oc oc' -> is_Some oc <-> is_Some oc'.
Proof. destruct oc, oc'; simpl; try done; by intros. Qed.

#[export] Instance touch_pre : PreOrder touch.
Proof.
  split.
  - intros s. split; try done; [intros p; by destruct (heap s !! p)|]. exists []. by rewrite app_nil_r.
  - intros s1 s2 s3 [C1 N1 H1 (l1 & P1 & F1)] [C2 N2 H2 (l2 & P2 & F2)]. split; try congruence.
    + intros p. specialize (H1 p). specialize (H2 p).
      destruct (heap s1 !! p) as [c1|], (heap s2 !! p) as [c2|], (heap s3 !! p) as [c3|]; try done.
      destruct H1 as (A1 & B1 & D1), H2 as (A2 & B2 & D2). split; [congruence|]. split; [auto|].
      intros E. rewrite (D1 E) in D2. by apply D2.
    + exists (l1 ++ l2). rewrite P2, P1, app_assoc. split; [done|]. apply Forall_app. split; [done|].
      eapply Forall_impl; [exact F2|]. intros f [Hf ?]. split; [|done].
      by apply (same_object_some _ _ (H1 _)).
Qed.

Lemma touch_acts p c c' s s' : heap s !! p = Some c -> acts p c' s s' -> c_name c' = c_name c ->
  c_open c -> c_open c' -> touch s s'.
Proof.
  intros E [H C N U' A (l & P & Fl)] Hn O O'. split; [done|done|..].
  - intros q. rewrite H. destruct (decide (p = q)) as [<-|Hq].
    + rewrite lookup_insert_eq, E. split; [done|]. split; [done|]. intros Ed. destruct O; congruence.
    + rewrite lookup_insert_ne by done. by destruct (heap s !! q).
  - exists l. split; [done|]. eapply Forall_impl; [exact Fl|]. intros f [<- ?]. split; [by rewrite E|done].
Qed.

Lemma rel_acts p c' f x s s' a : rel s a -> acts p c' s s' -> a_conns a !! p = Some x -> good c' ->
  c_state c' = state_ (f x) -> relays c' (f x) -> a_input a !! p = Some (content (inputBuffer_ c')) ->
  rel s' (set_a_conns (alter f p (a_conns a)) a).
Proof.
  intros [Ru Ra Rc] [H C N U' A P] Ex G Es Rl Ei. split; cbn.
  - by rewrite U'.
  - intros L. destruct A as [l Hl]. specialize (Ra L). rewrite Hl in Ra. by apply Forall_app in Ra as [_ ?].
  - intros q. rewrite H. destruct (decide (p = q)) as [<-|Hq].
    + by rewrite lookup_insert_eq, lookup_alter_eq, Ex.
    + rewrite lookup_insert_ne, lookup_alter_ne by done. apply Rc.
Qed.

(** An open object is visible. *)
Lemma rel_open s a p c : rel s a -> heap s !! p = Some c -> c_open c ->
  exists x, a_conns a !! p = Some x /\ good c /\ c_state c = state_ x /\ relays c x
    /\ a_input a !! p = Some (content (inputBuffer_ c)).
Proof.
  intros R E O. pose proof (r_conn _ _ R p) as Rp. rewrite E in Rp.
  destruct (a_conns a !! p) as [x|]; [by exists x|]. destruct Rp as [_ Rp]. destruct O; congruence.
Qed.

(** A call that has no effect on the connection as it is. *)
Lemma rel_idle s a p f : rel s a ->
  (forall c x, heap s !! p = Some c -> a_conns a !! p = Some x -> c_state c = state_ x -> f x = x) ->
  rel s (set_a_conns (alter f p (a_conns a)) a).
Proof.
  intros R Hf. rewrite alter_id; [by destruct a|]. intros x Ex. pose proof (r_conn _ _ R p) as Rp.
  rewrite Ex in Rp. destruct (heap s !! p) as [c|] eqn:Ec; [|done]. by eapply Hf; [done..|apply Rp].
Qed.

(** *** The user's calls *)

(** Code [m] that does to the objects what the user sees as [f] on connection [p]. *)
Definition does (p : Z) (f : Conn -> Conn) (m : N unit) (s : Net) (a : Peers) : Prop :=
  exists s', m s = Ok (tt, s') /\ rel s' (set_a_conns (alter f p (a_conns a)) a) /\ touch s s'.

Lemma does_nothing p f m s a : rel s a -> m s = Ok (tt, s) ->
  (forall c x, heap s !! p = Some c -> c_state c = state_ x -> f x = x) -> does p f m s a.
Proof.
  intros R E Hf. exists s. split; [done|]. split; [|done]. apply rel_idle; [done|].
  intros c x Ec _. by apply Hf.
Qed.

Lemma does_closing p f m c s s' c' a : rel s a -> heap s !! p = Some c -> c_open c ->
  m s = Ok (tt, s') -> closing p c s s' c' ->
  (forall x, state_ x = c_state c -> f x = {| state_ := kDisconnecting; sent := sent x |}) -> does p f m s a.
Proof.
  intros R E O Em [A G' [Sn Si] U' St] Hf. destruct (rel_open s a p c R E O) as (x & Ex & G & Es & Rl & Ei).
  exists s'. split; [done|]. split; [|by eapply touch_acts; [..|right]].
  eapply (rel_acts p c' f x); try done; [by rewrite Hf|rewrite Hf by done|by rewrite Si].
  unfold relays. rewrite St. exact Rl.
Qed.

Lemma does_send p d s a c : rel s a -> heap s !! p = Some c -> does p (conn_send d) (send p d) s a.
Proof.
  intros R E. destruct (decide (c_state c = kConnected)) as [Ec|Ec].
  - destruct (rel_open s a p c R E (or_introl Ec)) as (x & Ex & G & Es & [Rs Rl] & Ei).
    destruct (sendInLoop_ok p d s c E G Ec) as (s' & c' & e & E' & [A G' [Sn Si] U' St] & Tk).
    exists s'. unfold send. rewrite (bind_ok _ _ _ _ _ (conn_ok p c s E)), decide_True by done.
    split; [done|]. split; [|by eapply touch_acts; [..|left|left]].
    assert (conn_send d x = {| state_ := kConnected; sent := sent x ++ d |}) as Hx
      by (unfold conn_send; by rewrite <- Es, Ec).
    eapply (rel_acts p c' (conn_send d) x); try done; [by rewrite Hx|rewrite Hx; split; cbn; rewrite St|by rewrite Si].
    + destruct Tk as [->|[-> _]]; [by apply sublist_app|]. rewrite app_nil_r. by apply sublist_inserts_r.
    + intros L. rewrite (Rl L). destruct Tk as [->|[_ Ht]]; [done|exfalso].
      apply Exists_exists in Ht as (r & Hr & Hf). pose proof (r_answers _ _ R L) as Ra.
      rewrite Forall_forall in Ra. specialize (Ra r Hr). congruence.
  - apply does_nothing; [done|unfold send; by rewrite (bind_ok _ _ _ _ _ (conn_ok p c s E)), decide_False|].
    intros c0 x0 E0 Es. rewrite E in E0. injection E0 as <-. unfold conn_send. rewrite <- Es. by destruct (c_state c).
Qed.

Lemma does_shutdown p s a c : rel s a -> heap s !! p = Some c -> does p conn_shutdown (shutdown p) s a.
Proof.
  intros R E. destruct (decide (c_state c = kConnected)) as [Ec|Ec].
  - destruct (rel_open s a p c R E (or_introl Ec)) as (_ & _ & G & _).
    destruct (shutdown_ok p s c E G Ec) as (s' & c' & E' & Cl).
    eapply does_closing; [done|done|by left|done|done|]. intros x Ex. unfold conn_shutdown. by rewrite Ex, Ec.
  - apply does_nothing; [done|unfold shutdown; by rewrite (bind_ok _ _ _ _ _ (conn_ok p c s E)), decide_False|].
    intros c0 x0 E0 Es. rewrite E in E0. injection E0 as <-. unfold conn_shutdown. rewrite <- Es. by destruct (c_state c).
Qed.

Lemma does_forceClose p s a c : rel s a -> heap s !! p = Some c -> does p conn_forceClose (tcp_forceClose p) s a.
Proof.
  intros R E. destruct (decide (c_open c)) as [O|O].
  - destruct (rel_open s a p c R E O) as (_ & _ & G & _).
    destruct (tcp_forceClose_ok p s c E G O) as (s' & c' & E' & Cl).
    eapply does_closing; try done. intros x Ex. unfold conn_forceClose. rewrite Ex. by destruct O as [-> | ->].
  - apply does_nothing; [done|unfold tcp_forceClose; by rewrite (bind_ok _ _ _ _ _ (conn_ok p c s E)), decide_False|].
    intros c0 x0 E0 Es. rewrite E in E0. injection E0 as <-. unfold conn_forceClose. rewrite <- Es.
    unfold c_open in O. destruct (c_state c); tauto.
Qed.

Lemma perform_ok k s a : rel s a -> allowed k ->
  exists s', perform k s = Ok (tt, s') /\ rel s' (a_perform a k) /\ touch s s'.
Proof.
  intros R Hk. destruct k as [p d|p|p|p|p]; [| | |done..]; unfold perform; cbn [a_perform];
    (destruct (heap s !! p) as [c|] eqn:E; [|exists s; split; [done|]; split; [|done]; apply rel_idle; [done|congruence]]).
  - by eapply does_send.
  - by eapply does_shutdown.
  - by eapply does_forceClose.
Qed.

Lemma performs_ok ks s a : rel s a -> Forall allowed ks ->
  exists s', for_each perform ks s = Ok (tt, s') /\ rel s' (fold_left a_perform ks a) /\ touch s s'.
Proof.
  intros R F. revert s a R. induction F as [|k ks Hk F IH]; intros s a R; [by exists s|].
  destruct (perform_ok k s a R Hk) as (s1 & E1 & R1 & T1). destruct (IH _ _ R1) as (s2 & E2 & R2 & T2).
  exists s2. simpl. rewrite (bind_ok _ _ _ _ _ E1). split; [done|]. split; [done|]. by transitivity s1.
Qed.

(** *** Callbacks *)

Lemma touch_user u s : touch s (set_net_user u s).
Proof.
  split; [done|done|..]; cbn; [intros k; by destruct (heap s !! k)|]. exists []. by rewrite app_nil_r.
Qed.

(** A user's callback; a message callback is given what its connection's buffer holds. *)
Lemma run_callback_ok cb s a : polite -> rel s a ->
  match cb with
  | CbMessage p q => exists c, heap s !! p = Some c /\ c_open c /\ q = content (inputBuffer_ c)
  | _ => True
  end ->
  exists s', run_callback react cb s = Ok (tt, s') /\ rel s' (a_callback react cb a) /\ touch s s'.
Proof.
  intros [Pc Pn] R Hcb. unfold run_callback, a_callback. unfold mbind at 1, M_bind at 1, gets.
  rewrite (r_user _ _ R). set (r := react cb (a_user a)).
  (* what is taken out of the buffer *)
  match goal with |- context [fold_left a_perform _ ?a'] => set (a1 := a') end.
  assert (exists s1, (match cb with
       | CbMessage p _ => c ← conn p; b ← lift (retrieve (inputBuffer_ c) (consumed r)); put p (set_input b c)
       | _ => mret tt
       end) s = Ok (tt, s1) /\ rel s1 a1 /\ touch s s1) as (s1 & E1 & R1 & T1).
  { destruct cb as [p up|p q|p|p n]; try (by exists s). destruct Hcb as (c & Ec & O & ->).
    destruct (rel_open s a p c R Ec O) as (x & Ex & G & Es & Rl & Ei).
    destruct (retrieve_ok _ (g_in _ G) (consumed r) (Pn p _ (a_user a))) as (b & Eb & Wb & Cb & _).
    rewrite (bind_ok _ _ _ _ _ (conn_ok p c s Ec)). unfold mbind, M_bind, lift. rewrite Eb.
    eexists. split; [done|]. pose proof (acts_put p (set_input b c) s) as A. split.
    - destruct R as [Ru Ra Rc]. split; [done|done|]. intros k. unfold a1. cbn.
      destruct (decide (p = k)) as [<-|Hk].
      + rewrite lookup_insert_eq, lookup_alter_eq, Ex, Ei. cbn. destruct G. split; [by split|].
        split; [done|]. split; [exact Rl|by rewrite Cb].
      + rewrite lookup_insert_ne, lookup_alter_ne by done. apply Rc.
    - by eapply touch_acts. }
  rewrite (bind_ok _ _ _ _ _ E1).
  destruct (performs_ok (calls r) s1 a1 R1 (Pc cb (a_user a))) as (s2 & E2 & R2 & T2).
  rewrite (bind_ok _ _ _ _ _ E2). eexists. split; [done|]. split.
  - by destruct R2.
  - transitivity s1; [done|]. transitivity s2; [done|]. apply touch_user.
Qed.
End connection.
