(* ===== verification/TcpRefinement.v ===== *)
(** * What the network library promises its user

    TcpConnection.v and TcpServer.v behave, for any user that follows the rules, like the event
    machine of Conn.v, on which the chat and the file server are built: no assertion fails and
    no dead object is touched, whatever the peers and the kernel do; what the user sends comes
    out in order; output that is pending is watched for and gets out. *)

From S2P Require Import Prelude Bytes Text Buffer Conn Channel TcpConnection TcpProofs TcpServer.

#[export] Instance functor_eq_dec : EqDecision functor.
Proof. solve_decision. Defined.

(** How often a connection is to be taken out of the loop. *)
Definition destroys (p : Z) (l : list functor) : nat := length (filter (fun f => f = ConnectDestroyed p) l).

Lemma destroys_app p l1 l2 : destroys p (l1 ++ l2) = (destroys p l1 + destroys p l2)%nat.
Proof. unfold destroys. by rewrite filter_app, length_app. Qed.

Lemma destroys_none p l : (forall f, f ∈ l -> f <> ConnectDestroyed p) -> destroys p l = 0%nat.
Proof.
  intros H. unfold destroys. destruct (filter _ l) as [|f l'] eqn:E; [done|].
  assert (f ∈ filter (fun f => f = ConnectDestroyed p) l) as Hf by (rewrite E; by left).
  apply list_elem_of_filter in Hf as [Hf Hl]. by destruct (H f Hl).
Qed.

Section server.
Context {U : Type} (react : callback -> U -> reaction U).
Context (name_ ipPort_ : bytes) (complete : bool).
Context (lossless : Prop).
Hypothesis Hpolite : polite react.
Hypothesis Hip : len ipPort_ <= 50.

Abbreviation Net := (Net (U := U)).
Abbreviation N := (N (U := U)).
Abbreviation Peers := (Peers (U := U)).
Abbreviation rel := (rel (U := U) lossless).
Abbreviation removal := (removeConnection (U := U)).
Abbreviation connName := (connName name_ ipPort_).

(** ** The server's invariant

    With [todo] the functors that the loop has still to run before the pending ones. *)
Record inv (todo : list functor) (s : Net) : Prop := {
  i_map : forall n p, connections_ s !! n = Some p -> exists c, heap s !! p = Some c /\ c_name c = n /\ c_open c;
  i_open : forall p c, heap s !! p = Some c -> c_open c -> connections_ s !! c_name c = Some p;
  i_names : forall n, is_Some (connections_ s !! n) -> exists i, 1 <= i < nextConnId_ s /\ n = connName i;
  i_next : 1 <= nextConnId_ s <= INT_MAX;
  i_functors : forall f, f ∈ todo ++ pendingFunctors_ s -> is_Some (heap s !! functor_conn f);
  i_state : forall p c, heap s !! p = Some c -> c_state c <> kConnecting;
  i_destroy : forall p c, heap s !! p = Some c -> destroys p (todo ++ pendingFunctors_ s)
    = if decide (c_state c = kDisconnected /\ addedToLoop_ (channel_ c) = true) then 1%nat else 0%nat;
}.

Lemma open_cases (c : TcpConnection) : c_state c <> kConnecting -> c_open c \/ c_state c = kDisconnected.
Proof. unfold c_open. destruct (c_state c); tauto. Qed.

Lemma inv_touch todo s s' : inv todo s -> touch s s' -> inv todo s'.
Proof.
  intros [Im Io In Ix If Is Id] [Tc Tn Th (l & Tp & Fl)]. split.
  - intros n p. rewrite Tc. intros (c & Ec & Hn & O)%Im. specialize (Th p). rewrite Ec in Th.
    destruct (heap s' !! p) as [c'|]; [|done]. destruct Th as (Hn' & O' & _). exists c'. split; [done|].
    split; [congruence|auto].
  - intros p c' Ec' O'. specialize (Th p). rewrite Ec' in Th.
    destruct (heap s !! p) as [c|] eqn:Ec; [|done]. destruct Th as (Hn & _ & D). rewrite Tc, Hn.
    apply Io; [done|]. destruct (open_cases c (Is p c Ec)) as [O|E]; [done|]. by rewrite <- (D E).
  - intros n. rewrite Tc, Tn. apply In.
  - by rewrite Tn.
  - intros f. rewrite Tp, app_assoc. intros [Hf|Hf]%elem_of_app; apply (same_object_some _ _ (Th _)).
    + by apply If.
    + rewrite Forall_forall in Fl. by apply Fl.
  - intros p c' Ec'. specialize (Th p). rewrite Ec' in Th. destruct (heap s !! p) as [c|] eqn:Ec; [|done].
    destruct Th as (_ & O' & D). destruct (open_cases c (Is p c Ec)) as [O|E].
    + destruct (O' O); congruence.
    + rewrite (D E). congruence.
  - intros p c' Ec'. specialize (Th p). rewrite Ec' in Th. destruct (heap s !! p) as [c|] eqn:Ec; [|done].
    destruct Th as (_ & O' & D). rewrite Tp, app_assoc, destroys_app, (Id p c Ec), (destroys_none p l).
    2:{ intros f Hf. rewrite Forall_forall in Fl. by apply Fl. }
    destruct (open_cases c (Is p c Ec)) as [O|E].
    + rewrite decide_False by (destruct O; intros []; congruence).
      rewrite decide_False; [done|]. destruct (O' O); intros []; congruence.
    + rewrite (D E). lia.
Qed.

(** A functor has run that was not for the end of a connection. *)
Lemma inv_drop f todo s : inv (f :: todo) s -> (forall p, f <> ConnectDestroyed p) -> inv todo s.
Proof.
  intros [Im Io In Ix If Is Id] Hf. split; try done.
  - intros g Hg. apply If. by right.
  - intros p c Ec. rewrite <- (Id p c Ec). change ((f :: todo) ++ ?l) with ([f] ++ (todo ++ l)).
    rewrite (destroys_app p [f]), (destroys_none p [f]); [done|].
    intros g Hg%list_elem_of_singleton. subst. apply Hf.
Qed.

(** ** Closing a connection *)

(** What happens to a connection leaves the others as they are, except for calls of the user. *)
Definition others (p : Z) (s s' : Net) : Prop := forall q, q <> p ->
  match heap s !! q, heap s' !! q with
  | Some c, Some c' => c_open c -> c_open c'
  | None, None => True
  | _, _ => False
  end.

#[export] Instance others_pre p : PreOrder (others p).
Proof.
  split.
  - intros s q Hq. by destruct (heap s !! q).
  - intros s1 s2 s3 H1 H2 q Hq. specialize (H1 q Hq). specialize (H2 q Hq).
    destruct (heap s1 !! q), (heap s2 !! q), (heap s3 !! q); auto; done.
Qed.

Lemma others_touch p s s' : touch s s' -> others p s s'.
Proof.
  intros T q _. pose proof (t_heap _ _ T q) as H. destruct (heap s !! q), (heap s' !! q); try done. by destruct H as (_ & ? & _).
Qed.

Lemma others_put p c s : others p s (set_heap (<[p := c]> (heap s)) s).
Proof. intros q Hq. cbn. rewrite lookup_insert_ne by done. by destruct (heap s !! q). Qed.

(** The object, closed. *)
Definition closed (c : TcpConnection) : TcpConnection :=
  set_channel (disableAll (channel_ c)) (set_state kDisconnected c).

Lemma good_closed c : good c -> good (closed c).
Proof.
  intros [Gi Go Ge Gs Gc Ga Gw Gh]. split; cbn; try done.
  - by left.
  - intros [?|?]; cbn in *; congruence.
Qed.

Lemma rel_close p c x s a : rel s a -> heap s !! p = Some c -> a_conns a !! p = Some x ->
  rel (set_heap (<[p := closed c]> (heap s)) s)
    (set_a_conns (alter (fun c => {| state_ := kDisconnected; sent := sent c |}) p (a_conns a)) a).
Proof.
  intros R E Ex. pose proof (r_conn _ _ _ R p) as Rp. rewrite E, Ex in Rp. destruct Rp as (G & Es & Rl & Ei).
  eapply rel_acts; [exact R|apply acts_put|exact Ex|by apply good_closed|done|exact Rl|exact Ei].
Qed.

(** [removeConnection] of a connection that is still in the map. *)
Lemma removeConnection_ok p c s : heap s !! p = Some c -> is_Some (connections_ s !! c_name c) ->
  removal p s = Ok (tt, set_pendingFunctors (pendingFunctors_ s ++ [ConnectDestroyed p])
                          (set_connections (delete (c_name c) (connections_ s)) s)).
Proof.
  intros E [q Eq]. unfold removeConnection. rewrite (bind_ok _ _ _ _ _ (conn_ok p c s E)).
  unfold mbind, M_bind, gets. by rewrite Eq.
Qed.

(** The state [s'] after [p]'s connection is closed and out of the map, other objects touched. *)
Record removed (p : Z) (c : TcpConnection) (s s' : Net) : Prop := {
  rm_conns : connections_ s' = delete (c_name c) (connections_ s);
  rm_next : nextConnId_ s' = nextConnId_ s;
  rm_self : heap s' !! p = Some (closed c);
  rm_others : forall q, q <> p -> same_object (heap s !! q) (heap s' !! q);
  rm_pending : exists l, pendingFunctors_ s' = pendingFunctors_ s ++ l ++ [ConnectDestroyed p]
    /\ Forall (fun f => is_Some (heap s !! functor_conn f) /\ forall q, f <> ConnectDestroyed q) l;
}.

(** Another connection, after: what it was before. *)
Lemma removed_other p c s s' todo q c' : inv todo s -> removed p c s s' -> q <> p -> heap s' !! q = Some c' ->
  exists cq, heap s !! q = Some cq /\ c_name c' = c_name cq
    /\ (c_open cq /\ c_open c' \/ c_state cq = kDisconnected /\ c' = cq).
Proof.
  intros I R Hq Ec'. pose proof (rm_others _ _ _ _ R q Hq) as So. rewrite Ec' in So.
  destruct (heap s !! q) as [cq|] eqn:Ecq; [|done]. destruct So as (Hn & O' & D). exists cq.
  split; [done|]. split; [done|]. destruct (open_cases cq (i_state _ _ I q cq Ecq)) as [Oq|Hd]; auto.
Qed.

Lemma open_not_closed c : c_open c -> c_state c <> kDisconnected.
Proof. intros [->| ->]; done. Qed.

Lemma inv_removed todo p c s s' : inv todo s -> heap s !! p = Some c -> c_open c -> removed p c s s' -> inv todo s'.
Proof.
  intros I E O R. pose proof (removed_other p c s s' todo) as Ot.
  pose proof R as [Rc Rn Rs Ro (l & Rp & Fl)]. pose proof I as [Im Io In Ix If Is Id]. split.
  - intros n q. rewrite Rc. intros [Hn Eq]%lookup_delete_Some. destruct (Im n q Eq) as (cq & Ecq & Hnq & Oq).
    assert (q <> p) as Hq by congruence. specialize (Ro q Hq). rewrite Ecq in Ro.
    destruct (heap s' !! q) as [c'|]; [|done]. destruct Ro as (Hn' & O' & _). exists c'.
    split; [done|]. split; [congruence|auto].
  - intros q c' Ec' O'. destruct (decide (q = p)) as [->|Hq].
    { rewrite Rs in Ec'. injection Ec' as <-. by destruct O'. }
    destruct (Ot q c' I R Hq Ec') as (cq & Ecq & -> & [[Oq _]|[Hd ->]]); [|by destruct (open_not_closed _ O')].
    pose proof (Io q cq Ecq Oq) as Eq. rewrite Rc, lookup_delete_ne; [done|].
    intros Hx. rewrite <- Hx, (Io p c E O) in Eq. congruence.
  - intros n. rewrite Rc, Rn. intros [q [_ Eq]%lookup_delete_Some]. apply In. by exists q.
  - by rewrite Rn.
  - assert (forall q, is_Some (heap s !! q) -> is_Some (heap s' !! q)) as Hs.
    { intros q Hq. destruct (decide (q = p)) as [->|Hqp]; [by rewrite Rs|]. by apply (same_object_some _ _ (Ro q Hqp)). }
    intros f. rewrite Rp, app_assoc, !elem_of_app, list_elem_of_singleton. rewrite Forall_forall in Fl.
    intros [Hf|[Hf| ->]]; [apply Hs, If; by apply elem_of_app|by apply Hs, Fl|apply Hs; exists c; exact E].
  - intros q c' Ec'. destruct (decide (q = p)) as [->|Hq]; [rewrite Rs in Ec'; by injection Ec' as <-|].
    destruct (Ot q c' I R Hq Ec') as (cq & Ecq & _ & [[_ [?|?]]|[Hd ->]]); congruence.
  - intros q c' Ec'. rewrite Rp, !app_assoc, !destroys_app, <- destroys_app.
    rewrite (destroys_none q l) by (intros f Hf; rewrite Forall_forall in Fl; by apply Fl).
    destruct (decide (q = p)) as [->|Hq].
    + rewrite Rs in Ec'. injection Ec' as <-. rewrite (Id p c E).
      rewrite decide_False by (intros [? _]; by apply (open_not_closed c)). rewrite decide_True by done.
      unfold destroys. cbn. by rewrite decide_True.
    + rewrite (destroys_none q [_]) by (intros f Hf%list_elem_of_singleton; subst; congruence).
      destruct (Ot q c' I R Hq Ec') as (cq & Ecq & _ & [[Oq O']|[Hd ->]]); rewrite (Id q cq Ecq); [|lia].
      rewrite !decide_False; [done|by intros [? _]; apply (open_not_closed c')|by intros [? _]; apply (open_not_closed cq)].
Qed.

Lemma handleClose_ok todo p c s a : inv todo s -> rel s a -> heap s !! p = Some c -> c_open c ->
  exists s', handleClose react removal p s = Ok (tt, s') /\ inv todo s'
    /\ rel s' (peer_step react (PDisconnect p) a) /\ others p s s' /\ nextConnId_ s' = nextConnId_ s
    /\ heap s' !! p = Some (closed c).
Proof.
  intros I R E O. destruct (rel_open _ s a p c R E O) as (x & Ex & G & _).
  pose proof (rel_close p c x s a R E Ex) as R1. set (s1 := set_heap _ s) in R1. set (a1 := set_a_conns _ a) in R1.
  destruct (run_callback_ok react lossless (CbConnection p false) s1 a1 Hpolite R1 ltac:(done)) as (s2 & E2 & R2 & T2).
  assert (heap s2 !! p = Some (closed c)) as E2p.
  { pose proof (t_heap _ _ T2 p) as H. unfold s1 in H. cbn in H. rewrite lookup_insert_eq in H.
    destruct (heap s2 !! p); [|done]. destruct H as (_ & _ & H). by rewrite H. }
  assert (connections_ s2 !! c_name c = Some p) as Em by (rewrite (t_conns _ _ T2); by apply (i_open _ _ I)).
  unfold handleClose. rewrite (bind_ok _ _ _ _ _ (conn_ok p c s E)), decide_True by done.
  unfold mbind at 1, M_bind at 1, put, modify. fold (closed c). fold s1. rewrite (bind_ok _ _ _ _ _ E2).
  rewrite (removeConnection_ok p (closed c) s2 E2p) by (exists p; exact Em).
  set (s3 := set_pendingFunctors _ _).
  assert (removed p c s s3) as Rm.
  { pose proof (t_pending _ _ T2) as (l & Tp & Fl). unfold s1 in Tp, Fl. cbn in Tp, Fl. split; try done.
    - unfold s3. cbn. by rewrite (t_conns _ _ T2).
    - unfold s3. cbn. by rewrite (t_next _ _ T2).
    - intros q Hq. pose proof (t_heap _ _ T2 q) as H. unfold s1 in H. cbn in H. by rewrite lookup_insert_ne in H.
    - exists l. unfold s3. cbn. rewrite Tp, app_assoc. split; [done|]. eapply Forall_impl; [exact Fl|].
      intros f [Hf ?]. split; [|done]. destruct (decide (functor_conn f = p)) as [->|Hfp]; [by rewrite E|].
      by rewrite lookup_insert_ne in Hf. }
  exists s3. split; [done|]. split; [by eapply inv_removed|]. split; [|split; [|split; [apply Rm|done]]].
  - destruct R2 as [Ru Ra Rc]. split; [done|done|]. intros q. unfold s3. cbn.
    destruct (decide (q = p)) as [->|Hq].
    + rewrite E2p, !lookup_delete_eq. split; [by apply good_closed|done].
    + rewrite !lookup_delete_ne by done. apply Rc.
  - intros q Hq. pose proof (rm_others _ _ _ _ Rm q Hq) as So.
    destruct (heap s !! q), (heap s3 !! q); try done. by destruct So as (_ & ? & _).
Qed.

(** ** Events of a connection *)

(** A library function that only moves output. *)
Lemma rel_moved p c c' s s' a : rel s a -> heap s !! p = Some c -> c_open c -> acts p c' s s' ->
  good c' -> same_conn c c' -> c_state c' = c_state c -> stream c' = stream c -> rel s' a.
Proof.
  intros R E O A G [_ Si] Es St. destruct (rel_open _ s a p c R E O) as (x & Ex & _ & Ec & [R1 R2] & Ei).
  assert (set_a_conns (alter id p (a_conns a)) a = a) as <-
    by (rewrite alter_id by done; by destruct a).
  eapply rel_acts; [exact R|exact A|exact Ex|exact G|by rewrite Es, Ec| |by rewrite Si].
  split; rewrite St; [exact R1|exact R2].
Qed.

Lemma handleWrite_ok todo p c s a : inv todo s -> rel s a -> heap s !! p = Some c -> good c ->
  exists s', handleWrite p s = Ok (tt, s') /\ inv todo s' /\ rel s' a /\ touch s s'.
Proof.
  intros I R E G. destruct (isWriting (channel_ c)) eqn:Ew.
  - assert (c_open c) as O.
    { destruct (open_cases c (g_state _ G)) as [|Ed]; [done|]. pose proof (g_closed _ G Ed) as Hc.
      unfold isWriting in Ew. by rewrite Hc in Ew. }
    destruct (handleWrite_open p c s E G O Ew) as (s' & c' & E' & [A G' S' St Str _ _ _]).
    assert (touch s s') as T.
    { eapply touch_acts; [exact E|exact A|apply S'|exact O|]. unfold c_open. by rewrite St. }
    exists s'. split; [done|]. split; [by eapply inv_touch|]. split; [by eapply rel_moved|done].
  - exists s. unfold handleWrite. rewrite (bind_ok _ _ _ _ _ (conn_ok p c s E)), Ew. done.
Qed.

(** What an event on [p] keeps for the rest of the loop's turn. *)
Record after (todo : list functor) (p : Z) (s : Net) (a : Peers) (s' : Net) (a' : Peers) : Prop := {
  af_inv : inv todo s';
  af_rel : rel s' a';
  af_reach : peers_reach react a a';
  af_others : others p s s';
  af_next : nextConnId_ s' = nextConnId_ s;
}.

Lemma after_trans todo p s a s1 a1 s2 a2 : after todo p s a s1 a1 -> after todo p s1 a1 s2 a2 -> after todo p s a s2 a2.
Proof.
  intros [I1 R1 P1 O1 N1] [I2 R2 P2 O2 N2]. split; try done.
  - by eapply peers_reach_trans.
  - by etransitivity.
  - congruence.
Qed.

Lemma after_touch todo p s a s' : inv todo s -> rel s' a -> touch s s' -> after todo p s a s' a.
Proof.
  intros I R T. split; [by eapply inv_touch|done|constructor|by apply others_touch|by apply T].
Qed.

Lemma after_close todo p c s a : inv todo s -> rel s a -> heap s !! p = Some c -> c_open c ->
  exists s' a', handleClose react removal p s = Ok (tt, s') /\ after todo p s a s' a' /\ heap s' !! p = Some (closed c).
Proof.
  intros I R E O. destruct (handleClose_ok todo p c s a I R E O) as (s' & E' & I' & R' & Ot & Nx & H').
  destruct (rel_open _ s a p c R E O) as (x & Ex & _ & Es & _).
  exists s', (peer_step react (PDisconnect p) a). split; [done|]. split; [|done]. split; try done.
  apply peers_reach_one. exists x. split; [done|]. unfold is_open. rewrite <- Es. exact O.
Qed.

(** [handleRead]: bytes for the user, the end of the stream, or an error that is logged. *)
Lemma handleRead_ok todo p c s a input : inv todo s -> rel s a -> heap s !! p = Some c -> c_open c ->
  exists s' a' c', handleRead react removal p input s = Ok (tt, s') /\ after todo p s a s' a'
    /\ heap s' !! p = Some c' /\ good c'.
Proof.
  intros I R E O. destruct (rel_open _ s a p c R E O) as (x & Ex & G & Es & Rl & Ei).
  unfold handleRead. rewrite (bind_ok _ _ _ _ _ (conn_ok p c s E)).
  destruct input as [d|].
  - destruct (readFd_ok _ d (g_in _ G)) as (b & Eb & Wb & Cb).
    unfold mbind at 1, M_bind at 1, lift. rewrite Eb. unfold mbind at 1, M_bind at 1, put, modify.
    set (s1 := set_heap _ s). pose proof (acts_put p (set_input b c) s : acts p (set_input b c) s s1) as A1.
    assert (touch s s1) as T1 by (eapply touch_acts; [exact E|exact A1|done|exact O|exact O]).
    assert (inv todo s1) as I1 by (by eapply inv_touch).
    assert (good (set_input b c)) as G1 by (destruct G; by split).
    set (a1 := {| a_conns := a_conns a; a_input := <[p := content b]> (a_input a); a_user := a_user a |}).
    assert (rel s1 a1) as R1.
    { destruct R as [Ru Ra Rc]. split; [done|done|]. intros q. unfold s1, a1. cbn.
      destruct (decide (p = q)) as [<-|Hq].
      - rewrite !lookup_insert_eq, Ex. done.
      - rewrite !lookup_insert_ne by done. apply Rc. }
    destruct (decide (d = [])) as [->|Nd].
    + rewrite decide_False, decide_True by (simpl; lia).
      assert (rel s1 a) as R1'.
      { assert (a1 = a) as Ha; [|by rewrite <- Ha]. unfold a1. rewrite Cb, app_nil_r, insert_id by done. by destruct a. }
      destruct (after_close todo p (set_input b c) s1 a I1 R1' (acts_lookup _ _ _ _ A1) O) as (s2 & a2 & E2 & F2 & H2).
      exists s2, a2, (closed (set_input b c)). split; [done|]. split; [|split; [done|by apply good_closed]].
      eapply after_trans; [exact (after_touch todo p s a s1 I R1' T1)|done].
    + rewrite decide_True by (destruct d; [done|simpl; lia]).
      destruct (run_callback_ok react lossless (CbMessage p (content b)) s1 a1 Hpolite R1) as (s2 & E2 & R2 & T2).
      { exists (set_input b c). split; [by eapply acts_lookup|]. by split. }
      pose proof (t_heap _ _ T2 p) as H2. rewrite (acts_lookup _ _ _ _ A1) in H2.
      destruct (heap s2 !! p) as [c2|] eqn:E2p; [|done].
      exists s2, (a_callback react (CbMessage p (content b)) a1), c2. split; [exact E2|]. split; [|split; [done|]].
      * split; [by eapply inv_touch| |..].
        -- exact R2.
        -- assert (a_callback react (CbMessage p (content b)) a1 = peer_step react (PReceive p d) a) as ->.
           { unfold a1. cbn [peer_step]. rewrite Ei, Cb. reflexivity. }
           apply peers_reach_one. split; [done|]. exists x. split; [done|]. unfold is_open. rewrite <- Es. exact O.
        -- transitivity s1; by apply others_touch.
        -- by rewrite (t_next _ _ T2), (t_next _ _ T1).
      * pose proof (r_conn _ _ _ R2 p) as Hr. rewrite E2p in Hr. unfold conn_rel in Hr. case_match; by destruct Hr.
  - unfold mbind at 1, M_bind at 1, lift. cbn [readFd]. unfold mbind at 1, M_bind at 1, put, modify.
    rewrite !decide_False by lia. eexists _, a, c. split; [done|].
    assert (set_heap (<[p := set_input (inputBuffer_ c) c]> (heap s)) s = s) as ->.
    { assert (set_input (inputBuffer_ c) c = c) as -> by (by destruct c). rewrite insert_id by done. by destruct s. }
    split; [by apply after_touch|done].
Qed.

(** Everything a poll can report of an open connection. *)
Lemma handleEvent_ok todo p c s a revents input : inv todo s -> rel s a -> heap s !! p = Some c -> c_open c ->
  revents_ok revents ->
  exists s' a', handleEvent react removal p revents input s = Ok (tt, s') /\ after todo p s a s' a'.
Proof.
  intros I R E O Hr. unfold handleEvent. unfold revents_ok in Hr.
  destruct (rel_open _ s a p c R E O) as (_ & _ & G & _).
  (* up to the write callback; the object is still there *)
  assert (exists s2 a2 c2, before_write (handleClose react removal p) (handleError p) (handleRead react removal p input)
            revents s = Ok (tt, s2) /\ after todo p s a s2 a2 /\ heap s2 !! p = Some c2 /\ good c2)
    as (s2 & a2 & c2 & E2 & F2 & H2 & G2).
  { unfold before_write. destruct (has POLLHUP revents && negb (has POLLIN revents)) eqn:Eh.
    - specialize (Hr eq_refl). apply andb_prop in Eh as [_ Ei]. apply negb_true_iff in Ei.
      rewrite has_lor in Hr. apply orb_false_iff in Hr as [Hp Hd].
      destruct (after_close todo p c s a I R E O) as (s1 & a1 & E1 & F1 & H1).
      exists s1, a1, (closed c). rewrite (bind_ok _ _ _ _ _ E1), !has_lor, Ei, Hp, Hd. cbn.
      split; [by destruct (_ || _)|]. split; [done|]. split; [done|]. by apply good_closed.
    - destruct (has (Z.lor (Z.lor POLLIN POLLPRI) POLLRDHUP) revents) eqn:Er.
      + destruct (handleRead_ok todo p c s a input I R E O) as (s1 & a1 & c1 & E1 & F1 & H1 & G1).
        exists s1, a1, c1. split; [|done]. rewrite <- E1. by destruct (has (Z.lor POLLERR POLLNVAL) revents).
      + exists s, a, c. split; [by destruct (has (Z.lor POLLERR POLLNVAL) revents)|]. split; [by apply after_touch|done]. }
  rewrite (handleEvent_split _ _ _ _ _ _ _ E2). destruct (has POLLOUT revents); [|by exists s2, a2].
  destruct (handleWrite_ok todo p c2 s2 a2 (af_inv _ _ _ _ _ _ F2) (af_rel _ _ _ _ _ _ F2) H2 G2)
    as (s3 & E3 & I3 & R3 & T3).
  exists s3, a2. split; [done|]. eapply after_trans; [exact F2|]. apply after_touch; [apply F2|done|done].
Qed.

(** ** A new connection *)

(** The state in which the user hears of the connection. *)
Lemma new_inv todo p sockfd s a : inv todo s -> rel s a -> heap s !! p = None -> nextConnId_ s < INT_MAX ->
  exists s1, newConnection react name_ ipPort_ complete p sockfd s = run_callback react (CbConnection p true) s1
    /\ inv todo s1 /\ nextConnId_ s1 = nextConnId_ s + 1 /\ others p s s1
    /\ rel s1 {| a_conns := <[p := {| state_ := kConnected; sent := [] |}]> (a_conns a);
                a_input := <[p := []]> (a_input a); a_user := a_user a |}.
Proof.
  intros I R E Hn. pose proof I as [Im Io In Ix If Is Id]. unfold newConnection.
  set (id := nextConnId_ s) in *.
  assert (int_add id 1 = Ok (id + 1)) as Ea by (unfold int_add, is_i32, INT_MIN; by rewrite decide_True by lia).
  rewrite (bind_ok (gets nextConnId_) _ s id s eq_refl).
  rewrite (bind_ok (lift (int_add id 1)) _ s (id + 1) s) by (unfold lift; by rewrite Ea).
  rewrite (bind_ok (modify (set_nextConnId (id + 1))) _ s tt _ eq_refl).
  cbv zeta. set (sa := set_nextConnId (id + 1) s).
  set (c0 := {| c_name := connName id; c_state := kConnecting; reading_ := true; channel_ := Channel_new sockfd;
    inputBuffer_ := Buffer_new kInitialSize; outputBuffer_ := Buffer_new kInitialSize;
    highWaterMark_ := 64 * 1024 * 1024; on_complete := complete; on_highwater := false; wire := []; shut := false |}).
  rewrite (bind_ok _ _ _ _ _ (eq_refl : put p c0 sa = Ok (tt, set_heap (<[p := c0]> (heap sa)) sa))).
  unfold mbind at 1, M_bind at 1, modify at 1.
  match goal with |- context [connectEstablished react p ?s0] => set (s0' := s0) end.
  unfold connectEstablished.
  assert (heap s0' !! p = Some c0) as E0 by (unfold s0'; cbn; by rewrite lookup_insert_eq).
  rewrite (bind_ok _ _ _ _ _ (conn_ok p c0 s0' E0)), decide_True by done.
  unfold mbind at 1, M_bind at 1, put, modify. set (c1 := set_channel _ _). set (s1 := set_heap _ s0').
  assert (connections_ s !! connName id = None) as Fresh.
  { destruct (connections_ s !! connName id) as [q|] eqn:Eq; [|done].
    destruct (In (connName id)) as (i & Hi & Ei); [by rewrite Eq|].
    apply connName_inj in Ei; [|exact Hip|unfold is_i32, INT_MIN; lia..]. unfold id in *. lia. }
  assert (forall q, q <> p -> heap s1 !! q = heap s !! q) as Hq.
  { intros q Hq. unfold s1, s0'. cbn. by rewrite !lookup_insert_ne. }
  assert (heap s1 !! p = Some c1) as E1 by (unfold s1; cbn; by rewrite lookup_insert_eq).
  assert (connections_ s1 = <[connName id := p]> (connections_ s)) as Ec by done.
  assert (good c1) as G1.
  { destruct (Buffer_new_wf kInitialSize) as [W0 C0]. split; try done. by right; left. }
  exists s1. split; [done|]. split; [split|split; [done|split]].
  - intros n q. rewrite Ec. intros [[<- <-]|[Hne Eq]]%lookup_insert_Some.
    + exists c1. split; [done|]. split; [done|by left].
    + destruct (Im n q Eq) as (c & Hc & ?). exists c. rewrite Hq; [done|congruence].
  - intros q c Hc O. rewrite Ec. destruct (decide (q = p)) as [->|Hqp].
    + rewrite E1 in Hc. injection Hc as <-. apply lookup_insert_eq.
    + rewrite Hq in Hc by done. pose proof (Io q c Hc O) as Eq. rewrite lookup_insert_ne; [done|congruence].
  - intros n. rewrite Ec. intros [q [[<- <-]|[Hne Eq]]%lookup_insert_Some]; cbn.
    + exists id. split; [unfold id; lia|done].
    + destruct (In n) as (i & ? & ?); [by exists q|]. exists i. split; [unfold id; lia|done].
  - cbn. unfold id in *. lia.
  - intros f Hf. apply If in Hf as Hf'. destruct (decide (functor_conn f = p)) as [->|Hfp]; [by rewrite E1|].
    by rewrite Hq.
  - intros q c Hc. destruct (decide (q = p)) as [->|Hqp]; [rewrite E1 in Hc; by injection Hc as <-|].
    rewrite Hq in Hc by done. by eapply Is.
  - intros q c Hc. destruct (decide (q = p)) as [->|Hqp].
    + rewrite E1 in Hc. injection Hc as <-. rewrite decide_False by (by intros []). apply destroys_none.
      intros f Hf ->. apply If in Hf. cbn in Hf. rewrite E in Hf. by destruct Hf.
    + rewrite Hq in Hc by done. by apply Id.
  - intros q Hqp. rewrite Hq by done. by destruct (heap s !! q).
  - destruct R as [Ru Ra Rc]. split; [done|done|]. intros q. cbn [a_conns a_input].
    destruct (decide (q = p)) as [->|Hqp].
    + rewrite E1, !lookup_insert_eq. split; [done|]. split; [done|]. split; [by split|].
      reflexivity.
    + rewrite Hq, !lookup_insert_ne by done. apply Rc.
Qed.

Lemma newConnection_ok todo p sockfd s a : inv todo s -> rel s a -> heap s !! p = None -> nextConnId_ s < INT_MAX ->
  exists s' a', newConnection react name_ ipPort_ complete p sockfd s = Ok (tt, s')
    /\ inv todo s' /\ rel s' a' /\ peers_reach react a a' /\ others p s s' /\ nextConnId_ s' = nextConnId_ s + 1.
Proof.
  intros I R E Hn. destruct (new_inv todo p sockfd s a I R E Hn) as (s1 & -> & I1 & N1 & O1 & R1).
  destruct (run_callback_ok react lossless (CbConnection p true) s1 _ Hpolite R1 ltac:(done)) as (s2 & E2 & R2 & T2).
  exists s2, (peer_step react (PConnect p) a). split; [done|]. split; [by eapply inv_touch|]. split; [exact R2|].
  split; [|split; [transitivity s1; [done|by apply others_touch]|by rewrite (t_next _ _ T2)]].
  apply peers_reach_one. pose proof (r_conn _ _ _ R p) as Hr. rewrite E in Hr. cbn.
  by destruct (a_conns a !! p).
Qed.

(** ** Functors *)

Lemma forceCloseInLoop_ok todo p s a : inv (ForceCloseInLoop p :: todo) s -> rel s a ->
  exists s' a', forceCloseInLoop react removal p s = Ok (tt, s') /\ after todo p s a s' a'.
Proof.
  intros I R. destruct (i_functors _ _ I (ForceCloseInLoop p)) as [c E]; [by left|]. cbn in E.
  apply inv_drop in I; [|done]. unfold forceCloseInLoop. rewrite (bind_ok _ _ _ _ _ (conn_ok p c s E)).
  case_decide as O; [|exists s, a; split; [done|by apply after_touch]].
  destruct (after_close todo p c s a I R E O) as (s' & a' & E' & F' & _). by exists s', a'.
Qed.

(** The object [c] out of the loop. *)
Definition out_of_loop (c : TcpConnection) : TcpConnection :=
  set_channel {| fd_ := fd_ (channel_ c); events_ := events_ (channel_ c); addedToLoop_ := false |} c.

Lemma connectDestroyed_ok todo p s a : inv (ConnectDestroyed p :: todo) s -> rel s a ->
  exists s', connectDestroyed react p s = Ok (tt, s') /\ after todo p s a s' a.
Proof.
  intros I R. destruct (i_functors _ _ I (ConnectDestroyed p)) as [c E]; [by left|]. cbn in E.
  pose proof (i_destroy _ _ I p c E) as Hd. cbn [app] in Hd. unfold destroys in Hd.
  rewrite filter_cons_True in Hd by done. cbn [length] in Hd.
  case_decide as Hc; [|done]. destruct Hc as [Es Ea].
  assert (good c) as G.
  { pose proof (r_conn _ _ _ R p) as Hr. rewrite E in Hr. unfold conn_rel in Hr. case_match; by destruct Hr. }
  unfold connectDestroyed. rewrite (bind_ok _ _ _ _ _ (conn_ok p c s E)), decide_False by congruence.
  unfold mbind at 1, M_bind at 1, mret, M_ret. rewrite (bind_ok _ _ _ _ _ (conn_ok p c s E)).
  unfold mbind, M_bind, lift, remove, isNoneEvent. rewrite (g_closed _ G Es). cbn [Z.eqb kNoneEvent].
  exists (set_heap (<[p := out_of_loop c]> (heap s)) s).
  split; [unfold put, modify, out_of_loop; by rewrite (g_closed _ G Es)|].
  destruct I as [Im Io In Ix If Is Id].
  assert (forall q, q <> p -> heap (set_heap (<[p := out_of_loop c]> (heap s)) s) !! q = heap s !! q) as Hq
    by (intros q Hq; cbn; by rewrite lookup_insert_ne).
  assert (heap (set_heap (<[p := out_of_loop c]> (heap s)) s) !! p = Some (out_of_loop c)) as Hp
    by (cbn; by rewrite lookup_insert_eq).
  split; [split|..]; try done.
  - intros n q (cq & Ecq & ? & O)%Im. exists cq. rewrite Hq; [done|]. intros ->.
    rewrite E in Ecq. injection Ecq as <-. by destruct (open_not_closed _ O).
  - intros q cq Ecq O. destruct (decide (q = p)) as [->|Hqp]; [|rewrite Hq in Ecq by done; by apply Io].
    rewrite Hp in Ecq. injection Ecq as <-. by destruct (open_not_closed _ O).
  - intros f Hf. destruct (decide (functor_conn f = p)) as [->|Hfp]; [by rewrite Hp|]. rewrite Hq by done.
    apply If. by right.
  - intros q cq Ecq. destruct (decide (q = p)) as [->|Hqp]; [|rewrite Hq in Ecq by done; by eapply Is].
    rewrite Hp in Ecq. injection Ecq as <-. cbn. congruence.
  - intros q cq Ecq. destruct (decide (q = p)) as [->|Hqp].
    + rewrite Hp in Ecq. injection Ecq as <-. rewrite decide_False by (by intros []).
      unfold destroys. cbn. cbn in Hd. lia.
    + rewrite Hq in Ecq by done. pose proof (Id q cq Ecq) as Hdq. cbn [app] in Hdq. unfold destroys in Hdq.
      rewrite filter_cons_False in Hdq by congruence. exact Hdq.
  - destruct R as [Ru Ra Rc]. split; [done|done|]. intros q. destruct (decide (q = p)) as [->|Hqp].
    + rewrite Hp. specialize (Rc p). rewrite E in Rc.
      assert (good (out_of_loop c)) as G'.
      { destruct G. split; try done. intros O. by destruct (open_not_closed _ O). }
      unfold conn_rel in *. case_match; [|done]. by destruct Rc as (_ & ? & ? & ?).
    + rewrite Hq by done. apply Rc.
  - constructor.
  - apply others_put.
Qed.

Lemma notice_ok todo f cb s a : inv (f :: todo) s -> rel s a -> (forall p, f <> ConnectDestroyed p) ->
  peer_enabled (PNotice cb) a ->
  exists s' a', run_callback react cb s = Ok (tt, s') /\ after todo 0 s a s' a'.
Proof.
  intros I R Hf He. apply inv_drop in I; [|exact Hf].
  destruct (run_callback_ok react lossless cb s a Hpolite R) as (s' & E' & R' & T); [by destruct cb|].
  exists s', (peer_step react (PNotice cb) a). split; [done|].
  split; [by eapply inv_touch|done|by apply peers_reach_one|by apply others_touch|by apply T].
Qed.

Lemma functors_ok todo s a : inv todo s -> rel s a ->
  exists s' a', for_each (runFunctor react removal) todo s = Ok (tt, s')
    /\ inv [] s' /\ rel s' a' /\ peers_reach react a a'.
Proof.
  revert s a. induction todo as [|f todo IH]; intros s a I R; [exists s, a; do 3 (split; [done|]); apply peers_refl|].
  assert (exists p s1 a1, runFunctor react removal f s = Ok (tt, s1) /\ after todo p s a s1 a1) as (p & s1 & a1 & E1 & F1).
  { destruct f as [p|p|p|p n]; cbn [runFunctor].
    - exists p. by apply forceCloseInLoop_ok.
    - destruct (connectDestroyed_ok todo p s a I R) as (s1 & ? & ?). by exists p, s1, a.
    - exists 0. by eapply notice_ok.
    - exists 0. by eapply notice_ok. }
  destruct F1 as [I1 R1 P1 _ _]. destruct (IH s1 a1 I1 R1) as (s2 & a2 & E2 & I2 & R2 & P2).
  exists s2, a2. simpl. rewrite (bind_ok _ _ _ _ _ E1). split; [done|]. split; [done|]. split; [done|].
  by eapply peers_reach_trans.
Qed.

(** ** A turn of the loop *)

(** What an entry of the poll's result needs when its time comes. *)
Definition ready (s : Net) (x : active) : Prop :=
  match x with
  | Accept p _ => heap s !! p = None
  | AcceptError => True
  | Ready p r _ => revents_ok r /\ exists c, heap s !! p = Some c /\ c_open c
  end.

Lemma ready_later p x s s' : others p s s' -> p ∉ active_conn x -> ready s x -> ready s' x.
Proof.
  intros O Hp. destruct x as [q fd| |q r i]; cbn [ready]; [|done|];
    (assert (q <> p) as Hq by (intros ->; apply Hp; by left); specialize (O q Hq)).
  - intros E. rewrite E in O. by destruct (heap s' !! q).
  - intros [? (c & E & Oc)]. split; [done|]. rewrite E in O.
    destruct (heap s' !! q) as [c'|]; [|done]. exists c'. auto.
Qed.

Lemma active_ready s a x : rel s a -> active_ok s x -> ready s x.
Proof.
  intros R. destruct x as [q fd| |q r i]; cbn; [done|done|]. intros [? Hc]. split; [done|].
  destruct (heap s !! q) as [c|] eqn:E; [|done]. destruct Hc as [_ Ne]. exists c. split; [done|]. pose proof (r_conn _ _ _ R q) as Hr. rewrite E in Hr.
  assert (good c) as G by (unfold conn_rel in Hr; case_match; by destruct Hr).
  destruct (open_cases c (g_state _ G)) as [|Ed]; [done|]. by rewrite (g_closed _ G Ed) in Ne.
Qed.

Lemma batch_ok l s a : inv [] s -> rel s a -> NoDup (l ≫= active_conn) -> Forall (ready s) l ->
  nextConnId_ s + Z.of_nat (length l) <= INT_MAX ->
  exists s' a', for_each (handle_active react name_ ipPort_ complete) l s = Ok (tt, s')
    /\ inv [] s' /\ rel s' a' /\ peers_reach react a a'.
Proof.
  revert s a. induction l as [|x l IH]; intros s a I R Nd Fl Hn; [exists s, a; do 3 (split; [done|]); apply peers_refl|].
  apply Forall_cons in Fl as [Hx Fl]. cbn [mbind list_bind] in Nd. apply NoDup_app in Nd as (_ & Nx & Nd).
  simpl length in Hn. rewrite Nat2Z.inj_succ in Hn.
  assert (exists s1 a1, handle_active react name_ ipPort_ complete x s = Ok (tt, s1) /\ inv [] s1 /\ rel s1 a1
    /\ peers_reach react a a1 /\ Forall (ready s1) l /\ nextConnId_ s1 <= nextConnId_ s + 1)
    as (s1 & a1 & E1 & I1 & R1 & P1 & F1 & N1).
  { assert (forall p s1, others p s s1 -> p ∈ active_conn x -> Forall (ready s1) l) as Later.
    { intros p s1 O Hp. rewrite Forall_forall in Fl |- *. intros y Hy.
      apply (ready_later p y s s1 O); [|by apply Fl]. intros Hpy. apply (Nx p Hp).
      apply list_elem_of_bind. by exists y. }
    destruct x as [p fd| |p r i]; cbn [handle_active].
    - destruct (newConnection_ok [] p fd s a I R Hx) as (s1 & a1 & E1 & I1 & R1 & P1 & O1 & N1); [lia|].
      exists s1, a1. do 4 (split; [done|]). split; [|lia]. by eapply Later; [|left].
    - exists s, a. do 3 (split; [done|]). split; [constructor|]. split; [done|lia].
    - destruct Hx as [Hr (c & E & O)].
      destruct (handleEvent_ok [] p c s a r i I R E O Hr) as (s1 & a1 & E1 & [I1 R1 P1 O1 N1]).
      exists s1, a1. do 4 (split; [done|]). split; [|lia]. by eapply Later; [|left]. }
  destruct (IH s1 a1 I1 R1 Nd F1) as (s2 & a2 & E2 & I2 & R2 & P2); [lia|].
  exists s2, a2. simpl. rewrite (bind_ok _ _ _ _ _ E1). split; [done|]. split; [done|]. split; [done|].
  by eapply peers_reach_trans.
Qed.

Lemma turn_ok l s a : inv [] s -> rel s a -> loop_enabled (Turn l) s ->
  exists s' a', turn react name_ ipPort_ complete l s = Ok (tt, s')
    /\ inv [] s' /\ rel s' a' /\ peers_reach react a a'.
Proof.
  intros I R (Nd & Fl & Hn). destruct (batch_ok l s a I R Nd) as (s1 & a1 & E1 & I1 & R1 & P1); [|done|].
  { eapply Forall_impl; [exact Fl|]. intros x. by apply active_ready with a. }
  unfold turn. rewrite (bind_ok _ _ _ _ _ E1). unfold doPendingFunctors.
  unfold mbind at 1, M_bind at 1, gets. unfold mbind at 1, M_bind at 1, modify.
  destruct (functors_ok (pendingFunctors_ s1) (set_pendingFunctors [] s1) a1) as (s2 & a2 & E2 & I2 & R2 & P2).
  - destruct I1 as [Im Io In Ix If Is Id]. split; try done; cbn; rewrite app_nil_r.
    + exact If.
    + exact Id.
  - by destruct R1.
  - exists s2, a2. split; [done|]. split; [done|]. split; [done|]. by eapply peers_reach_trans.
Qed.

(** The end of an object that nothing refers to. *)
Lemma release_ok p s a : inv [] s -> rel s a -> all_open a -> loop_enabled (Release p) s ->
  exists s', release p s = Ok (tt, s') /\ inv [] s' /\ rel s' a.
Proof.
  intros I R A [[c E] [Nm Np]]. destruct I as [Im Io In Ix If Is Id]. cbn [app] in *.
  assert (c_state c = kDisconnected) as Es.
  { destruct (open_cases c (Is p c E)) as [O|]; [|done]. by destruct (Nm (c_name c) p (Io p c E O)). }
  assert (addedToLoop_ (channel_ c) = false) as Ea.
  { specialize (Id p c E). rewrite destroys_none in Id.
    - case_decide as Hd; [done|]. apply not_true_is_false. tauto.
    - intros f Hf ->. apply Np. apply list_elem_of_fmap. by exists (ConnectDestroyed p). }
  unfold release. rewrite (bind_ok _ _ _ _ _ (conn_ok p c s E)), decide_True by done.
  eexists. split; [done|].
  assert (forall q, q <> p -> delete p (heap s) !! q = heap s !! q) as Hq by (intros q Hq; by rewrite lookup_delete_ne).
  split; [split; cbn; try done|].
  - intros n q Eq. destruct (Im n q Eq) as (cq & Ecq & ?). exists cq. rewrite Hq; [done|].
    intros ->. by apply (Nm n p Eq).
  - intros q cq [_ Ecq]%lookup_delete_Some. by apply Io.
  - intros f Hf. rewrite Hq; [by apply If|]. intros <-. apply Np. apply list_elem_of_fmap. by exists f.
  - intros q cq [_ Ecq]%lookup_delete_Some. by eapply Is.
  - intros q cq [_ Ecq]%lookup_delete_Some. by apply Id.
  - destruct R as [Ru Ra Rc]. split; [done|done|]. intros q. cbn. destruct (decide (q = p)) as [->|Hqp].
    + rewrite lookup_delete_eq. specialize (Rc p). rewrite E in Rc. unfold conn_rel in *.
      destruct (a_conns a !! p) as [x|] eqn:Ex; [|done]. destruct Rc as (_ & Ex' & _).
      destruct (A p x Ex); congruence.
    + rewrite Hq by done. apply Rc.
Qed.
End server.

(** ** Every run *)

Section runs.
Context {U : Type} (react : callback -> U -> reaction U).
Context (name_ ipPort_ : bytes) (complete : bool).

(** Nobody connected. *)
Definition no_peers (u : U) : Peers (U := U) := {| a_conns := ∅; a_input := ∅; a_user := u |}.

Lemma run_ok (ans : list write_result) u s : polite react -> len ipPort_ <= 50 ->
  net_reach react name_ ipPort_ complete (net_start ans u) s ->
  exists a, inv name_ ipPort_ [] s /\ rel (Forall (fun r => fatal r = false) ans) s a
    /\ peers_reach react (no_peers u) a.
Proof.
  intros Po Ip. induction 1 as [|s e s' _ IH En E].
  - exists (no_peers u). split; [|split; [|apply peers_refl]].
    + split; cbn; try (intros ? ?; rewrite ?lookup_empty; done).
      * intros n [? Hn]. by rewrite lookup_empty in Hn.
      * unfold INT_MAX. lia.
      * intros f Hf. by apply elem_of_nil in Hf.
    + split; [done|done|]. intros p. cbn. by rewrite !lookup_empty.
  - destruct IH as (a & I & R & P). destruct e as [l|p].
    + destruct (turn_ok react name_ ipPort_ complete _ Po Ip l s a I R En) as (s1 & a1 & E1 & I1 & R1 & P1).
      cbn [loop_step] in E. rewrite E in E1. injection E1 as <-. exists a1. split; [done|]. split; [done|].
      by eapply peers_reach_trans.
    + destruct (release_ok name_ ipPort_ _ p s a I R) as (s1 & E1 & I1 & R1); [|done|].
      { eapply peers_reach_open; [exact P|]. intros q x. cbn. by rewrite lookup_empty. }
      cbn [loop_step] in E. rewrite E in E1. injection E1 as <-. by exists a.
Qed.


(** What a run of the loop is to its user. *)
Lemma loop_view ans u s : polite react -> len ipPort_ <= 50 ->
  net_reach react name_ ipPort_ complete (net_start ans u) s ->
  exists a, peers_reach react (no_peers u) a /\ a_user a = user s
    /\ forall p, match a_conns a !! p with
         | Some x => exists c, heap s !! p = Some c /\ c_open c /\ state_ x = c_state c
             /\ connections_ s !! c_name c = Some p
             /\ a_input a !! p = Some (content (inputBuffer_ c))
             /\ (wire c ++ content (outputBuffer_ c)) `sublist_of` sent x
             /\ (Forall (fun r => fatal r = false) ans -> wire c ++ content (outputBuffer_ c) = sent x)
         | None => forall c, heap s !! p = Some c -> c_state c = kDisconnected
         end.
Proof.
  intros Po Ip R. destruct (run_ok ans u s Po Ip R) as (a & I & [Ru Ra Rc] & P).
  exists a. split; [done|]. split; [done|]. intros p. specialize (Rc p). unfold conn_rel in Rc.
  assert (all_open a) as A.
  { eapply peers_reach_open; [exact P|]. intros q x. cbn. by rewrite lookup_empty. }
  destruct (a_conns a !! p) as [x|] eqn:Ex.
  - destruct (heap s !! p) as [c|] eqn:Ec; [|done]. destruct Rc as (G & Es & [R1 R2] & Ei).
    assert (c_open c) as O by (unfold c_open; rewrite Es; exact (A p x Ex)).
    exists c. do 3 (split; [done|]). split; [by apply (i_open _ _ _ _ I)|]. done.
  - intros c Ec. rewrite Ec in Rc. by destruct Rc.
Qed.

(** C5: The library refines the events its users are written against: every run of the loop looks to
    the user like a sequence of connections that come up, deliver their bytes in order, and go
    down once, with each callback made in the same order on the same data. An open connection of
    the library is an open one of the user's view, in the server's map under its name; what the
    kernel got and what waits in the output buffer together are the bytes the user sent, in
    order, unless the kernel reported that the peer is gone. *)
Theorem loop_refines_events ans u s : polite react -> len ipPort_ <= 50 ->
  net_reach react name_ ipPort_ complete (net_start ans u) s ->
  exists a, peers_reach react (no_peers u) a /\ a_user a = user s
    /\ forall p, match a_conns a !! p with
         | Some x => exists c, heap s !! p = Some c /\ c_open c /\ state_ x = c_state c
             /\ connections_ s !! c_name c = Some p
             /\ a_input a !! p = Some (content (inputBuffer_ c))
             /\ (wire c ++ content (outputBuffer_ c)) `sublist_of` sent x
             /\ (Forall (fun r => fatal r = false) ans -> wire c ++ content (outputBuffer_ c) = sent x)
         | None => forall c, heap s !! p = Some c -> c_state c = kDisconnected
         end.
Proof. apply loop_view. Qed.

Lemma drained_idle (c : TcpConnection) : good c -> c_open c ->
  isWriting (channel_ c) = false <-> content (outputBuffer_ c) = [].
Proof.
  intros G O. rewrite (g_writing _ G O), bool_decide_eq_false. split; [|tauto].
  intros Hn. destruct (content (outputBuffer_ c)); [done|by destruct Hn].
Qed.

Lemma flush_idle (ns : list nat) p c (s : Net (U := U)) : heap s !! p = Some c -> isWriting (channel_ c) = false ->
  for_each (fun _ => handleWrite p) ns s = Ok (tt, s).
Proof.
  intros E Ew. induction ns as [|n ns IH]; [done|]. simpl.
  assert (handleWrite p s = Ok (tt, s)) as Eh
    by (unfold handleWrite; by rewrite (bind_ok _ _ _ _ _ (conn_ok p c s E)), Ew).
  by rewrite (bind_ok _ _ _ _ _ Eh).
Qed.

(** Write events until the output is gone. *)
Lemma flush (ns : list nat) p : forall c (s : Net (U := U)), heap s !! p = Some c -> good c -> c_open c ->
  answers s = Wrote <$> ns -> Forall (fun n => (0 < n)%nat) ns -> (length (content (outputBuffer_ c)) <= length ns)%nat ->
  exists s' c', for_each (fun _ => handleWrite p) ns s = Ok (tt, s') /\ heap s' !! p = Some c' /\ good c'
    /\ c_state c' = c_state c /\ wire c' = wire c ++ content (outputBuffer_ c) /\ content (outputBuffer_ c') = []
    /\ (content (outputBuffer_ c) <> [] -> c_state c = kDisconnecting -> shut c' = true).
Proof.
  induction ns as [|n ns IH]; intros c s E G O Ea Fn Hl.
  - exists s, c. destruct (content (outputBuffer_ c)) eqn:Eo; [|simpl in Hl; lia].
    rewrite app_nil_r. by split.
  - apply Forall_cons in Fn as [Hn Fn]. destruct (isWriting (channel_ c)) eqn:Ew.
    + destruct (handleWrite_open p c s E G O Ew) as (s1 & c1 & E1 & [A1 G1 S1 T1 St1 Rs1 An1 Sh1]).
      rewrite Ea in Rs1, An1. cbn in Rs1, An1. unfold stream in St1. pose proof (acts_lookup _ _ _ _ A1) as H1.
      assert (c_open c1) as O1 by (unfold c_open; by rewrite T1).
      destruct (IH c1 s1 H1 G1 O1 An1 Fn) as (s2 & c2 & E2 & H2 & G2 & T2 & W2 & C2 & Sh2).
      { rewrite Rs1, length_drop. simpl in Hl. lia. }
      exists s2, c2. simpl. rewrite (bind_ok _ _ _ _ _ E1). do 3 (split; [done|]). split; [congruence|].
      split; [congruence|]. split; [done|]. intros _ Ed.
      destruct (decide (content (outputBuffer_ c1) = [])) as [Em|Em]; [|apply Sh2; [done|congruence]].
      (* nothing more is written to a connection that was shut down *)
      rewrite (flush_idle ns p c1 s1 H1) in E2 by (by apply drained_idle). injection E2 as <-.
      rewrite H1 in H2. injection H2 as <-. by apply Sh1.
    + exists s, c. rewrite (flush_idle _ p c s E Ew). apply drained_idle in Ew as Eo; [|done..].
      rewrite Eo, app_nil_r. by split.
Qed.

(** C34: Output is not forgotten: in every run, the loop watches for room in the socket exactly as
    long as an open connection has output; as often as it then reports room and the kernel takes
    something, the output gets smaller, until all of it is on the wire. A connection that was
    shut down meanwhile is then shut down for writing, after its last byte. *)
Theorem output_gets_out ans u s p c ns : polite react -> len ipPort_ <= 50 ->
  net_reach react name_ ipPort_ complete (net_start ans u) s ->
  heap s !! p = Some c -> c_open c ->
  Forall (fun n => (0 < n)%nat) ns -> (length (content (outputBuffer_ c)) <= length ns)%nat ->
  isWriting (channel_ c) = bool_decide (content (outputBuffer_ c) <> [])
  /\ exists s' c', for_each (fun _ => handleWrite p) ns (set_answers (Wrote <$> ns) s) = Ok (tt, s')
       /\ heap s' !! p = Some c' /\ wire c' = wire c ++ content (outputBuffer_ c)
       /\ content (outputBuffer_ c') = [] /\ isWriting (channel_ c') = false
       /\ (content (outputBuffer_ c) <> [] -> c_state c = kDisconnecting -> shut c' = true).
Proof.
  intros Po Ip R E O Fn Hl. destruct (run_ok ans u s Po Ip R) as (a & I & Rl & P).
  destruct (rel_open _ s a p c Rl E O) as (_ & _ & G & _). split; [by apply (g_writing _ G)|].
  destruct (flush ns p c (set_answers (Wrote <$> ns) s) E G O eq_refl Fn Hl) as (s' & c' & E' & H' & G' & T' & W' & C' & S').
  exists s', c'. do 4 (split; [done|]). split; [|done].
  apply drained_idle; [done| |done]. unfold c_open. by rewrite T'.
Qed.
End runs.

(** ** At work *)

(** A user that sends back what it gets, and closes a connection that sends "bye". *)
Definition echo (cb : callback) (n : nat) : reaction nat :=
  match cb with
  | CbMessage p d => {| calls := CallSend p d :: (if decide (d = bs "bye") then [CallForceClose p] else []);
                        consumed := length d; next := (n + length d)%nat |}
  | _ => {| calls := []; consumed := 0; next := n |}
  end.

Lemma echo_polite : polite echo.
Proof.
  split.
  - intros [p up|p d|p|p n] u; cbn; repeat constructor. case_decide; repeat constructor.
  - done.
Qed.

(** Two bytes are taken at once, and then room for one. *)
Definition echo_start : Net := net_start [Wrote 2; WriteError EWOULDBLOCK; Wrote 1] 0%nat.
Definition echo_run (es : list loop_event) : option Net :=
  net_run echo (bs "echo") (bs "0.0.0.0:9527") false es echo_start.

(** A client connects, sends five bytes and takes them back in three pieces. *)
Definition echo_turns : list loop_event :=
  [Turn [Accept 1 7]; Turn [Ready 1 POLLIN (Some (bs "abcde"))]; Turn [Ready 1 POLLOUT None];
   Turn [Ready 1 POLLOUT None]].

Example echo_output : (fun s => (fun c => (wire c, content (outputBuffer_ c))) <$> heap s !! 1) <$> echo_run echo_turns
  = Some (Some (bs "abc", bs "de")).
Proof. vm_compute. reflexivity. Qed.

(** And it is closed from both sides: by the server, then by the peer in the same turn. *)
Definition bye_turns : list loop_event :=
  echo_turns ++ [Turn [Ready 1 POLLIN (Some (bs "bye"))]; Turn []; Release 1].


Lemma loop_refines_events_witness : exists a, peers_reach echo (no_peers 0%nat) a
  /\ exists x, a_conns a !! 1 = Some x /\ bs "abcde" `suffix_of` sent x.
Proof.
  destruct (loop_refines_events echo (bs "echo") (bs "0.0.0.0:9527") false (answers echo_start) 0%nat
    (default echo_start (echo_run echo_turns))) as (a & P & _ & H).
  - apply echo_polite.
  - by apply (bool_decide_unpack _); vm_compute.
  - eapply (net_run_reach _ _ _ _ echo_turns _ echo_start); [apply net_refl|vm_compute; reflexivity].
  - exists a. split; [exact P|]. specialize (H 1). destruct (a_conns a !! 1) as [x|].
    + destruct H as (c & Ec & _ & _ & _ & _ & _ & Hl). exists x. split; [reflexivity|].
      rewrite <- Hl by (repeat constructor). vm_compute in Ec. injection Ec as <-. by exists [].
    + exfalso. assert (c_state (default (TcpConnection_new [] 0) (heap (default echo_start (echo_run echo_turns)) !! 1))
        = kDisconnected) as Hd by (apply H; vm_compute; reflexivity). vm_compute in Hd. discriminate.
Defined.

Lemma output_gets_out_witness : exists s' c',
  for_each (fun _ => handleWrite 1) [1%nat; 2%nat] (set_answers (Wrote <$> [1%nat; 2%nat]) (default echo_start (echo_run echo_turns)))
    = Ok (tt, s') /\ heap s' !! 1 = Some c' /\ wire c' = bs "abcde".
Proof.
  destruct (output_gets_out echo (bs "echo") (bs "0.0.0.0:9527") false (answers echo_start) 0%nat
    (default echo_start (echo_run echo_turns)) 1
    (default (TcpConnection_new [] 0) (heap (default echo_start (echo_run echo_turns)) !! 1)) [1%nat; 2%nat])
    as (_ & s' & c' & E & Ec & W & _).
  - apply echo_polite.
  - by apply (bool_decide_unpack _); vm_compute.
  - eapply (net_run_reach _ _ _ _ echo_turns _ echo_start); [apply net_refl|vm_compute; reflexivity].
  - vm_compute. reflexivity.
  - left. vm_compute. reflexivity.
  - repeat constructor.
  - apply (bool_decide_unpack _). vm_compute. exact I.
  - exists s', c'. split; [exact E|]. split; [exact Ec|]. rewrite W. vm_compute. reflexivity.
Defined.

(** A user that starts reading when its connection goes down: the channel is watched again, and
    the next turn asserts that it is not. *)
Definition restart (cb : callback) (n : nat) : reaction nat :=
  {| calls := match cb with CbConnection p false => [CallStartRead p] | _ => [] end;
     consumed := 0; next := n |}.

Example startRead_after_close :
  for_each (loop_step restart (bs "s") (bs "0.0.0.0:80") false)
    [Turn [Accept 1 7]; Turn [Ready 1 POLLIN (Some [])]] (net_start [] 0%nat) = Undef AssertFailed.
Proof. vm_compute. reflexivity. Qed.
