(* ===== verification/Hosted.v ===== *)
(** * Servers on the network library

    A server that is written as a machine on connection events, as the chat and the file server
    are, is a user of the network library: its callbacks feed it the events, and what it did to
    the connections becomes calls of the library. So all that is proved of the machine holds of
    the program that runs on the loop. *)

From S2P Require Import Prelude Bytes Buffer.
From S2P Require Import Conn TcpConnection TcpServer TcpProofs TcpRefinement.

(** The machine: what it thinks of its connections and their input buffers, and its events. *)
Class Hosted (S : Type) := {
  its_conns : S -> gmap Z Conn;
  its_inputs : S -> gmap Z Buffer;
  comes_up : Z -> S -> outcome S;
  gets_input : Z -> bytes -> S -> outcome S;
  goes_down : Z -> S -> outcome S;
}.

Definition conn_new : Conn := {| state_ := kConnected; sent := [] |}.

(** An invariant, and what the events do to connections and buffers. *)
Class HostedSpec (S : Type) `{Hosted S} := {
  its_ok : S -> Prop;
  comes_up_ok : forall p s s', its_ok s -> 0 <= p < 2 ^ 64 -> its_conns s !! p = None -> comes_up p s = Ok s' ->
    its_ok s' /\ its_conns s' = <[p := conn_new]> (its_conns s)
    /\ exists b, content b = [] /\ its_inputs s' = <[p := b]> (its_inputs s);
  gets_input_ok : forall p d s s' c, its_ok s -> d <> [] -> its_conns s !! p = Some c -> is_open c ->
    gets_input p d s = Ok s' ->
    its_ok s' /\ conns_grow (its_conns s) (its_conns s')
    /\ exists b b', its_inputs s !! p = Some b /\ its_inputs s' = <[p := b']> (its_inputs s)
         /\ content b' `suffix_of` content b ++ d;
  goes_down_ok : forall p s s' c, its_ok s -> its_conns s !! p = Some c -> is_open c -> goes_down p s = Ok s' ->
    its_ok s' /\ its_conns s' = delete p (its_conns s) /\ its_inputs s' = delete p (its_inputs s);
}.

(** ** What changed, as calls *)

Definition conn_diff (p : Z) (x y : Conn) : list call :=
  (if decide (sent y = sent x) then [] else [CallSend p (drop (length (sent x)) (sent y))])
  ++ (if decide (state_ y = state_ x) then [] else [CallForceClose p]).

Definition conn_calls (m m' : gmap Z Conn) : list call :=
  map_to_list m ≫= fun px => match m' !! px.1 with Some y => conn_diff px.1 px.2 y | None => [] end.

Section hosted.
Context {S : Type} `{HostedSpec S}.

Abbreviation Peers := (Peers (U := outcome S)).

(** ** The user

    Its state is the machine's, or how the process ended, after which nothing happens. *)
Definition held (p : Z) (s : S) : nat := match its_inputs s !! p with Some b => length (content b) | None => 0 end.

Definition silent {U} (u : U) : reaction U := {| calls := []; consumed := 0; next := u |}.

Definition hosted_react (cb : callback) (u : outcome S) : reaction (outcome S) :=
  match u with
  | Ok s =>
      match cb with
      | CbConnection p true =>
          (* an object's address is a machine word *)
          silent (if decide (0 <= p < 2 ^ 64) then comes_up p s else Undef OutOfBounds)
      | CbConnection p false => silent (goes_down p s)
      | CbMessage p readable =>
          match gets_input p (drop (held p s) readable) s with
          | Ok s' => {| calls := conn_calls (its_conns s) (its_conns s');
                        consumed := (length readable - held p s')%nat; next := Ok s' |}
          | e => silent e
          end
      | CbWriteComplete _ | CbHighWaterMark _ _ => silent u
      end
  | e => silent e
  end.

(** The machine's runs. *)
Inductive hosted_step : S -> S -> Prop :=
| host_up p s s' : 0 <= p < 2 ^ 64 -> its_conns s !! p = None -> comes_up p s = Ok s' -> hosted_step s s'
| host_input p d c s s' : d <> [] -> its_conns s !! p = Some c -> is_open c -> gets_input p d s = Ok s' -> hosted_step s s'
| host_down p c s s' : its_conns s !! p = Some c -> is_open c -> goes_down p s = Ok s' -> hosted_step s s'.

(** ** The calls make the change *)

Lemma perform_rest k (a : Peers) : a_input (a_perform a k) = a_input a /\ a_user (a_perform a k) = a_user a.
Proof. by destruct k. Qed.

Lemma performs_rest ks (a : Peers) : a_input (fold_left a_perform ks a) = a_input a /\ a_user (fold_left a_perform ks a) = a_user a.
Proof.
  revert a. induction ks as [|k ks IH]; intros a; [done|]. simpl. destruct (IH (a_perform a k)) as [-> ->]. apply perform_rest.
Qed.

Lemma diff_made p x y (a : Peers) : conn_grows x y -> a_conns a !! p = Some x ->
  a_conns (fold_left a_perform (conn_diff p x y) a) = <[p := y]> (a_conns a).
Proof.
  intros ((d & Ed) & Es & En) Ea. destruct x as [sx tx], y as [sy ty]. cbn in *. subst ty. unfold conn_diff. cbn [sent state_].
  rewrite drop_app_length.
  assert (forall f, alter f p (a_conns a) = <[p := f {| state_ := sx; sent := tx |}]> (a_conns a)) as Al
    by (intros f; by apply alter_some).
  destruct (decide (tx ++ d = tx)) as [E1|E1].
  - assert (d = []) as -> by (by apply (app_inv_head tx); rewrite app_nil_r). rewrite !app_nil_r in *.
    case_decide as E2; cbn [app fold_left].
    + cbn. rewrite E2. by rewrite insert_id.
    + destruct Es as [?|[-> ->]]; [done|]. cbn. rewrite Al. done.
  - assert (sx = kConnected) as -> by (destruct (decide (sx = kConnected)); [done|by destruct E1; apply En]).
    cbn [app fold_left]. case_decide as E2; cbn; rewrite Al; cbn.
    + by subst.
    + destruct Es as [?|[_ ->]]; [done|]. rewrite (alter_some _ _ _ {| state_ := kConnected; sent := tx ++ d |}) by apply lookup_insert_eq.
      by rewrite insert_insert_eq.
Qed.

Lemma calls_made m m' (a : Peers) : conns_grow m m' -> a_conns a = m -> a_conns (fold_left a_perform (conn_calls m m') a) = m'.
Proof.
  intros G Ea. unfold conn_calls.
  assert (forall l (b : Peers), NoDup l.*1 -> (forall p x, (p, x) ∈ l -> m !! p = Some x) ->
    (forall q, a_conns b !! q = if decide (q ∈ l.*1) then m !! q else m' !! q) ->
    a_conns (fold_left a_perform (l ≫= fun px => match m' !! px.1 with Some y => conn_diff px.1 px.2 y | None => [] end) b) = m') as L.
  { induction l as [|[p x] l IH]; intros b N Hl Hb.
    - apply map_eq. intros q. by rewrite Hb.
    - rewrite fmap_cons in N. apply NoDup_cons in N as [Np N]. cbn [fst] in Np.
      change (((p, x) :: l) ≫= ?f) with (f (p, x) ++ (l ≫= f)). rewrite fold_left_app. cbn [fst snd].
      pose proof (Hl p x ltac:(by left)) as Ex. pose proof (G p) as Gp. rewrite Ex in Gp.
      destruct (m' !! p) as [y|] eqn:Ey; [|done].
      assert (a_conns b !! p = Some x) as Eb by (rewrite Hb, decide_True; [done|by left]).
      apply IH; [done|intros q z Hz; apply Hl; by right|]. intros q. rewrite (diff_made p x y b Gp Eb).
      destruct (decide (p = q)) as [<-|Nq].
      + rewrite lookup_insert_eq, decide_False by done. by rewrite Ey.
      + rewrite lookup_insert_ne, Hb by done. cbn [fmap list_fmap fst]. apply decide_ext. rewrite elem_of_cons. naive_solver. }
  apply L; [apply NoDup_fst_map_to_list|intros p x; apply elem_of_map_to_list|].
  intros q. rewrite Ea. case_decide as Hq; [done|].
  assert (m !! q = None) as Em.
  { destruct (m !! q) as [x|] eqn:E; [|done]. destruct Hq. apply list_elem_of_fmap. exists (q, x). by rewrite elem_of_map_to_list. }
  specialize (G q). rewrite Em in *. by destruct (m' !! q).
Qed.

(** ** The simulation *)

Definition hosted_rel (a : Peers) (s : S) : Prop :=
  its_ok s /\ a_conns a = its_conns s /\ forall p, a_input a !! p = content <$> its_inputs s !! p.

(** The user's view runs the machine. *)
Lemma a_callback_user cb (a : Peers) :
  a_user (a_callback hosted_react cb a) = next (hosted_react cb (a_user a))
  /\ a_conns (a_callback hosted_react cb a) = a_conns (fold_left a_perform (calls (hosted_react cb (a_user a))) a)
  /\ a_input (a_callback hosted_react cb a)
     = match cb with CbMessage p _ => alter (drop (consumed (hosted_react cb (a_user a)))) p (a_input a) | _ => a_input a end.
Proof.
  unfold a_callback. set (r := hosted_react cb (a_user a)). cbn [a_user a_conns a_input].
  assert (forall ks (a1 a2 : Peers), a_conns a1 = a_conns a2 -> a_conns (fold_left a_perform ks a1) = a_conns (fold_left a_perform ks a2)) as Cg.
  { induction ks as [|k ks IH]; intros a1 a2 E; [done|]. apply IH. destruct k; cbn; by rewrite ?E. }
  split; [done|]. destruct cb as [p up|p d|p|p n]; (split; [by apply Cg|]); rewrite (proj1 (performs_rest _ _)); done.
Qed.

Ltac view Eu :=
  match goal with |- context [a_callback hosted_react ?cb ?b] =>
    let U1 := fresh "U1" in let U2 := fresh "U2" in let U3 := fresh "U3" in
    pose proof (a_callback_user cb b) as (U1 & U2 & U3); revert U1 U2 U3; generalize (a_callback hosted_react cb b);
    intros ? U1 U2 U3; cbn [a_user a_conns a_input set_a_conns] in U1, U2, U3; rewrite Eu in U1, U2; try rewrite Eu in U3;
    cbn [hosted_react] in U1, U2, U3
  end.

Lemma sim_up p a s s' : hosted_rel a s -> a_user a = Ok s -> a_conns a !! p = None ->
  a_user (peer_step hosted_react (PConnect p) a) = Ok s' -> hosted_rel (peer_step hosted_react (PConnect p) a) s' /\ hosted_step s s'.
Proof.
  intros (O & Ec & Ei) Eu En. cbn [peer_step].
  view Eu. cbn [a_user]. rewrite U1. cbn. case_decide as Hp; [|done]. intros E.
  rewrite Ec in En. destruct (comes_up_ok p s s' O Hp En E) as (O' & C' & b & Cb & I').
  split; [|by eapply host_up]. split; [done|]. rewrite U2, U3. cbn. rewrite C', I', Ec. split; [done|].
  intros q. destruct (decide (p = q)) as [<-|Nq].
  - rewrite !lookup_insert_eq. cbn. by rewrite Cb.
  - by rewrite !lookup_insert_ne.
Qed.

Lemma sim_down p a s s' c : hosted_rel a s -> a_user a = Ok s -> a_conns a !! p = Some c -> is_open c ->
  a_user (peer_step hosted_react (PDisconnect p) a) = Ok s' ->
  hosted_rel (peer_step hosted_react (PDisconnect p) a) s' /\ hosted_step s s'.
Proof.
  intros (O & Ec & Ei) Eu En Op. cbn [peer_step].
  view Eu. cbn [a_user]. rewrite U1. cbn. intros E.
  rewrite Ec in En. destruct (goes_down_ok p s s' c O En Op E) as (O' & C' & I').
  split; [|by eapply host_down]. split; [done|]. cbn [a_conns a_input]. rewrite U2, U3. cbn. rewrite C', I', Ec. split.
  - apply map_eq. intros q. destruct (decide (p = q)) as [<-|Nq]; [by rewrite !lookup_delete_eq|].
    by rewrite !lookup_delete_ne, lookup_alter_ne.
  - intros q. destruct (decide (p = q)) as [<-|Nq]; [by rewrite !lookup_delete_eq|]. by rewrite !lookup_delete_ne.
Qed.

Lemma sim_input p d a s s' c : hosted_rel a s -> a_user a = Ok s -> d <> [] -> a_conns a !! p = Some c -> is_open c ->
  a_user (peer_step hosted_react (PReceive p d) a) = Ok s' ->
  hosted_rel (peer_step hosted_react (PReceive p d) a) s' /\ hosted_step s s'.
Proof.
  intros (O & Ec & Ei) Eu Hd En Op. cbn [peer_step]. rewrite Ei. set (q := default [] (content <$> its_inputs s !! p) ++ d).
  view Eu.
  assert (drop (held p s) q = d) as Eq.
  { unfold held, q. destruct (its_inputs s !! p); cbn; [apply drop_app_length|done]. }
  rewrite Eq in U1, U2, U3. cbn [a_user]. rewrite U1. destruct (gets_input p d s) as [s1| |] eqn:E; cbn [next silent]; [|done..]. intros [= <-].
  rewrite Ec in En. destruct (gets_input_ok p d s s1 c O Hd En Op E) as (O' & G & b & b' & Eb & I' & Sf).
  split; [|by eapply host_input]. split; [done|]. rewrite U2, U3.
  cbn [calls consumed]. split; [by apply calls_made|]. intros r. rewrite I'. unfold held. rewrite I', lookup_insert_eq.
  destruct (decide (p = r)) as [<-|Nr]; [|by rewrite lookup_alter_ne, !lookup_insert_ne].
  rewrite lookup_alter_eq, !lookup_insert_eq. cbn. f_equal. unfold q. rewrite Eb. cbn. destruct Sf as [k ->].
  rewrite length_app. replace (length k + length (content b') - length (content b'))%nat with (length k) by lia.
  apply drop_app_length.
Qed.

(** After its end the process does nothing. *)
Lemma sim_ended e (a : Peers) : (forall s, a_user a <> Ok s) -> forall s, a_user (peer_step hosted_react e a) <> Ok s.
Proof.
  intros N s. destruct e as [p|p d|p|cb]; cbn [peer_step a_user];
    match goal with |- context [a_callback hosted_react ?cb ?b] => destruct (a_callback_user cb b) as (-> & _ & _) end;
    cbn [a_user set_a_conns]; unfold hosted_react; destruct (a_user a) as [s1| |]; cbn [next silent]; try done; by destruct (N s1).
Qed.

Lemma sim_step e a s s' : hosted_rel a s -> a_user a = Ok s -> peer_enabled e a -> a_user (peer_step hosted_react e a) = Ok s' ->
  hosted_rel (peer_step hosted_react e a) s' /\ (s' = s \/ hosted_step s s').
Proof.
  intros R Eu En. destruct e as [p|p d|p|cb]; cbn [peer_enabled] in En.
  - intros E. destruct (sim_up p a s s' R Eu En E). auto.
  - destruct En as (Hd & c & Ec & Op). intros E. destruct (sim_input p d a s s' c R Eu Hd Ec Op E). auto.
  - destruct En as (c & Ec & Op). intros E. destruct (sim_down p a s s' c R Eu Ec Op E). auto.
  - cbn [peer_step]. destruct (a_callback_user cb a) as (U1 & U2 & U3). rewrite U1, Eu.
    destruct cb as [| |p|p n]; try done; cbn; intros [= <-]; (split; [|by left]); destruct R as (O & Ec & Ei);
      (split; [done|]); rewrite U2, U3, Eu; done.
Qed.

Lemma hosted_sim s0 a : its_ok s0 -> its_conns s0 = ∅ -> its_inputs s0 = ∅ ->
  peers_reach hosted_react {| a_conns := ∅; a_input := ∅; a_user := Ok s0 |} a ->
  forall s, a_user a = Ok s -> hosted_rel a s /\ rtc hosted_step s0 s.
Proof.
  intros O0 C0 I0. induction 1 as [|a e R IH En]; intros s Es.
  - cbn in Es. injection Es as <-. split; [|done]. split; [done|]. cbn. rewrite C0, I0. split; [done|]. intros p. by rewrite !lookup_empty.
  - destruct (a_user a) as [s1| |] eqn:Eu; [|exfalso; eapply sim_ended, Es; by rewrite Eu..].
    destruct (IH s1 eq_refl) as [R1 T1]. destruct (sim_step e a s1 s R1 Eu En Es) as [R2 [->|St]]; [done|].
    split; [done|]. by eapply rtc_r.
Qed.

(** The calls are sends and closes, and no more is taken than there is. *)
Lemma hosted_polite : polite hosted_react.
Proof.
  split.
  - intros cb u. unfold hosted_react. destruct u as [s| |]; [|constructor..]. destruct cb as [p [] |p d|p|p n]; try constructor.
    destruct (gets_input _ _ _); [|constructor..]. cbn. unfold conn_calls. apply Forall_bind, Forall_true. intros [q x]. cbn.
    destruct (its_conns a !! q); [|constructor]. unfold conn_diff. apply Forall_app. split; case_decide; repeat constructor.
  - intros p d u. unfold hosted_react. destruct u as [s| |]; [|cbn; lia..]. destruct (gets_input _ _ _); cbn; lia.
Qed.

(** So a run of the loop is a run of the machine, as long as the process lives, and its
    connections are the library's. *)
Lemma hosted_loop name_ ipPort_ complete ans s0 n s : its_ok s0 -> its_conns s0 = ∅ -> its_inputs s0 = ∅ ->
  len ipPort_ <= 50 -> net_reach hosted_react name_ ipPort_ complete (net_start ans (Ok s0)) n -> user n = Ok s ->
  rtc hosted_step s0 s
  /\ forall p, match its_conns s !! p with
       | Some x => exists c b, heap n !! p = Some c /\ its_inputs s !! p = Some b
           /\ c_open c /\ state_ x = c_state c /\ connections_ n !! c_name c = Some p
           /\ content (inputBuffer_ c) = content b
           /\ (wire c ++ content (outputBuffer_ c)) `sublist_of` sent x
           /\ (Forall (fun r => fatal r = false) ans -> wire c ++ content (outputBuffer_ c) = sent x)
       | None => forall c, heap n !! p = Some c -> c_state c = kDisconnected
       end.
Proof.
  intros O C0 I0 Ip R Es. destruct (loop_view _ _ _ _ _ _ _ hosted_polite Ip R) as (a & P & Eu & V).
  rewrite Es in Eu. destruct (hosted_sim s0 a O C0 I0 P s Eu) as [(_ & Ec & Ei) T]. split; [done|]. intros p.
  specialize (V p). rewrite Ec in V. destruct (its_conns s !! p) as [x|]; [|done].
  destruct V as (c & Eh & Op & Est & Ek & Ein & ? & ?). rewrite Ei in Ein.
  destruct (its_inputs s !! p) as [b|] eqn:Eb; [|done]. injection Ein as Ein.
  by exists c, b.
Qed.
End hosted.
