(* ===== verification/HttpServer.v ===== *)
(** * What the HTTP server answers

    Requests that come in any pieces, as a run of the machine of connection events the network
    library is proved to refine; and what happens to requests that are not right. *)

From stdpp Require Import sorting.
From S2P Require Import Prelude Bytes Text StdMap Buffer Conn Http HttpProofs TcpProofs.

(** ** Parsing what was written *)

Section text.
Context (r : HttpRequest) (ok : request_ok r).

Lemma method_of_string m : m <> kInvalid -> method_of (methodString m) = m.
Proof. by destruct m. Qed.

Lemma version_of_text v : v <> kUnknown -> version_of (version_text v) = v.
Proof. by destruct v. Qed.

Lemma set_target_ok r0 : query_ r0 = [] -> set_target (path_ r ++ query_ r) r0 = setQuery (query_ r) (setPath (path_ r) r0).
Proof.
  intros E0. unfold set_target. destruct ok as [_ _ Pa _ Qu _ _].
  assert (Forall (fun b => b <> QUESTION) (path_ r)) as P by (eapply Forall_impl; [exact Pa|]; naive_solver).
  destruct (query_ r) as [|b q] eqn:Eq.
  - rewrite app_nil_r, memchr_none by done. unfold setQuery, setPath. cbn. by rewrite E0.
  - destruct Qu as [|[= ->]]; [done|]. rewrite memchr_app by done. by rewrite take_app_length, drop_app_length.
Qed.

Lemma request_line_ok : processRequestLine (request_line r) HttpRequest_new
  = Ok (true, set_headers [] (setReceiveTime 0 r)).
Proof.
  pose proof ok as [Me Ve Pa Qu _ _ _]. unfold processRequestLine, request_line.
  change (methodString (method_ r) ++ [SP] ++ ?x) with (methodString (method_ r) ++ SP :: x).
  rewrite split_at_app by (destruct (method_ r); repeat constructor; done).
  unfold setMethod. rewrite assert_true by done. rewrite method_of_string by done. cbn [mbind outcome_bind].
  rewrite bool_decide_true by done. change ([SP] ++ ?x) with (SP :: x). rewrite split_at_app.
  - rewrite version_of_text, set_target_ok by done. by destruct r as [[] [] ? ? ? ?].
  - apply Forall_app. split; (eapply Forall_impl; [eassumption|]); naive_solver.
Qed.

Lemma request_line_cr : Forall (fun b => b <> CR) (request_line r).
Proof.
  pose proof ok as [Me Ve Pa Qu _ _ _]. unfold request_line. rewrite !Forall_app.
  split; [destruct (method_ r); repeat constructor; done|]. split; [repeat constructor; done|].
  split; [|split; [repeat constructor; done|destruct (version_ r); repeat constructor; done]].
  split; (eapply Forall_impl; [eassumption|]); naive_solver.
Qed.

Lemma headers_ok t hs r0 k : Forall (fun h => Forall (fun b => b <> COLON /\ b <> CR) h.1 /\ Forall (fun b => b <> CR) h.2
    /\ trim h.2 = h.2) hs -> sorted_map (headers_ r0 ++ hs) ->
  scan t ((hs ≫= fun h => header_line h ++ CRLF) ++ CRLF ++ k) {| parse_state := kExpectHeaders; request := r0 |}
  = Ok (true, k, {| parse_state := kGotAll; request := set_headers (headers_ r0 ++ hs) r0 |}).
Proof.
  intros F. revert r0. induction F as [|[n v] hs (Hn & Hv & Ht) F IH]; intros r0 So.
  - rewrite scan_eq by (by right). unfold turn_on. cbn [parse_state mbind list_bind app].
    change (CRLF ++ k) with ([] ++ CRLF ++ k). rewrite line_of_crlf by constructor. cbn [memchr]. rewrite app_nil_r.
    by destruct r0.
  - change (((n, v) :: hs) ≫= ?f) with (f (n, v) ++ (hs ≫= f)). rewrite <- !app_assoc.
    rewrite scan_eq by (by right). unfold turn_on. cbn [parse_state]. cbn [fst snd] in Hn, Hv, Ht.
    assert (Forall (fun b => b <> CR) (header_line (n, v))) as Hc.
    { unfold header_line. cbn [fst snd]. rewrite !Forall_app. split; [eapply Forall_impl; [exact Hn|]; naive_solver|].
      split; [repeat constructor; done|done]. }
    rewrite line_of_crlf by done. unfold header_line. cbn [fst snd request app].
    rewrite memchr_app by (eapply Forall_impl; [exact Hn|]; naive_solver).
    assert (addHeader (n ++ COLON :: SP :: v) (length n) r0 = set_headers (headers_ r0 ++ [(n, v)]) r0) as ->.
    { unfold addHeader. f_equal. rewrite take_app_length.
      replace (drop (S (length n)) (n ++ COLON :: SP :: v)) with (SP :: v)
        by (by rewrite cons_middle, app_assoc, drop_app_length' by (rewrite length_app; simpl; lia)).
      rewrite trim_space, Ht. apply mset_above. unfold sorted_map, mkeys in So. rewrite fmap_app in So.
      apply Forall_forall. intros j Hj. eapply StronglySorted_app_1_elem_of; [exact So|done|]. by left. }
    rewrite IH; cbn [set_headers headers_]; [|by rewrite <- app_assoc]. by rewrite <- app_assoc.
Qed.

(** The parser reads a request back as it was written, and leaves what is behind. *)
Lemma request_roundtrip t k :
  scan t (request_text r ++ k) HttpContext_new
  = Ok (true, k, {| parse_state := kGotAll; request := setReceiveTime t r |}).
Proof.
  unfold request_text. rewrite <- !app_assoc. rewrite scan_eq by (by left). unfold turn_on. cbn [parse_state HttpContext_new request].
  rewrite line_of_crlf by apply request_line_cr. rewrite request_line_ok. cbn [mbind outcome_bind].
  rewrite headers_ok; [by destruct r|apply ok|apply ok].
Qed.
End text.

(** ** Messages *)

Section runs.
Context (httpCallback_ : HttpRequest -> HttpResponse -> HttpResponse).

Abbreviation Peers := (Peers (U := outcome HttpServer)).
Abbreviation react := (http_react httpCallback_).

Lemma buffer_with_wf d : wf (buffer_with d) /\ content (buffer_with d) = d.
Proof.
  unfold buffer_with, content, peek, readableBytes. split.
  - split; cbn [readerIndex_ writerIndex_ buffer_]; rewrite ?length_app, ?length_replicate; unfold kCheapPrepend; lia.
  - cbn [readerIndex_ writerIndex_ buffer_]. rewrite drop_app_length' by (by rewrite length_replicate).
    by rewrite firstn_all2 by lia.
Qed.

(** The calls and the parser after a message whose bytes the parser takes that way. *)
Definition answer (p : Z) (ok : bool) (c : HttpContext) : list call :=
  (if ok then [] else [CallSend p bad_request; CallShutdown p])
  ++ (if gotAll c then onRequest httpCallback_ p (request c) else []).

Definition after_message (c : HttpContext) : HttpContext := if gotAll c then HttpContext_new else c.

(** The state of the server at a connection: a parser that can go on, with some input waiting. *)
Record at_conn (p : Z) (a : Peers) (s : HttpServer) (x : Conn) (q : bytes) (c : HttpContext) : Prop := {
  at_user : a_user a = Ok s;
  at_conns : a_conns a !! p = Some x;
  at_input : a_input a !! p = Some q;
  at_context : contexts s !! p = Some c;
  at_ready : ready c;
}.

(** What calls on one connection do to it. *)
Definition performed (ks : list call) (x : Conn) : Conn :=
  fold_left (fun x k => match k with
                        | CallSend _ d => conn_send d x
                        | CallShutdown _ => conn_shutdown x
                        | CallForceClose _ => conn_forceClose x
                        | _ => x
                        end) ks x.

Lemma performs_on ks p (a : Peers) x : Forall (fun k => match k with CallSend q _ | CallShutdown q => q = p | _ => False end) ks ->
  a_conns a !! p = Some x -> a_conns (fold_left a_perform ks a) = <[p := performed ks x]> (a_conns a).
Proof.
  intros F. revert a x. induction F as [|k ks Hk F IH]; intros a x E; [by rewrite insert_id|].
  cbn [fold_left performed]. destruct k as [q d|q|q|q|q]; try done; subst q;
    (erewrite IH; [|cbn [a_perform set_a_conns a_conns]; by rewrite lookup_alter_eq, E]); cbn [a_perform set_a_conns a_conns];
    by rewrite (alter_some _ _ _ _ E), insert_insert_eq.
Qed.

Lemma answer_on p ok c : Forall (fun k => match k with CallSend q _ | CallShutdown q => q = p | _ => False end) (answer p ok c).
Proof.
  unfold answer, onRequest. apply Forall_app. split; [destruct ok; repeat constructor|]. destruct (gotAll c); [|constructor].
  repeat constructor. destruct (closeConnection_ _); repeat constructor.
Qed.

Lemma performs_input ks (a : Peers) : a_input (fold_left a_perform ks a) = a_input a.
Proof. revert a. induction ks as [|k ks IH]; intros a; [done|]. simpl. rewrite IH. by destruct k. Qed.

Lemma message_step p a s x q c d ok rest c1 : at_conn p a s x q c ->
  scan (default 0 (head (pollTimes s))) (q ++ d) c = Ok (ok, rest, c1) ->
  let a' := peer_step react (PReceive p d) a in
  at_conn p a' {| contexts := <[p := after_message c1]> (contexts s); pollTimes := tail (pollTimes s) |}
    (performed (answer p ok c1) x) rest (after_message c1)
  /\ a_conns a' = <[p := performed (answer p ok c1) x]> (a_conns a)
  /\ forall r, r <> p -> a_input a' !! r = a_input a !! r.
Proof.
  intros [Eu Ex Ei Ec R] Es. cbn [peer_step]. rewrite Ei. cbn [default from_option id].
  destruct (buffer_with_wf (q ++ d)) as [W C].
  pose proof (parseRequest_scan (default 0 (head (pollTimes s))) _ c W R) as P. rewrite C, Es in P.
  assert (http_react httpCallback_ (CbMessage p (q ++ d)) (Ok s)
    = {| calls := answer p ok c1; consumed := length (q ++ d) - length rest;
         next := Ok {| contexts := <[p := after_message c1]> (contexts s); pollTimes := tail (pollTimes s) |} |}) as Er.
  { unfold http_react. rewrite Ec. unfold onMessage. destruct (parseRequest _ _ c) as [[[ok' b'] c']| |]; try done.
    destruct P as [_ [= -> -> ->]]. cbn [mbind outcome_bind]. unfold answer, after_message.
    destruct (gotAll c'); cbn [calls]; rewrite ?app_nil_r; done. }
  assert (ready (after_message c1)) as R1.
  { unfold after_message. destruct (scan_ready _ _ _ _ _ _ R Es) as [R1| ->]; [|by left].
    destruct (gotAll c1); [by left|done]. }
  unfold a_callback. cbn [a_user a_conns a_input]. rewrite Eu, Er. cbn [calls consumed next].
  rewrite performs_input. cbn [a_input]. erewrite performs_on by (apply answer_on || exact Ex). cbn [a_conns].
  split; [|split; [done|]].
  - split; cbn [a_user a_conns a_input contexts]; [done|by rewrite lookup_insert_eq| |by rewrite lookup_insert_eq|done].
    rewrite lookup_alter_eq, lookup_insert_eq. cbn. f_equal. destruct (scan_suffix _ _ _ _ _ _ Es) as [k ->].
    rewrite length_app. replace (length k + length rest - length rest)%nat with (length k) by lia. apply drop_app_length.
  - intros r Hr. cbn [a_input]. by rewrite lookup_alter_ne, lookup_insert_ne.
Qed.

(** It keeps to the rules of use under which the loop is proved to be this machine. *)
Lemma http_polite : polite react.
Proof.
  split.
  - intros cb u. unfold http_react. destruct u as [s| |]; [|constructor..]. destruct cb as [p []|p d|p|p n]; try constructor.
    destruct (contexts s !! p) as [c|]; [|constructor]. destruct (onMessage _ _ _ _ c) as [[[ks b] c1]| |] eqn:E; [|constructor..].
    cbn [calls]. unfold onMessage in E. destruct (parseRequest _ _ _) as [[[ok b'] c']| |]; [|done..].
    assert (ks = answer p ok c') as ->.
    { unfold answer. cbn [mbind outcome_bind] in E. destruct (gotAll c'); injection E as <- _ _; by rewrite ?app_nil_r. }
    eapply Forall_impl; [apply answer_on|]. intros k. by destruct k.
  - intros p d u. unfold http_react. destruct u as [s| |]; [|cbn; lia..]. destruct (contexts s !! p) as [c|]; [|cbn; lia].
    destruct (onMessage _ _ _ _ c) as [[[ks b] c1]| |]; cbn; lia.
Qed.

(** ** Requests in pieces *)

Definition deliver (p : Z) (ds : list bytes) (a : Peers) : Peers :=
  fold_left (fun a d => peer_step react (PReceive p d) a) ds a.

(** The parser has read [d] so far, in pieces, and wants more. *)
Definition has_read (d q : bytes) (c : HttpContext) : Prop :=
  scan 0 d HttpContext_new = Ok (true, q, timeless c) /\ gotAll c = false.

Lemma has_read_more d q c t e : has_read d q c -> ready c ->
  scan 0 (d ++ e) HttpContext_new = ('(ok, rest, c1) ← scan t (q ++ e) c; Ok (ok, rest, timeless c1)).
Proof.
  intros [Es G] R. rewrite scan_app, Es by (by left). change (gotAll (timeless c)) with (gotAll c). rewrite G. cbn [andb negb].
  apply scan_time.
Qed.

(** When a request's first line is complete with the [n]th byte, the time at which the piece with
    that byte comes. *)
Fixpoint line_time (n : nat) (ds : list bytes) (times : list Z) : Z :=
  match ds with
  | [] => 0
  | d :: ds => if decide (n <= length d)%nat then default 0 (head times) else line_time (n - length d) ds (tail times)
  end.

Definition line_length (r : HttpRequest) : nat := length (request_line r ++ CRLF).

(** The time that the request will carry, when [d] has been read and [ds] is to come. *)
Definition time_to_carry (r : HttpRequest) (d : bytes) (c : HttpContext) (ds : list bytes) (times : list Z) : Z :=
  if decide (length d < line_length r)%nat then line_time (line_length r - length d) ds times else receiveTime_ (request c).

Lemma read_state r d t ok rest c1 : request_ok r -> d `prefix_of` request_text r ->
  scan t d HttpContext_new = Ok (ok, rest, c1) ->
  parse_state c1 = kExpectRequestLine <-> (length d < line_length r)%nat.
Proof.
  intros Rok [k E]. rewrite scan_eq by (by left). unfold turn_on. cbn [parse_state HttpContext_new request].
  pose proof (line_of_crlf (request_line r) ((headers_ r ≫= fun h => header_line h ++ CRLF) ++ CRLF) (request_line_cr r Rok)) as Lr.
  fold (request_text r) in Lr. unfold line_length. rewrite length_app. cbn [length CRLF].
  destruct (line_of d) as [[line rest']|] eqn:El.
  - pose proof (line_of_app d k _ _ El) as La. rewrite <- E, Lr in La. injection La as <- Er.
    rewrite request_line_ok by done. cbn [mbind outcome_bind]. intros Es. apply scan_headers in Es as [_ N]; [|done].
    split; [done|]. intros L. apply line_of_length in El. lia.
  - intros [= <- <- <-]. split; [|done]. intros _. destruct (decide (length d < length (request_line r) + 2)%nat) as [|N]; [done|]. exfalso.
    assert (d = (request_line r ++ CRLF) ++ drop (length (request_line r) + 2) d) as Ed.
    { rewrite <- (take_drop (length (request_line r) + 2) d) at 1. f_equal.
      apply (f_equal (take (length (request_line r) + 2))) in E. rewrite take_app_le in E by lia. rewrite <- E.
      unfold request_text. rewrite app_assoc. rewrite take_app_length' by (by rewrite length_app). done. }
    rewrite Ed, <- app_assoc, line_of_crlf in El by (by apply request_line_cr). done.
Qed.

Lemma time_carried r d e q c t ok rest c1 ds times : request_ok r -> (d ++ e) `prefix_of` request_text r ->
  has_read d q c /\ scan 0 (d ++ e) HttpContext_new = Ok (ok, rest, timeless c1) ->
  t = default 0 (head times) -> scan t (q ++ e) c = Ok (ok, rest, c1) ->
  time_to_carry r d c (e :: ds) times = time_to_carry r (d ++ e) c1 ds (tail times).
Proof.
  intros Rok P [[Hd G] Hde] -> Es. pose proof (read_state _ _ _ _ _ _ Rok P Hde) as S1.
  assert (d `prefix_of` request_text r) as Pd by (etransitivity; [by apply prefix_app_r|exact P]).
  pose proof (read_state _ _ _ _ _ _ Rok Pd Hd) as S0. change (parse_state (timeless c)) with (parse_state c) in S0.
  change (parse_state (timeless c1)) with (parse_state c1) in S1. rewrite length_app in S1.
  unfold time_to_carry. rewrite length_app. cbn [line_time]. destruct (decide (length d < line_length r)%nat) as [L|L].
  - apply S0 in L as Ec. destruct (decide (line_length r - length d <= length e)%nat).
    + rewrite decide_False by lia. destruct (scan_line _ _ _ _ _ _ Ec Es) as [H|H]; [apply S1 in H; lia|done].
    + rewrite decide_True by lia. f_equal. lia.
  - rewrite decide_False by lia. symmetry.
    destruct (scan_ready _ _ _ _ _ _ (or_introl eq_refl : ready HttpContext_new) Hd) as [[H|H]|H].
    + by apply S0 in H.
    + by apply scan_headers in Es as [E _].
    + change (gotAll (timeless c)) with (gotAll c) in H. congruence.
Qed.

Lemma request_pieces p r ds a s x q c d : request_ok r -> at_conn p a s x q c -> has_read d q c ->
  ds <> [] -> Forall (fun e => e <> []) ds -> d ++ concat ds = request_text r ->
  exists s', let t := time_to_carry r d c ds (pollTimes s) in
    at_conn p (deliver p ds a) s' (performed (onRequest httpCallback_ p (setReceiveTime t r)) x) [] HttpContext_new
    /\ a_conns (deliver p ds a) = <[p := performed (onRequest httpCallback_ p (setReceiveTime t r)) x]> (a_conns a).
Proof.
  intros Rok. revert a s q c d. induction ds as [|e ds IH]; intros a s q c d A Hr Hne F E; [done|].
  apply Forall_cons in F as [He F]. cbn [concat] in E. rewrite app_assoc in E. cbn [deliver fold_left].
  set (t := default 0 (head (pollTimes s))). pose proof (has_read_more d q c t e Hr (at_ready _ _ _ _ _ _ A)) as M.
  pose proof (request_roundtrip r Rok 0 []) as T. rewrite app_nil_r, <- E in T.
  assert (forall ok rest c1, scan t (q ++ e) c = Ok (ok, rest, c1) ->
    time_to_carry r d c (e :: ds) (pollTimes s) = time_to_carry r (d ++ e) c1 ds (tail (pollTimes s))) as Tc.
  { intros ok rest c1 Es. rewrite Es in M. eapply time_carried; [done| | |done|exact Es]; [by rewrite <- E; apply prefix_app_r|].
    split; [apply Hr|exact M]. }
  destruct ds as [|e2 ds].
  - cbn [concat] in T. rewrite app_nil_r, M in T. clear M.
    destruct (scan t (q ++ e) c) as [[[ok rest] c1]| |] eqn:Es; [|done..]. injection T as -> -> Tk Tr.
    eexists. destruct (message_step p a s x q c e _ _ _ A Es) as (A' & C' & _). rewrite (Tc _ _ _ eq_refl).
    assert (c1 = {| parse_state := kGotAll; request := setReceiveTime (receiveTime_ (request c1)) r |}) as Ec.
    { destruct c1 as [st [m v pa qu rt hs]], r. unfold setReceiveTime in *. cbn in *. congruence. }
    assert (time_to_carry r (d ++ e) c1 [] (tail (pollTimes s)) = receiveTime_ (request c1)) as ->.
    { unfold time_to_carry. rewrite decide_False; [done|]. cbn [concat] in E. rewrite app_nil_r in E. rewrite E.
      unfold line_length, request_text. rewrite !length_app. lia. }
    assert (gotAll c1 = true) as G by (rewrite Ec; done).
    unfold after_message, answer in *. rewrite G in *. cbn [app] in *.
    replace (setReceiveTime (receiveTime_ (request c1)) r) with (request c1) by (by rewrite Ec at 1). by split.
  - rewrite scan_app in T by (by left). rewrite M in T.
    destruct (scan t (q ++ e) c) as [[[ok rest] c1]| |] eqn:Es; [|done..]. cbn [mbind outcome_bind] in T, M.
    change (gotAll (timeless c1)) with (gotAll c1) in T.
    destruct (ok && negb (gotAll c1)) eqn:G.
    + apply andb_true_iff in G as [-> G%negb_true_iff].
      destruct (message_step p a s x q c e _ _ _ A Es) as (A' & C' & _). rewrite (Tc _ _ _ eq_refl).
      unfold after_message, answer in *. rewrite G in *. cbn [app performed fold_left] in *.
      destruct (IH _ _ _ _ (d ++ e) A') as (s' & A2 & C2); [by split|done..|].
      exists s'. split; [exact A2|]. cbn [deliver fold_left] in C2. by rewrite C2, C', insert_insert_eq.
    + injection T as _ T _ _. apply app_eq_nil in T as [_ T]. cbn [concat] in T. apply app_eq_nil in T as [-> _].
      by apply Forall_cons in F as [? _].
Qed.


Lemma processRequestLine_again line r : processRequestLine line HttpRequest_new = Ok (false, r) -> method_ r <> kInvalid ->
  processRequestLine line r = Undef AssertFailed.
Proof.
  unfold processRequestLine. destruct (split_at SP line) as [[m rest]|]; [|by intros [= <-]]. intros _ Hm.
  unfold setMethod. by rewrite assert_false.
Qed.

(** C37: A line that is not a request line gets one response, 400, and the writing side of its
    connection is shut down; but the line stays in the input buffer, and the method read from
    it in the parser. When the client sends another byte, the line is parsed again, and if its
    method was right the assertion that there is no method yet fails: the process ends. *)
Theorem http_bad_request p a s x line r more d :
  at_conn p a s x [] HttpContext_new -> state_ x = kConnected -> Forall (fun b => b <> CR) line ->
  processRequestLine line HttpRequest_new = Ok (false, r) ->
  let a1 := peer_step react (PReceive p (line ++ CRLF ++ more)) a in
  a_conns a1 = <[p := {| state_ := kDisconnecting; sent := sent x ++ bad_request |}]> (a_conns a)
  /\ a_input a1 !! p = Some (line ++ CRLF ++ more)
  /\ (exists s1, a_user a1 = Ok s1)
  /\ (method_ r <> kInvalid -> a_user (peer_step react (PReceive p d) a1) = Undef AssertFailed).
Proof.
  intros A Ex Fl El a1.
  assert (forall t k, scan t (line ++ CRLF ++ k) HttpContext_new = Ok (false, line ++ CRLF ++ k, {| parse_state := kExpectRequestLine; request := r |})) as Es.
  { intros t k. rewrite scan_eq by (by left). unfold turn_on. cbn [parse_state HttpContext_new request].
    rewrite line_of_crlf by done. rewrite El. done. }
  destruct (message_step p a s x [] HttpContext_new (line ++ CRLF ++ more) _ _ _ A (Es _ _)) as (A' & C' & _).
  fold a1 in A', C'. revert A' C'. unfold answer, after_message.
  change (gotAll {| parse_state := kExpectRequestLine; request := r |}) with false. unfold performed. cbn [app fold_left]. unfold conn_shutdown, conn_send.
  rewrite Ex. cbn [state_ sent]. intros A' C'. split; [done|]. split; [apply A'|]. split; [eexists; apply A'|]. intros Hm.
  destruct A' as [Eu _ Ei Ec R]. cbn [peer_step]. rewrite Ei. cbn [default from_option id]. unfold a_callback. cbn [a_user].
  rewrite Eu. cbn [next]. unfold http_react. rewrite Ec. unfold onMessage.
  destruct (buffer_with_wf ((line ++ CRLF ++ more) ++ d)) as [W C].
  match goal with |- context [parseRequest ?t ?b ?c] => pose proof (parseRequest_scan t b c W R) as P; rewrite C in P end.
  rewrite <- !app_assoc, scan_eq in P by done. unfold turn_on in P. cbn [parse_state request] in P.
  rewrite line_of_crlf, (processRequestLine_again _ _ El Hm) in P by done. cbn [mbind outcome_bind] in P.
  rewrite <- !app_assoc. destruct (parseRequest _ _ _) as [[[? ?] ?]| |]; try done. by subst.
Qed.
End runs.

(** ** At work *)

(** A page, which keeps the connection unless the client asks otherwise. *)
Definition hello (r : HttpRequest) (resp : HttpResponse) : HttpResponse :=
  {| statusCode_ := 200; statusMessage_ := bs "OK"; closeConnection_ := closeConnection_ resp;
     resp_headers := [(bs "Content-Type", bs "text/plain")]; body_ := bs "hello " ++ path_ r |}.

Definition index : HttpRequest := {| method_ := kGet; version_ := kHttp11; path_ := bs "/index"; query_ := bs "?q=1";
  receiveTime_ := 0; headers_ := [(bs "Connection", bs "Keep-Alive"); (bs "Host", bs "im:80")] |}.

Lemma http_index_ok : request_ok index.
Proof.
  split; try done; try (by right); try (repeat constructor; done).
Qed.

Definition no_clients : Peers (U := outcome HttpServer) :=
  {| a_conns := ∅; a_input := ∅; a_user := Ok {| contexts := ∅; pollTimes := [7; 8; 9] |} |}.
Definition one_client : Peers (U := outcome HttpServer) := peer_step (http_react hello) (PConnect 1) no_clients.

Lemma one_client_at : at_conn 1 one_client {| contexts := <[1 := HttpContext_new]> ∅; pollTimes := [7; 8; 9] |}
  {| state_ := kConnected; sent := [] |} [] HttpContext_new.
Proof. split; [reflexivity..|by left]. Qed.

(** The time of a request as its answer: the second of three pieces completes the first line. *)
Definition clock (r : HttpRequest) (resp : HttpResponse) : HttpResponse :=
  {| statusCode_ := 200; statusMessage_ := bs "OK"; closeConnection_ := closeConnection_ resp;
     resp_headers := []; body_ := to_dec (receiveTime_ r) |}.


(** Two requests that come together: the second waits for more bytes to arrive. *)
Example pipelined :
  (fun a => (sent <$> a_conns a !! 1, (fun q => bool_decide (q = request_text index)) <$> a_input a !! 1))
    (deliver hello 1 [request_text index ++ request_text index] one_client)
  = (Some (response_bytes (hello index (HttpResponse_new false))), Some true).
Proof. vm_compute. reflexivity. Qed.

(** A header without a colon ends the request. *)
Example header_without_colon :
  sent <$> a_conns (deliver hello 1 [bs "GET / HTTP/1.1" ++ CRLF ++ bs "nonsense" ++ CRLF] one_client) !! 1
  = Some (response_bytes (hello {| method_ := kGet; version_ := kHttp11; path_ := bs "/"; query_ := []; receiveTime_ := 7;
                                   headers_ := [] |} (HttpResponse_new false))).
Proof. vm_compute. reflexivity. Qed.

Lemma http_bad_request_witness :
  sent <$> a_conns (peer_step (http_react hello) (PReceive 1 (bs "GET / HTTP/2.0" ++ CRLF)) one_client) !! 1 = Some bad_request
  /\ a_user (deliver hello 1 [bs "GET / HTTP/2.0" ++ CRLF; bs "x"] one_client) = Undef AssertFailed.
Proof.
  destruct (http_bad_request hello 1 one_client _ _ (bs "GET / HTTP/2.0")
    {| method_ := kGet; version_ := kUnknown; path_ := bs "/"; query_ := []; receiveTime_ := 0; headers_ := [] |} [] (bs "x")
    one_client_at eq_refl) as (Ec & _ & _ & Ed).
  - repeat constructor; done.
  - vm_compute. reflexivity.
  - rewrite app_nil_r in Ec, Ed. split; [by rewrite Ec, lookup_insert_eq|]. by apply Ed.
Defined.
