(* ===== verification/Sessions.v ===== *)
(** * Sessions and connections

    Both servers keep a map from the text of a connection's address to a session, filled and
    emptied by the connection callback, while the message callback is bound to the session by a
    plain pointer. The invariant that makes this safe, and what each event does to it, for any
    type of session. *)

From S2P Require Import Prelude Bytes Text StdMap Buffer Conn.

Section sessions.
Context {S : Type} (owns : Z -> S -> Prop).

(** Every connection has its session, under its address's text and belonging to it, and there
    is no other session; every connection is open and has an input buffer. *)
Record matched (l : list (bytes * S)) (cs : gmap Z Conn) (ins : gmap Z Buffer) : Prop := {
  mt_sorted : sorted_map l;
  mt_session : forall p, is_Some (cs !! p) -> exists x, mfind (ptr_text p) l = Some x /\ owns p x;
  mt_key : forall k, k ∈ mkeys l -> exists p, 0 <= p < 2 ^ 64 /\ k = ptr_text p /\ is_Some (cs !! p);
  mt_open : forall p c, cs !! p = Some c -> 0 <= p < 2 ^ 64 /\ is_open c;
  mt_input : forall p, is_Some (cs !! p) -> exists b, ins !! p = Some b /\ wf b;
}.

Lemma matched_empty : matched [] ∅ ∅.
Proof.
  split; simpl; [constructor|..].
  - intros p [x E]. by rewrite lookup_empty in E.
  - intros k. by rewrite elem_of_nil.
  - intros p c. by rewrite lookup_empty.
  - intros p [x E]. by rewrite lookup_empty in E.
Qed.

Lemma matched_range l cs ins p : matched l cs ins -> is_Some (cs !! p) -> 0 <= p < 2 ^ 64.
Proof. intros [_ _ _ Op _] [c E]. by destruct (Op p c E). Qed.

(** A session's key names its connection. *)
Lemma matched_key l cs ins p : matched l cs ins -> 0 <= p < 2 ^ 64 ->
  ptr_text p ∈ mkeys l -> is_Some (cs !! p).
Proof. intros [_ _ Co _ _] Hp (q & Hq & E & C)%Co. apply ptr_text_inj in E; [by subst|done..]. Qed.

(** So the key of a new connection is free. *)
Lemma matched_fresh l cs ins p : matched l cs ins -> 0 <= p < 2 ^ 64 -> cs !! p = None ->
  mfind (ptr_text p) l = None.
Proof. intros O Hp Hn. apply mfind_None. intros K. apply (matched_key _ _ _ _ O Hp) in K as [x ?]. congruence. Qed.

Lemma matched_connect l cs ins p x : matched l cs ins -> 0 <= p < 2 ^ 64 -> cs !! p = None -> owns p x ->
  matched (minsert (ptr_text p) x l) (<[p := {| state_ := kConnected; sent := [] |}]> cs)
    (<[p := Buffer_new kInitialSize]> ins).
Proof.
  intros O Hp Hn Hx. pose proof (matched_fresh _ _ _ _ O Hp Hn) as Em.
  destruct O as [So Se Co Op In]. split.
  - by apply sorted_minsert.
  - intros q Hq. destruct (decide (q = p)) as [->|Hqp].
    + exists x. by rewrite mfind_minsert, decide_True, Em.
    + rewrite lookup_insert_ne in Hq by done. destruct (Se q Hq) as (c & Ec & ?). exists c.
      rewrite mfind_minsert, decide_False; [done| |done]. intros E.
      destruct Hq as [y Ey]. destruct (Op q y Ey) as [Hq _]. by apply ptr_text_inj in E.
  - intros k [->|Hk]%mkeys_minsert_sub; [exists p; by rewrite lookup_insert_eq|].
    destruct (Co k Hk) as (q & ? & ? & [y Ey]). exists q. split; [done|]. split; [done|].
    rewrite lookup_insert_ne; [by eexists|]. intros ->. congruence.
  - intros q c. destruct (decide (q = p)) as [->|Hqp].
    + rewrite lookup_insert_eq. intros [= <-]. split; [done|]. by left.
    + rewrite lookup_insert_ne by done. apply Op.
  - intros q. destruct (decide (q = p)) as [->|Hqp].
    + rewrite !lookup_insert_eq. intros _. exists (Buffer_new kInitialSize). split; [done|].
      apply Buffer_new_wf.
    + rewrite !lookup_insert_ne by done. apply In.
Qed.

Lemma matched_disconnect l cs ins p f : matched l cs ins -> is_Some (cs !! p) ->
  matched (merase (ptr_text p) l) (delete p (alter f p cs)) (delete p ins).
Proof.
  intros O Hs. pose proof (matched_range _ _ _ _ O Hs) as Rp. destruct O as [So Se Co Op In].
  assert (forall q, q <> p -> delete p (alter f p cs) !! q = cs !! q) as Hq.
  { intros q Hq. by rewrite lookup_delete_ne, lookup_alter_ne by done. }
  split.
  - by apply sorted_merase.
  - intros q H'. destruct (decide (q = p)) as [->|Hqp]; [by rewrite lookup_delete_eq in H'; destruct H'|].
    rewrite Hq in H' by done. destruct (Se q H') as (x & Ex & ?). exists x.
    rewrite mfind_merase, decide_False; [done| |done]. intros E.
    destruct H' as [y Ey]. destruct (Op q y Ey) as [? _]. by apply ptr_text_inj in E.
  - intros k Hk. destruct (Co k (mkeys_merase_sub _ _ _ Hk)) as (q & ? & -> & Hq').
    exists q. split; [done|]. split; [done|]. rewrite Hq; [done|]. intros ->.
    apply mfind_key in Hk. rewrite mfind_merase, decide_True in Hk by done. by destruct Hk.
  - intros q x. destruct (decide (q = p)) as [->|Hqp]; [by rewrite lookup_delete_eq|].
    rewrite Hq by done. apply Op.
  - intros q. destruct (decide (q = p)) as [->|Hqp]; [rewrite lookup_delete_eq; by intros [? ?]|].
    rewrite Hq, lookup_delete_ne by done. apply In.
Qed.

Lemma conns_grow_some a b p : conns_grow a b -> is_Some (a !! p) <-> is_Some (b !! p).
Proof. intros G. specialize (G p). by destruct (a !! p), (b !! p). Qed.

(** Handling input, which may send and ask for a connection to be closed, and leaves the map
    its keys and each session its owner. *)
Lemma matched_receive l l' cs cs' ins p b : matched l cs ins -> wf b ->
  sorted_map l' -> mkeys l' = mkeys l ->
  (forall k x, mfind k l = Some x -> exists x', mfind k l' = Some x' /\ forall q, owns q x -> owns q x') ->
  conns_grow cs cs' -> matched l' cs' (<[p := b]> ins).
Proof.
  intros [So Se Co Op In] Wb So' K M G. split.
  - done.
  - intros q Hq%(conns_grow_some _ _ _ G). destruct (Se q Hq) as (x & Ex & Hx).
    destruct (M _ _ Ex) as (x' & Ex' & Hx'). exists x'. split; [done|]. by apply Hx'.
  - intros k. rewrite K. intros Hk. destruct (Co k Hk) as (q & ? & ? & Hq%(conns_grow_some _ _ _ G)).
    by exists q.
  - intros q c' Eq. pose proof (G q) as Gq. rewrite Eq in Gq.
    destruct (cs !! q) as [c|] eqn:Ec; [|done]. destruct (Op q c Ec) as [? Ho]. split; [done|].
    destruct Gq as [_ [[E|[_ E]] _]]; unfold is_open in *; rewrite E; auto.
  - intros q Hq%(conns_grow_some _ _ _ G). destruct (decide (p = q)) as [<-|Hne].
    + exists b. by rewrite lookup_insert_eq.
    + rewrite lookup_insert_ne by done. by apply In.
Qed.

(** What the invariant says of the map. *)
Lemma matched_keys l cs ins k : matched l cs ins ->
  k ∈ mkeys l <-> exists p, k = ptr_text p /\ is_Some (cs !! p).
Proof.
  intros O. split; [intros (p & _ & ? & ?)%(mt_key _ _ _ O); eauto|].
  intros (p & -> & Hp). apply mfind_key. destruct (mt_session _ _ _ O p Hp) as (c & -> & _). by eexists.
Qed.
End sessions.
