(* ===== verification/World.v ===== *)
(** * The chat server's state (ClientSession.h, IMServer.h)

    Everything a message handler can reach: the user manager and its database, the offline
    message cache, the sessions in [IMServer::m_mapclient], and the connections. Sessions refer
    to each other through the server only, by their key in the map, so two references to one
    session are one object. *)

From S2P Require Import Prelude Bytes Text StdMap BinaryReader Framing MsgCacheManager Json.
From S2P Require Import Database UserManager Conn.

(** ** Sessions *)

Record ClientSession := {
  m_sessionid : bytes;
  m_seq : Z;
  m_user : User;
  m_target : option Z;         (* indeterminate until a chat message sets it *)
  m_targets : bytes;
  m_conn : option Z;           (* the connection's address *)
}.

(** The constructor, on the connection at address [p]. *)
Definition ClientSession_new (p : Z) : ClientSession := {|
  m_sessionid := ptr_text p; m_seq := 0; m_user := User_new; m_target := None; m_targets := [];
  m_conn := Some p |}.

(** [UserID()]: [m_user] is never null. *)
Definition UserID (s : ClientSession) : Z := userid (m_user s).

Definition set_seq (i : Z) (s : ClientSession) : ClientSession := {|
  m_sessionid := m_sessionid s; m_seq := i; m_user := m_user s; m_target := m_target s;
  m_targets := m_targets s; m_conn := m_conn s |}.
Definition set_user (u : User) (s : ClientSession) : ClientSession := {|
  m_sessionid := m_sessionid s; m_seq := m_seq s; m_user := u; m_target := m_target s;
  m_targets := m_targets s; m_conn := m_conn s |}.
Definition set_target (t : Z) (s : ClientSession) : ClientSession := {|
  m_sessionid := m_sessionid s; m_seq := m_seq s; m_user := m_user s; m_target := Some t;
  m_targets := m_targets s; m_conn := m_conn s |}.
Definition set_targets (t : bytes) (s : ClientSession) : ClientSession := {|
  m_sessionid := m_sessionid s; m_seq := m_seq s; m_user := m_user s; m_target := m_target s;
  m_targets := t; m_conn := m_conn s |}.

Section world.
Context {D : Type} `{Database D}.

Record World := {
  users : UserManager;
  database : D;
  msg_cache : MsgCacheManager;
  m_mapclient : list (bytes * ClientSession);
  conns : gmap Z Conn;
}.

Definition W (A : Type) : Type := M World A.

Definition set_sessions (l : list (bytes * ClientSession)) (w : World) : World := {|
  users := users w; database := database w; msg_cache := msg_cache w; m_mapclient := l;
  conns := conns w |}.
Definition set_conns (c : gmap Z Conn) (w : World) : World := {|
  users := users w; database := database w; msg_cache := msg_cache w;
  m_mapclient := m_mapclient w; conns := c |}.

(** Calls on the singletons. *)
Definition user_mgr {A} (f : U A) : W A :=
  zoom (fun w => (users w, database w))
    (fun s w => {| users := s.1; database := s.2; msg_cache := msg_cache w;
                   m_mapclient := m_mapclient w; conns := conns w |}) f.

Definition cache_mgr {A} (f : M MsgCacheManager A) : W A :=
  zoom msg_cache
    (fun c w => {| users := users w; database := database w; msg_cache := c;
                   m_mapclient := m_mapclient w; conns := conns w |}) f.

(** The session object a callback or a pointer leads to; it lives as long as its entry in the
    map. *)
Definition session (sid : bytes) : W ClientSession := fun w =>
  match mfind sid (m_mapclient w) with
  | Some s => Ok (s, w)
  | None => Undef Dangling
  end.

Definition update_session (sid : bytes) (f : ClientSession -> ClientSession) : W unit := fun w =>
  match mfind sid (m_mapclient w) with
  | Some s => Ok (tt, set_sessions (mset sid (f s) (m_mapclient w)) w)
  | None => Undef Dangling
  end.

(** ** IMServer's lookups *)

(** [GetSessionByID]: the first session in key order whose user has the id. *)
Definition find_session (id : Z) (l : list (bytes * ClientSession)) : option (bytes * ClientSession) :=
  List.find (fun p => UserID p.2 =? id) l.

Definition GetSessionByID (id : Z) : W (option bytes) :=
  gets (fun w => fst <$> find_session id (m_mapclient w)).

Definition IsUserSessionExsit (id : Z) : W bool :=
  gets (fun w => match find_session id (m_mapclient w) with Some _ => true | None => false end).

(** ** Sending *)

Definition on_conn (c : Z) (f : Conn -> Conn) : W unit :=
  modify (fun w => set_conns (alter f c (conns w)) w).

(** [TcpSession::Send(conn, write)]: the writer as the call leaves it. [send] takes an [int]
    length. *)
Definition Send_to (conn : option Z) (write : BinaryWriter) : W BinaryWriter :=
  '(out, write) ← lift (chat_pack write);
  match conn with
  | None => mret write
  | Some c =>
      if decide (len out <= INT_MAX) then
        _ ← on_conn c (conn_send out);
        mret write
      else undef OutOfBounds
  end.

(** [ClientSession::Send(write)], on the session's own connection. *)
Definition Send (sid : bytes) (write : BinaryWriter) : W BinaryWriter :=
  s ← session sid;
  match m_conn s with
  | None => mret write
  | Some c => Send_to (Some c) write
  end.

Definition forceClose (c : Z) : W unit := on_conn c conn_forceClose.
End world.
