(* ===== verification/ClientSession.v ===== *)
(** * ClientSession (ClientSession.h, ClientSession.cpp)

    The handlers of the chat protocol, one per message type, the dispatch [Process] and the
    read callback. A handler runs on the session with key [sid], for the connection [conn] its
    message came in on. Logging is left out. *)

From S2P Require Import Prelude Bytes Text StdMap BinaryReader Buffer Framing MsgCacheManager Json.
From S2P Require Import Database UserManager Conn World.

(** ** Message types *)

Definition msg_type_headerbeart : Z := 1000.
Definition msg_type_register : Z := 1001.
Definition msg_type_login : Z := 1002.
Definition msg_type_getofriendlist : Z := 1003.
Definition msg_type_finduser : Z := 1004.
Definition msg_type_operatefriend : Z := 1005.
Definition msg_type_userstatuschange : Z := 1006.
Definition msg_type_updateuserinfo : Z := 1007.
Definition msg_type_modifypassword : Z := 1008.
Definition msg_type_creategroup : Z := 1009.
Definition msg_type_getgroupmembers : Z := 1010.
Definition msg_type_chat : Z := 1100.
Definition msg_type_multichat : Z := 1101.

(** A writer with the command and the sequence number, as every message starts. *)
Definition start (cmd seq : Z) : BinaryWriter :=
  WriteData 4 (WriteData 4 BinaryWriter_new (htonl cmd)) (htonl seq).

Definition str (s : String.string) : Value := stringValue (bs s).

(** The members of a user's profile, in the friend list and the login response. *)
Definition profile (u : User) : list (bytes * Value) :=
  [(bs "userid", intValue (userid u)); (bs "username", stringValue (username u));
   (bs "nickname", stringValue (nickname u)); (bs "facetype", intValue (facetype u));
   (bs "customface", stringValue (custimface u)); (bs "gender", intValue (gender u));
   (bs "birthday", intValue (birthday u)); (bs "signature", stringValue (signature u));
   (bs "address", stringValue (address u)); (bs "phonenumber", stringValue (phonenumber u));
   (bs "mail", stringValue (mail u))].

(** The assignments to [m_user] after a successful login. *)
Definition logged_in (u : User) (name pass : bytes) (clienttype : Z) (mine : User) : User := {|
  userid := userid u; username := name; password := pass; nickname := nickname u;
  facetype := facetype mine; custimface := custimface mine; customfacefmt := customfacefmt mine;
  gender := gender mine; birthday := birthday mine; signature := signature mine;
  address := address mine; phonenumber := phonenumber mine; mail := mail mine;
  ownerid := ownerid mine; clienttype := Some clienttype; status := status mine;
  friends := friends mine |}.

Definition set_status (i : Z) (u : User) : User := {|
  userid := userid u; username := username u; password := password u; nickname := nickname u;
  facetype := facetype u; custimface := custimface u; customfacefmt := customfacefmt u;
  gender := gender u; birthday := birthday u; signature := signature u; address := address u;
  phonenumber := phonenumber u; mail := mail u; ownerid := ownerid u; clienttype := clienttype u;
  status := Some i; friends := friends u |}.

(** The user [OnUpdateUserInfoResponse] fills in. *)
Definition new_info (nick : bytes) (face : Z) (custom : bytes) (gen birth : Z)
    (sign addr phone mail_ : bytes) : User := {|
  userid := -1; username := []; password := []; nickname := nick; facetype := face;
  custimface := custom; customfacefmt := []; gender := gen; birthday := birth; signature := sign;
  address := addr; phonenumber := phone; mail := mail_; ownerid := -1; clienttype := None;
  status := None; friends := [] |}.

Section handlers.
Context {D : Type} `{Database D} `{JsonText}.

Abbreviation W := (W (D := D)).

Definition me (sid : bytes) : W User := s ← session sid; mret (m_user s).
Definition seq_of (sid : bytes) : W Z := s ← session sid; mret (m_seq s).

(** [result = root.toStyledString(); write.WriteData(result); Send(conn, write);] *)
Definition reply_to (conn : Z) (write : BinaryWriter) (root : Value) : W unit :=
  _ ← Send_to (Some conn) (WriteData_string write (toStyledString root));
  mret tt.

(** The same, on the session's own connection; the writer is used again by some handlers. *)
Definition reply (sid : bytes) (write : BinaryWriter) (root : Value) : W BinaryWriter :=
  Send sid (WriteData_string write (toStyledString root)).

(** The same with a root that was parsed and cleared, which still has its comments. *)
Definition reply_with (comments : Comments) (sid : bytes) (write : BinaryWriter) (root : Value) : W BinaryWriter :=
  Send sid (WriteData_string write (toStyledString_with comments root)).

(** An error response. *)
Definition reply_code (conn : Z) (write : BinaryWriter) (code : Z) (msg : String.string) : W unit :=
  response ← lift (set_members [(bs "code", intValue code); (bs "msg", str msg)] nullValue);
  reply_to conn write response.

Definition OnHeartbeatResponse (sid : bytes) (conn : Z) (data : bytes) : W unit :=
  seq ← seq_of sid;
  _ ← Send_to (Some conn) (WriteData_string (start msg_type_headerbeart seq) []);
  mret tt.

Definition OnRegisterResponse (sid : bytes) (conn : Z) (data : bytes) : W unit :=
  seq ← seq_of sid;
  let write := start msg_type_register seq in
  parsed ← lift (reader_parse data);
  match parsed with
  | None => reply_code conn write 101 "json pares failed!"
  | Some (root, _) =>
      '(ok, root) ← lift (members_are [(bs "username", isString); (bs "nickname", isString);
                                       (bs "password", isString)] root);
      if ok : bool then
        '(name, root) ← lift (member_string (bs "username") root);
        '(nick, root) ← lift (member_string (bs "nickname") root);
        '(pass, root) ← lift (member_string (bs "password") root);
        '(added, _) ← user_mgr (AddUser (registered name nick pass));
        if added : bool then reply_code conn write 0 "ok"
        else reply_code conn write 100 "register failed!"
      else reply_code conn write 102 "json data type error!"
  end.

(** [SendUserStatusChangeMsg], on the session with key [sid]: its own sequence number and its
    own connection. *)
Definition SendUserStatusChangeMsg (sid : bytes) (id : Z) (type : Z) : W unit :=
  data ← lift (set_members
    (if decide (type = 1) then [(bs "type", intValue 1); (bs "onlinestatus", intValue 1)]
     else if decide (type = 2) then [(bs "type", intValue 2); (bs "onlinestatus", intValue 0)]
     else if decide (type = 3) then [(bs "type", intValue 3)]
     else []) nullValue);
  seq ← seq_of sid;
  let writer := WriteData_string (start msg_type_userstatuschange seq) (toStyledString data) in
  _ ← Send sid (WriteData 4 writer (htonl id));
  mret tt.

(** The loops that tell the online ones of some users about user [id]. *)
Definition notify_online (id : Z) (type : Z) (friends : list User) : W unit :=
  for_each (fun u =>
    target ← GetSessionByID (userid u);
    match target with
    | Some t => SendUserStatusChangeMsg t id type
    | None => mret tt
    end) friends.

(** The two loops that push the cached messages: each in a writer of its own, as one string. *)
Definition push_cached (sid : bytes) (msgs : list bytes) : W unit :=
  for_each (fun msg => _ ← Send sid (WriteData_string BinaryWriter_new msg); mret tt) msgs.

(** The end of [OnLoginResponse]: the messages kept for the user, and the news for its friends. *)
Definition after_login (sid : bytes) : W unit :=
  u ← me sid;
  notify ← cache_mgr (GetNotifyMsgCache (userid u) []);
  _ ← push_cached sid (notifymsg <$> notify);
  u ← me sid;
  chats ← cache_mgr (GetChatMagCache (userid u) []);
  _ ← push_cached sid (chatmsg <$> chats);
  u ← me sid;
  friends ← user_mgr (GetFriendInfoByUserId (userid u));
  notify_online (userid u) 1 friends.

Definition OnLoginResponse (sid : bytes) (conn : Z) (data : bytes) : W unit :=
  seq ← seq_of sid;
  let write := start msg_type_login seq in
  parsed ← lift (reader_parse data);
  match parsed with
  | None => reply_code conn write 101 "json pares failed!"
  | Some (root, _) =>
      '(ok, root) ← lift (members_are [(bs "username", isString); (bs "password", isString);
                                       (bs "clienttype", isInt); (bs "status", isInt)] root);
      if ok : bool then
        '(name, root) ← lift (member_string (bs "username") root);
        '(pass, root) ← lift (member_string (bs "password") root);
        found ← user_mgr (GetUserInfoByUsername name);
        match found with
        | None => reply_code conn write 103 "user is not exist or password is incorrest!"
        | Some user =>
            if decide (pass = password user) then
              '(client, _) ← lift (member_int (bs "clienttype") root);
              _ ← update_session sid (fun s => set_user (logged_in user name pass client (m_user s)) s);
              response ← lift (set_members
                ([(bs "code", intValue 0); (bs "msg", str "ok"); (bs "userid", intValue (userid user));
                  (bs "nickname", stringValue (nickname user)); (bs "facetype", intValue (facetype user));
                  (bs "customface", stringValue (custimface user)); (bs "gender", intValue (gender user));
                  (bs "birthday", intValue (birthday user)); (bs "signature", stringValue (signature user));
                  (bs "address", stringValue (address user));
                  (bs "phonenumber", stringValue (phonenumber user)); (bs "mail", stringValue (mail user));
                  (bs "username", stringValue name)]) nullValue);
              _ ← update_session sid (fun s => set_user (set_status 1 (m_user s)) s);
              _ ← reply_to conn write response;
              after_login sid
            else reply_code conn write 104 "user is not exist or password is incorrest!"
        end
      else reply_code conn write 102 "json data type error!"
  end.

(** The loop that appends one object per user to a member of the response. *)
Definition append_users (key : bytes) (fields : User -> list (bytes * Value))
    (friends : list User) (root : Value) : W Value :=
  for_fold (fun root u =>
    online ← IsUserSessionExsit (userid u);
    re ← lift (set_members (fields u ++ [(bs "clienttype", intValue 1);
                                         (bs "status", intValue (if online : bool then 1 else 0))]) nullValue);
    lift (append_member key re root)) root friends.

Definition OnGetFriendListResponse (sid : bytes) (conn : Z) (data : bytes) : W unit :=
  u ← me sid;
  friends ← user_mgr (GetFriendInfoByUserId (userid u));
  response ← lift (set_members [(bs "code", intValue 0); (bs "msg", str "ok")] nullValue);
  response ← append_users (bs "userinfo") profile friends response;
  seq ← seq_of sid;
  _ ← reply sid (start msg_type_getofriendlist seq) response;
  mret tt.

Definition OnFindUserResponse (sid : bytes) (conn : Z) (data : bytes) : W unit :=
  parsed ← lift (reader_parse data);
  match parsed with
  | None => mret tt
  | Some (root, comments) =>
      '(ok, root) ← lift (members_are [(bs "type", isInt); (bs "username", isString)] root);
      if ok : bool then
        '(name, root) ← lift (member_string (bs "username") root);
        root ← lift (clear root);
        found ← user_mgr (GetUserInfoByUsername name);
        root ← lift (set_members [(bs "code", intValue 0); (bs "msg", str "ok")] root);
        root ← match found with
               | None => lift (set_member (bs "userinfo") (str "[]") root)
               | Some u =>
                   re ← lift (set_members
                     [(bs "userid", intValue (userid u)); (bs "username", stringValue (username u));
                      (bs "nickname", stringValue (nickname u)); (bs "facetype", intValue (facetype u))]
                     nullValue);
                   lift (append_member (bs "userinfo") re root)
               end;
        seq ← seq_of sid;
        _ ← reply_with comments sid (start msg_type_finduser seq) root;
        mret tt
      else mret tt
  end.

(** [DeleteFriend]: both sides are told, a group's members are told that it changed. *)
Definition DeleteFriend (sid : bytes) (conn : Z) (friendid : Z) : W unit :=
  u ← me sid;
  let '(smallerid, greaterid) :=
    if decide (friendid > userid u) then (userid u, friendid) else (friendid, userid u) in
  ok ← user_mgr (ReleaseFriendRelationship smallerid greaterid);
  if ok : bool then
    cached ← user_mgr (GetUserInfoByUserId friendid);
    match cached with
    | None => mret tt
    | Some cachedUser =>
        root ← lift (set_members [(bs "userid", intValue friendid); (bs "type", intValue 5);
                                  (bs "username", stringValue (username cachedUser))] nullValue);
        seq ← seq_of sid;
        _ ← reply sid (start msg_type_operatefriend seq) root;
        if decide (friendid < GROUPID_BOUBDARY) then
          target ← GetSessionByID friendid;
          match target with
          | None => mret tt
          | Some t =>
              root ← lift (clear root);
              u ← me sid;
              root ← lift (set_members [(bs "userid", intValue (userid u)); (bs "type", intValue 5);
                                        (bs "username", stringValue (username u))] root);
              seq ← seq_of sid;
              _ ← reply t (start msg_type_operatefriend seq) root;
              mret tt
          end
        else
          friends ← user_mgr (GetFriendInfoByUserId friendid);
          notify_online friendid 3 friends
    end
  else mret tt.

Definition OnAddGroupResponse (sid : bytes) (conn : Z) (groupid : Z) : W unit :=
  u ← me sid;
  ok ← user_mgr (MakeFriendRelationship (userid u) groupid);
  if ok : bool then
    found ← user_mgr (GetUserInfoByUserId groupid);
    match found with
    | None => mret tt
    | Some groupUser =>
        root ← lift (set_members [(bs "userid", intValue (userid groupUser)); (bs "type", intValue 3);
                                  (bs "username", stringValue (username groupUser));
                                  (bs "accept", intValue 3)] nullValue);
        seq ← seq_of sid;
        _ ← reply sid (start msg_type_operatefriend seq) root;
        friends ← user_mgr (GetFriendInfoByUserId groupid);
        notify_online groupid 3 friends
    end
  else mret tt.

(** The end of [OnOperateFriendResponse]: [root] for the target, online or cached. The cache
    keeps the text alone. *)
Definition tell_target (sid : bytes) (targetUserid : Z) (root : Value) : W unit :=
  let outbuf := toStyledString root in
  seq ← seq_of sid;
  let writer := WriteData_string (start msg_type_operatefriend seq) outbuf in
  target ← GetSessionByID targetUserid;
  match target with
  | None => _ ← cache_mgr (AddNotifyMsgCache targetUserid outbuf); mret tt
  | Some t => _ ← Send t writer; mret tt
  end.

(** Type 3, an answer to a friend request: [None] where the handler returns early. *)
Definition answer_request (sid : bytes) (targetUserid : Z) (JsonRoot : Value) : W (option Value) :=
  '(ok, JsonRoot) ← lift (members_are [(bs "accept", isInt)] JsonRoot);
  if ok : bool then
    '(accept, _) ← lift (member_int (bs "accept") JsonRoot);
    u ← me sid;
    made ← (if decide (accept = 1) then
              let '(smallid, greatid) :=
                if decide (userid u > targetUserid) then (targetUserid, userid u)
                else (userid u, targetUserid) in
              user_mgr (MakeFriendRelationship smallid greatid)
            else mret true);
    if made : bool then
      u ← me sid;
      root ← lift (set_members [(bs "userid", intValue (userid u)); (bs "type", intValue 3);
                                (bs "username", stringValue (username u));
                                (bs "accept", intValue accept)] nullValue);
      found ← user_mgr (GetUserInfoByUserId targetUserid);
      match found with
      | None => mret None
      | Some targetUser =>
          re ← lift (set_members [(bs "userid", intValue (userid targetUser)); (bs "type", intValue 3);
                                  (bs "username", stringValue (username targetUser));
                                  (bs "accept", intValue accept)] nullValue);
          seq ← seq_of sid;
          _ ← reply sid (start msg_type_operatefriend seq) re;
          mret (Some root)
      end
    else mret None
  else mret None.

Definition OnOperateFriendResponse (sid : bytes) (conn : Z) (data : bytes) : W unit :=
  parsed ← lift (reader_parse data);
  match parsed with
  | None => mret tt
  | Some (JsonRoot, _) =>
      '(ok, JsonRoot) ← lift (members_are [(bs "type", isInt); (bs "userid", isInt)] JsonRoot);
      if ok : bool then
        '(type, JsonRoot) ← lift (member_int (bs "type") JsonRoot);
        '(targetUserid, JsonRoot) ← lift (member_int (bs "userid") JsonRoot);
        if decide (targetUserid >= GROUPID_BOUBDARY) then
          if decide (type = 4) then DeleteFriend sid conn targetUserid
          else OnAddGroupResponse sid conn targetUserid
        else if decide (type = 4) then DeleteFriend sid conn targetUserid
        else if decide (type = 1) then
          u ← me sid;
          root ← lift (set_members [(bs "userid", intValue (userid u)); (bs "type", intValue 2);
                                    (bs "username", stringValue (username u))] nullValue);
          tell_target sid targetUserid root
        else if decide (type = 3) then
          root ← answer_request sid targetUserid JsonRoot;
          match root with
          | Some root => tell_target sid targetUserid root
          | None => mret tt
          end
        else tell_target sid targetUserid nullValue
      else mret tt
  end.

Definition OnUpdateUserInfoResponse (sid : bytes) (conn : Z) (data : bytes) : W unit :=
  parsed ← lift (reader_parse data);
  match parsed with
  | None => mret tt
  | Some (root, comments) =>
      '(ok, root) ← lift (members_are
        [(bs "nickname", isString); (bs "facetype", isInt); (bs "customface", isString);
         (bs "gender", isInt); (bs "birthday", isInt); (bs "signature", isString);
         (bs "address", isString); (bs "phonenumber", isString); (bs "mail", isString)] root);
      if ok : bool then
        '(nick, root) ← lift (member_string (bs "nickname") root);
        '(face, root) ← lift (member_int (bs "facetype") root);
        '(custom, root) ← lift (member_string (bs "customface") root);
        '(gen, root) ← lift (member_int (bs "gender") root);
        '(birth, root) ← lift (member_int (bs "birthday") root);
        '(sign, root) ← lift (member_string (bs "signature") root);
        '(addr, root) ← lift (member_string (bs "address") root);
        '(phone, root) ← lift (member_string (bs "phonenumber") root);
        '(mail_, root) ← lift (member_string (bs "mail") root);
        let newuserinfo := new_info nick face custom gen birth sign addr phone mail_ in
        root ← lift (clear root);
        u ← me sid;
        updated ← user_mgr (UpdateUserInfo (userid u) newuserinfo);
        root ← lift (set_members
          (if updated : bool then
             [(bs "code", intValue 0); (bs "msg", str "ok"); (bs "userid", intValue (userid u));
              (bs "username", stringValue (username u)); (bs "nickname", stringValue nick);
              (bs "facetype", intValue face); (bs "customface", stringValue custom);
              (bs "gender", intValue gen); (bs "birthday", intValue birth);
              (bs "signature", stringValue sign); (bs "address", stringValue addr);
              (bs "phonenumber", stringValue phone); (bs "mail", stringValue mail_)]
           else [(bs "code", intValue 104); (bs "msg", str "update user info failed")]) root);
        seq ← seq_of sid;
        _ ← reply_with comments sid (start msg_type_updateuserinfo seq) root;
        u ← me sid;
        friends ← user_mgr (GetFriendInfoByUserId (userid u));
        notify_online (userid u) 3 friends
      else mret tt
  end.

Definition OnModifyPasswordResponse (sid : bytes) (conn : Z) (data : bytes) : W unit :=
  parsed ← lift (reader_parse data);
  match parsed with
  | None => mret tt
  | Some (root, comments) =>
      '(ok, root) ← lift (members_are [(bs "oldpassword", isString); (bs "newpassword", isString)] root);
      if ok : bool then
        '(oldpass, root) ← lift (member_string (bs "oldpassword") root);
        '(newPass, root) ← lift (member_string (bs "newpassword") root);
        root ← lift (clear root);
        u ← me sid;
        found ← user_mgr (GetUserInfoByUserId (userid u));
        match found with
        | None => mret tt
        | Some cachedUser =>
            root ← (if decide (password cachedUser = oldpass) then
                      changed ← user_mgr (ModifyUserPassword (userid u) newPass);
                      lift (set_members
                        (if changed : bool then [(bs "code", intValue 0); (bs "msg", str "ok")]
                         else [(bs "code", intValue 105); (bs "msg", str "modify password error")]) root)
                    else
                      lift (set_members [(bs "code", intValue 103);
                                         (bs "msg", str "incorrect old password")] root));
            seq ← seq_of sid;
            _ ← reply_with comments sid (start msg_type_modifypassword seq) root;
            mret tt
        end
      else mret tt
  end.

(** [OnCreateGroupResponse]: [groupid] is a local variable without a value until [AddGroup]
    succeeds. *)
Definition OnCreateGroupResponse (sid : bytes) (conn : Z) (data : bytes) : W unit :=
  parsed ← lift (reader_parse data);
  match parsed with
  | None => mret tt
  | Some (root, comments) =>
      '(ok, root) ← lift (members_are [(bs "groupname", isString)] root);
      if ok : bool then
        '(groupname, root) ← lift (member_string (bs "groupname") root);
        root ← lift (clear root);
        u ← me sid;
        added ← user_mgr (AddGroup groupname (userid u));
        root ← lift (set_members
          match added with
          | None => [(bs "code", intValue 106); (bs "msg", str "create group error")]
          | Some groupid =>
              [(bs "code", intValue 0); (bs "msg", str "ok"); (bs "groupid", intValue groupid);
               (bs "groupname", stringValue groupname)]
          end root);
        match added with
        | None => undef Uninitialised      (* MakeFriendRelationship(m_user->userid, groupid) *)
        | Some groupid =>
            u ← me sid;
            made ← user_mgr (MakeFriendRelationship (userid u) groupid);
            if made : bool then
              seq ← seq_of sid;
              _ ← reply_with comments sid (start msg_type_creategroup seq) root;
              re ← lift (set_members [(bs "userid", intValue groupid); (bs "type", intValue 3);
                                      (bs "username", stringValue groupname)] nullValue);
              seq ← seq_of sid;
              _ ← reply sid (start msg_type_operatefriend seq) re;
              mret tt
            else mret tt
        end
      else mret tt
  end.

(** The profile without the address, as the member list has it. *)
Definition member_profile (u : User) : list (bytes * Value) :=
  [(bs "userid", intValue (userid u)); (bs "username", stringValue (username u));
   (bs "nickname", stringValue (nickname u)); (bs "facetype", intValue (facetype u));
   (bs "customface", stringValue (custimface u)); (bs "gender", intValue (gender u));
   (bs "birthday", intValue (birthday u)); (bs "signature", stringValue (signature u));
   (bs "phonenumber", stringValue (phonenumber u)); (bs "mail", stringValue (mail u))].

Definition OnGetGroupMemberResponse (sid : bytes) (conn : Z) (data : bytes) : W unit :=
  parsed ← lift (reader_parse data);
  match parsed with
  | None => mret tt
  | Some (root, comments) =>
      '(ok, root) ← lift (members_are [(bs "groupid", isInt)] root);
      if ok : bool then
        '(groupid, root) ← lift (member_int (bs "groupid") root);
        root ← lift (clear root);
        root ← lift (set_members [(bs "code", intValue 0); (bs "msg", str "ok");
                                  (bs "groupid", intValue groupid)] root);
        friends ← user_mgr (GetFriendInfoByUserId groupid);
        root ← append_users (bs "members") member_profile friends root;
        seq ← seq_of sid;
        _ ← reply_with comments sid (start msg_type_getgroupmembers seq) root;
        mret tt
      else mret tt
  end.

(** [OnChatResponse]. One writer serves every recipient, and [Send] changes it. *)
Definition OnChatResponse (sid : bytes) (conn : Z) (data : bytes) : W unit :=
  s ← session sid;
  match m_target s with
  | None => undef Uninitialised
  | Some target =>
      let writer := WriteData_string (start msg_type_chat (m_seq s)) data in
      let writer := WriteData 4 writer (htonl (userid (m_user s))) in
      let writer := WriteData 4 writer (htonl target) in
      _ ← user_mgr (SaveChatMsgToDb (userid (m_user s)) target data);
      if decide (target < GROUPID_BOUBDARY) then
        t ← GetSessionByID target;
        match t with
        | None => _ ← cache_mgr (AddChatMsgCache target (toString writer)); mret tt
        | Some t => _ ← Send t writer; mret tt
        end
      else
        friends ← user_mgr (GetFriendInfoByUserId target);
        _ ← for_fold (fun writer u =>
          t ← GetSessionByID (userid u);
          match t with
          | None => _ ← cache_mgr (AddChatMsgCache (userid u) (toString writer)); mret writer
          | Some t => Send t writer
          end) writer friends;
        mret tt
  end.

(** The loop of [OnMultiChatResponse] over the elements of the array, from index [i]; [n] is
    the number of turns left. *)
Fixpoint multi_chat (n : nat) (sid : bytes) (conn : Z) (data : bytes) (i : Z) (root : Value) : W unit :=
  match n with
  | O => mret tt
  | S n' =>
      '(targets, root) ← lift (resolveReference (bs "targets") root);
      if decide (i < size targets) then
        '(x, targets) ← lift (resolveIndex i targets);
        root ← lift (set_member (bs "targets") targets root);
        t ← lift (asInt x);
        _ ← update_session sid (set_target t);
        _ ← OnChatResponse sid conn data;
        multi_chat n' sid conn data (i + 1) root
      else mret tt
  end.

Definition OnMultiChatResponse (sid : bytes) (conn : Z) (data : bytes) : W unit :=
  s ← session sid;
  parsed ← lift (reader_parse (m_targets s));
  match parsed with
  | None => mret tt
  | Some (root, _) =>
      '(targets, root) ← lift (resolveReference (bs "targets") root);
      if isArray targets then
        multi_chat (S (Z.to_nat (size targets))) sid conn data 0 root
      else mret tt
  end.

(** ** Process *)

(** The dispatch; [reader] stands after the data string. *)
Definition dispatch (cmd : Z) (sid : bytes) (conn : Z) (data : bytes) (reader : BinaryReader) : W unit :=
  if decide (cmd = msg_type_headerbeart) then OnHeartbeatResponse sid conn data
  else if decide (cmd = msg_type_register) then OnRegisterResponse sid conn data
  else if decide (cmd = msg_type_login) then OnLoginResponse sid conn data
  else if decide (cmd = msg_type_getofriendlist) then OnGetFriendListResponse sid conn data
  else if decide (cmd = msg_type_finduser) then OnFindUserResponse sid conn data
  else if decide (cmd = msg_type_operatefriend) then OnOperateFriendResponse sid conn data
  else if decide (cmd = msg_type_updateuserinfo) then OnUpdateUserInfoResponse sid conn data
  else if decide (cmd = msg_type_modifypassword) then OnModifyPasswordResponse sid conn data
  else if decide (cmd = msg_type_creategroup) then OnCreateGroupResponse sid conn data
  else if decide (cmd = msg_type_getgroupmembers) then OnGetGroupMemberResponse sid conn data
  else if decide (cmd = msg_type_chat) then
    _ ← match ReadData_int reader with
        | Some (t, _) => update_session sid (set_target t)
        | None => mret tt
        end;
    OnChatResponse sid conn data
  else if decide (cmd = msg_type_multichat) then
    '(targets, _) ← lift (ReadData_string reader);
    _ ← update_session sid (set_targets targets);
    OnMultiChatResponse sid conn data
  else mret tt.

Definition Process (sid : bytes) (conn : Z) (msgbuff : bytes) : W bool :=
  match ReadData_int (BinaryReader_of msgbuff) with
  | None => mret false
  | Some (cmd, reader) =>
      match ReadData_int reader with
      | None => mret false
      | Some (seq, reader) =>
          _ ← update_session sid (set_seq seq);
          '(data, reader) ← lift (ReadData_string reader);
          _ ← dispatch cmd sid conn data reader;
          mret true
      end
  end.

(** [OnRead], the message callback of the connection. *)
Definition ClientSession_OnRead (sid : bytes) (conn : Z) (buf : Buffer) : W Buffer :=
  OnRead chat_format (Process sid conn) (forceClose conn) buf.
End handlers.
