(* ===== verification/IMServer.v ===== *)
(** * IMServer (IMServer.h, IMServer.cpp)

    The chat server as a machine driven by its connections: they come up, deliver bytes and go
    down, one event at a time in the one loop thread. *)

From S2P Require Import Prelude Bytes Text StdMap BinaryReader Buffer Framing MsgCacheManager Json.
From S2P Require Import Database UserManager Conn World ClientSession.

Section server.
Context {D : Type} `{Database D} `{JsonText}.

Abbreviation W := (W (D := D)).

(** [OnClose]: the session, if any, leaves the map. *)
Definition OnClose (p : Z) : W unit :=
  modify (fun w => set_sessions (merase (ptr_text p) (m_mapclient w)) w).

(** [OnConnection], called on connection [p] when it comes up and when it goes down. The new
    session's [OnRead] becomes the connection's message callback, by a plain pointer; were the
    key in the map already, the session would die at once and leave it dangling. *)
Definition OnConnection (p : Z) : W unit :=
  c ← gets (fun w => conns w !! p);
  match state_ <$> c with
  | Some kConnected =>
      l ← gets m_mapclient;
      match mfind (ptr_text p) l with
      | Some _ => undef Dangling
      | None => modify (fun w => set_sessions (minsert (ptr_text p) (ClientSession_new p) (m_mapclient w)) w)
      end
  | _ => OnClose p
  end.

(** ** Events *)

(** The world and the input buffer of each connection. *)
Record Server := {
  world : World (D := D);
  inputs : gmap Z Buffer;
}.

Inductive event :=
| Connect (p : Z)                (* connectEstablished on a new connection object at p *)
| Receive (p : Z) (d : bytes)    (* handleRead: bytes arrived *)
| Disconnect (p : Z).            (* handleClose, and the connection object dies *)

Definition open (s : Server) (p : Z) : Prop :=
  match state_ <$> conns (world s) !! p with
  | Some kConnected | Some kDisconnecting => True
  | _ => False
  end.

(** A connection object is created at an address no living one has; only a connection that is
    not closed yet is read from or closed. *)
Definition enabled (e : event) (s : Server) : Prop :=
  match e with
  | Connect p => 0 <= p < 2 ^ 64 /\ conns (world s) !! p = None
  | Receive p d => d <> [] /\ open s p
  | Disconnect p => open s p
  end.

Definition handle_event (e : event) (s : Server) : outcome Server :=
  match e with
  | Connect p =>
      let w := set_conns (<[p := {| state_ := kConnected; sent := [] |}]> (conns (world s))) (world s) in
      '(_, w) ← OnConnection p w;
      mret {| world := w; inputs := <[p := Buffer_new kInitialSize]> (inputs s) |}
  | Receive p d =>
      match inputs s !! p with
      | None => Undef Dangling
      | Some b =>
          '(_, b) ← readFd b (Some d);
          '(b, w) ← ClientSession_OnRead (ptr_text p) p b (world s);
          mret {| world := w; inputs := <[p := b]> (inputs s) |}
      end
  | Disconnect p =>
      let w := set_conns (alter (fun c => {| state_ := kDisconnected; sent := sent c |}) p (conns (world s)))
                 (world s) in
      '(_, w) ← OnConnection p w;
      mret {| world := set_conns (delete p (conns w)) w; inputs := delete p (inputs s) |}
  end.

(** The server's runs. *)
Inductive step : Server -> Server -> Prop :=
| step_event e s s' : enabled e s -> handle_event e s = Ok s' -> step s s'.

(** [Init]: no connection yet. *)
Definition initial (u : UserManager) (d : D) : Server := {|
  world := {| users := u; database := d; msg_cache := MsgCacheManager_new; m_mapclient := [];
              conns := ∅ |};
  inputs := ∅ |}.

Inductive reachable (s0 : Server) : Server -> Prop :=
| reach_refl : reachable s0 s0
| reach_step s s' : reachable s0 s -> step s s' -> reachable s0 s'.
End server.
