(* ===== verification/Delivery.v ===== *)
(** * Running the handlers: sessions, replies and deliveries

    What a call on the world does, as equations: reading and changing a session, and handing a
    message to a connection as one packet. *)

From S2P Require Import Prelude Bytes Text StdMap BinaryReader Framing MsgCacheManager Json.
From S2P Require Import Database UserManager Conn World ClientSession.

(** ** Messages *)

(** The start of a message and its text. *)
Definition message (cmd seq : Z) (text : bytes) : bytes :=
  be_bytes 4 cmd ++ be_bytes 4 seq ++ string_bytes text.

(** The packet that carries a message. *)
Definition packet (m : bytes) : bytes := frame chat_format (send_preamble (len m), m).

(** Short enough for the sizes in the packet and for [send]. *)
Definition fits (m : bytes) : Prop := len m + 10 <= INT_MAX.

#[export] Instance fits_dec m : Decision (fits m).
Proof. unfold fits. apply _. Defined.

(** The documents of the replies. *)
Definition code_doc (code : Z) (msg : String.string) : Value :=
  object [(bs "code", intValue code); (bs "msg", str msg)].

Lemma len_packet m : len (packet m) = len m + 10.
Proof. unfold packet, frame, send_preamble, be_bytes. cbn [fst snd hdr chat_format]. len. unfold len. rewrite !length_rev, !length_le_bytes. lia. Qed.

(** A writer holds a message. *)
Definition holds (w : BinaryWriter) (m : bytes) : Prop := writer_ok w /\ toString w = m.

Lemma holds_data n w m v : holds w m -> len m + Z.of_nat n <= INT_MAX ->
  holds (WriteData n w v) (m ++ le_bytes n v).
Proof.
  intros [O <-] F. unfold INT_MAX in F. pose proof O as [E _]. unfold toString in *.
  split; [apply writer_ok_WriteData; [done|]; rewrite E; lia|].
  by rewrite WriteData_ok by (done || (rewrite E; lia)).
Qed.

Lemma holds_int w m v : holds w m -> len m + 4 <= INT_MAX ->
  holds (WriteData 4 w (htonl v)) (m ++ be_bytes 4 v).
Proof. intros Hm F. unfold htonl. rewrite <- le_bytes_bswap. by apply holds_data. Qed.

Lemma holds_new : holds BinaryWriter_new [].
Proof. by split. Qed.

Lemma holds_start cmd seq : holds (start cmd seq) (be_bytes 4 cmd ++ be_bytes 4 seq).
Proof.
  apply holds_int; [|len; unfold INT_MAX; lia].
  apply (holds_int _ [] cmd); [apply holds_new|unfold INT_MAX; len; lia].
Qed.

Lemma holds_string w m s : holds w m -> fits (m ++ string_bytes s) ->
  holds (WriteData_string w s) (m ++ string_bytes s).
Proof.
  intros [O <-] F. unfold fits, INT_MAX in F. rewrite len_app in F. pose proof O as [E _]. unfold toString in *.
  split; [apply writer_ok_WriteData_string; [done|]; rewrite E; lia|].
  by rewrite WriteData_string_ok by (done || (rewrite E; lia)).
Qed.

Lemma holds_message cmd seq s : fits (message cmd seq s) ->
  holds (WriteData_string (start cmd seq) s) (message cmd seq s).
Proof.
  unfold message. rewrite app_assoc. intros F. apply holds_string; [apply holds_start|done].
Qed.

Lemma fits_app a b : fits (a ++ b) -> fits a.
Proof. unfold fits. rewrite len_app. pose proof (len_nonneg b). lia. Qed.

(** What [Send] leaves in the writer: the header of the packet. *)
Definition header_left (m : bytes) : bytes := le_bytes 4 (len m + 6) ++ send_preamble (len m).

Section world.
Context {D : Type} `{Database D}.

Abbreviation World := (World (D := D)).
Abbreviation W := (W (D := D)).

(** ** Sending *)

Definition deliver (c : Z) (m : bytes) (w : World) : World :=
  set_conns (alter (conn_send (packet m)) c (conns w)) w.

Lemma Send_to_ok c wr m w : holds wr m -> fits m ->
  exists wr', Send_to (Some c) wr w = Ok (wr', deliver c m w) /\ holds wr' (header_left m).
Proof.
  intros [O <-] F. unfold fits in F. destruct (chat_pack_frame wr) as (wr' & E & T); [unfold toString in *; lia|].
  exists wr'. unfold Send_to, lift, mbind, M_bind. rewrite E. fold (packet (toString wr)).
  rewrite decide_True by (rewrite len_packet; lia). split; [done|]. split; [|exact T].
  pose proof (len_nonneg (toString wr)). unfold chat_pack in E. revert E. unfold int_add.
  case_decide; [|done]. intros E.
  apply (f_equal (fun o => match o with Ok p => p.2 | _ => wr' end)) in E.
  change (WriteData 2 (WriteData 4 (WriteData 4 BinaryWriter_new (to_i32 (len (toString wr)) + 6))
            (htonl (to_i32 (len (toString wr))))) (htons 0) = wr') in E. subst wr'.
  refine (proj1 (holds_data 2 _ _ _ (holds_data 4 _ _ _ (holds_data 4 _ _ _ holds_new _) _) _));
    len; unfold INT_MAX; lia.
Qed.

Lemma Send_ok t s c wr m w : mfind t (m_mapclient w) = Some s -> m_conn s = Some c ->
  holds wr m -> fits m ->
  exists wr', Send t wr w = Ok (wr', deliver c m w) /\ holds wr' (header_left m).
Proof.
  intros Es Ec Hm F. unfold Send, session, mbind at 1, M_bind at 1. rewrite Es, Ec.
  by apply Send_to_ok.
Qed.

(** Looking at the session. *)
Lemma session_ok sid s (w : World) : mfind sid (m_mapclient w) = Some s -> session sid w = Ok (s, w).
Proof. unfold session. by intros ->. Qed.

Lemma me_ok sid s (w : World) : mfind sid (m_mapclient w) = Some s -> me sid w = Ok (m_user s, w).
Proof. intros E. unfold me. by rewrite (bind_ok _ _ _ _ _ (session_ok _ _ _ E)). Qed.

Lemma seq_of_ok sid s (w : World) : mfind sid (m_mapclient w) = Some s -> seq_of sid w = Ok (m_seq s, w).
Proof. intros E. unfold seq_of. by rewrite (bind_ok _ _ _ _ _ (session_ok _ _ _ E)). Qed.

(** The world after a change of the session. *)
Definition with_session (sid : bytes) (s : ClientSession) (w : World) : World :=
  set_sessions (mset sid s (m_mapclient w)) w.

Lemma update_session_ok sid f s (w : World) : mfind sid (m_mapclient w) = Some s ->
  update_session sid f w = Ok (tt, with_session sid (f s) w).
Proof. unfold update_session. by intros ->. Qed.

Lemma find_with_session sid s (w : World) : mfind sid (m_mapclient (with_session sid s w)) = Some s.
Proof. apply mfind_mset_eq. Qed.

Lemma lift_ok {A} (o : outcome A) a (w : World) : o = Ok a -> lift o w = Ok (a, w).
Proof. unfold lift. by intros ->. Qed.

(** A call on the user manager that leaves everything else as it is. *)
Definition with_users (s : UserManager * D) (w : World) : World :=
  {| users := s.1; database := s.2; msg_cache := msg_cache w; m_mapclient := m_mapclient w; conns := conns w |}.

Lemma user_mgr_ok {A} (f : U A) (a : A) s (w : World) : f (users w, database w) = Ok (a, s) ->
  user_mgr f w = Ok (a, with_users s w).
Proof. unfold user_mgr, zoom. by intros ->. Qed.

Lemma with_users_id (w : World) : with_users (users w, database w) w = w.
Proof. by destruct w. Qed.

(** One that only looks. *)
Lemma user_mgr_read {A} (f : UserManager -> A) (w : World) : user_mgr (mgr f : U A) w = Ok (f (users w), w).
Proof. by rewrite (user_mgr_ok _ (f (users w)) (users w, database w)), with_users_id. Qed.

Definition with_cache (c : MsgCacheManager) (w : World) : World :=
  {| users := users w; database := database w; msg_cache := c; m_mapclient := m_mapclient w; conns := conns w |}.

Lemma cache_mgr_ok {A} (f : M MsgCacheManager A) a c (w : World) : f (msg_cache w) = Ok (a, c) ->
  cache_mgr f w = Ok (a, with_cache c w).
Proof. unfold cache_mgr, zoom. by intros ->. Qed.
End world.

(** ** Replies *)

Section replies.
Context {D : Type} `{Database D} `{JsonText}.

Abbreviation World := (World (D := D)).
Abbreviation W := (W (D := D)).

Lemma reply_to_ok c cmd seq root (w : World) : fits (message cmd seq (toStyledString root)) ->
  reply_to c (start cmd seq) root w = Ok (tt, deliver c (message cmd seq (toStyledString root)) w).
Proof.
  intros F. destruct (Send_to_ok c _ _ w (holds_message _ _ _ F) F) as (wr & E & _).
  unfold reply_to. by step E.
Qed.

Lemma reply_with_ok cm sid s c cmd seq root (w : World) : mfind sid (m_mapclient w) = Some s ->
  m_conn s = Some c -> fits (message cmd seq (toStyledString_with cm root)) ->
  exists wr, reply_with cm sid (start cmd seq) root w
    = Ok (wr, deliver c (message cmd seq (toStyledString_with cm root)) w).
Proof.
  intros Es Ec F. destruct (Send_ok sid s c _ _ w Es Ec (holds_message _ _ _ F) F) as (wr & E & _).
  exists wr. exact E.
Qed.

Lemma reply_ok sid s c cmd seq root (w : World) : mfind sid (m_mapclient w) = Some s ->
  m_conn s = Some c -> fits (message cmd seq (toStyledString root)) ->
  exists wr, reply sid (start cmd seq) root w
    = Ok (wr, deliver c (message cmd seq (toStyledString root)) w).
Proof. apply reply_with_ok. Qed.

Lemma reply_code_ok c cmd seq code msg (w : World) :
  fits (message cmd seq (toStyledString (code_doc code msg))) ->
  reply_code c (start cmd seq) code msg w
  = Ok (tt, deliver c (message cmd seq (toStyledString (code_doc code msg))) w).
Proof.
  intros F. unfold reply_code. step (lift_ok _ _ w (set_members_null [(bs "code", intValue code); (bs "msg", str msg)])). by apply reply_to_ok.
Qed.

(** ** Reading the request *)

Lemma members_are_ok l v (w : World) : complex v ->
  exists v', lift (members_are l v) w = Ok (forallb (fun p => p.2 (get p.1 v)) l, v', w) /\ complex v'
    /\ (forall k, get k v' = get k v).
Proof. intros C. destruct (members_are_complex l v C) as (v' & E & ?). exists v'. by rewrite (lift_ok _ _ w E). Qed.

Lemma member_string_ok key v s (w : World) : complex v -> get key v = stringValue s ->
  exists v', lift (member_string key v) w = Ok (s, v', w) /\ complex v' /\ (forall k, get k v' = get k v).
Proof. intros C E. destruct (member_string_complex key v s C E) as (v' & E' & ?). exists v'. by rewrite (lift_ok _ _ w E'). Qed.

Lemma member_int_ok key v i (w : World) : complex v -> asInt (get key v) = Ok i ->
  exists v', lift (member_int key v) w = Ok (i, v', w) /\ complex v' /\ (forall k, get k v' = get k v).
Proof. intros C E. destruct (member_int_complex key v i C E) as (v' & E' & ?). exists v'. by rewrite (lift_ok _ _ w E'). Qed.

Lemma isString_get v : isString v = true -> exists s, v = stringValue s.
Proof. destruct v; try done. eauto. Qed.

(** ** Pushing and looking up *)

Definition deliver_all (c : Z) (ms : list bytes) (w : World) : World := fold_left (fun w m => deliver c m w) ms w.

Lemma deliver_sessions c m (w : World) : m_mapclient (deliver c m w) = m_mapclient w.
Proof. done. Qed.

Lemma deliver_all_sessions c ms (w : World) : m_mapclient (deliver_all c ms w) = m_mapclient w.
Proof. revert w. induction ms as [|m ms IH]; intros w; [done|]. simpl. by rewrite IH. Qed.

(** A cached message goes out as a string of its own. *)
Lemma push_cached_ok sid s c msgs (w : World) : mfind sid (m_mapclient w) = Some s -> m_conn s = Some c ->
  Forall (fun m => fits (string_bytes m)) msgs ->
  push_cached sid msgs w = Ok (tt, deliver_all c (string_bytes <$> msgs) w).
Proof.
  intros Es Ec F. revert w Es. induction F as [|m msgs Hm F IH]; intros w Es; [done|].
  unfold push_cached. cbn [for_each].
  destruct (Send_ok sid s c _ _ w Es Ec (holds_string BinaryWriter_new [] m holds_new Hm) Hm) as (wr & E & _).
  change ([] ++ string_bytes m) with (string_bytes m) in E.
  unfold mbind at 1, M_bind at 1. step E. exact (IH (deliver c (string_bytes m) w) Es).
Qed.

Lemma GetSessionByID_ok id (w : World) :
  GetSessionByID id w = Ok (fst <$> find_session id (m_mapclient w), w).
Proof. done. Qed.
End replies.
