(* ===== verification/Room.v ===== *)
(** * A server with two clients, for the witnesses

    Users 1 (ann) and 2 (bob) are friends. Session [sid_b] is bob's, session [sid_a] has not
    logged in; a notification and two chat messages are kept for ann. The database keeps the
    statements it is sent. *)

From S2P Require Import Prelude Bytes Text StdMap BinaryReader Framing MsgCacheManager Json.
From S2P Require Import JsonReader JsonWriter Database UserManager UserManagerProofs.
From S2P Require Import UserManagerLoad Conn World ClientSession.

Definition ptr_a : Z := 0x7f0010.
Definition ptr_b : Z := 0x7f0020.
Definition sid_a : bytes := ptr_text ptr_a.
Definition sid_b : bytes := ptr_text ptr_b.

Definition friends_made : UserManager * journal :=
  match MakeFriendRelationship 1 2 two_users with
  | Ok (_, s) => s
  | _ => two_users
  end.

Definition up : Conn := {| state_ := kConnected; sent := [] |}.

Definition session_a : ClientSession := set_seq 7 (ClientSession_new ptr_a).
Definition session_b : ClientSession :=
  set_seq 9 (set_user (set_status 1 (default User_new (find_user (fun u => userid u =? 2)
    (m_cachedUsers friends_made.1)))) (ClientSession_new ptr_b)).

(** Ann's session once she is logged in. *)
Definition session_ann : ClientSession :=
  set_user (default User_new (find_user (fun u => userid u =? 1) (m_cachedUsers friends_made.1))) session_a.

Definition kept : MsgCacheManager := {|
  m_listNotifyMsgCache := [{| n_userid := 1; notifymsg := bs "news" |}];
  m_listChatMsgCache := [{| c_userid := 1; chatmsg := bs "hi" |}; {| c_userid := 3; chatmsg := bs "ho" |};
                         {| c_userid := 1; chatmsg := bs "ha" |}] |}.

Definition room_of (a : ClientSession) : World (D := journal) := {|
  users := friends_made.1; database := journal_new; msg_cache := kept;
  m_mapclient := [(sid_a, a); (sid_b, session_b)];
  conns := <[ptr_a := up]> (<[ptr_b := up]> ∅) |}.

Definition room := room_of session_a.

(** The room with ann in it. *)
Definition room_ann := room_of session_ann.

(** A JSON text, with single quotes for double ones. *)
Definition json (s : String.string) : bytes :=
  (fun c => if decide (c = chr 39) then QUOTE else c) <$> bs s.

Lemma room_sorted a : sorted_map (m_mapclient (room_of a)).
Proof. repeat constructor. Qed.

Definition root_of (data : bytes) : Value :=
  match reader_parse data with Ok (Some (v, _)) => v | _ => nullValue end.

Lemma parse_root data : match reader_parse data with Ok (Some (_, c)) => c = no_comments | _ => False end ->
  reader_parse data = Ok (Some (root_of data, no_comments)).
Proof. unfold root_of. destruct (reader_parse data) as [[[v c]|]| |]; [by intros ->|done..]. Qed.
