(* ===== verification/ChatLogin.v ===== *)
(** * Registration and login

    What a client gets for [msg_type_register] and [msg_type_login]: the response codes, the
    order in which the messages kept for it come out, and who is told that it is online. *)

From S2P Require Import Prelude Bytes Text StdMap BinaryReader Framing MsgCacheManager Json.
From S2P Require Import Database UserManager Conn World ClientSession Delivery Room JsonReader.
From S2P Require Import JsonWriter UserManagerProofs UserManagerLoad.

(** The messages the cache has for a user, oldest first. *)
Definition notify_pending (id : Z) (c : MsgCacheManager) : list bytes :=
  notifymsg <$> filter (fun x => n_userid x =? id) (m_listNotifyMsgCache c).
Definition chat_pending (id : Z) (c : MsgCacheManager) : list bytes :=
  chatmsg <$> filter (fun x => c_userid x =? id) (m_listChatMsgCache c).

(** The cache without them. *)
Definition taken (id : Z) (c : MsgCacheManager) : MsgCacheManager := {|
  m_listNotifyMsgCache := filter (fun x => negb (n_userid x =? id)) (m_listNotifyMsgCache c);
  m_listChatMsgCache := filter (fun x => negb (c_userid x =? id)) (m_listChatMsgCache c) |}.

(** The document of a successful login. *)
Definition login_doc (name : bytes) (u : User) : Value := object
  [(bs "code", intValue 0); (bs "msg", str "ok"); (bs "userid", intValue (userid u));
   (bs "nickname", stringValue (nickname u)); (bs "facetype", intValue (facetype u));
   (bs "customface", stringValue (custimface u)); (bs "gender", intValue (gender u));
   (bs "birthday", intValue (birthday u)); (bs "signature", stringValue (signature u));
   (bs "address", stringValue (address u)); (bs "phonenumber", stringValue (phonenumber u));
   (bs "mail", stringValue (mail u)); (bs "username", stringValue name)].

Definition status_doc (type : Z) : Value := object
  (if decide (type = 1) then [(bs "type", intValue 1); (bs "onlinestatus", intValue 1)]
   else if decide (type = 2) then [(bs "type", intValue 2); (bs "onlinestatus", intValue 0)]
   else if decide (type = 3) then [(bs "type", intValue 3)]
   else []).

Section login.
Context {D : Type} `{Database D} `{JsonText}.

Abbreviation World := (World (D := D)).

(** ** Status notifications *)

(** What the session of a user is told about user [id], if there is one. *)
Definition notification (id type : Z) (l : list (bytes * ClientSession)) (u : User) : option (option Z * bytes) :=
  (fun p => (m_conn p.2, message msg_type_userstatuschange (m_seq p.2) (toStyledString (status_doc type))
                         ++ be_bytes 4 id)) <$> find_session (userid u) l.

Definition deliver_each (ms : list (option Z * bytes)) (w : World) : World :=
  fold_left (fun w p => match p.1 with Some c => deliver c p.2 w | None => w end) ms w.

(** Sessions are under their keys. *)
Lemma find_session_mfind id l t st : sorted_map l -> find_session id l = Some (t, st) -> mfind t l = Some st.
Proof. intros S E. apply List.find_some in E as [Hin _]. apply elem_mfind; [done|by apply list_elem_of_In]. Qed.

Lemma status_ok t st id type (w : World) : mfind t (m_mapclient w) = Some st ->
  fits (message msg_type_userstatuschange (m_seq st) (toStyledString (status_doc type)) ++ be_bytes 4 id) ->
  SendUserStatusChangeMsg t id type w
  = Ok (tt, deliver_each [(m_conn st, message msg_type_userstatuschange (m_seq st)
              (toStyledString (status_doc type)) ++ be_bytes 4 id)] w).
Proof.
  intros Et F. unfold SendUserStatusChangeMsg.
  match goal with |- context [set_members ?l _] => step (lift_ok _ _ w (set_members_null l)) end.
  step (seq_of_ok t st w Et). fold (status_doc type).
  pose proof (holds_message _ _ _ (fits_app _ _ F)) as Hm.
  pose proof (holds_int _ _ id Hm ltac:(revert F; unfold fits; len; lia)) as Hw.
  destruct (m_conn st) as [c|] eqn:Ec.
  - destruct (Send_ok t st c _ _ w Et Ec Hw F) as (wr & E & _). by step E.
  - unfold Send, mbind, M_bind, session. by rewrite Et, Ec.
Qed.

Lemma deliver_each_sessions ms (w : World) : m_mapclient (deliver_each ms w) = m_mapclient w.
Proof. revert w. induction ms as [|[[c|] m] ms IH]; intros w; [done|..]; simpl; by rewrite IH. Qed.

Lemma notify_online_ok id type fs (w : World) : sorted_map (m_mapclient w) ->
  Forall (fun p => fits p.2) (omap (notification id type (m_mapclient w)) fs) ->
  notify_online id type fs w = Ok (tt, deliver_each (omap (notification id type (m_mapclient w)) fs) w).
Proof.
  revert w. induction fs as [|u fs IH]; intros w S F; [done|].
  unfold notify_online. cbn [for_each omap list_omap] in *. unfold mbind at 1, M_bind at 1.
  step (GetSessionByID_ok (userid u) w). unfold notification in F at 1. unfold notification at 1.
  destruct (find_session (userid u) (m_mapclient w)) as [[t st]|] eqn:E; cbn [fmap option_fmap option_map fst snd] in *.
  - apply Forall_cons in F as [F1 F2]. cbn [snd] in F1.
    rewrite (status_ok t st id type w (find_session_mfind _ _ _ _ S E) F1).
    set (w1 := deliver_each [_] w).
    assert (m_mapclient w1 = m_mapclient w) as Em by apply deliver_each_sessions.
    specialize (IH w1). rewrite Em in IH. exact (IH S F2).
  - exact (IH w S F).
Qed.

Lemma deliver_all_cache c ms k (w : World) :
  deliver_all c ms (with_cache k w) = with_cache k (deliver_all c ms w).
Proof. revert w. induction ms as [|m ms IH]; intros w; [done|]. apply (IH (deliver c m w)). Qed.

Lemma deliver_all_users c ms (w : World) :
  users (deliver_all c ms w) = users w /\ database (deliver_all c ms w) = database w.
Proof. revert w. induction ms as [|m ms IH]; intros w; [done|]. apply (IH (deliver c m w)). Qed.

Lemma deliver_all_cons c m ms (w : World) : deliver_all c (m :: ms) w = deliver_all c ms (deliver c m w).
Proof. done. Qed.

Lemma deliver_all_app c ms ms' (w : World) : deliver_all c (ms ++ ms') w = deliver_all c ms' (deliver_all c ms w).
Proof. unfold deliver_all. by rewrite fold_left_app. Qed.

Lemma with_cache_twice k k' (w : World) : with_cache k (with_cache k' w) = with_cache k w.
Proof. done. Qed.

Lemma take_notify_ok id (w : World) :
  cache_mgr (GetNotifyMsgCache id []) w
  = Ok (filter (fun x => n_userid x =? id) (m_listNotifyMsgCache (msg_cache w)),
        with_cache {| m_listNotifyMsgCache := m_listNotifyMsgCache (taken id (msg_cache w));
                      m_listChatMsgCache := m_listChatMsgCache (msg_cache w) |} w).
Proof. apply cache_mgr_ok. unfold GetNotifyMsgCache. by rewrite drain_spec. Qed.

Lemma take_chat_ok id (w : World) :
  cache_mgr (GetChatMagCache id []) w
  = Ok (filter (fun x => c_userid x =? id) (m_listChatMsgCache (msg_cache w)),
        with_cache {| m_listNotifyMsgCache := m_listNotifyMsgCache (msg_cache w);
                      m_listChatMsgCache := m_listChatMsgCache (taken id (msg_cache w)) |} w).
Proof. apply cache_mgr_ok. unfold GetChatMagCache. by rewrite drain_spec. Qed.

Lemma deliver_all_msg_cache c ms (w : World) : msg_cache (deliver_all c ms w) = msg_cache w.
Proof. revert w. induction ms as [|m ms IH]; intros w; [done|]. simpl. by rewrite IH. Qed.

(** ** Login *)

(** What comes after the response, for the user [u] of session [sid]. *)
Lemma after_login_ok sid s conn fs (w : World) :
  let id := userid (m_user s) in
  let w1 := deliver_all conn
      (string_bytes <$> notify_pending id (msg_cache w) ++ chat_pending id (msg_cache w))
      (with_cache (taken id (msg_cache w)) w) in
  let told := omap (notification id 1 (m_mapclient w)) fs in
  GetFriendInfoByUserId id (users w, database w) = Ok (fs, (users w, database w)) ->
  mfind sid (m_mapclient w) = Some s -> m_conn s = Some conn -> sorted_map (m_mapclient w) ->
  Forall (fun m => fits (string_bytes m)) (notify_pending id (msg_cache w) ++ chat_pending id (msg_cache w)) ->
  Forall (fun p => fits p.2) told ->
  after_login sid w = Ok (tt, deliver_each told w1).
Proof.
  intros id w1 told Efs Es Ec S F2 F3. apply Forall_app in F2 as [Fn Fc].
  unfold after_login. step (me_ok sid s w Es). step (take_notify_ok id w). fold (notify_pending id (msg_cache w)).
  set (wd := with_cache _ w).
  step (push_cached_ok sid s conn (notify_pending id (msg_cache w)) wd Es Ec Fn).
  set (we := deliver_all conn _ wd).
  assert (mfind sid (m_mapclient we) = Some s) as Ewe by (unfold we; by rewrite deliver_all_sessions).
  step (me_ok sid s we Ewe). step (take_chat_ok id we).
  assert (msg_cache we = msg_cache wd) as Ecc by apply deliver_all_msg_cache. rewrite !Ecc.
  set (wf := with_cache _ we).
  step (push_cached_ok sid s conn (chat_pending id (msg_cache w)) wf Ewe Ec Fc).
  set (wg := deliver_all conn _ wf).
  assert (wg = w1) as ->.
  { unfold w1. rewrite fmap_app, deliver_all_app.
    unfold wg, wf, we, wd. rewrite !deliver_all_cache, with_cache_twice. reflexivity. }
  assert (m_mapclient w1 = m_mapclient w) as Ew1 by (unfold w1; by rewrite deliver_all_sessions).
  assert (mfind sid (m_mapclient w1) = Some s) as Ewg by (by rewrite Ew1).
  step (me_ok sid s w1 Ewg). rewrite (bind_ok _ _ _ fs w1).
  - unfold told in *. rewrite <- Ew1 in *. by apply notify_online_ok.
  - rewrite (user_mgr_ok _ fs (users w1, database w1)), with_users_id; [done|].
    destruct (deliver_all_users conn (string_bytes <$> notify_pending id (msg_cache w) ++ chat_pending id (msg_cache w))
       (with_cache (taken id (msg_cache w)) w)) as [Eu1 Ed1].
    unfold w1. by rewrite Eu1, Ed1.
Qed.

(** The fields of a login request. *)
Record login_request (root : Value) (name pass : bytes) (client : Z) : Prop := {
  lr_complex : complex root;
  lr_name : get (bs "username") root = stringValue name;
  lr_pass : get (bs "password") root = stringValue pass;
  lr_client : isInt (get (bs "clienttype") root) = true /\ asInt (get (bs "clienttype") root) = Ok client;
  lr_status : isInt (get (bs "status") root) = true;
}.

(** The user of a session after the login of [u]. *)
Definition login_user (u : User) (name : bytes) (client : Z) (mine : User) : User :=
  set_status 1 (logged_in u name (password u) client mine).

(** A login with the stored password, up to the response. *)
Lemma login_accepted sid s conn data root cm name client u (w : World) :
  mfind sid (m_mapclient w) = Some s ->
  reader_parse data = Ok (Some (root, cm)) -> login_request root name (password u) client ->
  find_user (fun v => bool_decide (username v = name)) (m_cachedUsers (users w)) = Some u ->
  fits (message msg_type_login (m_seq s) (toStyledString (login_doc name u))) ->
  OnLoginResponse sid conn data w
  = after_login sid (deliver conn (message msg_type_login (m_seq s) (toStyledString (login_doc name u)))
      (with_session sid (set_user (login_user u name client (m_user s)) s) w)).
Proof.
  intros Es Ep [C En Epw [Ei Ea] Est] Eu F1.
  unfold OnLoginResponse. step (seq_of_ok sid s w Es). step (lift_ok _ _ w Ep).
  destruct (members_are_ok [(bs "username", isString); (bs "password", isString);
    (bs "clienttype", isInt); (bs "status", isInt)] root w C) as (v1 & E1 & C1 & G1).
  step E1. cbn [forallb fst snd]. rewrite En, Epw, Ei, Est. cbn [isString andb].
  destruct (member_string_ok (bs "username") v1 name w C1) as (v2 & E2 & C2 & G2); [by rewrite G1|].
  step E2.
  destruct (member_string_ok (bs "password") v2 (password u) w C2) as (v3 & E3 & C3 & G3); [by rewrite G2, G1|].
  step E3. step (user_mgr_read (fun m => find_user (fun v => bool_decide (username v = name)) (m_cachedUsers m)) w).
  rewrite Eu, decide_True by done.
  destruct (member_int_ok (bs "clienttype") v3 client w C3) as (v4 & E4 & _); [by rewrite G3, G2, G1|].
  step E4. step (update_session_ok sid (fun s => set_user (logged_in u name (password u) client (m_user s)) s) s w Es).
  set (wa := with_session _ _ _).
  match goal with |- context [lift (set_members ?l nullValue)] => step (lift_ok _ _ wa (set_members_null l)) end.
  fold (login_doc name u).
  step (update_session_ok sid (fun s => set_user (set_status 1 (m_user s)) s) _ wa (find_with_session _ _ _)).
  assert (with_session sid (set_user (set_status 1 (m_user (set_user (logged_in u name (password u) client (m_user s)) s)))
            (set_user (logged_in u name (password u) client (m_user s)) s)) wa
          = with_session sid (set_user (login_user u name client (m_user s)) s) w) as ->.
  { unfold wa, with_session, set_sessions. simpl. by rewrite mset_mset. }
  set (s1 := set_user (login_user u name client (m_user s)) s).
  set (wb := with_session sid s1 w). by step (reply_to_ok conn _ _ _ wb F1).
Qed.

(** C1: A login with the stored password does this and nothing else, in this order: the session
    takes over the account; its client gets the response with the profile, then every
    notification kept for it, then every chat message kept for it, each oldest first, and those
    leave the cache; then each friend that is online is told, once, in the order of their ids. *)
Theorem login_success sid s conn data root cm name client u (w : World) :
  let w1 := deliver_all conn
      (message msg_type_login (m_seq s) (toStyledString (login_doc name u))
       :: (string_bytes <$> notify_pending (userid u) (msg_cache w) ++ chat_pending (userid u) (msg_cache w)))
      (with_cache (taken (userid u) (msg_cache w))
         (with_session sid (set_user (login_user u name client (m_user s)) s) w)) in
  forall fs, GetFriendInfoByUserId (userid u) (users w, database w) = Ok (fs, (users w, database w)) ->
  let told := omap (notification (userid u) 1 (m_mapclient w1)) fs in
  mfind sid (m_mapclient w) = Some s -> m_conn s = Some conn -> sorted_map (m_mapclient w) ->
  reader_parse data = Ok (Some (root, cm)) -> login_request root name (password u) client ->
  find_user (fun v => bool_decide (username v = name)) (m_cachedUsers (users w)) = Some u ->
  fits (message msg_type_login (m_seq s) (toStyledString (login_doc name u))) ->
  Forall (fun m => fits (string_bytes m))
    (notify_pending (userid u) (msg_cache w) ++ chat_pending (userid u) (msg_cache w)) ->
  Forall (fun p => fits p.2) told ->
  OnLoginResponse sid conn data w = Ok (tt, deliver_each told w1).
Proof.
  intros w1 fs Efs told Es Ec S Ep L Eu F1 F2 F3. rewrite (login_accepted sid s conn data root cm name client u w Es Ep L Eu F1).
  set (s1 := set_user (login_user u name client (m_user s)) s). set (wb := with_session sid s1 w).
  rewrite (after_login_ok sid s1 conn fs (deliver conn _ wb));
    [unfold told, w1; rewrite deliver_all_sessions, deliver_all_cons; reflexivity|exact Efs|apply find_with_session|exact Ec
    |by apply sorted_mset|exact F2|].
  unfold told in F3. unfold w1 in F3. by rewrite deliver_all_sessions in F3.
Qed.

(** The tests of the two handlers. *)
Definition login_tests : list (bytes * (Value -> bool)) :=
  [(bs "username", isString); (bs "password", isString); (bs "clienttype", isInt); (bs "status", isInt)].
Definition register_tests : list (bytes * (Value -> bool)) :=
  [(bs "username", isString); (bs "nickname", isString); (bs "password", isString)].

Definition passes (l : list (bytes * (Value -> bool))) (root : Value) : bool :=
  forallb (fun p => p.2 (get p.1 root)) l.

(** An error response to [cmd] on [conn], and nothing else. *)
Definition answers_only (cmd : Z) (s : ClientSession) (conn : Z) (code : Z) (text : String.string)
    (r : outcome (unit * World)) (w : World) : Prop :=
  fits (message cmd (m_seq s) (toStyledString (code_doc code text))) ->
  r = Ok (tt, deliver conn (message cmd (m_seq s) (toStyledString (code_doc code text))) w).

(** Every login that is not right gets exactly one response, and changes nothing: 101 when
    the text is not JSON, 102 when a field is missing or has the wrong type, 103 when the name
    is unknown, 104 when the password is not the stored one. In particular the session stays
    with the user it had. *)
Theorem login_refused sid s conn data (w : World) : mfind sid (m_mapclient w) = Some s ->
  let refused := fun code text => answers_only msg_type_login s conn code text (OnLoginResponse sid conn data w) w in
  (reader_parse data = Ok None -> refused 101 "json pares failed!"%string)
  /\ (forall root cm, reader_parse data = Ok (Some (root, cm)) -> complex root ->
      (passes login_tests root = false -> refused 102 "json data type error!"%string)
      /\ (forall name pass client, login_request root name pass client ->
          match find_user (fun v => bool_decide (username v = name)) (m_cachedUsers (users w)) with
          | None => refused 103 "user is not exist or password is incorrest!"%string
          | Some u => pass <> password u -> refused 104 "user is not exist or password is incorrest!"%string
          end)).
Proof.
  intros Es refused. unfold refused, answers_only, OnLoginResponse. split.
  - intros Ep F. step (seq_of_ok sid s w Es). step (lift_ok _ _ w Ep). by apply reply_code_ok.
  - intros root cm Ep C. split.
    + intros Et F. step (seq_of_ok sid s w Es). step (lift_ok _ _ w Ep).
      destruct (members_are_ok login_tests root w C) as (v1 & E1 & _). unfold login_tests in E1. step E1.
      unfold passes, login_tests in Et. rewrite Et. by apply reply_code_ok.
    + intros name pass client [_ En Epw [Ei Ea] Est].
      destruct (members_are_ok login_tests root w C) as (v1 & E1 & C1 & G1). unfold login_tests in E1.
      cbn [forallb fst snd] in E1. rewrite En, Epw, Ei, Est in E1.
      destruct (member_string_ok (bs "username") v1 name w C1) as (v2 & E2 & C2 & G2); [by rewrite G1|].
      destruct (member_string_ok (bs "password") v2 pass w C2) as (v3 & E3 & C3 & G3); [by rewrite G2, G1|].
      destruct (find_user _ _) as [u|] eqn:Eu; intros; step (seq_of_ok sid s w Es); step (lift_ok _ _ w Ep);
        step E1; cbn [isString andb]; step E2; step E3;
        step (user_mgr_read (fun m => find_user (fun v => bool_decide (username v = name)) (m_cachedUsers m)) w);
        rewrite Eu; [rewrite decide_False by done|]; by apply reply_code_ok.
Qed.

(** Registration answers 101 for text that is not JSON, 102 for a missing or mistyped field,
    and otherwise what [AddUser] says: 0 when the user was stored, 100 when not. The manager and
    the database change as [AddUser] changes them; nothing else does, so registering does not log
    in. *)
Theorem register_outcome sid s conn data (w : World) : mfind sid (m_mapclient w) = Some s ->
  let says := fun code text w' => answers_only msg_type_register s conn code text (OnRegisterResponse sid conn data w) w' in
  (reader_parse data = Ok None -> says 101 "json pares failed!"%string w)
  /\ (forall root cm, reader_parse data = Ok (Some (root, cm)) -> complex root ->
      (passes register_tests root = false -> says 102 "json data type error!"%string w)
      /\ (forall name nick pass added u st,
          get (bs "username") root = stringValue name -> get (bs "nickname") root = stringValue nick ->
          get (bs "password") root = stringValue pass ->
          AddUser (registered name nick pass) (users w, database w) = Ok (added, u, st) ->
          if added : bool then says 0 "ok"%string (with_users st w)
          else says 100 "register failed!"%string (with_users st w))).
Proof.
  intros Es says. unfold says, answers_only, OnRegisterResponse. split.
  - intros Ep F. step (seq_of_ok sid s w Es). step (lift_ok _ _ w Ep). by apply reply_code_ok.
  - intros root cm Ep C. split.
    + intros Et F. step (seq_of_ok sid s w Es). step (lift_ok _ _ w Ep).
      destruct (members_are_ok register_tests root w C) as (v1 & E1 & _). unfold register_tests in E1. step E1.
      unfold passes, register_tests in Et. rewrite Et. by apply reply_code_ok.
    + intros name nick pass added u st En Ek Epw Ea.
      destruct (members_are_ok register_tests root w C) as (v1 & E1 & C1 & G1). unfold register_tests in E1.
      cbn [forallb fst snd] in E1. rewrite En, Ek, Epw in E1.
      destruct (member_string_ok (bs "username") v1 name w C1) as (v2 & E2 & C2 & G2); [by rewrite G1|].
      destruct (member_string_ok (bs "nickname") v2 nick w C2) as (v3 & E3 & C3 & G3); [by rewrite G2, G1|].
      destruct (member_string_ok (bs "password") v3 pass w C3) as (v4 & E4 & _); [by rewrite G3, G2, G1|].
      destruct added; intros F; step (seq_of_ok sid s w Es); step (lift_ok _ _ w Ep);
        step E1; cbn [isString andb]; step E2; step E3; step E4;
        step (user_mgr_ok _ _ _ w Ea); by apply reply_code_ok.
Qed.
End login.

(** ** Witnesses *)

Definition login_text : bytes := json "{'username':'ann','password':'pw','clienttype':1,'status':1}".

Definition ann_stored : User :=
  default User_new (find_user (fun v => bool_decide (username v = bs "ann")) (m_cachedUsers (users room))).

Definition ann_friends : list User :=
  match GetFriendInfoByUserId 1 (users room, database room) with Ok (fs, _) => fs | _ => [] end.

Lemma login_success_witness : exists w,
  OnLoginResponse sid_a ptr_a login_text room = Ok (tt, w)
  /\ chat_pending 1 (msg_cache room) = [bs "hi"; bs "ha"]
  /\ (sent <$> conns w !! ptr_a)
     = Some (packet (message msg_type_login 7 (toStyledString (login_doc (bs "ann") ann_stored)))
             ++ packet (string_bytes (bs "news")) ++ packet (string_bytes (bs "hi"))
             ++ packet (string_bytes (bs "ha"))).
Proof.
  eexists. split; [|split; [reflexivity|]].
  - refine (login_success sid_a session_a ptr_a login_text (root_of login_text) no_comments (bs "ann") 1
             ann_stored room ann_friends _ _ _ _ _ _ _ _ _ _).
    + vm_compute; reflexivity.
    + vm_compute; reflexivity.
    + reflexivity.
    + apply (room_sorted session_a).
    + vm_compute; reflexivity.
    + split; try (vm_compute; reflexivity). split; vm_compute; reflexivity.
    + vm_compute; reflexivity.
    + apply (bool_decide_unpack _); vm_compute; exact I.
    + apply (bool_decide_unpack _); vm_compute; exact I.
    + apply (bool_decide_unpack _); vm_compute; exact I.
  - vm_compute. reflexivity.
Defined.

Lemma login_refused_witness : exists w,
  OnLoginResponse sid_a ptr_a (json "{'username':'ann','password':'x','clienttype':1,'status':1}") room = Ok (tt, w)
  /\ m_mapclient w = m_mapclient room.
Proof.
  set (data := json _).
  destruct (login_refused sid_a session_a ptr_a data room eq_refl) as [_ R].
  destruct (R (root_of data) no_comments ltac:(vm_compute; reflexivity) ltac:(vm_compute; reflexivity)) as [_ P].
  specialize (P (bs "ann") (bs "x") 1).
  assert (login_request (root_of data) (bs "ann") (bs "x") 1) as L
    by (split; try (vm_compute; reflexivity); split; vm_compute; reflexivity).
  specialize (P L). change (find_user _ _) with (Some ann_stored) in P. cbv iota in P.
  eexists. split; [apply P|done]; [by apply (bool_decide_unpack _); vm_compute|].
  by apply (bool_decide_unpack _); vm_compute.
Defined.

Lemma register_outcome_witness : exists w,
  OnRegisterResponse sid_a ptr_a (json "{'username':'eve','nickname':'Eve','password':'q'}") room = Ok (tt, w)
  /\ userid <$> m_cachedUsers (users w) = [1; 2; 3].
Proof.
  set (data := json _).
  destruct (register_outcome sid_a session_a ptr_a data room eq_refl) as [_ R].
  destruct (R (root_of data) no_comments ltac:(vm_compute; reflexivity) ltac:(vm_compute; reflexivity)) as [_ P].
  specialize (P (bs "eve") (bs "Eve") (bs "q")).
  eexists. split.
  - eapply (P true); try (vm_compute; reflexivity). by apply (bool_decide_unpack _); vm_compute.
  - vm_compute. reflexivity.
Defined.
