(* ===== verification/ChatDelivery.v ===== *)
(** * Requests and chat messages

    How [Process] takes a request apart, and what becomes of a chat message: the target's
    connection or the cache for a user, a chain of sends through one writer for a group. *)

From S2P Require Import Prelude Bytes Text StdMap BinaryReader Framing MsgCacheManager Json.
From S2P Require Import Database UserManager Conn World ClientSession Delivery Room JsonReader JsonWriter.
From S2P Require Import UserManagerProofs UserManagerLoad ChatLogin.

Ltac lengths := first [done | by len | len; lia].

(** A chat message as its receiver gets it. *)
Definition chat_message (seq : Z) (text : bytes) (sender target : Z) : bytes :=
  message msg_type_chat seq text ++ be_bytes 4 sender ++ be_bytes 4 target.

(** The request a client sends for it. *)
Definition chat_request (seq : Z) (text : bytes) (target : Z) : bytes :=
  message msg_type_chat seq text ++ be_bytes 4 target.

Definition keep_chat (id : Z) (m : bytes) (c : MsgCacheManager) : MsgCacheManager := {|
  m_listNotifyMsgCache := m_listNotifyMsgCache c;
  m_listChatMsgCache := m_listChatMsgCache c ++ [{| c_userid := id; chatmsg := m |}] |}.

Section chat.
Context {D : Type} `{Database D} `{JsonText}.

Abbreviation World := (World (D := D)).
Abbreviation W := (W (D := D)).

(** ** Taking a request apart *)

Lemma Process_message sid conn cmd seq text rest s (w : World) :
  mfind sid (m_mapclient w) = Some s -> is_i32 cmd -> is_i32 seq ->
  fits (message cmd seq text ++ rest) ->
  Process sid conn (message cmd seq text ++ rest) w
  = (_ ← dispatch cmd sid conn text
           {| r_buffer := message cmd seq text ++ rest; r_index := len (message cmd seq text) |};
     mret true) (with_session sid (set_seq seq s) w).
Proof.
  intros Es Hc Hs F. unfold fits, INT_MAX in F. unfold Process, message in *. rewrite <- !app_assoc in *.
  revert F. len. intros F.
  assert (len text <= len (string_bytes text)) as Lt
    by (unfold string_bytes; len; pose proof (len_nonneg (Compress (len text) [])); lia).
  pose proof (len_nonneg text). pose proof (len_nonneg rest).
  change (BinaryReader_of ?b) with {| r_buffer := [] ++ b; r_index := len (@nil byte) |}.
  rewrite ReadData_int_at by lengths. rewrite app_nil_l.
  change (len (@nil byte) + 4) with 4. set (b := be_bytes 4 cmd ++ _).
  assert ({| r_buffer := b; r_index := 4 |}
     = {| r_buffer := be_bytes 4 cmd ++ be_bytes 4 seq ++ string_bytes text ++ rest;
          r_index := len (be_bytes 4 cmd) |}) as -> by (f_equal; by len).
  rewrite ReadData_int_at by lengths.
  step (update_session_ok sid (set_seq seq) s w Es). fold b.
  assert ({| r_buffer := b; r_index := len (be_bytes 4 cmd) + 4 |}
     = {| r_buffer := (be_bytes 4 cmd ++ be_bytes 4 seq) ++ string_bytes text ++ rest;
          r_index := len (be_bytes 4 cmd ++ be_bytes 4 seq) |}) as ->.
  { unfold b. rewrite <- app_assoc. f_equal; by len. }
  step (lift_ok _ _ (with_session sid (set_seq seq s) w) (ReadData_string_at text (be_bytes 4 cmd ++ be_bytes 4 seq) rest
    ltac:(unfold INT_MAX; lia) ltac:(lengths))).
  assert (forall r r' : BinaryReader, r = r' -> forall w,
    (_ ← dispatch cmd sid conn text r; mret true : W bool) w = (_ ← dispatch cmd sid conn text r'; mret true) w)
    as Er by (by intros ? ? ->).
  apply Er. unfold b. rewrite <- app_assoc. f_equal. len. lia.
Qed.

(** A message too short for its command and sequence number. *)
Lemma Process_short sid conn msg (w : World) : len msg < 4 ->
  Process sid conn msg w = Ok (false, w).
Proof.
  intros L. unfold Process, ReadData_int, ReadData. cbn [r_index r_buffer BinaryReader_of].
  by rewrite decide_True by lia.
Qed.

(** ** Saving and looking up *)

Lemma SaveChatMsgToDb_ok a b text saved d (w : World) :
  Excute (save_chat_sql a b text) (database w) = Ok (saved, d) ->
  user_mgr (SaveChatMsgToDb a b text) w = Ok (saved, with_users (users w, d) w).
Proof.
  intros E. apply user_mgr_ok. unfold SaveChatMsgToDb.
  rewrite (bind_ok _ _ _ saved (users w, d)); [done|].
  unfold db, zoom. cbn [snd]. by rewrite E.
Qed.

Lemma add_chat_ok id m (w : World) :
  cache_mgr (AddChatMsgCache id m) w = Ok (true, with_cache (keep_chat id m (msg_cache w)) w).
Proof. by apply cache_mgr_ok. Qed.

Lemma request_fits seq text sender target : fits (chat_message seq text sender target) ->
  fits (chat_request seq text target).
Proof. unfold fits, chat_message, chat_request. len. lia. Qed.

(** The writer of a chat message. *)
Lemma holds_chat seq text sender target : fits (chat_message seq text sender target) ->
  holds (WriteData 4 (WriteData 4 (WriteData_string (start msg_type_chat seq) text) (htonl sender)) (htonl target))
    (chat_message seq text sender target).
Proof.
  unfold chat_message. intros F. pose proof (fits_app _ _ F) as Fm. rewrite app_assoc in *.
  pose proof (holds_message _ _ _ Fm) as Hm. revert F. unfold fits. len. intros F.
  apply holds_int; [apply holds_int; [done|]|len]; lia.
Qed.

(** ** Delivery *)

(** What a chat message for one user does: on to its session's connection, or kept. *)
Definition to_user (target : Z) (m : bytes) (w : World) : World :=
  match find_session target (m_mapclient w) with
  | Some (_, t) => match m_conn t with Some c => deliver c m w | None => w end
  | None => with_cache (keep_chat target m (msg_cache w)) w
  end.

Lemma to_user_online target t s c m (w : World) : find_session target (m_mapclient w) = Some (t, s) ->
  m_conn s = Some c -> to_user target m w = deliver c m w.
Proof. unfold to_user. by intros -> ->. Qed.

Lemma to_user_offline target m (w : World) : find_session target (m_mapclient w) = None ->
  to_user target m w = with_cache (keep_chat target m (msg_cache w)) w.
Proof. unfold to_user. by intros ->. Qed.

(** What the writer of a group message holds at each member, and what the world becomes. *)
Fixpoint to_group (members : list User) (m : bytes) (w : World) : World :=
  match members with
  | [] => w
  | u :: members' =>
      let w' := to_user (userid u) m w in
      match find_session (userid u) (m_mapclient w) with
      | Some (_, t) => to_group members' (match m_conn t with Some _ => header_left m | None => m end) w'
      | None => to_group members' m w'
      end
  end.

Lemma to_user_sessions target m (w : World) : m_mapclient (to_user target m w) = m_mapclient w.
Proof. unfold to_user. destruct (find_session _ _) as [[t s]|]; [destruct (m_conn s)|]; done. Qed.

Lemma len_header_left m : len (header_left m) = 10.
Proof. unfold header_left, send_preamble. by len. Qed.

Lemma header_left_fits m : fits (header_left m).
Proof. unfold fits. rewrite len_header_left. unfold INT_MAX. lia. Qed.

(** One turn of a group's loop. *)
Lemma send_or_keep u wr m (w : World) : sorted_map (m_mapclient w) -> holds wr m -> fits m ->
  exists wr', (t ← GetSessionByID (userid u);
     match t with
     | None => _ ← cache_mgr (AddChatMsgCache (userid u) (toString wr)); mret wr
     | Some t => Send t wr
     end) w = Ok (wr', to_user (userid u) m w)
    /\ holds wr' (match find_session (userid u) (m_mapclient w) with
                  | Some (_, t) => match m_conn t with Some _ => header_left m | None => m end
                  | None => m
                  end).
Proof.
  intros S Hw F. step (GetSessionByID_ok (userid u) w). unfold to_user.
  destruct (find_session (userid u) (m_mapclient w)) as [[t s]|] eqn:E; cbn [fmap option_fmap option_map fst snd].
  - pose proof (find_session_mfind _ _ _ _ S E) as Et. destruct (m_conn s) as [c|] eqn:Ec.
    + exact (Send_ok t s c wr m w Et Ec Hw F).
    + exists wr. split; [|done]. unfold Send, mbind, M_bind, session. by rewrite Et, Ec.
  - exists wr. split; [|done]. destruct Hw as [_ Ew]. rewrite Ew. by step (add_chat_ok (userid u) m w).
Qed.

Lemma group_loop_ok members wr m (w : World) : sorted_map (m_mapclient w) -> holds wr m -> fits m ->
  exists wr', for_fold (fun writer u =>
     t ← GetSessionByID (userid u);
     match t with
     | None => _ ← cache_mgr (AddChatMsgCache (userid u) (toString writer)); mret writer
     | Some t => Send t writer
     end) wr members w = Ok (wr', to_group members m w).
Proof.
  revert wr m w. induction members as [|u us IH]; intros wr m w S Hw F; [by exists wr|].
  cbn [for_fold to_group]. destruct (send_or_keep u wr m w S Hw F) as (wr1 & E & Hw1).
  set (w1 := to_user (userid u) m w) in *.
  assert (sorted_map (m_mapclient w1)) as S1 by (unfold w1; by rewrite to_user_sessions).
  destruct (find_session (userid u) (m_mapclient w)) as [[t s]|];
    [destruct (m_conn s)|]; (edestruct (IH wr1) as (wr2 & E2); [exact S1|exact Hw1|try apply header_left_fits; done|]);
    exists wr2; unfold mbind at 1, M_bind at 1; rewrite E; exact E2.
Qed.

(** Once a member was sent to, the writer is down to a packet header. *)
Lemma to_group_split us u rest t s c m (w : World) :
  Forall (fun v => find_session (userid v) (m_mapclient w) = None) us ->
  find_session (userid u) (m_mapclient w) = Some (t, s) -> m_conn s = Some c ->
  to_group (us ++ u :: rest) m w
  = to_group rest (header_left m)
      (deliver c m (fold_left (fun w v => with_cache (keep_chat (userid v) m (msg_cache w)) w) us w)).
Proof.
  intros F Eu Ec. revert w F Eu. induction us as [|v us IH]; intros w F Eu; simpl.
  - by rewrite Eu, Ec, (to_user_online _ t s c).
  - apply Forall_cons in F as [F1 F2]. rewrite F1, to_user_offline by done. by apply IH.
Qed.

(** The state in which [OnChatResponse] runs. *)
Definition chat_session (seq target : Z) (s : ClientSession) : ClientSession := set_target target (set_seq seq s).

Lemma OnChat_dispatch sid conn seq text target s (w : World) :
  mfind sid (m_mapclient w) = Some s -> is_i32 seq -> is_i32 target ->
  fits (chat_request seq text target) ->
  Process sid conn (chat_request seq text target) w
  = (_ ← OnChatResponse sid conn text; mret true) (with_session sid (chat_session seq target s) w).
Proof.
  intros Es Hs Ht F. unfold chat_request in *.
  rewrite (Process_message sid conn msg_type_chat seq text _ s w Es) by (done || apply _).
  unfold dispatch. rewrite !decide_False by done. rewrite decide_True by done.
  set (w1 := with_session sid (set_seq seq s) w).
  pose proof (ReadData_int_at target (message msg_type_chat seq text) []) as R.
  rewrite !app_nil_r in R. unfold fits, INT_MAX in F. revert F. len. intros F.
  rewrite R by (done || (change (len (@nil byte)) with 0; lia)).
  unfold mbind at 1, M_bind at 1. unfold mbind at 1, M_bind at 1.
  rewrite (update_session_ok sid (set_target target) _ w1 (find_with_session _ _ _)).
  replace (with_session sid (set_target target (set_seq seq s)) w1)
    with (with_session sid (chat_session seq target s) w); [done|].
  unfold w1, with_session, set_sessions. simpl. by rewrite mset_mset.
Qed.

(** ** Chat messages *)

(** What the handler does with a message for a user. *)
Lemma OnChat_user sid conn text target s saved d (w : World) :
  let m := chat_message (m_seq s) text (userid (m_user s)) target in
  mfind sid (m_mapclient w) = Some s -> m_target s = Some target -> target < GROUPID_BOUBDARY -> sorted_map (m_mapclient w) -> fits m ->
  Excute (save_chat_sql (userid (m_user s)) target text) (database w) = Ok (saved, d) ->
  OnChatResponse sid conn text w = Ok (tt, to_user target m (with_users (users w, d) w)).
Proof.
  intros m Es Et Hg S F E. unfold OnChatResponse. step (session_ok sid _ w Es). rewrite Et.
  step (SaveChatMsgToDb_ok _ _ _ saved d w E). rewrite decide_True by done.
  pose proof (holds_chat (m_seq s) text (userid (m_user s)) target F) as Hw. fold m in Hw.
  set (wr := WriteData 4 _ _) in *. set (w2 := with_users _ w). step (GetSessionByID_ok target w2). unfold to_user.
  destruct (find_session target (m_mapclient w2)) as [[t st]|] eqn:Ef; cbn [fmap option_fmap option_map fst snd].
  - pose proof (find_session_mfind target (m_mapclient w2) t st S Ef) as Ets. destruct (m_conn st) as [c|] eqn:Ec.
    + destruct (Send_ok t st c wr m w2 Ets Ec Hw F) as (wr' & E2 & _). by step E2.
    + unfold Send, mbind, M_bind, session. by rewrite Ets, Ec.
  - destruct Hw as [_ Ew]. rewrite Ew. by step (add_chat_ok target m w2).
Qed.

(** C2: A chat message for a user goes to that user and to nobody else: if it has a session, its
    connection gets exactly one packet, the text followed by the ids of the sender and the
    target; if not, the message is kept for it, behind the older ones. Whether or not the
    database took the record makes no difference. The sender gets no reply. *)
Theorem chat_to_user sid conn seq text target s saved d (w : World) :
  let m := chat_message seq text (userid (m_user s)) target in
  mfind sid (m_mapclient w) = Some s -> is_i32 seq -> is_i32 target -> target < GROUPID_BOUBDARY ->
  sorted_map (m_mapclient w) -> fits m ->
  Excute (save_chat_sql (userid (m_user s)) target text) (database w) = Ok (saved, d) ->
  Process sid conn (chat_request seq text target) w
  = Ok (true, to_user target m (with_users (users w, d) (with_session sid (chat_session seq target s) w))).
Proof.
  intros m Es Hs Ht Hg S F E. rewrite (OnChat_dispatch sid conn seq text target s w Es Hs Ht (request_fits _ _ _ _ F)).
  set (w1 := with_session _ _ w). rewrite (bind_ok _ _ _ tt (to_user target m (with_users (users w, d) w1))); [done|].
  apply (OnChat_user sid conn text target (chat_session seq target s) saved d w1); [apply find_with_session|done|done|by apply sorted_mset|done|done].
Qed.

(** C39: A chat message for a group is kept for the members that come before the first one that
    is online, and that one gets it whole. [Send] leaves only the packet's header in the writer
    the loop shares, so every later member, online or not, gets ten bytes of header in place of
    the message. *)
Theorem chat_to_group sid conn seq text target s saved d us u rest t st c (w : World) :
  let m := chat_message seq text (userid (m_user s)) target in
  let w1 := with_users (users w, d) (with_session sid (chat_session seq target s) w) in
  mfind sid (m_mapclient w) = Some s -> is_i32 seq -> is_i32 target -> GROUPID_BOUBDARY <= target ->
  sorted_map (m_mapclient w) -> fits m ->
  Excute (save_chat_sql (userid (m_user s)) target text) (database w) = Ok (saved, d) ->
  GetFriendInfoByUserId target (users w, d) = Ok (us ++ u :: rest, (users w, d)) ->
  Forall (fun v => find_session (userid v) (m_mapclient w1) = None) us ->
  find_session (userid u) (m_mapclient w1) = Some (t, st) -> m_conn st = Some c ->
  Process sid conn (chat_request seq text target) w
  = Ok (true, to_group rest (header_left m)
      (deliver c m (fold_left (fun w v => with_cache (keep_chat (userid v) m (msg_cache w)) w) us w1)))
  /\ len (header_left m) = 10.
Proof.
  intros m w1 Es Hs Ht Hg S F E Efs Fu Eu Ec. split; [|apply len_header_left].
  rewrite (OnChat_dispatch sid conn seq text target s w Es Hs Ht (request_fits _ _ _ _ F)).
  rewrite <- (to_group_split us u rest t st c m w1 Fu Eu Ec). unfold OnChatResponse.
  set (w0 := with_session _ _ w). pose proof (find_with_session sid (chat_session seq target s) w) as Es1. fold w0 in Es1.
  rewrite (bind_ok _ _ _ tt (to_group (us ++ u :: rest) m w1)); [done|].
  step (session_ok sid _ w0 Es1). cbn [m_target chat_session set_target m_user set_seq m_seq].
  step (SaveChatMsgToDb_ok _ _ _ saved d w0 E). rewrite decide_False by lia.
  pose proof (holds_chat seq text (userid (m_user s)) target F) as Hw. fold m in Hw.
  set (wr := WriteData 4 _ _) in *. fold w1.
  assert (sorted_map (m_mapclient w1)) as S1 by (by apply sorted_mset).
  step (user_mgr_ok _ _ _ w1 Efs). change (with_users (users w, d) w1) with w1.
  destruct (group_loop_ok (us ++ u :: rest) wr m w1 S1 Hw F) as (wr' & El). by step El.
Qed.
End chat.

(** ** At work *)

(** Ann writes to bob, who is online. *)
Lemma chat_to_user_witness : exists w,
  Process sid_a ptr_a (chat_request 5 (bs "hello") 2) room_ann = Ok (true, w)
  /\ (sent <$> conns w !! ptr_b) = Some (packet (chat_message 5 (bs "hello") 1 2)).
Proof.
  eexists. split.
  - refine (chat_to_user sid_a ptr_a 5 (bs "hello") 2 session_ann true _ room_ann _ _ _ _ _ _ _).
    + vm_compute; reflexivity.
    + apply (bool_decide_unpack _); vm_compute; exact I.
    + apply (bool_decide_unpack _); vm_compute; exact I.
    + done.
    + apply (room_sorted session_ann).
    + apply (bool_decide_unpack _); vm_compute; exact I.
    + reflexivity.
  - vm_compute. reflexivity.
Defined.

(** A group with ann and bob in it. *)
Definition group_id : Z := 268435456.

Definition grouped : UserManager * journal :=
  match (_ ← AddGroup (bs "team") 1; _ ← MakeFriendRelationship 1 group_id; MakeFriendRelationship 2 group_id)
          friends_made with
  | Ok (_, s) => s
  | _ => friends_made
  end.

Definition group_room : World (D := journal) := with_users grouped room_ann.

Definition group_members : list User :=
  match GetFriendInfoByUserId group_id grouped with Ok (fs, _) => fs | _ => [] end.

Lemma chat_to_group_witness : exists w,
  Process sid_a ptr_a (chat_request 5 (bs "all") group_id) group_room = Ok (true, w)
  /\ (sent <$> conns w !! ptr_a) = Some (packet (chat_message 5 (bs "all") 1 group_id))
  /\ (sent <$> conns w !! ptr_b) = Some (packet (header_left (chat_message 5 (bs "all") 1 group_id))).
Proof.
  eexists. split.
  - refine (proj1 (chat_to_group sid_a ptr_a 5 (bs "all") group_id session_ann true
      (wrote (save_chat_sql 1 group_id (bs "all")) grouped.2)
      [] (default User_new (head group_members)) (tail group_members) sid_a
      (chat_session 5 group_id session_ann) ptr_a group_room _ _ _ _ _ _ _ _ _ _ _)).
    + vm_compute; reflexivity.
    + apply (bool_decide_unpack _); vm_compute; exact I.
    + apply (bool_decide_unpack _); vm_compute; exact I.
    + vm_compute. discriminate.
    + apply (room_sorted session_ann).
    + apply (bool_decide_unpack _); vm_compute; exact I.
    + reflexivity.
    + vm_compute; reflexivity.
    + constructor.
    + vm_compute; reflexivity.
    + reflexivity.
  - split; vm_compute; reflexivity.
Defined.
