(* ===== verification/Requests.v ===== *)
(** * Requests to change things

    Friends, passwords and groups: what the handlers do with a well-formed request, and with a
    text whose root is not an object. *)

From S2P Require Import Prelude Bytes Text StdMap BinaryReader Framing MsgCacheManager Json.
From S2P Require Import Database UserManager Conn World ClientSession Delivery Room JsonReader JsonWriter.
From S2P Require Import UserManagerProofs UserManagerLoad ChatLogin ChatDelivery.
From S2P Require Import Buffer IMServer.

(** The requests whose text is JSON. *)
Definition json_commands : list Z :=
  [msg_type_register; msg_type_login; msg_type_finduser; msg_type_operatefriend;
   msg_type_updateuserinfo; msg_type_modifypassword; msg_type_creategroup; msg_type_getgroupmembers].

Definition keep_notify (id : Z) (m : bytes) (c : MsgCacheManager) : MsgCacheManager := {|
  m_listNotifyMsgCache := m_listNotifyMsgCache c ++ [{| n_userid := id; notifymsg := m |}];
  m_listChatMsgCache := m_listChatMsgCache c |}.

(** The notice that a friendship was accepted. *)
Definition accept_doc (u : User) (accept : Z) : Value := object
  [(bs "userid", intValue (userid u)); (bs "type", intValue 3); (bs "username", stringValue (username u));
   (bs "accept", intValue accept)].

Lemma command_range cmd : cmd ∈ json_commands -> is_i32 cmd.
Proof.
  intros H. apply (Forall_forall (fun c => is_i32 c) json_commands); [|done].
  by repeat constructor.
Qed.

Section requests.
Context {D : Type} `{Database D} `{JsonText}.

Abbreviation World := (World (D := D)).
Abbreviation W := (W (D := D)).

(** ** A root that is not an object *)

Lemma members_are_other k test l v (w : World) : ~ complex v ->
  lift (members_are ((k, test) :: l) v) w = Throw JsonLogicError.
Proof. intros C. unfold lift. simpl. by rewrite resolveReference_other. Qed.

Lemma bind_throw {A B} (m : W A) (k : A -> W B) e (w : World) : m w = Throw e -> (m ≫= k) w = Throw e.
Proof. unfold mbind, M_bind. by intros ->. Qed.

Lemma dispatch_other cmd sid conn data reader v cm s (w : World) : cmd ∈ json_commands ->
  mfind sid (m_mapclient w) = Some s -> reader_parse data = Ok (Some (v, cm)) -> ~ complex v ->
  dispatch cmd sid conn data reader w = Throw JsonLogicError.
Proof.
  intros Hc Es Ep C. unfold json_commands in Hc. rewrite !elem_of_cons in Hc.
  destruct_or! Hc; [subst cmd..|by apply not_elem_of_nil in Hc];
    unfold dispatch; repeat (rewrite decide_False by done); rewrite decide_True by done.
  - unfold OnRegisterResponse. step (seq_of_ok sid s w Es). step (lift_ok _ _ w Ep).
    by apply bind_throw, members_are_other.
  - unfold OnLoginResponse. step (seq_of_ok sid s w Es). step (lift_ok _ _ w Ep).
    by apply bind_throw, members_are_other.
  - unfold OnFindUserResponse. step (lift_ok _ _ w Ep). by apply bind_throw, members_are_other.
  - unfold OnOperateFriendResponse. step (lift_ok _ _ w Ep). by apply bind_throw, members_are_other.
  - unfold OnUpdateUserInfoResponse. step (lift_ok _ _ w Ep). by apply bind_throw, members_are_other.
  - unfold OnModifyPasswordResponse. step (lift_ok _ _ w Ep). by apply bind_throw, members_are_other.
  - unfold OnCreateGroupResponse. step (lift_ok _ _ w Ep). by apply bind_throw, members_are_other.
  - unfold OnGetGroupMemberResponse. step (lift_ok _ _ w Ep). by apply bind_throw, members_are_other.
Qed.

(** ** The shared steps *)

(** A root that was read is cleared and filled anew. *)
Lemma clear_ok v (w : World) : complex v ->
  exists v', lift (clear v) w = Ok (v', w)
    /\ forall p l (w' : World), lift (set_members (p :: l) v') w' = Ok (object (p :: l), w').
Proof.
  intros C. destruct v as [| | | | | | |o]; try done.
  - exists nullValue. split; [done|]. intros p l w'. apply lift_ok, set_members_null.
  - exists (objectValue []). split; [done|]. intros p l w'. apply lift_ok, set_members_empty.
Qed.

(** ** Passwords *)

Lemma asInt_i32 i : is_i32 i -> isInt (intValue i) = true /\ asInt (intValue i) = Ok i.
Proof.
  intros [? ?]. assert (isInt (intValue i) = true) as E.
  { unfold isInt. apply andb_true_iff. split; apply Z.leb_le; lia. }
  split; [done|]. unfold asInt. by rewrite E.
Qed.

(** A change of the password of session [s]: the answer, and the manager afterwards. *)
Definition password_answer (s : ClientSession) (c : Z) (cm : Comments) (code : Z) (text : String.string)
    (r : outcome (unit * World)) (w : World) : Prop :=
  let m := message msg_type_modifypassword (m_seq s) (toStyledString_with cm (code_doc code text)) in
  fits m -> r = Ok (tt, deliver c m w).

(** A request to change the password is answered 103, with nothing changed, unless the old
    password it carries is the stored one; if it is, the answer is 0 or 105 as the change
    succeeded or not. It is the account of the session that is changed, and a session without
    one gets no answer. *)
Theorem modify_password_outcome sid s c conn data root cm old new (w : World) :
  mfind sid (m_mapclient w) = Some s -> m_conn s = Some c ->
  reader_parse data = Ok (Some (root, cm)) -> complex root ->
  get (bs "oldpassword") root = stringValue old -> get (bs "newpassword") root = stringValue new ->
  let r := OnModifyPasswordResponse sid conn data w in
  match find_user (fun u => userid u =? userid (m_user s)) (m_cachedUsers (users w)) with
  | None => r = Ok (tt, w)
  | Some u =>
      (password u <> old -> password_answer s c cm 103 "incorrect old password"%string r w)
      /\ (forall changed st, password u = old ->
            ModifyUserPassword (userid (m_user s)) new (users w, database w) = Ok (changed, st) ->
            if changed : bool then password_answer s c cm 0 "ok"%string r (with_users st w)
            else password_answer s c cm 105 "modify password error"%string r (with_users st w))
  end.
Proof.
  intros Es Ec Ep C Eo En r. unfold r, OnModifyPasswordResponse. step (lift_ok _ _ w Ep).
  destruct (members_are_ok [(bs "oldpassword", isString); (bs "newpassword", isString)] root w C) as (v1 & E1 & C1 & G1).
  step E1. cbn [forallb fst snd]. rewrite Eo, En. cbn [isString andb].
  destruct (member_string_ok (bs "oldpassword") v1 old w C1) as (v2 & E2 & C2 & G2); [by rewrite G1|].
  step E2.
  destruct (member_string_ok (bs "newpassword") v2 new w C2) as (v3 & E3 & C3 & G3); [by rewrite G2, G1|].
  step E3. destruct (clear_ok v3 w C3) as (v4 & E4 & Fill). step E4. step (me_ok sid s w Es).
  step (user_mgr_read (fun m => find_user (fun u => userid u =? userid (m_user s)) (m_cachedUsers m)) w).
  destruct (find_user _ _) as [u|]; [|done]. split.
  - intros Hp F. rewrite decide_False by done. step (Fill (bs "code", intValue 103) [(bs "msg", str "incorrect old password")] w).
    step (seq_of_ok sid s w Es). destruct (reply_with_ok cm sid s c _ _ _ w Es Ec F) as (wr & E). by step E.
  - intros changed st Hp Em. rewrite decide_True by done. set (w1 := with_users st w).
    destruct changed; intros F.
    + rewrite (bind_ok _ _ _ (code_doc 0 "ok") w1).
      * step (seq_of_ok sid s w1 Es). destruct (reply_with_ok cm sid s c _ _ _ w1 Es Ec F) as (wr & E). by step E.
      * step (user_mgr_ok _ _ _ w Em). apply Fill.
    + rewrite (bind_ok _ _ _ (code_doc 105 "modify password error") w1).
      * step (seq_of_ok sid s w1 Es). destruct (reply_with_ok cm sid s c _ _ _ w1 Es Ec F) as (wr & E). by step E.
      * step (user_mgr_ok _ _ _ w Em). apply Fill.
Qed.

(** ** Friends *)

(** A notice for user [id]: to its session's connection, or kept, the text alone. *)
Definition notify_user (id seq : Z) (text : bytes) (w : World) : World :=
  match find_session id (m_mapclient w) with
  | Some (_, t) =>
      match m_conn t with Some c => deliver c (message msg_type_operatefriend seq text) w | None => w end
  | None => with_cache (keep_notify id text (msg_cache w)) w
  end.

Lemma tell_target_ok sid s id root (w : World) : sorted_map (m_mapclient w) ->
  mfind sid (m_mapclient w) = Some s ->
  fits (message msg_type_operatefriend (m_seq s) (toStyledString root)) ->
  tell_target sid id root w = Ok (tt, notify_user id (m_seq s) (toStyledString root) w).
Proof.
  intros S Es F. unfold tell_target. step (seq_of_ok sid s w Es). step (GetSessionByID_ok id w).
  unfold notify_user. destruct (find_session id (m_mapclient w)) as [[t st]|] eqn:Ef;
    cbn [fmap option_fmap option_map fst snd]; [|done].
  pose proof (find_session_mfind _ _ _ _ S Ef) as Et. destruct (m_conn st) as [c|] eqn:Ec.
  - destruct (Send_ok t st c _ _ w Et Ec (holds_message _ _ _ F) F) as (wr & E & _). by step E.
  - unfold Send, mbind, M_bind, session. by rewrite Et, Ec.
Qed.

(** An answer to a friend request: [type] 3, for user [target]. *)
Record answer_of (root : Value) (target accept : Z) : Prop := {
  an_complex : complex root;
  an_type : get (bs "type") root = intValue 3;
  an_target : get (bs "userid") root = intValue target;
  an_accept : get (bs "accept") root = intValue accept;
  an_range : is_i32 target /\ is_i32 accept;
}.

(** The relationship an acceptance makes: the smaller id first. *)
Definition make_friends (mine target : Z) (s : UserManager * D) : outcome (bool * (UserManager * D)) :=
  MakeFriendRelationship (Z.min mine target) (Z.max mine target) s.

Lemma make_friends_order mine target : (let '(smallid, greatid) :=
    if decide (mine > target) then (target, mine) else (mine, target) in
    MakeFriendRelationship smallid greatid) = make_friends mine target.
Proof. unfold make_friends. case_decide; [rewrite Z.min_r, Z.max_l by lia|rewrite Z.min_l, Z.max_r by lia]; done. Qed.

Lemma answer_request_ok sid s c root target tu st (w : World) : answer_of root target 1 ->
  mfind sid (m_mapclient w) = Some s -> m_conn s = Some c ->
  make_friends (userid (m_user s)) target (users w, database w) = Ok (true, st) ->
  find_user (fun u => userid u =? target) (m_cachedUsers st.1) = Some tu ->
  fits (message msg_type_operatefriend (m_seq s) (toStyledString (accept_doc tu 1))) ->
  answer_request sid target root w
  = Ok (Some (accept_doc (m_user s) 1),
        deliver c (message msg_type_operatefriend (m_seq s) (toStyledString (accept_doc tu 1))) (with_users st w)).
Proof.
  intros [C _ _ Ea [_ Ra]] Es Ec Em Eu F. unfold answer_request. destruct (asInt_i32 1 Ra) as [I1 I2].
  destruct (members_are_ok [(bs "accept", isInt)] root w C) as (v1 & E1 & C1 & G1).
  step E1. cbn [forallb fst snd]. rewrite Ea, I1. cbn [andb].
  destruct (member_int_ok (bs "accept") v1 1 w C1) as (v2 & E2 & _); [by rewrite G1, Ea|].
  step E2. step (me_ok sid s w Es). rewrite decide_True by done.
  set (w1 := with_users st w). rewrite (bind_ok _ _ _ true w1).
  - assert (mfind sid (m_mapclient w1) = Some s) as Es1 by done.
    step (me_ok sid s w1 Es1).
    match goal with |- context [lift (set_members ?l _)] => step (lift_ok _ _ w1 (set_members_null l)) end.
    step (user_mgr_read (fun m => find_user (fun u => userid u =? target) (m_cachedUsers m)) w1).
    change (users w1) with st.1. rewrite Eu.
    match goal with |- context [lift (set_members ?l _)] => step (lift_ok _ _ w1 (set_members_null l)) end.
    step (seq_of_ok sid s w1 Es1).
    destruct (reply_ok sid s c _ _ _ w1 Es1 Ec F) as (wr & E). by step E.
  - rewrite <- make_friends_order in Em. case_decide; by apply user_mgr_ok.
Qed.

(** C19: An answer of type 3 that accepts makes the two users friends, the row with the smaller id
    first, whether or not the other one ever asked: nothing is looked up. Then the accepting
    user is told about the other one, and the other one about the accepting user, at once if it
    has a session and by a kept notice if not. *)
Theorem friend_accepted sid s c conn data root cm target tu st (w : World) :
  let mine := accept_doc (m_user s) 1 in
  mfind sid (m_mapclient w) = Some s -> m_conn s = Some c -> sorted_map (m_mapclient w) ->
  reader_parse data = Ok (Some (root, cm)) -> answer_of root target 1 -> target < GROUPID_BOUBDARY ->
  make_friends (userid (m_user s)) target (users w, database w) = Ok (true, st) ->
  find_user (fun u => userid u =? target) (m_cachedUsers st.1) = Some tu ->
  fits (message msg_type_operatefriend (m_seq s) (toStyledString (accept_doc tu 1))) ->
  fits (message msg_type_operatefriend (m_seq s) (toStyledString mine)) ->
  OnOperateFriendResponse sid conn data w
  = Ok (tt, notify_user target (m_seq s) (toStyledString mine)
      (deliver c (message msg_type_operatefriend (m_seq s) (toStyledString (accept_doc tu 1))) (with_users st w))).
Proof.
  intros mine Es Ec S Ep A Hg Em Eu F1 F2. pose proof A as [C Et Ei Ea [Rt _]].
  unfold OnOperateFriendResponse. step (lift_ok _ _ w Ep).
  destruct (asInt_i32 target Rt) as [I1 I2]. destruct (asInt_i32 3 ltac:(done)) as [J1 J2].
  destruct (members_are_ok [(bs "type", isInt); (bs "userid", isInt)] root w C) as (v1 & E1 & C1 & G1).
  step E1. cbn [forallb fst snd]. rewrite Et, Ei, I1, J1. cbn [andb].
  destruct (member_int_ok (bs "type") v1 3 w C1) as (v2 & E2 & C2 & G2); [by rewrite G1, Et|].
  step E2. destruct (member_int_ok (bs "userid") v2 target w C2) as (v3 & E3 & C3 & G3); [by rewrite G2, G1, Ei|].
  step E3. rewrite decide_False by lia. rewrite !(decide_False (P := (3 = _))) by done. rewrite decide_True by done.
  assert (answer_of v3 target 1) as A3 by (split; [done|rewrite G3, G2, G1..|by split]; done).
  step (answer_request_ok sid s c v3 target tu st w A3 Es Ec Em Eu F1).
  by apply tell_target_ok.
Qed.

(** ** Groups *)

(** When the database refuses a new group, the handler goes on with a group id that has no
    value. *)
Lemma create_group_uninitialised sid s conn data root cm name st (w : World) :
  mfind sid (m_mapclient w) = Some s -> reader_parse data = Ok (Some (root, cm)) -> complex root ->
  get (bs "groupname") root = stringValue name ->
  AddGroup name (userid (m_user s)) (users w, database w) = Ok (None, st) ->
  OnCreateGroupResponse sid conn data w = Undef Uninitialised.
Proof.
  intros Es Ep C En Eg. unfold OnCreateGroupResponse. step (lift_ok _ _ w Ep).
  destruct (members_are_ok [(bs "groupname", isString)] root w C) as (v1 & E1 & C1 & G1).
  step E1. cbn [forallb fst snd]. rewrite En. cbn [isString andb].
  destruct (member_string_ok (bs "groupname") v1 name w C1) as (v2 & E2 & C2 & _); [by rewrite G1|].
  step E2. destruct (clear_ok v2 w C2) as (v3 & E3 & Fill). step E3. step (me_ok sid s w Es).
  step (user_mgr_ok _ _ _ w Eg). by step (Fill (bs "code", intValue 106) [(bs "msg", str "create group error")] (with_users st w)).
Qed.

(** ** Errors *)

(** C40: A request whose text is JSON, but not an object or null, such as a pair of brackets, is not
    refused: each of the eight handlers that expect an object throws [Json::LogicError] out of
    [Process]; and when the packet of such a request comes in on a connection that has a session,
    logged in or not, and nothing outstanding, that exception is what becomes of the event, for
    nothing between the handler and the message callback of the connection catches it. *)
Theorem non_object_request_throws cmd p seq data v cm c b (s : Server) :
  cmd ∈ json_commands -> is_i32 seq -> fits (message cmd seq data) ->
  mfind (ptr_text p) (m_mapclient (world s)) = Some c -> inputs s !! p = Some b -> wf b -> content b = [] ->
  reader_parse data = Ok (Some (v, cm)) -> ~ complex v ->
  Process (ptr_text p) p (message cmd seq data) (world s) = Throw JsonLogicError
  /\ handle_event (Receive p (packet (message cmd seq data))) s = Throw JsonLogicError.
Proof.
  intros Hc Hs F Es Ei W C0 Ep C. set (m := message cmd seq data) in *.
  assert (Process (ptr_text p) p m (world s) = Throw JsonLogicError) as Et.
  { unfold m in *. rewrite <- (app_nil_r (message cmd seq data)) in F |- *.
    rewrite (Process_message (ptr_text p) p cmd seq data [] c (world s) Es); [|by apply command_range|done..].
    apply bind_throw. by apply (dispatch_other cmd (ptr_text p) p data _ v cm (set_seq seq c));
      [|apply find_with_session|..]. }
  split; [exact Et|]. cbn [handle_event]. rewrite Ei.
  destruct (readFd_ok b (packet m) W) as (b1 & -> & W1 & C1). rewrite outcome_bind_ok. rewrite C0 in C1.
  pose proof (OnRead_stream chat_format (Process (ptr_text p) p) (forceClose p) [(send_preamble (len m), m)] [] b1 (world s)) as R.
  cbn [snd fmap list_fmap for_each] in R. unfold handle at 1 in R. rewrite (bind_throw _ _ JsonLogicError) in R by (by apply bind_throw).
  cbn [delivers] in R. unfold ClientSession_OnRead. rewrite R; [done| |by left|done|].
  - repeat constructor. apply chat_frame_ok. unfold fits, m in *. lia.
  - rewrite C1. unfold stream, packet. by rewrite fmap_cons, !app_nil_r; cbn; rewrite app_nil_r.
Qed.
End requests.

(** ** At work *)

Definition password_text : bytes := json "{'oldpassword':'wrong','newpassword':'x'}".

Lemma modify_password_outcome_witness : exists w,
  OnModifyPasswordResponse sid_a ptr_a password_text room_ann = Ok (tt, w)
  /\ users w = users room_ann.
Proof.
  pose proof (modify_password_outcome sid_a session_ann ptr_a ptr_a password_text (root_of password_text)
    no_comments (bs "wrong") (bs "x") room_ann ltac:(vm_compute; reflexivity) eq_refl
    ltac:(vm_compute; reflexivity) ltac:(vm_compute; exact I) ltac:(vm_compute; reflexivity)
    ltac:(vm_compute; reflexivity)) as P.
  cbv zeta in P. change (find_user _ _) with (Some ann_stored) in P. cbv iota in P.
  destruct P as [P _]. eexists. split.
  - apply P; apply (bool_decide_unpack _); vm_compute; exact I.
  - reflexivity.
Defined.

(** Bob never asked, and nobody is friends yet. *)
Definition strangers : World (D := journal) := with_users two_users room_ann.
Definition accept_text : bytes := json "{'type':3,'userid':2,'accept':1}".
Definition bob_stored : User :=
  default User_new (find_user (fun u => userid u =? 2) (m_cachedUsers friends_made.1)).

Lemma friend_accepted_witness : exists w,
  OnOperateFriendResponse sid_a ptr_a accept_text strangers = Ok (tt, w)
  /\ friends_of 1 (m_cachedUsers (users strangers)) = [] /\ friends_of 1 (m_cachedUsers (users w)) = [2].
Proof.
  eexists. split; [|split].
  - refine (friend_accepted sid_a session_ann ptr_a ptr_a accept_text (root_of accept_text) no_comments 2
      bob_stored friends_made strangers _ _ _ _ _ _ _ _ _ _).
    + vm_compute; reflexivity.
    + reflexivity.
    + apply (room_sorted session_ann).
    + vm_compute; reflexivity.
    + split; try (vm_compute; reflexivity). split; apply (bool_decide_unpack _); vm_compute; exact I.
    + done.
    + vm_compute; reflexivity.
    + vm_compute; reflexivity.
    + apply (bool_decide_unpack _); vm_compute; exact I.
    + apply (bool_decide_unpack _); vm_compute; exact I.
  - vm_compute; reflexivity.
  - vm_compute; reflexivity.
Defined.

Lemma non_object_request_throws_witness :
  handle_event (Receive ptr_a (packet (message msg_type_login 1 (bs "[]"))))
    {| world := room; inputs := <[ptr_a := Buffer_new 16]> ∅ |} = Throw JsonLogicError.
Proof.
  apply (non_object_request_throws msg_type_login ptr_a 1 (bs "[]") (root_of (bs "[]")) no_comments session_a (Buffer_new 16)
    {| world := room; inputs := <[ptr_a := Buffer_new 16]> ∅ |}).
  - apply (bool_decide_unpack _); vm_compute; exact I.
  - apply (bool_decide_unpack _); vm_compute; exact I.
  - apply (bool_decide_unpack _); vm_compute; exact I.
  - vm_compute; reflexivity.
  - reflexivity.
  - apply Buffer_new_wf.
  - reflexivity.
  - vm_compute; reflexivity.
  - intros C; vm_compute in C; exact C.
Defined.
