(* ===== verification/ChatRequests.v ===== *)
(** * Lists, profiles and groups

    The handlers that answer with what the user manager has: friend lists, group members, other
    users; and those that change it and tell the people concerned: profiles, friendships,
    groups. The last part is the message to several targets. *)

From S2P Require Import Prelude Bytes Text StdMap BinaryReader Framing MsgCacheManager Json.
From S2P Require Import Database UserManager Conn World ClientSession Delivery Room JsonReader JsonWriter.
From S2P Require Import UserManagerProofs UserManagerLoad ChatLogin ChatDelivery Requests.

(** Reads the next member of a request whose root has the fields in the context. *)
Ltac next_member :=
  match goal with
  | C : complex ?v, G : (forall k, get k ?v = get k ?root) |- (lift ?call ≫= _) ?w = _ =>
      let v' := fresh "v" in let E' := fresh in let C' := fresh "C" in let G' := fresh "G" in
      match call with
      | member_string ?k v =>
          match goal with E : get k root = stringValue ?s |- _ =>
            destruct (member_string_ok k v s w C (eq_trans (G k) E)) as (v' & E' & C' & G') end
      | member_int ?k v =>
          match goal with E : get k root = intValue ?i, R : is_i32 ?i |- _ =>
            destruct (member_int_ok k v i w C) as (v' & E' & C' & G');
            [rewrite (G k), E; apply (asInt_i32 i R)|] end
      end;
      step E'; clear E'; assert (forall k, get k v' = get k root) by (intros ?; by rewrite G', G);
      clear G'; clear dependent v
  end.

(** The users [GetFriendInfoByUserId] gives. *)
Definition friend_users (id : Z) (m : UserManager) : list User :=
  omap (fun f => find_user (fun u => userid u =? f) (m_cachedUsers m)) (friends_of id (m_cachedUsers m)).

Section lists.
Context {D : Type} `{Database D} `{JsonText}.

Abbreviation World := (World (D := D)).
Abbreviation W := (W (D := D)).

Lemma friend_info_ok id (w : World) : user_mgr (GetFriendInfoByUserId id) w = Ok (friend_users id (users w), w).
Proof. apply (user_mgr_read (friend_users id)). Qed.

Lemma user_info_ok id (w : World) : user_mgr (GetUserInfoByUserId id) w
  = Ok (find_user (fun u => userid u =? id) (m_cachedUsers (users w)), w).
Proof. apply (user_mgr_read (fun m => find_user (fun u => userid u =? id) (m_cachedUsers m))). Qed.

(** What a request comes to once [Process] has its parts: its handler, on a session that has
    the request's sequence number. *)
Lemma Process_request sid conn cmd seq text s (h : bytes -> Z -> bytes -> W unit) (w : World) :
  mfind sid (m_mapclient w) = Some s -> is_i32 seq -> fits (message cmd seq text) -> is_i32 cmd ->
  (forall reader w, dispatch cmd sid conn text reader w = h sid conn text w) ->
  forall w', h sid conn text (with_session sid (set_seq seq s) w) = Ok (tt, w') ->
  Process sid conn (message cmd seq text) w = Ok (true, w').
Proof.
  intros Es Hs F Hc Eh w' E. rewrite <- (app_nil_r (message cmd seq text)) in F |- *.
  rewrite (Process_message sid conn cmd seq text [] s w Es Hc Hs F).
  unfold mbind, M_bind. by rewrite Eh, E.
Qed.

(** *** Lists of users *)

(** One user in a list: its fields, and whether it has a session. *)
Definition entry (fields : User -> list (bytes * Value)) (l : list (bytes * ClientSession)) (u : User) : Value :=
  object (fields u ++ [(bs "clienttype", intValue 1);
                       (bs "status", intValue (if find_session (userid u) l then 1 else 0))]).

Lemma append_users_ok key fields fs done o (w : World) : mfind key o = None -> len done + len fs < 2 ^ 32 ->
  append_users key fields fs (listing key done o) w
  = Ok (listing key (done ++ (entry fields (m_mapclient w) <$> fs)) o, w).
Proof.
  intros N. revert done. induction fs as [|u fs IH]; intros done F; [by rewrite app_nil_r|].
  unfold append_users. cbn [for_fold]. unfold mbind at 1, M_bind at 1. unfold mbind at 1, M_bind at 1.
  unfold IsUserSessionExsit at 1, gets at 1.
  match goal with |- context [lift (set_members ?l _)] => step (lift_ok _ _ w (set_members_null l)) end.
  revert F. len. intros F. pose proof (len_nonneg fs).
  rewrite (lift_ok _ (listing key (done ++ [entry fields (m_mapclient w) u]) o) w).
  - specialize (IH (done ++ [entry fields (m_mapclient w) u])). rewrite <- app_assoc in IH.
    apply IH. len. lia.
  - rewrite <- append_member_listing by (done || lia). unfold entry.
    by destruct (find_session (userid u) (m_mapclient w)).
Qed.

(** The document of a list: code, message, what else, and the users under [key] if there are
    any. *)
Definition list_doc (more : list (bytes * Value)) (key : bytes) (us : list Value) : Value :=
  listing key us (members (object ([(bs "code", intValue 0); (bs "msg", str "ok")] ++ more))).

(** C11: The answer to a request for the friend list has one entry for every friend of the
    session's user that is known, in the order of the friends' ids, each with the profile and
    with status 1 exactly if the friend has a session; it goes to the session's connection,
    with the sequence number of the request, and nothing else changes. *)
Theorem friend_list_exact sid conn seq text s c (w : World) :
  let w1 := with_session sid (set_seq seq s) w in
  let fs := friend_users (userid (m_user s)) (users w) in
  let doc := list_doc [] (bs "userinfo") (entry profile (m_mapclient w1) <$> fs) in
  mfind sid (m_mapclient w) = Some s -> m_conn s = Some c -> is_i32 seq ->
  fits (message msg_type_getofriendlist seq text) -> len fs < 2 ^ 32 ->
  fits (message msg_type_getofriendlist seq (toStyledString doc)) ->
  Process sid conn (message msg_type_getofriendlist seq text) w
  = Ok (true, deliver c (message msg_type_getofriendlist seq (toStyledString doc)) w1).
Proof.
  intros w1 fs doc Es Ec Hs Ft L F.
  refine (Process_request sid conn _ seq text s OnGetFriendListResponse w Es Hs Ft ltac:(done) ltac:(done) _ _).
  fold w1. pose proof (find_with_session sid (set_seq seq s) w) as E1. fold w1 in E1.
  unfold OnGetFriendListResponse. step (me_ok sid _ w1 E1). step (friend_info_ok (userid (m_user s)) w1).
  step (lift_ok _ _ w1 (set_members_null [(bs "code", intValue 0); (bs "msg", str "ok")])).
  pose proof (append_users_ok (bs "userinfo") profile fs []
    (members (object [(bs "code", intValue 0); (bs "msg", str "ok")])) w1 ltac:(done) L) as A.
  step A. step (seq_of_ok sid _ w1 E1).
  destruct (reply_ok sid _ c _ _ _ w1 E1 Ec F) as (wr & E). by step E.
Qed.

(** The answer to a request for the members of a group: the friends of the group's id, with
    the profile but the address, for whoever asks, member or not. *)
Lemma group_members_exact sid conn seq text s c root cm gid (w : World) :
  let w1 := with_session sid (set_seq seq s) w in
  let fs := friend_users gid (users w) in
  let doc := list_doc [(bs "groupid", intValue gid)] (bs "members") (entry member_profile (m_mapclient w1) <$> fs) in
  mfind sid (m_mapclient w) = Some s -> m_conn s = Some c -> is_i32 seq ->
  reader_parse text = Ok (Some (root, cm)) -> complex root ->
  get (bs "groupid") root = intValue gid -> is_i32 gid -> len fs < 2 ^ 32 ->
  fits (message msg_type_getgroupmembers seq text) ->
  fits (message msg_type_getgroupmembers seq (toStyledString_with cm doc)) ->
  Process sid conn (message msg_type_getgroupmembers seq text) w
  = Ok (true, deliver c (message msg_type_getgroupmembers seq (toStyledString_with cm doc)) w1).
Proof.
  intros w1 fs doc Es Ec Hs Ep C Eg Hg L Ft F.
  refine (Process_request sid conn _ seq text s OnGetGroupMemberResponse w Es Hs Ft ltac:(done) ltac:(done) _ _).
  fold w1. pose proof (find_with_session sid (set_seq seq s) w) as E1. fold w1 in E1.
  unfold OnGetGroupMemberResponse. step (lift_ok _ _ w1 Ep).
  destruct (members_are_ok [(bs "groupid", isInt)] root w1 C) as (v1 & E & C1 & G1). step E.
  cbn [forallb fst snd]. rewrite Eg. destruct (asInt_i32 gid Hg) as [-> _]. cbn [andb]. next_member.
  match goal with C : complex ?v |- _ = _ => destruct (clear_ok v w1 C) as (v4 & E4 & Fill) end. step E4.
  step (Fill (bs "code", intValue 0) [(bs "msg", str "ok"); (bs "groupid", intValue gid)] w1).
  step (friend_info_ok gid w1).
  pose proof (append_users_ok (bs "members") member_profile fs []
    (members (object [(bs "code", intValue 0); (bs "msg", str "ok"); (bs "groupid", intValue gid)])) w1 ltac:(done) L) as A.
  step A. step (seq_of_ok sid _ w1 E1).
  destruct (reply_with_ok cm sid _ c _ _ _ w1 E1 Ec F) as (wr & E'). by step E'.
Qed.

(** *** Another user *)

Definition found_fields (u : User) : list (bytes * Value) :=
  [(bs "userid", intValue (userid u)); (bs "username", stringValue (username u));
   (bs "nickname", stringValue (nickname u)); (bs "facetype", intValue (facetype u))].

(** One element, or, when there is no such user, the two characters of an empty array. *)
Definition found_doc (found : option User) : Value :=
  match found with
  | Some u => list_doc [] (bs "userinfo") [object (found_fields u)]
  | None => object [(bs "code", intValue 0); (bs "msg", str "ok"); (bs "userinfo", str "[]")]
  end.

(** The answer to a search for a user name. *)
Lemma find_user_outcome sid conn seq text s c root cm name ty (w : World) :
  let w1 := with_session sid (set_seq seq s) w in
  let doc := found_doc (find_user (fun u => bool_decide (username u = name)) (m_cachedUsers (users w))) in
  mfind sid (m_mapclient w) = Some s -> m_conn s = Some c -> is_i32 seq ->
  reader_parse text = Ok (Some (root, cm)) -> complex root ->
  get (bs "username") root = stringValue name -> get (bs "type") root = intValue ty -> is_i32 ty ->
  fits (message msg_type_finduser seq text) ->
  fits (message msg_type_finduser seq (toStyledString_with cm doc)) ->
  Process sid conn (message msg_type_finduser seq text) w
  = Ok (true, deliver c (message msg_type_finduser seq (toStyledString_with cm doc)) w1).
Proof.
  intros w1 doc Es Ec Hs Ep C En Et Ht Ft F.
  refine (Process_request sid conn _ seq text s OnFindUserResponse w Es Hs Ft ltac:(done) ltac:(done) _ _).
  fold w1. pose proof (find_with_session sid (set_seq seq s) w) as E1. fold w1 in E1.
  unfold OnFindUserResponse. step (lift_ok _ _ w1 Ep).
  destruct (members_are_ok [(bs "type", isInt); (bs "username", isString)] root w1 C) as (v1 & E & C1 & G1). step E.
  cbn [forallb fst snd]. rewrite Et, En. destruct (asInt_i32 ty Ht) as [-> _]. cbn [isString andb]. next_member.
  match goal with C : complex ?v |- _ = _ => destruct (clear_ok v w1 C) as (v4 & E4 & Fill) end. step E4.
  step (user_mgr_read (fun m => find_user (fun u => bool_decide (username u = name)) (m_cachedUsers m)) w1).
  step (Fill (bs "code", intValue 0) [(bs "msg", str "ok")] w1). rewrite (bind_ok _ _ _ doc w1).
  - step (seq_of_ok sid _ w1 E1). destruct (reply_with_ok cm sid _ c _ _ _ w1 E1 Ec F) as (wr & E'). by step E'.
  - unfold doc, found_doc. change (users w1) with (users w). destruct (find_user _ _) as [u|]; [|done].
    match goal with |- context [lift (set_members ?l _)] => step (lift_ok _ _ w1 (set_members_null l)) end.
    apply lift_ok, (append_member_listing (bs "userinfo") _ []); done.
Qed.

(** ** Changes that others are told about *)

(** A request to change the profile to that of [i]. *)
Record info_request (root : Value) (i : User) : Prop := {
  ir_complex : complex root;
  ir_nick : get (bs "nickname") root = stringValue (nickname i);
  ir_face : get (bs "facetype") root = intValue (facetype i);
  ir_custom : get (bs "customface") root = stringValue (custimface i);
  ir_gender : get (bs "gender") root = intValue (gender i);
  ir_birth : get (bs "birthday") root = intValue (birthday i);
  ir_sign : get (bs "signature") root = stringValue (signature i);
  ir_addr : get (bs "address") root = stringValue (address i);
  ir_phone : get (bs "phonenumber") root = stringValue (phonenumber i);
  ir_mail : get (bs "mail") root = stringValue (mail i);
  ir_range : is_i32 (facetype i) /\ is_i32 (gender i) /\ is_i32 (birthday i);
}.

(** The nine fields as the handler collects them. *)
Definition info_of (i : User) : User :=
  new_info (nickname i) (facetype i) (custimface i) (gender i) (birthday i) (signature i) (address i)
    (phonenumber i) (mail i).

Definition info_doc (updated : bool) (mine i : User) : Value :=
  object (if updated then
    [(bs "code", intValue 0); (bs "msg", str "ok"); (bs "userid", intValue (userid mine));
     (bs "username", stringValue (username mine)); (bs "nickname", stringValue (nickname i));
     (bs "facetype", intValue (facetype i)); (bs "customface", stringValue (custimface i));
     (bs "gender", intValue (gender i)); (bs "birthday", intValue (birthday i));
     (bs "signature", stringValue (signature i)); (bs "address", stringValue (address i));
     (bs "phonenumber", stringValue (phonenumber i)); (bs "mail", stringValue (mail i))]
  else [(bs "code", intValue 104); (bs "msg", str "update user info failed")]).

(** The tests the handler starts with. *)
Lemma info_read root i (w : World) : info_request root i ->
  exists v, lift (members_are
        [(bs "nickname", isString); (bs "facetype", isInt); (bs "customface", isString);
         (bs "gender", isInt); (bs "birthday", isInt); (bs "signature", isString);
         (bs "address", isString); (bs "phonenumber", isString); (bs "mail", isString)] root) w = Ok (true, v, w)
    /\ complex v /\ (forall k, get k v = get k root).
Proof.
  intros [C E1 E2 E3 E4 E5 E6 E7 E8 E9 (R1 & R2 & R3)].
  match goal with |- context [members_are ?l _] => destruct (members_are_ok l root w C) as (v & E & Cv & G) end.
  exists v. rewrite E. split; [|done]. cbn [forallb fst snd]. rewrite E1, E2, E3, E4, E5, E6, E7, E8, E9.
  destruct (asInt_i32 _ R1) as [-> _], (asInt_i32 _ R2) as [-> _], (asInt_i32 _ R3) as [-> _]. done.
Qed.

(** A change of the profile is answered with the new profile under the session's user, or
    with 104 if it failed; either way, all friends of the user that have a session are then
    told that it changed, each on its own connection. *)
Theorem update_info_outcome sid conn seq text s c root cm i updated st (w : World) :
  let s1 := set_seq seq s in
  let id := userid (m_user s) in
  let w1 := with_users st (with_session sid s1 w) in
  let m := message msg_type_updateuserinfo seq (toStyledString_with cm (info_doc updated (m_user s) i)) in
  let told := omap (notification id 3 (m_mapclient w1)) (friend_users id st.1) in
  mfind sid (m_mapclient w) = Some s -> m_conn s = Some c -> sorted_map (m_mapclient w) -> is_i32 seq ->
  reader_parse text = Ok (Some (root, cm)) -> info_request root i ->
  UpdateUserInfo id (info_of i) (users w, database w) = Ok (updated, st) ->
  fits (message msg_type_updateuserinfo seq text) -> fits m -> Forall (fun p => fits p.2) told ->
  Process sid conn (message msg_type_updateuserinfo seq text) w = Ok (true, deliver_each told (deliver c m w1)).
Proof.
  intros s1 id w1 m told Es Ec S Hs Ep A Eu Ft F Fn.
  refine (Process_request sid conn _ seq text s OnUpdateUserInfoResponse w Es Hs Ft ltac:(done) ltac:(done) _ _).
  fold s1. set (w0 := with_session sid s1 w) in *.
  pose proof (find_with_session sid s1 w : mfind sid (m_mapclient w0) = Some s1) as E0.
  unfold OnUpdateUserInfoResponse. step (lift_ok _ _ w0 Ep).
  destruct (info_read root i w0 A) as (v & E & C & G). step E. clear E.
  destruct A as [_ A1 A2 A3 A4 A5 A6 A7 A8 A9 (R1 & R2 & R3)]. do 9 next_member.
  match goal with C : complex ?v |- _ = _ => destruct (clear_ok v w0 C) as (v4 & E4 & Fill) end. step E4.
  step (me_ok sid s1 w0 E0). step (user_mgr_ok _ updated st w0 Eu). fold w1.
  rewrite (bind_ok _ _ _ (info_doc updated (m_user s) i) w1); [|destruct updated; apply Fill].
  assert (mfind sid (m_mapclient w1) = Some s1) as E1 by done. step (seq_of_ok sid s1 w1 E1).
  destruct (reply_with_ok cm sid s1 c _ _ _ w1 E1 Ec F) as (wr & E'). step E'. fold m.
  step (me_ok sid s1 (deliver c m w1) E1). step (friend_info_ok id (deliver c m w1)).
  apply (notify_online_ok id 3 (friend_users id st.1) (deliver c m w1)); [|done].
  by apply sorted_mset.
Qed.

(** *** Friends and groups *)

(** A request of some [type] about user or group [target]. *)
Record operate_request (root : Value) (type target : Z) : Prop := {
  or_complex : complex root;
  or_type : get (bs "type") root = intValue type;
  or_target : get (bs "userid") root = intValue target;
  or_range : is_i32 type /\ is_i32 target;
}.

(** Where the request goes, as [OnOperateFriendResponse] decides it, for the types about
    groups and the end of a friendship. *)
Lemma operate_goes sid conn data root cm type target (w : World) :
  reader_parse data = Ok (Some (root, cm)) -> operate_request root type target ->
  type = 4 \/ GROUPID_BOUBDARY <= target ->
  OnOperateFriendResponse sid conn data w
  = (if decide (type = 4) then DeleteFriend sid conn target else OnAddGroupResponse sid conn target) w.
Proof.
  intros Ep [C Et Ei [Rt Ri]] Hg. unfold OnOperateFriendResponse. step (lift_ok _ _ w Ep).
  destruct (members_are_ok [(bs "type", isInt); (bs "userid", isInt)] root w C) as (v & E & Cv & G). step E. clear E.
  cbn [forallb fst snd]. rewrite Et, Ei. destruct (asInt_i32 _ Rt) as [-> _], (asInt_i32 _ Ri) as [-> _].
  cbn [andb]. do 2 next_member. case_decide as Hb; [done|]. rewrite decide_True by lia. rewrite decide_True by lia. done.
Qed.

(** A friendship ended: the user or group that is gone, by id and name. *)
Definition delete_doc (id : Z) (name : bytes) : Value :=
  object [(bs "userid", intValue id); (bs "type", intValue 5); (bs "username", stringValue name)].

Definition release_friends (mine target : Z) (s : UserManager * D) : outcome (bool * (UserManager * D)) :=
  ReleaseFriendRelationship (Z.min mine target) (Z.max mine target) s.

(** Who else is told: the former friend, or what is left of the group. *)
Definition tell_deleted (target seq : Z) (mine : User) (w : World) : World :=
  if decide (target < GROUPID_BOUBDARY) then
    match find_session target (m_mapclient w) with
    | Some (_, t) =>
        match m_conn t with
        | Some c => deliver c (message msg_type_operatefriend seq
                                 (toStyledString (delete_doc (userid mine) (username mine)))) w
        | None => w
        end
    | None => w
    end
  else deliver_each (omap (notification target 3 (m_mapclient w)) (friend_users target (users w))) w.

Lemma tell_deleted_ok sid s target (mine : Value) (w : World) :
  let root := delete_doc (userid (m_user s)) (username (m_user s)) in
  mfind sid (m_mapclient w) = Some s -> sorted_map (m_mapclient w) -> complex mine ->
  fits (message msg_type_operatefriend (m_seq s) (toStyledString root)) ->
  Forall (fun p => fits p.2) (omap (notification target 3 (m_mapclient w)) (friend_users target (users w))) ->
  (if decide (target < GROUPID_BOUBDARY) then
     t ← GetSessionByID target;
     match t with
     | None => mret tt
     | Some t =>
         root ← lift (clear mine);
         u ← me sid;
         root ← lift (set_members [(bs "userid", intValue (userid u)); (bs "type", intValue 5);
                                   (bs "username", stringValue (username u))] root);
         seq ← seq_of sid;
         _ ← reply t (start msg_type_operatefriend seq) root;
         mret tt
     end
   else
     friends ← user_mgr (GetFriendInfoByUserId target);
     notify_online target 3 friends) w = Ok (tt, tell_deleted target (m_seq s) (m_user s) w).
Proof.
  intros root Es S C F Fn. unfold tell_deleted. case_decide as Hg.
  - step (GetSessionByID_ok target w).
    destruct (find_session target (m_mapclient w)) as [[t st]|] eqn:Ef; cbn [fmap option_fmap option_map fst snd]; [|done].
    pose proof (find_session_mfind _ _ _ _ S Ef) as Et. destruct (clear_ok mine w C) as (v & E & Fill). step E.
    step (me_ok sid s w Es).
    step (Fill (bs "userid", intValue (userid (m_user s))) [(bs "type", intValue 5); (bs "username", stringValue (username (m_user s)))] w).
    step (seq_of_ok sid s w Es). destruct (m_conn st) as [c|] eqn:Ec.
    + destruct (reply_ok t st c _ _ _ w Et Ec F) as (wr & E'). by step E'.
    + unfold reply, Send, mbind, M_bind, session. by rewrite Et, Ec.
  - step (friend_info_ok target w). by apply notify_online_ok.
Qed.

(** The end of a friendship, or of a membership: the row and both sides go, the user that
    asked is told with the other's id and name, then the other user, if it has a session, with
    the first one's id and name, or, if it is a group, those of its remaining members that have
    a session. When there was nothing to end, or the other user is not known, nobody is told. *)
Theorem friend_deleted sid s c conn data root cm target ok st (w : World) :
  let mine := m_user s in
  let w1 := with_users st w in
  mfind sid (m_mapclient w) = Some s -> m_conn s = Some c -> sorted_map (m_mapclient w) ->
  reader_parse data = Ok (Some (root, cm)) -> operate_request root 4 target ->
  release_friends (userid mine) target (users w, database w) = Ok (ok, st) ->
  match (if ok : bool then find_user (fun u => userid u =? target) (m_cachedUsers st.1) else None) with
  | None => OnOperateFriendResponse sid conn data w = Ok (tt, w1)
  | Some tu =>
      let m := message msg_type_operatefriend (m_seq s) (toStyledString (delete_doc target (username tu))) in
      fits m ->
      fits (message msg_type_operatefriend (m_seq s) (toStyledString (delete_doc (userid mine) (username mine)))) ->
      Forall (fun p => fits p.2) (omap (notification target 3 (m_mapclient w)) (friend_users target st.1)) ->
      OnOperateFriendResponse sid conn data w = Ok (tt, tell_deleted target (m_seq s) mine (deliver c m w1))
  end.
Proof.
  intros mine w1 Es Ec S Ep A Er.
  assert (user_mgr (ReleaseFriendRelationship (Z.min (userid mine) target) (Z.max (userid mine) target)) w
    = Ok (ok, w1)) as Eu by (by apply user_mgr_ok).
  rewrite (operate_goes sid conn data root cm 4 target w Ep A) by auto. rewrite decide_True by done.
  unfold DeleteFriend. step (me_ok sid s w Es). fold mine.
  assert ((if decide (target > userid mine) then (userid mine, target) else (target, userid mine))
    = (Z.min (userid mine) target, Z.max (userid mine) target)) as ->.
  { case_decide; [rewrite Z.min_l, Z.max_r by lia|rewrite Z.min_r, Z.max_l by lia]; done. }
  step Eu. destruct ok; [|done]. step (user_info_ok target w1). change (users w1) with st.1.
  destruct (find_user _ _) as [tu|]; [|done]. intros F F2 Fn.
  match goal with |- context [lift (set_members ?l _)] => step (lift_ok _ _ w1 (set_members_null l)) end.
  assert (mfind sid (m_mapclient w1) = Some s) as E1 by done. step (seq_of_ok sid s w1 E1).
  destruct (reply_ok sid s c _ _ _ w1 E1 Ec F) as (wr & E'). step E'.
  by apply (tell_deleted_ok sid s target _ (deliver c _ w1)).
Qed.

(** A request to join a group makes the user a member if the database takes the row: the
    user is told with the group's id and name and the answer 3, then every member that has a
    session, the new one included, is told that the group changed. Nobody in the group is
    asked. A membership that fails, or an unknown group, has no answer. *)
Theorem group_joined sid s c conn data root cm type gid ok st (w : World) :
  let mine := m_user s in
  let w1 := with_users st w in
  let told := omap (notification gid 3 (m_mapclient w)) (friend_users gid st.1) in
  mfind sid (m_mapclient w) = Some s -> m_conn s = Some c -> sorted_map (m_mapclient w) ->
  reader_parse data = Ok (Some (root, cm)) -> operate_request root type gid -> type <> 4 ->
  GROUPID_BOUBDARY <= gid ->
  MakeFriendRelationship (userid mine) gid (users w, database w) = Ok (ok, st) ->
  Forall (fun p => fits p.2) told ->
  match (if ok : bool then find_user (fun u => userid u =? gid) (m_cachedUsers st.1) else None) with
  | None => OnOperateFriendResponse sid conn data w = Ok (tt, w1)
  | Some g =>
      let m := message msg_type_operatefriend (m_seq s) (toStyledString (accept_doc g 3)) in
      fits m -> OnOperateFriendResponse sid conn data w = Ok (tt, deliver_each told (deliver c m w1))
  end.
Proof.
  intros mine w1 told Es Ec S Ep A Ht Hg Er Fn.
  rewrite (operate_goes sid conn data root cm type gid w Ep A) by auto. rewrite decide_False by done.
  unfold OnAddGroupResponse. step (me_ok sid s w Es). fold mine. step (user_mgr_ok _ ok st w Er).
  fold w1. destruct ok; [|done]. step (user_info_ok gid w1). change (users w1) with st.1.
  destruct (find_user _ _) as [g|]; [|done]. intros F.
  match goal with |- context [lift (set_members ?l _)] => step (lift_ok _ _ w1 (set_members_null l)) end.
  assert (mfind sid (m_mapclient w1) = Some s) as E1 by done. step (seq_of_ok sid s w1 E1).
  destruct (reply_ok sid s c _ _ _ w1 E1 Ec F) as (wr & E'). step E'.
  step (friend_info_ok gid (deliver c (message msg_type_operatefriend (m_seq s) (toStyledString (accept_doc g 3))) w1)).
  by apply (notify_online_ok gid 3 (friend_users gid st.1) (deliver c _ w1)).
Qed.

(** The two messages about a new group. *)
Definition created_doc (gid : Z) (name : bytes) : Value :=
  object [(bs "code", intValue 0); (bs "msg", str "ok"); (bs "groupid", intValue gid);
          (bs "groupname", stringValue name)].
Definition new_group_doc (gid : Z) (name : bytes) : Value :=
  object [(bs "userid", intValue gid); (bs "type", intValue 3); (bs "username", stringValue name)].

(** A request to create a group, once the database took the group, makes its creator the
    first member and tells it twice, with the id of the group: as the answer and as a notice
    that the group is in its list. When the membership fails, the group is there, empty, and
    there is no answer. *)
Theorem group_created sid conn seq text s c root cm name gid st1 ok st2 (w : World) :
  let w1 := with_users st2 (with_session sid (set_seq seq s) w) in
  let m1 := message msg_type_creategroup seq (toStyledString_with cm (created_doc gid name)) in
  let m2 := message msg_type_operatefriend seq (toStyledString (new_group_doc gid name)) in
  mfind sid (m_mapclient w) = Some s -> m_conn s = Some c -> is_i32 seq ->
  reader_parse text = Ok (Some (root, cm)) -> complex root -> get (bs "groupname") root = stringValue name ->
  AddGroup name (userid (m_user s)) (users w, database w) = Ok (Some gid, st1) ->
  MakeFriendRelationship (userid (m_user s)) gid st1 = Ok (ok, st2) ->
  fits (message msg_type_creategroup seq text) -> fits m1 -> fits m2 ->
  Process sid conn (message msg_type_creategroup seq text) w
  = Ok (true, if ok then deliver c m2 (deliver c m1 w1) else w1).
Proof.
  intros w1 m1 m2 Es Ec Hs Ep C En Ea Em Ft F1 F2.
  refine (Process_request sid conn _ seq text s OnCreateGroupResponse w Es Hs Ft ltac:(done) ltac:(done) _ _).
  set (s1 := set_seq seq s). set (w0 := with_session sid s1 w).
  pose proof (find_with_session sid s1 w : mfind sid (m_mapclient w0) = Some s1) as E0.
  unfold OnCreateGroupResponse. step (lift_ok _ _ w0 Ep).
  destruct (members_are_ok [(bs "groupname", isString)] root w0 C) as (v & E & Cv & G). step E. clear E.
  cbn [forallb fst snd]. rewrite En. cbn [isString andb]. next_member.
  match goal with C : complex ?v |- _ = _ => destruct (clear_ok v w0 C) as (v4 & E4 & Fill) end. step E4.
  step (me_ok sid s1 w0 E0). step (user_mgr_ok _ _ st1 w0 Ea). set (wg := with_users st1 w0).
  step (Fill (bs "code", intValue 0) [(bs "msg", str "ok"); (bs "groupid", intValue gid); (bs "groupname", stringValue name)] wg).
  assert (mfind sid (m_mapclient wg) = Some s1) as Eg by done. step (me_ok sid s1 wg Eg).
  assert (user_mgr (MakeFriendRelationship (userid (m_user s)) gid) wg = Ok (ok, w1)) as Eu
    by (unfold user_mgr, zoom; simpl; by rewrite <- surjective_pairing, Em).
  step Eu. destruct ok; [|done]. assert (mfind sid (m_mapclient w1) = Some s1) as E1 by done.
  step (seq_of_ok sid s1 w1 E1). destruct (reply_with_ok cm sid s1 c _ _ _ w1 E1 Ec F1) as (wr & E). step E. fold m1.
  match goal with |- context [lift (set_members ?l _)] => step (lift_ok _ _ (deliver c m1 w1) (set_members_null l)) end.
  step (seq_of_ok sid s1 (deliver c m1 w1) E1).
  destruct (reply_ok sid s1 c _ _ _ (deliver c m1 w1) E1 Ec F2) as (wr2 & E2). by step E2.
Qed.

(** ** One message to several targets *)

Lemma set_member_complex key x v : complex v ->
  exists v', set_member key x v = Ok v' /\ complex v' /\ get key v' = x.
Proof.
  destruct v as [| | | | | | |o]; try done; intros _; eexists; (split; [reflexivity|]); split; try done;
    unfold get; cbn [members]; by rewrite mfind_mset_eq.
Qed.

(** What the session does for one target. *)
Definition chat_one (sid : bytes) (conn : Z) (data : bytes) (t : Z) : W unit :=
  _ ← update_session sid (set_target t);
  OnChatResponse sid conn data.

Lemma bind_same {A B} (m : W A) (k k' : A -> W B) (w : World) : (forall a w, k a w = k' a w) ->
  (m ≫= k) w = (m ≫= k') w.
Proof. intros E. unfold mbind, M_bind. destruct (m w) as [[a t]| |]; [apply E|done..]. Qed.

Lemma multi_chat_each_from n sid conn data i root ts rest (w : World) : complex root ->
  get (bs "targets") root = array (intValue <$> ts) -> len ts < 2 ^ 32 -> Forall is_i32 ts ->
  0 <= i -> drop (Z.to_nat i) ts = rest -> (length rest < n)%nat ->
  multi_chat n sid conn data i root w = for_each (chat_one sid conn data) rest w.
Proof.
  revert i root rest w. induction n as [|n IH]; intros i root rest w C Eg L R Hi Er Hn; [lia|].
  cbn [multi_chat]. destruct (resolveReference_complex (bs "targets") root C) as (v & Ev & Cv & Gv).
  step (lift_ok _ _ w Ev). rewrite Eg. rewrite size_array by (unfold len in *; by rewrite length_fmap).
  assert (len (intValue <$> ts) = len ts) as -> by (unfold len; by rewrite length_fmap).
  pose proof (f_equal length Er) as El. rewrite length_drop in El.
  assert (len ts = Z.of_nat (length ts)) as Lz by done.
  destruct rest as [|t rest]; simpl in El, Hn; [by rewrite decide_False by lia|].
  rewrite decide_True by lia.
  assert (ts !! Z.to_nat i = Some t) as Et by (rewrite <- (Nat.add_0_r (Z.to_nat i)), <- lookup_drop, Er; done).
  assert (resolveIndex i (array (intValue <$> ts)) = Ok (intValue t, array (intValue <$> ts))) as Ei.
  { unfold array, resolveIndex. replace i with (0 + Z.of_nat (Z.to_nat i)) by lia.
    rewrite (number_find 0 _ _ (intValue t)); [done|]. by rewrite list_lookup_fmap, Et. }
  step (lift_ok _ _ w Ei). destruct (set_member_complex (bs "targets") (array (intValue <$> ts)) v Cv) as (v2 & E2 & C2 & G2).
  step (lift_ok _ _ w E2). pose proof (proj1 (Forall_lookup _ _) R _ _ Et) as Rt.
  step (lift_ok _ _ w (proj2 (asInt_i32 t Rt))). cbn [for_each].
  transitivity ((_ ← update_session sid (set_target t); _ ← OnChatResponse sid conn data;
                 for_each (chat_one sid conn data) rest : W unit) w).
  - apply bind_same. intros _ w1. apply bind_same. intros _ w2.
    apply (IH (i + 1) v2 rest w2 C2 G2 L R); [lia| |lia].
    rewrite Z2Nat.inj_add, <- drop_drop by lia. by rewrite Er.
  - unfold mbind, M_bind. unfold chat_one at 2. unfold mbind, M_bind.
    by destruct (update_session sid (set_target t) w) as [[[] ?]| |].
Qed.

(** The request: the text, then the targets as a text of their own. *)
Definition multi_request (seq : Z) (text targets : bytes) : bytes :=
  message msg_type_multichat seq text ++ string_bytes targets.

(** C18: A message to several targets is a chat message to each of them, in the order of the
    list, as if the session had asked for one after the other, each saved, delivered or kept
    on its own; the writer is a new one each time. The session remembers the last target. *)
Theorem multi_chat_each sid conn seq text targets s root cm ts (w : World) :
  mfind sid (m_mapclient w) = Some s -> is_i32 seq -> fits (multi_request seq text targets) ->
  reader_parse targets = Ok (Some (root, cm)) -> complex root ->
  get (bs "targets") root = array (intValue <$> ts) -> len ts < 2 ^ 32 -> Forall is_i32 ts ->
  Process sid conn (multi_request seq text targets) w
  = (_ ← for_each (chat_one sid conn text) ts; mret true)
      (with_session sid (set_targets targets (set_seq seq s)) w).
Proof.
  intros Es Hs F Ep C Eg L R. unfold multi_request in *.
  rewrite (Process_message sid conn msg_type_multichat seq text _ s w Es) by (done || apply _).
  unfold dispatch. rewrite !decide_False by done. rewrite decide_True by done.
  set (w1 := with_session sid (set_seq seq s) w).
  pose proof (ReadData_string_at targets (message msg_type_multichat seq text) []) as Q.
  rewrite !app_nil_r in Q. unfold fits, INT_MAX in *. revert F. len. intros F.
  assert (len targets <= len (string_bytes targets)) as Lt
    by (unfold string_bytes; len; pose proof (len_nonneg (Compress (len targets) [])); lia).
  pose proof (len_nonneg (message msg_type_multichat seq text)). pose proof (len_nonneg targets).
  unfold mbind at 1, M_bind at 1. step (lift_ok _ _ w1 (Q ltac:(lia) ltac:(lia))).
  step (update_session_ok sid (set_targets targets) _ w1 (find_with_session _ _ _)).
  replace (with_session sid (set_targets targets (set_seq seq s)) w1)
    with (with_session sid (set_targets targets (set_seq seq s)) w)
    by (unfold w1, with_session, set_sessions; simpl; by rewrite mset_mset).
  set (w2 := with_session sid _ w). pose proof (find_with_session sid (set_targets targets (set_seq seq s)) w) as E2. fold w2 in E2.
  unfold OnMultiChatResponse. step (session_ok sid _ w2 E2). step (lift_ok _ _ w2 Ep).
  destruct (resolveReference_complex (bs "targets") root C) as (v & Ev & Cv & Gv). step (lift_ok _ _ w2 Ev).
  rewrite Eg. change (isArray (array _)) with true. cbv iota.
  rewrite (multi_chat_each_from _ sid conn text 0 v ts ts w2); try done; [by rewrite Gv|].
  rewrite size_array by (unfold len in *; by rewrite length_fmap). unfold len. rewrite length_fmap. lia.
Qed.
End lists.

(** ** At work *)

Lemma friend_list_exact_witness : exists doc w,
  Process sid_a ptr_a (message msg_type_getofriendlist 8 []) room_ann = Ok (true, w)
  /\ get (bs "userinfo") doc = array [entry profile (m_mapclient room_ann) bob_stored]
  /\ conns w !! ptr_a = Some (conn_send (packet (message msg_type_getofriendlist 8 (toStyledString doc))) up).
Proof.
  exists (list_doc [] (bs "userinfo") [entry profile (m_mapclient room_ann) bob_stored]).
  eexists. split; [|split].
  - apply (friend_list_exact sid_a ptr_a 8 [] session_ann ptr_a room_ann).
    + vm_compute; reflexivity.
    + reflexivity.
    + apply (bool_decide_unpack _); vm_compute; exact I.
    + apply (bool_decide_unpack _); vm_compute; exact I.
    + apply (bool_decide_unpack _); vm_compute; exact I.
    + apply (bool_decide_unpack _); vm_compute; exact I.
  - vm_compute; reflexivity.
  - vm_compute; reflexivity.
Defined.

Definition info_text : bytes := json
  "{'nickname':'An','facetype':3,'customface':'','gender':1,'birthday':19990101,'signature':'hi','address':'x','phonenumber':'1','mail':'m'}".
Definition new_ann : User := new_info (bs "An") 3 [] 1 19990101 (bs "hi") (bs "x") (bs "1") (bs "m").
Definition ann_updated : UserManager * journal :=
  match UpdateUserInfo 1 (info_of new_ann) (users room_ann, database room_ann) with
  | Ok (_, s) => s
  | _ => friends_made
  end.

(** Bob is told. *)
Lemma update_info_outcome_witness : exists w,
  Process sid_a ptr_a (message msg_type_updateuserinfo 8 info_text) room_ann = Ok (true, w)
  /\ (nickname <$> m_cachedUsers (users w)) = [bs "An"; bs "Bob"]
  /\ match conns w !! ptr_b with Some c => sent c <> [] | None => False end.
Proof.
  eexists. split; [|split].
  - apply (update_info_outcome sid_a ptr_a 8 info_text session_ann ptr_a (root_of info_text) no_comments new_ann
      true ann_updated room_ann).
    + vm_compute; reflexivity.
    + reflexivity.
    + apply (room_sorted session_ann).
    + apply (bool_decide_unpack _); vm_compute; exact I.
    + vm_compute; reflexivity.
    + split; [vm_compute; exact I|vm_compute; reflexivity..|].
      repeat split; apply (bool_decide_unpack _); vm_compute; exact I.
    + vm_compute; reflexivity.
    + apply (bool_decide_unpack _); vm_compute; exact I.
    + apply (bool_decide_unpack _); vm_compute; exact I.
    + apply (bool_decide_unpack _); vm_compute; exact I.
  - vm_compute; reflexivity.
  - vm_compute. discriminate.
Defined.

Definition delete_text : bytes := json "{'type':4,'userid':2}".
Definition released : UserManager * journal :=
  match ReleaseFriendRelationship 1 2 (users room_ann, database room_ann) with
  | Ok (_, s) => s
  | _ => friends_made
  end.

Lemma friend_deleted_witness : exists w,
  OnOperateFriendResponse sid_a ptr_a delete_text room_ann = Ok (tt, w)
  /\ (friends <$> m_cachedUsers (users room_ann)) = [[2]; [1]]
  /\ (friends <$> m_cachedUsers (users w)) = [[]; []].
Proof.
  pose proof (friend_deleted sid_a session_ann ptr_a ptr_a delete_text (root_of delete_text) no_comments 2 true
    released room_ann ltac:(vm_compute; reflexivity) eq_refl (room_sorted session_ann)
    ltac:(vm_compute; reflexivity)) as P.
  cbv zeta in P. cbv iota in P.
  assert (find_user (fun u => userid u =? 2) (m_cachedUsers released.1) = Some (set_friends [] bob_stored)) as E
    by (vm_compute; reflexivity).
  rewrite E in P. eexists. split; [|split].
  - apply P.
    + split; [vm_compute; exact I|vm_compute; reflexivity..|].
      split; apply (bool_decide_unpack _); vm_compute; exact I.
    + vm_compute; reflexivity.
    + apply (bool_decide_unpack _); vm_compute; exact I.
    + apply (bool_decide_unpack _); vm_compute; exact I.
    + apply (bool_decide_unpack _); vm_compute; exact I.
  - vm_compute; reflexivity.
  - vm_compute; reflexivity.
Defined.

Definition group_text : bytes := json "{'groupname':'all'}".
Definition gid_all : Z := 268435456.
Definition group_made : UserManager * journal :=
  match AddGroup (bs "all") 1 (users room_ann, database room_ann) with
  | Ok (_, s) => s
  | _ => friends_made
  end.
Definition group_first : UserManager * journal :=
  match MakeFriendRelationship 1 gid_all group_made with
  | Ok (_, s) => s
  | _ => friends_made
  end.

Lemma group_created_witness : exists w,
  Process sid_a ptr_a (message msg_type_creategroup 8 group_text) room_ann = Ok (true, w)
  /\ friends_of gid_all (m_cachedUsers (users w)) = [1].
Proof.
  eexists. split.
  - apply (group_created sid_a ptr_a 8 group_text session_ann ptr_a (root_of group_text) no_comments (bs "all")
      gid_all group_made true group_first room_ann).
    + vm_compute; reflexivity.
    + reflexivity.
    + apply (bool_decide_unpack _); vm_compute; exact I.
    + vm_compute; reflexivity.
    + vm_compute; exact I.
    + vm_compute; reflexivity.
    + vm_compute; reflexivity.
    + vm_compute; reflexivity.
    + apply (bool_decide_unpack _); vm_compute; exact I.
    + apply (bool_decide_unpack _); vm_compute; exact I.
    + apply (bool_decide_unpack _); vm_compute; exact I.
  - vm_compute; reflexivity.
Defined.

(** The same group, asked for by the session of bob. *)
Definition group_room : World (D := journal) := with_users group_first room_ann.
Definition join_text : bytes := json "{'type':1,'userid':268435456}".
Definition group_both : UserManager * journal :=
  match MakeFriendRelationship 2 gid_all group_first with
  | Ok (_, s) => s
  | _ => friends_made
  end.

Lemma group_joined_witness : exists w,
  OnOperateFriendResponse sid_b ptr_b join_text group_room = Ok (tt, w)
  /\ friends_of gid_all (m_cachedUsers (users w)) = [1; 2].
Proof.
  pose proof (group_joined sid_b session_b ptr_b ptr_b join_text (root_of join_text) no_comments 1 gid_all true
    group_both group_room ltac:(vm_compute; reflexivity) eq_refl (room_sorted session_ann)
    ltac:(vm_compute; reflexivity)) as P.
  cbv zeta in P. cbv iota in P.
  assert (exists g, find_user (fun u => userid u =? gid_all) (m_cachedUsers group_both.1) = Some g
    /\ fits (message msg_type_operatefriend (m_seq session_b) (toStyledString (accept_doc g 3)))) as (g & Eg & F).
  { eexists. split; [vm_compute; reflexivity|apply (bool_decide_unpack _); vm_compute; exact I]. }
  rewrite Eg in P. eexists. split.
  - apply P.
    + split; [vm_compute; exact I|vm_compute; reflexivity..|].
      split; apply (bool_decide_unpack _); vm_compute; exact I.
    + done.
    + apply (bool_decide_unpack _); vm_compute; exact I.
    + vm_compute; reflexivity.
    + apply (bool_decide_unpack _); vm_compute; exact I.
    + exact F.
  - vm_compute; reflexivity.
Defined.

Definition targets_text : bytes := json "{'targets':[2,1,2]}".

(** Bob twice, ann once. *)
Lemma multi_chat_each_witness : exists w,
  Process sid_a ptr_a (multi_request 8 (bs "hello") targets_text) room_ann = Ok (true, w)
  /\ (m_target <$> mfind sid_a (m_mapclient w)) = Some (Some 2)
  /\ (len (sent (default up (conns w !! ptr_b))), len (sent (default up (conns w !! ptr_a)))) = (64, 32).
Proof.
  eexists. split; [|split].
  - rewrite (multi_chat_each sid_a ptr_a 8 (bs "hello") targets_text session_ann (root_of targets_text) no_comments
      [2; 1; 2] room_ann).
    + vm_compute; reflexivity.
    + vm_compute; reflexivity.
    + apply (bool_decide_unpack _); vm_compute; exact I.
    + apply (bool_decide_unpack _); vm_compute; exact I.
    + vm_compute; reflexivity.
    + vm_compute; exact I.
    + vm_compute; reflexivity.
    + apply (bool_decide_unpack _); vm_compute; exact I.
    + apply (bool_decide_unpack _); vm_compute; exact I.
  - vm_compute; reflexivity.
  - vm_compute; reflexivity.
Defined.
