(* ===== verification/Later.v ===== *)
(** * Messages for a user who is away, until that user comes back

    The chat server end to end for the messages it keeps: requests of one client, the cache, and
    the login of the other. *)

From S2P Require Import Prelude Bytes Text StdMap BinaryReader Framing MsgCacheManager Json.
From S2P Require Import Database UserManager Conn World ClientSession Delivery Room JsonReader JsonWriter.
From S2P Require Import UserManagerProofs UserManagerLoad ChatLogin ChatDelivery ChatRequests.

(** ** The messages kept for a user *)

Definition keep_all (id : Z) (ms : list bytes) (c : MsgCacheManager) : MsgCacheManager :=
  fold_left (fun c m => keep_chat id m c) ms c.

Lemma notify_pending_keep id id' ms c : notify_pending id (keep_all id' ms c) = notify_pending id c.
Proof. revert c. induction ms as [|m ms IH]; intros c; [done|]. simpl. by rewrite IH. Qed.

Lemma chat_pending_keep id ms c : chat_pending id (keep_all id ms c) = chat_pending id c ++ ms.
Proof.
  revert c. induction ms as [|m ms IH]; intros c; simpl; [by rewrite app_nil_r|].
  rewrite IH. unfold chat_pending, keep_chat. simpl. rewrite filter_app, fmap_app, <- app_assoc.
  f_equal. rewrite filter_cons_True; [done|]. simpl. by rewrite Z.eqb_refl.
Qed.

Lemma filter_out {A} (f : A -> bool) l : filter (fun x => f x) (filter (fun x => negb (f x)) l) = [].
Proof.
  induction l as [|x l IH]; [done|].
  rewrite !filter_cons. destruct (f x) eqn:E; simpl; [done|]. rewrite filter_cons, E. by simpl.
Qed.

Lemma pending_taken id c : notify_pending id (taken id c) = [] /\ chat_pending id (taken id c) = [].
Proof. unfold notify_pending, chat_pending, taken. cbn. by rewrite !filter_out. Qed.

(** ** Sessions *)

Lemma offline_mset id sid s s' l : sorted_map l -> mfind sid l = Some s -> userid (m_user s') = userid (m_user s) ->
  find_session id l = None -> find_session id (mset sid s' l) = None.
Proof.
  intros S Es Eu N. unfold find_session in *. destruct (List.find _ (mset _ _ _)) as [[k v]|] eqn:E; [|done].
  apply List.find_some in E as [Hin Hv]. apply list_elem_of_In in Hin.
  apply elem_mfind in Hin; [|by apply sorted_mset]. rewrite mfind_mset in Hin.
  assert (exists v', (k, v') ∈ l /\ UserID v' = UserID v) as (v' & Hv' & Ev).
  { case_decide as Hk; [|exists v; split; [by apply mfind_elem|done]].
    subst k. exists s. simplify_eq. split; [by apply mfind_elem|]. unfold UserID. by rewrite Eu. }
  apply list_elem_of_In in Hv'. pose proof (List.find_none _ _ N _ Hv') as F. cbn [snd] in *. congruence.
Qed.

(** ** Connections *)

Definition send_packets (ms : list bytes) (c : Conn) : Conn := fold_left (fun c m => conn_send (packet m) c) ms c.

Lemma sent_packets ms c : state_ c = kConnected -> sent (send_packets ms c) = sent c ++ concat (packet <$> ms).
Proof.
  revert c. induction ms as [|m ms IH]; intros c Ec; [by rewrite app_nil_r|]. cbn [send_packets fold_left].
  fold (send_packets ms (conn_send (packet m) c)). rewrite IH; unfold conn_send; rewrite Ec; [|done].
  cbn [sent fmap list_fmap concat]. by rewrite <- app_assoc.
Qed.

Section later.
Context {D : Type} `{Database D} `{JsonText}.

Abbreviation World := (World (D := D)).
Abbreviation W := (W (D := D)).

(** The requests of a client that sends chat messages to a user, each with its sequence number. *)
Definition send_chats (sid : bytes) (conn target : Z) (msgs : list (Z * bytes)) : W unit :=
  for_each (fun p => _ ← Process sid conn (chat_request p.1 p.2 target); mret tt) msgs.

Lemma deliver_all_conns p ms c (w : World) : conns w !! p = Some c ->
  conns (deliver_all p ms w) !! p = Some (send_packets ms c).
Proof.
  revert c w. induction ms as [|m ms IH]; intros c w E; [done|]. rewrite deliver_all_cons.
  apply (IH (conn_send (packet m) c)). unfold deliver. cbn [conns set_conns]. by rewrite lookup_alter_eq, E.
Qed.

Lemma deliver_each_conns ms (w : World) : conns_grow (conns w) (conns (deliver_each ms w)).
Proof.
  revert w. induction ms as [|[[p|] m] ms IH]; intros w; simpl; [done|..|apply IH].
  etransitivity; [|apply IH]. unfold deliver. cbn [conns set_conns]. apply conns_grow_alter. intros c. apply conn_send_grows.
Qed.

Lemma deliver_each_cache ms (w : World) : msg_cache (deliver_each ms w) = msg_cache w.
Proof. revert w. induction ms as [|[[p|] m] ms IH]; intros w; simpl; [done|..]; by rewrite IH. Qed.

(** What the sends leave behind. *)
Record kept_only (sid : bytes) (target : Z) (ms : list bytes) (w w' : World) : Prop := {
  ko_users : users w' = users w;
  ko_cache : msg_cache w' = keep_all target ms (msg_cache w);
  ko_conns : conns w' = conns w;
  ko_sorted : sorted_map (m_mapclient w');
  ko_others : forall k, k <> sid -> mfind k (m_mapclient w') = mfind k (m_mapclient w);
}.

Lemma send_chats_kept sid conn target s msgs (w : World) :
  let sender := userid (m_user s) in
  mfind sid (m_mapclient w) = Some s -> sorted_map (m_mapclient w) -> find_session target (m_mapclient w) = None ->
  is_i32 target -> target < GROUPID_BOUBDARY ->
  (forall q d, exists r d', Excute q d = Ok (r, d')) ->
  Forall (fun p => is_i32 p.1 /\ fits (chat_message p.1 p.2 sender target)) msgs ->
  exists w', send_chats sid conn target msgs w = Ok (tt, w')
    /\ kept_only sid target ((fun p => chat_message p.1 p.2 sender target) <$> msgs) w w'.
Proof.
  intros sender Es S N Ht Hg X F. revert s w Es S N sender F.
  induction msgs as [|[seq text] msgs IH]; intros s w Es S N sender F; [by exists w|].
  apply Forall_cons in F as [[Hs Hf] F]. cbn [fst snd] in *.
  destruct (X (save_chat_sql sender target text) (database w)) as (saved & d & Ed).
  set (s1 := chat_session seq target s). set (w1 := with_session sid s1 w).
  set (m := chat_message seq text sender target).
  assert (find_session target (m_mapclient w1) = None) as N1 by (by apply (offline_mset _ _ s)).
  assert (sorted_map (m_mapclient w1)) as S1 by (by apply sorted_mset).
  set (w2 := with_cache (keep_chat target m (msg_cache w)) (with_users (users w, d) w1)).
  assert (Process sid conn (chat_request seq text target) w = Ok (true, w2)) as E.
  { rewrite (OnChat_dispatch sid conn seq text target s w Es Hs Ht (request_fits _ _ _ _ Hf)).
    rewrite (bind_ok _ _ _ tt w2); [done|]. fold s1 w1.
    rewrite (OnChat_user sid conn text target s1 saved d w1);
      [by rewrite to_user_offline|apply find_with_session|done..]. }
  destruct (IH s1 w2) as (w' & E' & [K1 K2 K3 K4 K5]); [apply find_with_session|exact S1|exact N1|exact F|].
  exists w'. split.
  - unfold send_chats. cbn [for_each fst snd]. rewrite (bind_ok _ _ _ tt w2); [exact E'|]. by rewrite (bind_ok _ _ _ true w2).
  - split; [done..|]. intros k Hk. rewrite K5 by done. by apply mfind_mset_ne.
Qed.

(** The notification is as long for every session. *)
Lemma notifications_fit id type l fs :
  fits (message msg_type_userstatuschange 0 (toStyledString (status_doc type)) ++ be_bytes 4 0) ->
  Forall (fun p => fits p.2) (omap (notification id type l) fs).
Proof.
  intros F. apply Forall_forall. intros p Hp. apply list_elem_of_omap in Hp as (u & _ & E).
  unfold notification in E. destruct (find_session _ _) as [[t st]|]; [|done]. cbn in E. simplify_eq.
  cbn [snd]. revert F. unfold fits, message. by len.
Qed.

(** C9: Chat messages for a user who is away reach that user at the next login. The requests
    change no connection, so nobody else sees them; when somebody then logs in as that user on
    another session, its connection gets the response, what was kept for the user before, and
    then these messages, all of them, in the order in which they were sent. None of them is kept
    any longer. *)
Theorem chat_kept_until_login sid conn s msgs sid' conn' s' c lseq data root cm name client u (w : World) :
  let target := userid u in
  let chats := (fun p => chat_message p.1 p.2 (userid (m_user s)) target) <$> msgs in
  let response := message msg_type_login lseq (toStyledString (login_doc name u)) in
  let old := notify_pending target (msg_cache w) ++ chat_pending target (msg_cache w) in
  sorted_map (m_mapclient w) -> find_session target (m_mapclient w) = None ->
  is_i32 target -> target < GROUPID_BOUBDARY -> (forall q d, exists r d', Excute q d = Ok (r, d')) ->
  mfind sid (m_mapclient w) = Some s -> Forall (fun p => is_i32 p.1) msgs ->
  mfind sid' (m_mapclient w) = Some s' -> sid' <> sid -> m_conn s' = Some conn' ->
  conns w !! conn' = Some c -> state_ c = kConnected ->
  is_i32 lseq -> fits (message msg_type_login lseq data) ->
  reader_parse data = Ok (Some (root, cm)) -> login_request root name (password u) client ->
  find_user (fun v => bool_decide (username v = name)) (m_cachedUsers (users w)) = Some u ->
  fits response -> Forall (fun m => fits (string_bytes m)) (old ++ chats) ->
  fits (message msg_type_userstatuschange 0 (toStyledString (status_doc 1)) ++ be_bytes 4 0) ->
  exists w1 w2, send_chats sid conn target msgs w = Ok (tt, w1) /\ conns w1 = conns w
    /\ Process sid' conn' (message msg_type_login lseq data) w1 = Ok (true, w2)
    /\ notify_pending target (msg_cache w2) = [] /\ chat_pending target (msg_cache w2) = []
    /\ exists c', conns w2 !! conn' = Some c'
       /\ (sent c ++ concat (packet <$> (response :: (string_bytes <$> old ++ chats)))) `prefix_of` sent c'.
Proof.
  intros target chats response old S N Ht Hg X Es Hi Es' Hne Ec Eo Up Hl Fl Ep L Eu Fr Fm Fn.
  destruct (send_chats_kept sid conn target s msgs w) as (w1 & E1 & [K1 K2 K3 K4 K5]); [done..| |].
  { apply Forall_app in Fm as [_ Fm]. unfold chats in Fm. rewrite Forall_fmap in Fm.
    apply Forall_and; split; [exact Hi|]. eapply Forall_impl; [exact Fm|]. intros p. cbn.
    unfold fits, string_bytes. rewrite len_app. pose proof (len_nonneg (Compress (len (chat_message p.1 p.2 (userid (m_user s)) target)) [])). lia. }
  fold chats in K2. exists w1.
  set (s1 := set_user (login_user u name client (m_user s')) (set_seq lseq s')).
  set (wb := with_session sid' s1 w1). set (wc := deliver conn' response wb).
  set (fs := friend_users target (users w1)).
  set (we := deliver_all conn' (string_bytes <$> old ++ chats) (with_cache (taken target (msg_cache w1)) wc)).
  set (told := omap (notification target 1 (m_mapclient wc)) fs). exists (deliver_each told we).
  assert (mfind sid' (m_mapclient w1) = Some s') as Es1 by (by rewrite K5).
  assert (notify_pending target (msg_cache wc) ++ chat_pending target (msg_cache wc) = old ++ chats) as Eold.
  { change (msg_cache wc) with (msg_cache w1). rewrite K2, notify_pending_keep, chat_pending_keep. by rewrite app_assoc. }
  split; [done|]. split; [done|]. split.
  - apply (Process_request sid' conn' msg_type_login lseq data s' OnLoginResponse w1 Es1 Hl Fl ltac:(done) ltac:(done)).
    set (wa := with_session sid' (set_seq lseq s') w1).
    rewrite (login_accepted sid' (set_seq lseq s') conn' data root cm name client u wa);
      [|apply find_with_session|exact Ep|exact L|by cbn; rewrite K1|exact Fr].
    assert (deliver conn' (message msg_type_login (m_seq (set_seq lseq s')) (toStyledString (login_doc name u)))
      (with_session sid' (set_user (login_user u name client (m_user (set_seq lseq s'))) (set_seq lseq s')) wa) = wc) as ->.
    { unfold wc, wb, wa, with_session, set_sessions. simpl. by rewrite mset_mset. }
    rewrite (after_login_ok sid' s1 conn' fs wc); [unfold we; by rewrite <- Eold|done|apply find_with_session|done
      |by apply sorted_mset|by change (userid (m_user s1)) with target; rewrite Eold|by apply notifications_fit].
  - assert (conns we !! conn' = Some (send_packets (response :: (string_bytes <$> old ++ chats)) c)) as Ewe.
    { apply (deliver_all_conns conn' _ (conn_send (packet response) c)). unfold wc, deliver. cbn [conns set_conns with_cache].
      rewrite lookup_alter_eq. unfold wb. cbn. by rewrite K3, Eo. }
    assert (msg_cache we = taken target (msg_cache w1)) as Ek by apply deliver_all_msg_cache.
    rewrite deliver_each_cache, Ek. destruct (pending_taken target (msg_cache w1)) as [P1 P2].
    split; [done|]. split; [done|]. pose proof (deliver_each_conns told we conn') as G. rewrite Ewe in G.
    destruct (conns (deliver_each told we) !! conn') as [c'|]; [|done]. exists c'. split; [done|].
    destruct G as [G _]. rewrite <- (sent_packets (response :: _) c Up). exact G.
Qed.
End later.

(** ** Witness *)

Lemma chat_kept_until_login_witness : exists w1 w2,
  send_chats sid_b ptr_b 1 [(10, bs "are you there"); (11, bs "call me")] room = Ok (tt, w1)
  /\ Process sid_a ptr_a (message msg_type_login 12 login_text) w1 = Ok (true, w2)
  /\ chat_pending 1 (msg_cache w2) = []
  /\ exists c', conns w2 !! ptr_a = Some c'
     /\ (packet (message msg_type_login 12 (toStyledString (login_doc (bs "ann") ann_stored)))
         ++ packet (string_bytes (bs "news")) ++ packet (string_bytes (bs "hi")) ++ packet (string_bytes (bs "ha"))
         ++ packet (string_bytes (chat_message 10 (bs "are you there") 2 1))
         ++ packet (string_bytes (chat_message 11 (bs "call me") 2 1))) `prefix_of` sent c'.
Proof.
  destruct (chat_kept_until_login sid_b ptr_b session_b [(10, bs "are you there"); (11, bs "call me")]
    sid_a ptr_a session_a up 12 login_text (root_of login_text) no_comments (bs "ann") 1 ann_stored room)
    as (w1 & w2 & E1 & _ & E2 & _ & P & c' & Ec & G).
  - apply (room_sorted session_a).
  - vm_compute; reflexivity.
  - apply (bool_decide_unpack _); vm_compute; exact I.
  - vm_compute; reflexivity.
  - intros q d. eexists. eexists. reflexivity.
  - vm_compute; reflexivity.
  - apply (bool_decide_unpack _); vm_compute; exact I.
  - vm_compute; reflexivity.
  - vm_compute. discriminate.
  - reflexivity.
  - vm_compute; reflexivity.
  - reflexivity.
  - apply (bool_decide_unpack _); vm_compute; exact I.
  - apply (bool_decide_unpack _); vm_compute; exact I.
  - vm_compute; reflexivity.
  - split; try (vm_compute; reflexivity). split; vm_compute; reflexivity.
  - vm_compute; reflexivity.
  - apply (bool_decide_unpack _); vm_compute; exact I.
  - apply (bool_decide_unpack _); vm_compute; exact I.
  - apply (bool_decide_unpack _); vm_compute; exact I.
  - exists w1, w2. split; [exact E1|]. split; [exact E2|]. split; [exact P|]. exists c'. split; [exact Ec|].
    exact G.
Defined.
