(* ===== verification/Frame.v ===== *)
(** * Frames: what handling a message can do to the server's state

    A relation between the states before and after that the single changes of a handler keep is
    kept by every handler, so by every message and by [OnRead]. The changes are calls on the user
    manager, on the cache, on a connection, and on the handler's own session object. *)

From S2P Require Import Prelude Bytes Text StdMap BinaryReader Buffer Framing MsgCacheManager Json.
From S2P Require Import Database UserManager UserManagerProofs Conn World Sessions ClientSession.

Create HintDb keeps discriminated.

(** The same session object, perhaps with other contents. *)
Definition same_object (s s' : ClientSession) : Prop :=
  m_sessionid s' = m_sessionid s /\ m_conn s' = m_conn s.

Section frame.
Context {D : Type} `{Database D} `{JsonText}.

Abbreviation World := (World (D := D)).
Abbreviation W := (W (D := D)).

(** The calls that the handlers make on the user manager. *)
Inductive user_call : forall {A}, U (D := D) A -> Prop :=
| call_AddUser name nick pass : user_call (AddUser (registered name nick pass))
| call_AddGroup name owner : user_call (AddGroup name owner)
| call_Make s g : user_call (MakeFriendRelationship s g)
| call_Release s g : user_call (ReleaseFriendRelationship s g)
| call_Update id i : user_call (UpdateUserInfo id i)
| call_Password id p : user_call (ModifyUserPassword id p)
| call_Save s t m : user_call (SaveChatMsgToDb s t m)
| call_ByName name : user_call (GetUserInfoByUsername name)
| call_ById id : user_call (GetUserInfoByUserId id)
| call_Friends id : user_call (GetFriendInfoByUserId id).

(** The single changes. *)
Definition set_users_db (s : UserManager.UserManager * D) (w : World) : World := {|
  users := s.1; database := s.2; msg_cache := msg_cache w; m_mapclient := m_mapclient w; conns := conns w |}.
Definition set_cache (c : MsgCacheManager) (w : World) : World := {|
  users := users w; database := database w; msg_cache := c; m_mapclient := m_mapclient w; conns := conns w |}.

(** A relation for code that runs for session [sid]. *)
Class Frame (sid : bytes) (R : World -> World -> Prop) := {
  frame_pre :: PreOrder R;
  frame_users A (f : U A) w a s : user_call f -> f (users w, database w) = Ok (a, s) -> R w (set_users_db s w);
  frame_cache w c : R w (set_cache c w);
  frame_conn w c f : (forall x, conn_grows x (f x)) -> R w (set_conns (alter f c (conns w)) w);
  frame_session w s f : mfind sid (m_mapclient w) = Some s -> (forall s, same_object s (f s)) ->
    R w (set_sessions (mset sid (f s) (m_mapclient w)) w);
}.

Context (R : bytes -> World -> World -> Prop) `{F : forall sid, Frame sid (R sid)}.

(** Code whose runs stay in the frame. *)
Definition keeps {A} (sid : bytes) (m : W A) : Prop :=
  forall w a w', m w = Ok (a, w') -> R sid w w'.

Section rules.
Context (sid : bytes).

Lemma keeps_ret {A} (a : A) : keeps sid (mret a : W A).
Proof. intros w b w' [= <- <-]. done. Qed.

Lemma keeps_bind {A B} (m : W A) (k : A -> W B) :
  keeps sid m -> (forall a, keeps sid (k a)) -> keeps sid (m ≫= k).
Proof. intros Hm Hk w b w' (a & w1 & E1 & E2)%bind_inv. etransitivity; [by eapply Hm|by eapply Hk]. Qed.

Lemma keeps_lift {A} (o : outcome A) : keeps sid (lift o : W A).
Proof. intros w a w'. unfold lift. destruct o; [|done..]. by intros [= <- <-]. Qed.

Lemma keeps_undef {A} u : keeps sid (undef u : W A).
Proof. by intros w a w'. Qed.

Lemma keeps_throw {A} e : keeps sid (throw e : W A).
Proof. by intros w a w'. Qed.

Lemma keeps_gets {A} (f : World -> A) : keeps sid (gets f : W A).
Proof. by intros w a w' [= <- <-]. Qed.

Lemma keeps_user_mgr {A} (f : U (D := D) A) : user_call f -> keeps sid (user_mgr f).
Proof.
  intros Hc w a w'. unfold user_mgr, zoom. destruct (f _) as [[x s]| |] eqn:E; [|done..].
  intros [= <- <-]. by apply (frame_users _ f w x s).
Qed.

Lemma keeps_cache_mgr {A} (f : M MsgCacheManager A) : keeps sid (cache_mgr f : W A).
Proof.
  intros w a w'. unfold cache_mgr, zoom. destruct (f _) as [[x s]| |]; [|done..].
  intros [= <- <-]. apply frame_cache.
Qed.

Lemma keeps_on_conn c f : (forall x, conn_grows x (f x)) -> keeps sid (on_conn c f : W unit).
Proof. intros Hf w a w' [= <- <-]. by apply frame_conn. Qed.

Lemma keeps_session k : keeps sid (session k : W ClientSession).
Proof. intros w a w'. unfold session. destruct (mfind _ _); [|done]. by intros [= <- <-]. Qed.

Lemma keeps_update_session f : (forall s, same_object s (f s)) -> keeps sid (update_session sid f : W unit).
Proof.
  intros Hf w a w'. unfold update_session. destruct (mfind sid (m_mapclient w)) as [s|] eqn:E; [|done].
  intros [= <- <-]. by apply frame_session.
Qed.

Lemma keeps_for_each {A} (f : A -> W unit) l : (forall x, keeps sid (f x)) -> keeps sid (for_each f l).
Proof.
  intros Hf. induction l as [|x l IH]; simpl; [apply keeps_ret|]. apply keeps_bind; auto.
Qed.

Lemma keeps_for_fold {A B} (f : B -> A -> W B) l b : (forall b x, keeps sid (f b x)) -> keeps sid (for_fold f b l).
Proof.
  intros Hf. revert b. induction l as [|x l IH]; intros b; simpl; [apply keeps_ret|].
  apply keeps_bind; auto.
Qed.
End rules.

Ltac keeps := repeat first
  [ apply keeps_ret | apply keeps_lift | apply keeps_undef | apply keeps_throw | apply keeps_gets | apply keeps_user_mgr; constructor
  | apply keeps_cache_mgr | apply keeps_session
  | apply keeps_on_conn; first [apply conn_send_grows | apply conn_forceClose_grows]
  | apply keeps_update_session; intros; done
  | progress auto with keeps
  | apply keeps_bind; [|intros ?]
  | apply keeps_for_each; intros ?
  | apply keeps_for_fold; intros ? ?
  | case_match ].

(** ** The handlers *)

Lemma keeps_Send_to sid c w : keeps sid (Send_to c w : W BinaryWriter).
Proof. unfold Send_to. keeps. Qed.
#[local] Hint Resolve keeps_Send_to : keeps.

Lemma keeps_Send sid t w : keeps sid (Send t w : W BinaryWriter).
Proof. unfold Send. keeps. Qed.
#[local] Hint Resolve keeps_Send : keeps.

Lemma keeps_me sid k : keeps sid (me k : W User).
Proof. unfold me. keeps. Qed.
Lemma keeps_seq_of sid k : keeps sid (seq_of k : W Z).
Proof. unfold seq_of. keeps. Qed.
#[local] Hint Resolve keeps_me keeps_seq_of : keeps.

Lemma keeps_reply_to sid c w v : keeps sid (reply_to c w v : W unit).
Proof. unfold reply_to. keeps. Qed.
Lemma keeps_reply sid t w v : keeps sid (reply t w v : W BinaryWriter).
Proof. unfold reply. keeps. Qed.
Lemma keeps_reply_with sid cm t w v : keeps sid (reply_with cm t w v : W BinaryWriter).
Proof. unfold reply_with. keeps. Qed.
#[local] Hint Resolve keeps_reply_to keeps_reply keeps_reply_with : keeps.

Lemma keeps_reply_code sid c w n m : keeps sid (reply_code c w n m : W unit).
Proof. unfold reply_code. keeps. Qed.
#[local] Hint Resolve keeps_reply_code : keeps.

Lemma keeps_GetSessionByID sid id : keeps sid (GetSessionByID id : W (option bytes)).
Proof. unfold GetSessionByID. keeps. Qed.
Lemma keeps_IsUserSessionExsit sid id : keeps sid (IsUserSessionExsit id : W bool).
Proof. unfold IsUserSessionExsit. keeps. Qed.
#[local] Hint Resolve keeps_GetSessionByID keeps_IsUserSessionExsit : keeps.

Lemma keeps_status sid t id n : keeps sid (SendUserStatusChangeMsg t id n : W unit).
Proof. unfold SendUserStatusChangeMsg. keeps. Qed.
#[local] Hint Resolve keeps_status : keeps.

Lemma keeps_notify_online sid id n l : keeps sid (notify_online id n l : W unit).
Proof. unfold notify_online. keeps. Qed.
Lemma keeps_push_cached sid t l : keeps sid (push_cached t l : W unit).
Proof. unfold push_cached. keeps. Qed.
Lemma keeps_append_users sid k f l v : keeps sid (append_users k f l v : W Value).
Proof. unfold append_users. keeps. Qed.
#[local] Hint Resolve keeps_notify_online keeps_push_cached keeps_append_users : keeps.

Lemma keeps_after_login sid t : keeps sid (after_login t : W unit).
Proof. unfold after_login. keeps. Qed.
#[local] Hint Resolve keeps_after_login : keeps.

Lemma keeps_heartbeat sid c d : keeps sid (OnHeartbeatResponse sid c d : W unit).
Proof. unfold OnHeartbeatResponse. keeps. Qed.
Lemma keeps_register sid c d : keeps sid (OnRegisterResponse sid c d : W unit).
Proof. unfold OnRegisterResponse. keeps. Qed.
Lemma keeps_login sid c d : keeps sid (OnLoginResponse sid c d : W unit).
Proof. unfold OnLoginResponse. keeps. Qed.
Lemma keeps_friend_list sid c d : keeps sid (OnGetFriendListResponse sid c d : W unit).
Proof. unfold OnGetFriendListResponse. keeps. Qed.
Lemma keeps_find_user sid c d : keeps sid (OnFindUserResponse sid c d : W unit).
Proof. unfold OnFindUserResponse. keeps. Qed.
Lemma keeps_delete_friend sid c i : keeps sid (DeleteFriend sid c i : W unit).
Proof. unfold DeleteFriend. keeps. Qed.
Lemma keeps_add_group sid c i : keeps sid (OnAddGroupResponse sid c i : W unit).
Proof. unfold OnAddGroupResponse. keeps. Qed.
Lemma keeps_tell_target sid i v : keeps sid (tell_target sid i v : W unit).
Proof. unfold tell_target. keeps. Qed.
Lemma keeps_answer_request sid i v : keeps sid (answer_request sid i v : W (option Value)).
Proof. unfold answer_request. keeps. Qed.
#[local] Hint Resolve keeps_delete_friend keeps_add_group keeps_tell_target keeps_answer_request : keeps.
Lemma keeps_operate_friend sid c d : keeps sid (OnOperateFriendResponse sid c d : W unit).
Proof. unfold OnOperateFriendResponse. keeps. Qed.
Lemma keeps_update_info sid c d : keeps sid (OnUpdateUserInfoResponse sid c d : W unit).
Proof. unfold OnUpdateUserInfoResponse. keeps. Qed.
Lemma keeps_modify_password sid c d : keeps sid (OnModifyPasswordResponse sid c d : W unit).
Proof. unfold OnModifyPasswordResponse. keeps. Qed.
Lemma keeps_create_group sid c d : keeps sid (OnCreateGroupResponse sid c d : W unit).
Proof. unfold OnCreateGroupResponse. keeps. Qed.
Lemma keeps_group_members sid c d : keeps sid (OnGetGroupMemberResponse sid c d : W unit).
Proof. unfold OnGetGroupMemberResponse. keeps. Qed.
Lemma keeps_chat sid c d : keeps sid (OnChatResponse sid c d : W unit).
Proof. unfold OnChatResponse. keeps. Qed.
#[local] Hint Resolve keeps_chat : keeps.
Lemma keeps_multi_chat n sid c d i v : keeps sid (multi_chat n sid c d i v : W unit).
Proof. revert i v. induction n as [|n IH]; intros i v; simpl; keeps. Qed.
#[local] Hint Resolve keeps_multi_chat : keeps.
Lemma keeps_multi sid c d : keeps sid (OnMultiChatResponse sid c d : W unit).
Proof. unfold OnMultiChatResponse. keeps. Qed.
#[local] Hint Resolve keeps_heartbeat keeps_register keeps_login keeps_friend_list keeps_find_user
  keeps_operate_friend keeps_update_info keeps_modify_password keeps_create_group keeps_group_members
  keeps_multi : keeps.

Lemma keeps_dispatch cmd sid c d r : keeps sid (dispatch cmd sid c d r : W unit).
Proof. unfold dispatch. keeps. Qed.
#[local] Hint Resolve keeps_dispatch : keeps.

Lemma keeps_Process sid c d : keeps sid (Process sid c d : W bool).
Proof. unfold Process. keeps. Qed.

(** [OnRead] is built from these. *)
Lemma keeps_handle sid c m : keeps sid (handle (Process sid c) (forceClose c) m : W unit).
Proof. unfold handle, forceClose. pose proof (keeps_Process sid c). keeps. Qed.

Lemma keeps_OnRead sid c b w b' w' : wf b -> ClientSession_OnRead sid c b w = Ok (b', w') -> wf b' /\ R sid w w'.
Proof.
  apply (OnRead_invariant chat_format (Process sid c) (forceClose c) (R sid)).
  intros msg x y. apply keeps_handle.
Qed.

End frame.
