(* ===== verification/Isolation.v ===== *)
(** * What a session's handlers can touch

    The frame of a session: the other sessions stay as they are, no session appears or
    disappears, and connections only take more bytes. It gives the server's invariant, that
    sessions and open connections correspond. *)

From S2P Require Import Prelude Bytes Text StdMap BinaryReader Buffer Framing MsgCacheManager Json.
From S2P Require Import Database UserManager UserManagerProofs UserManagerLoad Conn World Sessions ClientSession Frame.
From S2P Require Import IMServer Room JsonReader JsonWriter.

(** ** The frame *)

Section frame.
Context {D : Type} `{Database D} `{JsonText}.

Abbreviation World := (World (D := D)).
Abbreviation W := (W (D := D)).

(** [w'] after code running for session [sid] in [w]. *)
Record evolves (sid : bytes) (w w' : World) : Prop := {
  ev_sorted : sorted_map (m_mapclient w) -> sorted_map (m_mapclient w');
  ev_keys : sorted_map (m_mapclient w) -> mkeys (m_mapclient w') = mkeys (m_mapclient w);
  ev_others : forall k, k <> sid -> mfind k (m_mapclient w') = mfind k (m_mapclient w);
  ev_self : forall s, mfind sid (m_mapclient w) = Some s ->
    exists s', mfind sid (m_mapclient w') = Some s' /\ same_object s s';
  ev_conns : conns_grow (conns w) (conns w');
}.

#[export] Instance evolves_pre sid : PreOrder (evolves sid).
Proof.
  split.
  - intros w. split; try done. intros s E. by exists s.
  - intros a b c [S1 K1 O1 M1 C1] [S2 K2 O2 M2 C2]. split; auto.
    + intros S. by rewrite K2, K1 by auto.
    + intros k Hk. by rewrite O2, O1.
    + intros s E. destruct (M1 s E) as (s1 & E1 & I1 & J1). destruct (M2 s1 E1) as (s2 & E2 & I2 & J2).
      exists s2. split; [done|]. split; congruence.
    + by etransitivity.
Qed.

#[export] Instance evolves_frame sid : Frame sid (evolves sid).
Proof.
  split.
  - apply _.
  - intros A f w a s _ _. split; simpl; try done. intros s0 E. by exists s0.
  - intros w c. split; simpl; try done. intros s0 E. by exists s0.
  - intros w c f Hf. split; simpl; try done; [|by apply conns_grow_alter]. intros s0 E. by exists s0.
  - intros w s f E Hf. split; simpl.
    + apply sorted_mset.
    + intros S. apply mkeys_mset_in; [|done]. apply mfind_key. by rewrite E.
    + intros k Hk. by apply mfind_mset_ne.
    + intros s0 E0. rewrite E in E0. injection E0 as <-. exists (f s). by rewrite mfind_mset_eq.
    + done.
Qed.

(** ** The server's invariant *)

(** A session on connection [p]. *)
Definition session_of (p : Z) (c : ClientSession) : Prop := m_sessionid c = ptr_text p /\ m_conn c = Some p.

Definition server_ok (s : Server (D := D)) : Prop :=
  matched session_of (m_mapclient (world s)) (conns (world s)) (inputs s).

Lemma open_is_open (s : Server (D := D)) p : open s p <-> exists c, conns (world s) !! p = Some c /\ is_open c.
Proof.
  unfold open, is_open. destruct (conns (world s) !! p) as [c|]; simpl.
  - split.
    + intros Hc. exists c. split; [done|]. destruct (state_ c); tauto.
    + intros (c' & [= <-] & [-> | ->]); done.
  - split; [done|]. by intros (c & ? & _).
Qed.

Lemma evolves_session sid w w' k s : evolves sid w w' -> mfind k (m_mapclient w) = Some s ->
  exists s', mfind k (m_mapclient w') = Some s' /\ forall p, session_of p s -> session_of p s'.
Proof.
  intros E Es. destruct (decide (k = sid)) as [->|Hk].
  - destruct (ev_self _ _ _ E s Es) as (s' & ? & I & J). exists s'. split; [done|].
    intros p [? ?]. split; congruence.
  - exists s. by rewrite (ev_others _ _ _ E).
Qed.

(** The events, spelled out. *)
Lemma connect_eq (s : Server (D := D)) p : server_ok s -> enabled (Connect p) s ->
  handle_event (Connect p) s = Ok {|
    world := set_sessions (minsert (ptr_text p) (ClientSession_new p) (m_mapclient (world s)))
               (set_conns (<[p := {| state_ := kConnected; sent := [] |}]> (conns (world s))) (world s));
    inputs := <[p := Buffer_new kInitialSize]> (inputs s) |}.
Proof.
  intros O [Hp Hn]. pose proof (matched_fresh _ _ _ _ _ O Hp Hn) as Em.
  simpl. unfold OnConnection, gets, modify, mbind, M_bind. simpl.
  rewrite lookup_insert_eq. simpl. by rewrite Em.
Qed.

Lemma disconnect_eq (s : Server (D := D)) p : enabled (Disconnect p) s ->
  exists f, handle_event (Disconnect p) s = Ok {|
    world := set_conns (delete p (alter f p (conns (world s))))
               (set_sessions (merase (ptr_text p) (m_mapclient (world s)))
                 (set_conns (alter f p (conns (world s))) (world s)));
    inputs := delete p (inputs s) |}.
Proof.
  intros (c & Ec & _)%open_is_open. eexists.
  simpl. unfold OnConnection, OnClose, gets, modify, mbind, M_bind. simpl.
  by rewrite lookup_alter_eq, Ec.
Qed.

Lemma receive_ok s p d s' : server_ok s -> enabled (Receive p d) s ->
  handle_event (Receive p d) s = Ok s' -> server_ok s'.
Proof.
  intros O [_ (c & Ec & _)%open_is_open] E. cbn [handle_event] in E.
  destruct (mt_input _ _ _ _ O p) as (b & Eb & Wb); [by rewrite Ec|]. rewrite Eb in E.
  destruct (readFd_ok b d Wb) as (b1 & Er & W1 & _). rewrite Er in E. cbn [mbind outcome_bind] in E.
  destruct (ClientSession_OnRead (ptr_text p) p b1 (world s)) as [[b2 w2]| |] eqn:Eo; [|done..].
  injection E as <-. apply (keeps_OnRead evolves) in Eo as [W2 Ev]; [|done].
  eapply matched_receive; [exact O|done|..].
  - apply (ev_sorted _ _ _ Ev), (mt_sorted _ _ _ _ O).
  - apply (ev_keys _ _ _ Ev), (mt_sorted _ _ _ _ O).
  - intros k x. by apply (evolves_session (ptr_text p)).
  - apply (ev_conns _ _ _ Ev).
Qed.

Lemma step_ok s s' : server_ok s -> step s s' -> server_ok s'.
Proof.
  intros O St. destruct St as [e s0 s1 He E]. destruct e as [p|p d|p]; [| by eapply receive_ok |].
  - rewrite connect_eq in E by done. injection E as <-. destruct He. by apply matched_connect.
  - destruct (disconnect_eq _ _ He) as [f Ef]. rewrite Ef in E. injection E as <-.
    apply open_is_open in He as (c & Ec & _). apply matched_disconnect; [done|by rewrite Ec].
Qed.

Lemma reachable_ok u d s : reachable (initial u d) s -> server_ok s.
Proof. induction 1 as [|s s' _ IH]; [apply matched_empty|by eapply step_ok]. Qed.

(** C4: In every run of the chat server, the map of sessions and the set of connections
    correspond: each connection has the session under its address's text, which points back at
    it, and there is no further session. So a new connection always gets its session without
    trouble ([OnConnection] never drops the object whose [OnRead] it registered), and what
    arrives on a connection always finds a session to handle it. *)
Theorem sessions_match_connections u d s : reachable (initial u d) s ->
  (forall k, k ∈ mkeys (m_mapclient (world s)) <-> exists p, k = ptr_text p /\ is_Some (conns (world s) !! p))
  /\ (forall p, is_Some (conns (world s) !! p) -> exists c,
        mfind (ptr_text p) (m_mapclient (world s)) = Some c /\ m_conn c = Some p)
  /\ (forall p, enabled (Connect p) s -> exists s', handle_event (Connect p) s = Ok s'
        /\ mfind (ptr_text p) (m_mapclient (world s')) = Some (ClientSession_new p))
  /\ (forall p, enabled (Disconnect p) s -> exists s', handle_event (Disconnect p) s = Ok s'
        /\ mfind (ptr_text p) (m_mapclient (world s')) = None).
Proof.
  intros R%reachable_ok. split; [|split; [|split]].
  - intros k. by eapply matched_keys.
  - intros p Hp. destruct (mt_session _ _ _ _ R p Hp) as (c & ? & _ & ?). eauto.
  - intros p Hp. eexists. split; [by apply connect_eq|]. destruct Hp as [Hp Hn]. cbn.
    rewrite mfind_minsert by apply (mt_sorted _ _ _ _ R).
    by rewrite decide_True, (matched_fresh _ _ _ _ _ R Hp Hn).
  - intros p Hp. destruct (disconnect_eq _ _ Hp) as [f Ef]. eexists. split; [exact Ef|]. cbn.
    rewrite mfind_merase by apply (mt_sorted _ _ _ _ R). by rewrite decide_True.
Qed.

(** C3: Handling a message, whatever it is, changes no other session and neither adds nor drops
    one; the session itself keeps its identity and its connection, and all that connections see
    is more bytes, those that are connected, or that theirs is to be closed. *)
Theorem message_isolation sid c d w ok w' :
  sorted_map (m_mapclient w) -> Process sid c d w = Ok (ok, w') ->
  mkeys (m_mapclient w') = mkeys (m_mapclient w)
  /\ (forall k, k <> sid -> mfind k (m_mapclient w') = mfind k (m_mapclient w))
  /\ (forall s, mfind sid (m_mapclient w) = Some s -> exists s',
        mfind sid (m_mapclient w') = Some s' /\ m_sessionid s' = m_sessionid s /\ m_conn s' = m_conn s)
  /\ (forall p, match conns w !! p, conns w' !! p with
               | Some x, Some y => sent x `prefix_of` sent y
                   /\ (state_ y = state_ x \/ state_ x = kConnected /\ state_ y = kDisconnecting)
                   /\ (state_ x <> kConnected -> sent y = sent x)
               | None, None => True
               | _, _ => False
               end).
Proof.
  intros S [So Ke Ot Se Co]%(keeps_Process evolves). split; [auto|]. split; [auto|]. split; [auto|].
  intros p. apply Co.
Qed.
End frame.

(** ** At work *)

(** Ann's request to log in. *)
Definition login_request_bytes : bytes :=
  toString (WriteData_string (start msg_type_login 3)
    (json "{'username':'ann','password':'a','clienttype':1,'status':1}")).

Lemma sessions_match_connections_witness : exists s,
  reachable (initial two_users.1 journal_new) s
  /\ mfind sid_a (m_mapclient (world s)) = Some (ClientSession_new ptr_a).
Proof.
  destruct (sessions_match_connections two_users.1 journal_new (initial two_users.1 journal_new) (reach_refl _))
    as (_ & _ & C & _).
  assert (enabled (Connect ptr_a) (initial two_users.1 journal_new)) as En
    by (split; [split; [by apply (bool_decide_unpack _); vm_compute|done]|done]).
  destruct (C ptr_a En) as (s' & E & F). exists s'. split; [|exact F].
  eapply reach_step; [apply reach_refl|]. by eapply step_event.
Defined.

Lemma message_isolation_witness : exists ok w,
  Process sid_a ptr_a login_request_bytes room = Ok (ok, w)
  /\ mfind sid_b (m_mapclient w) = Some session_b.
Proof.
  destruct (Process sid_a ptr_a _ room) as [[ok w]| |] eqn:E; [|vm_compute in E; discriminate..].
  exists ok, w. split; [done|].
  destruct (message_isolation _ _ _ _ _ _ (room_sorted session_a) E) as (_ & F & _).
  rewrite F; [vm_compute; reflexivity|by apply (bool_decide_unpack _); vm_compute].
Defined.
