(* ===== verification/FileManager.v ===== *)
(** * FileManager (FileServer/FileManager.h, FileServer/FileManager.cpp)

    The table of uploaded files and the part of the file system and of [stdio] the file server
    uses. Streams are not buffered: the server closes one before anybody else reads its file. *)

From S2P Require Import Prelude Bytes Text.

(** ** Files *)

(** The regular files by their path, with what may be done with a path. *)
Record FS := {
  files : gmap bytes bytes;
  is_dir : bytes -> bool;
  may_read : bytes -> bool;
  may_write : bytes -> bool;      (* open for writing, and create in its directory *)
  full : bool;                    (* no room for anything more *)
}.

Definition set_files (f : gmap bytes bytes) (s : FS) : FS := {|
  files := f; is_dir := is_dir s; may_read := may_read s; may_write := may_write s; full := full s |}.

(** An open [FILE*]: the file, the position, and whether it can be read. *)
Record FILE := { path : bytes; pos : Z; readable : bool }.

(** [fopen(p, "r") != NULL]; a directory can be opened for reading. *)
Definition fopen_r (p : bytes) (s : FS) : bool :=
  may_read s p && (is_dir s p || bool_decide (is_Some (files s !! p))).

(** [fopen(p, "w")]: the file is made, or emptied. *)
Definition fopen_w (p : bytes) (s : FS) : option FILE * FS :=
  if may_write s p && negb (is_dir s p) then
    (Some {| path := p; pos := 0; readable := false |}, set_files (<[p := []]> (files s)) s)
  else (None, s).

(** [fopen(p, "r+")]: the file has to be there. *)
Definition fopen_rw (p : bytes) (s : FS) : option FILE :=
  if may_read s p && may_write s p && negb (is_dir s p) && bool_decide (is_Some (files s !! p))
  then Some {| path := p; pos := 0; readable := true |} else None.

Definition content_of (f : FILE) (s : FS) : bytes := default [] (files s !! path f).

Definition set_pos (i : Z) (f : FILE) : FILE := {| path := path f; pos := i; readable := readable f |}.

(** [fseek(f, off, SEEK_SET)], which refuses a negative offset; [SEEK_END] with 0. *)
Definition fseek_set (off : Z) (f : FILE) : FILE := if decide (off < 0) then f else set_pos off f.
Definition fseek_end (f : FILE) (s : FS) : FILE := set_pos (len (content_of f s)) f.

(** [data] at position [i] of [c], with zeros in a gap. *)
Definition splice (i : nat) (data c : bytes) : bytes :=
  take i (c ++ replicate (i - length c) (chr 0)) ++ data ++ drop (i + length data) c.

(** [fwrite(data, data.length(), 1, f)]: the number of items written. *)
Definition fwrite (data : bytes) (f : FILE) (s : FS) : Z * FILE * FS :=
  match data with
  | [] => (0, f, s)
  | _ =>
      if full s then (0, f, s)
      else (1, set_pos (pos f + len data) f,
            set_files (<[path f := splice (Z.to_nat (pos f)) data (content_of f s)]> (files s)) s)
  end.

(** [fread(buffer, n, 1, f)] for a positive [n]: the number of items and the bytes read. *)
Definition fread (n : Z) (f : FILE) (s : FS) : Z * bytes * FILE :=
  if readable f then
    let got := take (Z.to_nat n) (drop (Z.to_nat (pos f)) (content_of f s)) in
    (if decide (len got = n) then 1 else 0, got, set_pos (pos f + len got) f)
  else (0, [], f).

(** ** The table *)

(** [Init]: [listing] is what [opendir] and [readdir] give, [None] for a directory that does not
    open; [made] is whether [mkdir] succeeds. *)
Definition FileManager_Init (listing : option (list bytes)) (made : bool) (m_listFiles : list bytes)
    : bool * list bytes :=
  match listing with
  | None => (made, m_listFiles)
  | Some names => (true, m_listFiles ++ filter (fun n => n <> bs "." /\ n <> bs "..") names)
  end.

(** [IsFileExsit]: the table, then a file of that name, relative to the working directory. *)
Definition IsFileExsit (filename : bytes) (s : FS) (m_listFiles : list bytes) : bool * list bytes :=
  if bool_decide (filename ∈ m_listFiles) then (true, m_listFiles)
  else if fopen_r filename s then (true, m_listFiles ++ [filename])
  else (false, m_listFiles).

Definition addFile (filename : bytes) (m_listFiles : list bytes) : list bytes := m_listFiles ++ [filename].

(** ** Lemmas *)

Lemma splice_end data c : splice (length c) data c = c ++ data.
Proof.
  unfold splice. rewrite Nat.sub_diag, app_nil_r, firstn_all, drop_ge by lia. by rewrite app_nil_r.
Qed.

Lemma fwrite_end data f s : data <> [] -> full s = false -> pos f = len (content_of f s) ->
  fwrite data f s = (1, set_pos (pos f + len data) f, set_files (<[path f := content_of f s ++ data]> (files s)) s).
Proof.
  intros Hd Hf Hp. unfold fwrite. destruct data as [|b data]; [done|]. rewrite Hf, Hp.
  replace (Z.to_nat (len (content_of f s))) with (length (content_of f s)) by (unfold len; lia).
  by rewrite splice_end.
Qed.

(** Reading on from the position. *)
Lemma fread_all n f s : readable f = true -> 0 <= pos f -> 0 <= n -> pos f + n <= len (content_of f s) ->
  fread n f s = (1, take (Z.to_nat n) (drop (Z.to_nat (pos f)) (content_of f s)), set_pos (pos f + n) f).
Proof.
  intros R Hp Hn L. unfold fread. rewrite R. unfold len in *. rewrite length_take, length_drop.
  rewrite decide_True by lia. do 2 f_equal. lia.
Qed.

Lemma IsFileExsit_in filename s l : filename ∈ l -> IsFileExsit filename s l = (true, l).
Proof. intros E. unfold IsFileExsit. by rewrite bool_decide_true. Qed.

Lemma IsFileExsit_new filename s l : filename ∉ l -> fopen_r filename s = false ->
  IsFileExsit filename s l = (false, l).
Proof. intros E F. unfold IsFileExsit. by rewrite bool_decide_false, F. Qed.
