(* ===== verification/LogFile.v ===== *)
(** * LogFile (base/LogFile.h, base/LogFile.cc, base/FileUtil.cc)

    The files of a log: lines are appended to a stream with a buffer; a new file is started when
    one has grown past a size, or the day has changed. *)

From S2P Require Import Prelude Bytes Text Date TimeZone TimeZoneProofs TimeText FileManager.

(** ** AppendFile *)

(** A stream opened for appending: what [stdio] still has in its buffer. *)
Record AppendFile := { af_path : bytes; pending : bytes; writtenBytes_ : Z }.

(** [fopen] with [ae]: the file is made if it is not there. *)
Definition AppendFile_new (filename : bytes) (s : FS) : outcome (AppendFile * FS) :=
  if may_write s filename && negb (is_dir s filename) then
    Ok ({| af_path := filename; pending := []; writtenBytes_ := 0 |},
        set_files (<[filename := default [] (files s !! filename)]> (files s)) s)
  else Undef AssertFailed.

(** The first [n] bytes of its buffer go to the end of the file. *)
Definition spill (n : nat) (f : AppendFile) (s : FS) : AppendFile * FS :=
  ({| af_path := af_path f; pending := drop n (pending f); writtenBytes_ := writtenBytes_ f |},
   set_files (<[af_path f := default [] (files s !! af_path f) ++ take n (pending f)]> (files s)) s).

(** [fflush], and what [fclose] does first. *)
Definition af_flush (f : AppendFile) (s : FS) : AppendFile * FS := spill (length (pending f)) f s.

(** What [fwrite_unlocked] and [ferror] answer: how many bytes were taken, how many of the buffer
    went on to the file, and whether there was an error. *)
Record fwrite_answer := { taken_ : Z; spilled : nat; error : bool }.

(** [append]: the loop; [written] counts what was taken but for the bytes of a failed call. *)
Fixpoint append_loop (rest : bytes) (answers : list fwrite_answer) (written : Z) (f : AppendFile) (s : FS)
    : outcome (Z * AppendFile * FS) :=
  match rest with
  | [] => Ok (written, f, s)
  | _ =>
      match answers with
      | [] => Undef Diverges
      | a :: answers =>
          let n := Z.to_nat (taken_ a) in
          let '(f, s) := spill (spilled a) {| af_path := af_path f; pending := pending f ++ take n rest; writtenBytes_ := writtenBytes_ f |} s in
          if decide (taken_ a <> len rest) then
            if error a then Ok (written, f, s) else append_loop (drop n rest) answers (written + taken_ a) f s
          else append_loop (drop n rest) answers (written + taken_ a) f s
      end
  end.

Definition af_append (logline : bytes) (answers : list fwrite_answer) (f : AppendFile) (s : FS) : outcome (AppendFile * FS) :=
  '(written, f, s) ← append_loop logline answers 0 f s;
  Ok ({| af_path := af_path f; pending := pending f; writtenBytes_ := writtenBytes_ f + written |}, s).

(** ** LogFile *)

Definition kRollPerSeconds_ : Z := 60 * 60 * 24.

Record LogFile := {
  count_ : Z;
  startOfPeriod_ : Z;
  lastRoll_ : Z;
  lastFlush_ : Z;
  file_ : option AppendFile;
  disk : FS;
}.

Section log.
Context (basename_ : bytes) (rollSize_ flushInterval_ checkEveryN_ : Z) (hostname : bytes) (pid : Z).

(** [getLogFileName], at the second [now]. *)
Definition getLogFileName (now : Z) : outcome bytes :=
  t ← gmtime_r now;
  Ok (basename_ ++ file_time t ++ hostname ++ snprintf 32 (bs "." ++ to_dec pid) ++ bs ".log").

(** [rollFile], at the second [now]: the new file is opened, then the old one closed. *)
Definition rollFile (now : Z) (l : LogFile) : outcome (bool * LogFile) :=
  filename ← getLogFileName now;
  let start := now ÷ kRollPerSeconds_ * kRollPerSeconds_ in
  if decide (lastRoll_ l < now) then
    '(f, s) ← AppendFile_new (c_str filename) (disk l);
    let s := match file_ l with Some old => (af_flush old s).2 | None => s end in
    Ok (true, {| count_ := count_ l; startOfPeriod_ := start; lastRoll_ := now; lastFlush_ := now; file_ := Some f; disk := s |})
  else Ok (false, l).

(** What a call of [append] finds: the answers to its writes, and what [time] says when it looks
    whether the day has changed, and when it starts a file. *)
Record log_call := { logline : bytes; answers : list fwrite_answer; time_check : Z; time_roll : Z }.

Definition set_file (f : AppendFile) (s : FS) (l : LogFile) : LogFile := {|
  count_ := count_ l; startOfPeriod_ := startOfPeriod_ l; lastRoll_ := lastRoll_ l; lastFlush_ := lastFlush_ l;
  file_ := Some f; disk := s |}.
Definition set_count (n : Z) (l : LogFile) : LogFile := {|
  count_ := n; startOfPeriod_ := startOfPeriod_ l; lastRoll_ := lastRoll_ l; lastFlush_ := lastFlush_ l;
  file_ := file_ l; disk := disk l |}.
Definition set_lastFlush (t : Z) (l : LogFile) : LogFile := {|
  count_ := count_ l; startOfPeriod_ := startOfPeriod_ l; lastRoll_ := lastRoll_ l; lastFlush_ := t;
  file_ := file_ l; disk := disk l |}.

(** [LogFile::flush] *)
Definition log_flush (l : LogFile) : outcome LogFile :=
  match file_ l with
  | None => Undef NullDeref
  | Some f => let '(f, s) := af_flush f (disk l) in Ok (set_file f s l)
  end.

Definition append_unlocked (c : log_call) (l : LogFile) : outcome LogFile :=
  match file_ l with
  | None => Undef NullDeref
  | Some f =>
      '(f, s) ← af_append (logline c) (answers c) f (disk l);
      let l := set_file f s l in
      if decide (writtenBytes_ f > rollSize_) then r ← rollFile (time_roll c) l; Ok r.2
      else
        let l := set_count (count_ l + 1) l in
        if decide (count_ l >= checkEveryN_) then
          let l := set_count 0 l in
          let now := time_check c in
          if decide (now ÷ kRollPerSeconds_ * kRollPerSeconds_ <> startOfPeriod_ l) then r ← rollFile (time_roll c) l; Ok r.2
          else if decide (now - lastFlush_ l > flushInterval_) then log_flush (set_lastFlush now l)
          else Ok l
        else Ok l
  end.

(** The constructor, at the second [now]. *)
Definition LogFile_new (now : Z) (s : FS) : outcome LogFile :=
  if decide (chr 47 ∈ basename_) then Undef AssertFailed
  else r ← rollFile now {| count_ := 0; startOfPeriod_ := 0; lastRoll_ := 0; lastFlush_ := 0; file_ := None; disk := s |}; Ok r.2.

(** The destructor closes the file. *)
Definition LogFile_delete (l : LogFile) : FS :=
  match file_ l with Some f => (af_flush f (disk l)).2 | None => disk l end.

Fixpoint append_all (calls : list log_call) (l : LogFile) : outcome LogFile :=
  match calls with
  | [] => Ok l
  | c :: calls => l ← append_unlocked c l; append_all calls l
  end.

(** ** Streams *)

(** What a stream's file holds when it is closed. *)
Definition af_text (f : AppendFile) (s : FS) : bytes := default [] (files s !! af_path f) ++ pending f.

(** The same files but for one, which is not removed. *)
Definition same_but (p : bytes) (s s' : FS) : Prop :=
  is_dir s' = is_dir s /\ may_write s' = may_write s /\ (forall q, q <> p -> files s' !! q = files s !! q)
  /\ (is_Some (files s !! p) -> is_Some (files s' !! p)).

Lemma same_but_trans p s1 s2 s3 : same_but p s1 s2 -> same_but p s2 s3 -> same_but p s1 s3.
Proof.
  intros (D1 & W1 & F1 & I1) (D2 & W2 & F2 & I2). split; [congruence|]. split; [congruence|]. split; [|auto].
  intros q Hq. by rewrite F2, F1.
Qed.

Lemma spill_ok n f s f' s' : spill n f s = (f', s') ->
  af_path f' = af_path f /\ writtenBytes_ f' = writtenBytes_ f /\ af_text f' s' = af_text f s /\ same_but (af_path f) s s'
  /\ pending f' = drop n (pending f).
Proof.
  intros [= <- <-]. cbn [af_path writtenBytes_ pending]. split; [done|]. split; [done|]. split; [|split; [|done]].
  - unfold af_text. cbn [af_path pending set_files files]. rewrite lookup_insert_eq. cbn [default from_option id].
    by rewrite <- app_assoc, take_drop.
  - split; [done|]. split; [done|]. split; [intros q Hq; cbn; by rewrite lookup_insert_ne|]. intros _. cbn. rewrite lookup_insert_eq. by eexists.
Qed.

(** Writes that take everything in the end, without an error. *)
Fixpoint accepts (rest : bytes) (l : list fwrite_answer) : Prop :=
  match rest, l with
  | [], _ => True
  | _, [] => False
  | _, a :: l => 0 <= taken_ a <= len rest /\ (taken_ a = len rest \/ error a = false) /\ accepts (drop (Z.to_nat (taken_ a)) rest) l
  end.

Lemma append_loop_ok l rest w f s : accepts rest l ->
  exists f' s', append_loop rest l w f s = Ok (w + len rest, f', s')
    /\ af_path f' = af_path f /\ writtenBytes_ f' = writtenBytes_ f /\ af_text f' s' = af_text f s ++ rest /\ same_but (af_path f) s s'.
Proof.
  revert rest w f s. induction l as [|a l IH]; intros rest w f s A; destruct rest as [|b rest'] eqn:Er; try done;
    try (exists f, s; cbn; rewrite app_nil_r, Z.add_0_r; done).
  rewrite <- Er in *. assert (append_loop rest (a :: l) w f s =
    let n := Z.to_nat (taken_ a) in
    let '(f, s) := spill (spilled a) {| af_path := af_path f; pending := pending f ++ take n rest; writtenBytes_ := writtenBytes_ f |} s in
    if decide (taken_ a <> len rest) then
      if error a then Ok (w, f, s) else append_loop (drop n rest) l (w + taken_ a) f s
    else append_loop (drop n rest) l (w + taken_ a) f s) as -> by (by rewrite Er).
  assert (0 <= taken_ a <= len rest /\ (taken_ a = len rest \/ error a = false) /\ accepts (drop (Z.to_nat (taken_ a)) rest) l)
    as (Ht & He & A') by (by rewrite Er in *).
  cbv zeta. destruct (spill _ _ _) as [f1 s1] eqn:E1. apply spill_ok in E1 as (P1 & W1 & T1 & S1 & _).
  destruct (IH _ (w + taken_ a) f1 s1 A') as (f2 & s2 & E2 & P2 & W2 & T2 & S2). exists f2, s2. cbn [af_path writtenBytes_] in *.
  split.
  - assert (w + taken_ a + len (drop (Z.to_nat (taken_ a)) rest) = w + len rest) as El by (unfold len in *; rewrite length_drop; lia).
    rewrite El in E2. case_decide as Hd; [|done]. by destruct He as [He| ->].
  - split; [congruence|]. split; [congruence|]. split.
    + rewrite T2, T1. unfold af_text. cbn [af_path pending]. by rewrite <- !app_assoc, take_drop.
    + rewrite P1 in S2. by eapply same_but_trans.
Qed.

Lemma af_append_ok x l f s : accepts x l ->
  exists f' s', af_append x l f s = Ok (f', s') /\ af_path f' = af_path f /\ writtenBytes_ f' = writtenBytes_ f + len x
    /\ af_text f' s' = af_text f s ++ x /\ same_but (af_path f) s s'.
Proof.
  intros A. destruct (append_loop_ok l x 0 f s A) as (f' & s' & E & P & W & T & S). unfold af_append.
  rewrite E, outcome_bind_ok. eexists _, s'. split; [reflexivity|]. cbn [af_path writtenBytes_]. rewrite W. done.
Qed.

(** ** Names *)

(** The path of the file started at a second. *)
Definition log_name (t : Z) : bytes := match getLogFileName t with Ok p => c_str p | _ => [] end.

Context (basename_nul : Byte.x00 ∉ basename_) (hostname_nul : Byte.x00 ∉ hostname) (pid_int : is_i32 pid).

Lemma tm_of_year dt : a_time dt -> is_i64 (tm_year (tm_of dt) + 1900).
Proof. intros (_ & R & _). unfold in_range in R. apply is_i64_lit. cbn [tm_of tm_year date_of year] in *. lia. Qed.

Lemma log_name_eq t : in_days t ->
  exists tm, gmtime_r t = Ok tm
    /\ getLogFileName t = Ok (log_name t) /\ log_name t = basename_ ++ file_time tm ++ hostname ++ snprintf 32 (bs "." ++ to_dec pid) ++ bs ".log".
Proof.
  intros Ht. destruct (gmtime_ok t Ht) as (dt & V & _ & E & (Hm & Hd & H1 & H2 & H3)). exists (tm_of dt). split; [done|].
  assert (Byte.x00 ∉ basename_ ++ file_time (tm_of dt) ++ hostname ++ snprintf 32 (bs "." ++ to_dec pid) ++ bs ".log") as N.
  { assert (Byte.x00 ∉ file_time (tm_of dt)) as F.
    { unfold file_time. rewrite !not_elem_of_app. repeat split; try (apply fmt_0d_no_nul; lia);
        try (apply to_dec_no_nul, tm_of_year, V); by apply (bool_decide_unpack _). }
    assert (Byte.x00 ∉ snprintf 32 (bs "." ++ to_dec pid)) as P.
    { intros H%subseteq_take%elem_of_app. destruct H as [H|H]; [revert H; by apply (bool_decide_unpack _)|].
      apply to_dec_no_nul in H; [done|]. unfold is_i32, INT_MIN, INT_MAX in pid_int. apply is_i64_lit. lia. }
    rewrite !not_elem_of_app. repeat (split; [done|]). by apply (bool_decide_unpack _). }
  unfold log_name, getLogFileName. rewrite E, outcome_bind_ok. by rewrite c_str_id.
Qed.

Lemma log_name_inj s t : in_days s -> in_days t -> log_name s = log_name t -> s = t.
Proof.
  intros Hs Ht E. destruct (log_name_eq s Hs) as (a & Ga & _ & Na). destruct (log_name_eq t Ht) as (b & Gb & _ & Nb).
  rewrite Na, Nb in E. apply app_inv_head in E. apply app_inv_tail in E. by apply (file_time_inj s t a b).
Qed.

(** ** What is in the files *)

Section files.
Context (s0 : FS).
Context (can_open : forall t, in_days t -> may_write s0 (log_name t) = true /\ is_dir s0 (log_name t) = false).

(** What was in a file before. *)
Definition old (t : Z) : bytes := default [] (files s0 !! log_name t).

(** The files closed so far with what was put into each, and what was put into the open one. *)
Record written (l : LogFile) (done : list (Z * bytes)) (text : bytes) (f : AppendFile) : Prop := {
  wr_file : file_ l = Some f;
  wr_path : af_path f = log_name (lastRoll_ l);
  wr_text : af_text f (disk l) = old (lastRoll_ l) ++ text;
  wr_count : writtenBytes_ f = len text;
  wr_there : is_Some (files (disk l) !! af_path f);
  wr_sorted : StronglySorted Z.lt ((fst <$> done) ++ [lastRoll_ l]);
  wr_days : Forall in_days ((fst <$> done) ++ [lastRoll_ l]);
  wr_done : forall t x, (t, x) ∈ done -> files (disk l) !! log_name t = Some (old t ++ x);
  wr_other : forall p, p ∉ log_name <$> (fst <$> done) ++ [lastRoll_ l] -> files (disk l) !! p = files s0 !! p;
  wr_perm : may_write (disk l) = may_write s0 /\ is_dir (disk l) = is_dir s0;
}.

Lemma sorted_last l x : StronglySorted Z.lt (l ++ [x]) -> forall y, y ∈ l -> y < x.
Proof.
  induction l as [|z l IH]; [by intros _ y H%elem_of_nil|]. intros [S F]%StronglySorted_inv y [-> |H]%elem_of_cons; [|by apply IH].
  rewrite Forall_forall in F. apply F. apply elem_of_app. right. by apply list_elem_of_singleton.
Qed.

Lemma done_name l d text f t x : written l d text f -> (t, x) ∈ d -> log_name t <> af_path f.
Proof.
  intros W Hx. rewrite (wr_path _ _ _ _ W). pose proof (wr_days _ _ _ _ W) as D. rewrite Forall_forall in D.
  pose proof (sorted_last _ _ (wr_sorted _ _ _ _ W) t) as S. assert (t ∈ fst <$> d) as Ht by (apply (list_elem_of_fmap_2' _ _ _ _ Hx); done).
  intros E. apply log_name_inj in E; [|apply D, elem_of_app; by left|apply D, elem_of_app; right; by apply list_elem_of_singleton].
  specialize (S Ht). lia.
Qed.

(** The stream moves on: what is in the open file changes, nothing else. *)
Lemma written_move l d text f f' s' add n t :
  written l d text f -> af_path f' = af_path f -> writtenBytes_ f' = writtenBytes_ f + len add ->
  af_text f' s' = af_text f (disk l) ++ add -> same_but (af_path f) (disk l) s' ->
  written {| count_ := n; startOfPeriod_ := startOfPeriod_ l; lastRoll_ := lastRoll_ l; lastFlush_ := t; file_ := Some f'; disk := s' |}
    d (text ++ add) f'.
Proof.
  intros W P Wb T (D & M & F & Is). pose proof (fun t x => done_name l d text f t x W) as Dn.
  destruct W as [W1 W2 W3 W4 W5 W6 W7 W8 W9 [W10 W11]]. split; cbn [file_ lastRoll_ disk]; try done.
  - congruence.
  - rewrite T, W3. by rewrite app_assoc.
  - rewrite Wb, W4, len_app. lia.
  - rewrite P. auto.
  - intros u x H. rewrite F; [by apply W8|]. by eapply Dn.
  - intros p Hp. rewrite F; [by apply W9|]. intros ->. apply Hp. rewrite W2. apply list_elem_of_fmap_2, elem_of_app. right.
    by apply list_elem_of_singleton.
  - split; congruence.
Qed.

Lemma af_flush_ok f s f' s' : af_flush f s = (f', s') -> pending f' = [] /\ af_path f' = af_path f
  /\ writtenBytes_ f' = writtenBytes_ f /\ af_text f' s' = af_text f s /\ same_but (af_path f) s s'.
Proof. intros (P & W & T & S & N)%spill_ok. split; [|done]. by rewrite N, drop_all. Qed.

Lemma flush_step l d text f : written l d text f -> exists l' f', log_flush l = Ok l' /\ written l' d text f' /\ lastRoll_ l' = lastRoll_ l.
Proof.
  intros W. unfold log_flush. rewrite (wr_file _ _ _ _ W). destruct (af_flush f (disk l)) as [f' s'] eqn:E.
  apply af_flush_ok in E as (_ & P & Wb & T & S). eexists _, f'. split; [reflexivity|]. split; [|done].
  rewrite <- (app_nil_r text). eapply (written_move l d text f f' s' []); try done; change (len (@nil byte)) with 0; rewrite ?app_nil_r; (done || lia).
Qed.

(** Closing the file leaves its text in it. *)
Lemma closed f s : is_Some (files s !! af_path f) ->
  files (af_flush f s).2 !! af_path f = Some (af_text f s) /\ same_but (af_path f) s (af_flush f s).2.
Proof.
  intros Is. destruct (af_flush f s) as [f' s'] eqn:E. apply af_flush_ok in E as (N & P & _ & T & S). cbn [snd]. split; [|done].
  unfold af_text in T at 1. rewrite N, P, app_nil_r in T. destruct S as (_ & _ & _ & K). destruct (K Is) as [x Ex].
  rewrite Ex in *. cbn in T. by subst.
Qed.

Lemma sorted_snoc l x : StronglySorted Z.lt l -> (forall y, y ∈ l -> y < x) -> StronglySorted Z.lt (l ++ [x]).
Proof.
  induction l as [|z l IH]; intros S H; [repeat constructor|]. apply StronglySorted_inv in S as [S F]. cbn [app]. constructor.
  - apply IH; [done|]. intros y Hy. apply H, elem_of_cons. by right.
  - apply Forall_app. split; [done|]. constructor; [|done]. apply H, elem_of_cons. by left.
Qed.

Lemma roll_step l d text f now : written l d text f -> in_days now ->
  exists b l' d' text' f', rollFile now l = Ok (b, l') /\ written l' d' text' f'
    /\ concat (snd <$> d') ++ text' = concat (snd <$> d) ++ text.
Proof.
  intros W Hn. destruct (log_name_eq now Hn) as (tm & _ & En & _). unfold rollFile. rewrite En, outcome_bind_ok. cbv zeta.
  case_decide as Hr; [|by exists false, l, d, text, f].
  assert (c_str (log_name now) = log_name now) as ->.
  { unfold log_name. destruct (getLogFileName now); try done. apply c_str_id, c_str_no_nul. }
  destruct (can_open now Hn) as [Mw Nd]. destruct (wr_perm _ _ _ _ W) as [Pw Pd]. unfold AppendFile_new.
  rewrite Pw, Pd, Mw, Nd. cbn [andb negb]. rewrite outcome_bind_ok. rewrite (wr_file _ _ _ _ W).
  assert (forall y, y ∈ (fst <$> d) ++ [lastRoll_ l] -> y < now) as Below.
  { intros y [Hy|Hy]%elem_of_app; [|apply list_elem_of_singleton in Hy; lia]. pose proof (sorted_last _ _ (wr_sorted _ _ _ _ W) y Hy). lia. }
  pose proof (wr_days _ _ _ _ W) as Days.
  assert (forall t, t ∈ (fst <$> d) ++ [lastRoll_ l] -> log_name t <> log_name now) as Ne.
  { rewrite Forall_forall in Days. intros t Ht E. apply log_name_inj in E; [|by apply Days|done]. specialize (Below t Ht). lia. }
  assert (log_name (lastRoll_ l) <> log_name now) as Nf by (apply Ne, elem_of_app; right; by apply list_elem_of_singleton).
  assert (files (disk l) !! log_name now = files s0 !! log_name now) as Old.
  { apply (wr_other _ _ _ _ W). intros (t & E & Ht)%list_elem_of_fmap. by eapply Ne. }
  set (s1 := set_files _ _). pose proof (wr_path _ _ _ _ W) as Pf.
  destruct (closed f s1) as [Et (Sd & Sw & Sf & _)].
  { cbn. rewrite lookup_insert_ne by congruence. by apply (wr_there _ _ _ _ W). }
  assert (af_text f s1 = old (lastRoll_ l) ++ text) as Ht.
  { unfold af_text. cbn. rewrite lookup_insert_ne by congruence. by apply (wr_text _ _ _ _ W). }
  rewrite Ht, Pf in Et. rewrite Pf in Sf. cbv iota beta. set (s2 := (af_flush f s1).2) in *.
  exists true. eexists _, (d ++ [(lastRoll_ l, text)]), [], _. split; [reflexivity|]. split.
  - assert (files s2 !! log_name now = Some (old now)) as En2 by (rewrite Sf by done; cbn; by rewrite lookup_insert_eq, Old).
    split; cbn [file_ lastRoll_ disk af_path writtenBytes_]; try done.
    + unfold af_text. cbn [af_path pending]. by rewrite En2.
    + rewrite fmap_app. apply sorted_snoc; [by apply (wr_sorted _ _ _ _ W)|done].
    + rewrite fmap_app. apply Forall_app. by split; [|constructor].
    + intros t x [H|H]%elem_of_app; [|apply list_elem_of_singleton in H as [= -> ->]; done].
      pose proof (done_name _ _ _ _ _ _ W H) as Nn. rewrite Pf in Nn. rewrite Sf by done. cbn. rewrite lookup_insert_ne.
      * by apply (wr_done _ _ _ _ W).
      * intros E. symmetry in E. revert E. apply Ne, elem_of_app. left. by apply (list_elem_of_fmap_2' _ _ _ _ H).
    + intros p Hp. rewrite fmap_app in Hp. rewrite fmap_app, not_elem_of_app in Hp. destruct Hp as [Hp Hq].
      rewrite fmap_app in Hp. rewrite Sf; [cbn; rewrite lookup_insert_ne; [apply (wr_other _ _ _ _ W); by rewrite fmap_app|]|].
      * intros <-. apply Hq. by apply list_elem_of_singleton.
      * intros ->. apply Hp, elem_of_app. right. by apply list_elem_of_singleton.
  - rewrite fmap_app, concat_app. cbn. by rewrite !app_nil_r.
Qed.

Lemma set_count_ok n l d text f : written l d text f -> written (set_count n l) d text f.
Proof. by intros []. Qed.
Lemma set_lastFlush_ok t l d text f : written l d text f -> written (set_lastFlush t l) d text f.
Proof. by intros []. Qed.

(** A call that the clock and the disk let succeed. *)
Definition call_ok (c : log_call) : Prop := accepts (logline c) (answers c) /\ in_days (time_roll c).

Lemma append_step c l d text f : written l d text f -> call_ok c ->
  exists l' d' text' f', append_unlocked c l = Ok l' /\ written l' d' text' f'
    /\ concat (snd <$> d') ++ text' = concat (snd <$> d) ++ text ++ logline c.
Proof.
  intros W [A Hr]. unfold append_unlocked. rewrite (wr_file _ _ _ _ W).
  destruct (af_append_ok _ _ f (disk l) A) as (f1 & s1 & E & P & Wb & T & S). rewrite E, outcome_bind_ok. cbv zeta.
  assert (written (set_file f1 s1 l) d (text ++ logline c) f1) as W1 by (by eapply (written_move l d text f f1 s1)).
  assert (forall l0, written l0 d (text ++ logline c) f1 -> exists l' d' text' f', (r ← rollFile (time_roll c) l0; Ok r.2) = Ok l'
            /\ written l' d' text' f' /\ concat (snd <$> d') ++ text' = concat (snd <$> d) ++ text ++ logline c) as Roll.
  { intros l0 W0. destruct (roll_step _ _ _ _ _ W0 Hr) as (b & l' & d' & text' & f' & E' & W' & C').
    exists l', d', text', f'. by rewrite E', outcome_bind_ok. }
  case_decide; [by apply Roll|]. case_decide; [|by eexists _, d, _, f1; split; [reflexivity|]; split; [by apply set_count_ok|]].
  case_decide; [by apply Roll, set_count_ok, set_count_ok|].
  case_decide; [|by eexists _, d, _, f1; split; [reflexivity|]; split; [by apply set_count_ok, set_count_ok|]].
  edestruct (flush_step (set_lastFlush (time_check c) (set_count 0 (set_count (count_ (set_file f1 s1 l) + 1) (set_file f1 s1 l)))))
    as (l' & f' & E' & W' & _); [by apply set_lastFlush_ok, set_count_ok, set_count_ok|].
  by exists l', d, (text ++ logline c), f'.
Qed.

Lemma append_all_ok calls l d text f : written l d text f -> Forall call_ok calls ->
  exists l' d' text' f', append_all calls l = Ok l' /\ written l' d' text' f'
    /\ concat (snd <$> d') ++ text' = concat (snd <$> d) ++ text ++ concat (logline <$> calls).
Proof.
  intros W Hc. revert l d text f W. induction Hc as [|c calls Hc _ IH]; intros l d text f W.
  - exists l, d, text, f. cbn. by rewrite app_nil_r.
  - destruct (append_step c l d text f W Hc) as (l1 & d1 & t1 & f1 & E1 & W1 & C1).
    destruct (IH _ _ _ _ W1) as (l2 & d2 & t2 & f2 & E2 & W2 & C2). exists l2, d2, t2, f2. cbn [append_all]. rewrite E1, outcome_bind_ok.
    split; [done|]. split; [done|]. rewrite C2. cbn [fmap list_fmap concat]. rewrite !app_assoc in *. by rewrite C1.
Qed.

Lemma new_ok now : chr 47 ∉ basename_ -> 0 < now -> in_days now ->
  exists l f, LogFile_new now s0 = Ok l /\ written l [] [] f.
Proof.
  intros Hb Hp Hn. destruct (log_name_eq now Hn) as (tm & _ & En & _). unfold LogFile_new, rollFile.
  rewrite decide_False, En, outcome_bind_ok by done. cbn [lastRoll_ disk file_]. rewrite decide_True by done.
  assert (c_str (log_name now) = log_name now) as ->.
  { unfold log_name. destruct (getLogFileName now); try done. apply c_str_id, c_str_no_nul. }
  unfold AppendFile_new. destruct (can_open now Hn) as [-> ->]. cbn [andb negb]. rewrite !outcome_bind_ok.
  eexists _, _. split; [reflexivity|]. split; cbn [file_ lastRoll_ disk af_path writtenBytes_ snd fmap list_fmap app set_files files may_write is_dir]; try done.
  - unfold af_text. cbn [af_path pending set_files files]. by rewrite lookup_insert_eq.
  - rewrite lookup_insert_eq. by eexists.
  - repeat constructor.
  - by constructor.
  - intros t x []%elem_of_nil.
  - intros p Hq. rewrite lookup_insert_ne; [done|]. intros <-. apply Hq. by apply list_elem_of_singleton.
Qed.

Lemma sorted_NoDup l : StronglySorted Z.lt l -> NoDup l.
Proof.
  induction 1 as [|x l S IH F]; constructor; [|done]. intros Hx. rewrite Forall_forall in F. specialize (F x Hx). lia.
Qed.

Lemma delete_ok l d text f : written l d text f ->
  let made := d ++ [(lastRoll_ l, text)] in
  NoDup (log_name <$> (fst <$> made))
  /\ (forall t x, (t, x) ∈ made -> files (LogFile_delete l) !! log_name t = Some (old t ++ x))
  /\ (forall p, p ∉ log_name <$> (fst <$> made) -> files (LogFile_delete l) !! p = files s0 !! p).
Proof.
  intros W made. unfold LogFile_delete. rewrite (wr_file _ _ _ _ W). pose proof (wr_path _ _ _ _ W) as P.
  destruct (closed f (disk l) (wr_there _ _ _ _ W)) as [E (_ & _ & F & _)]. rewrite (wr_text _ _ _ _ W), P in E. rewrite P in F.
  unfold made. rewrite fmap_app. split; [|split].
  - pose proof (wr_days _ _ _ _ W) as D. pose proof (sorted_NoDup _ (wr_sorted _ _ _ _ W)) as N.
    change [lastRoll_ l] with (fst <$> [(lastRoll_ l, text)]) in D, N. set (ts := _ ++ _) in *. clearbody ts.
    induction N as [|t us Ht N IH]; [constructor|]. apply Forall_cons in D as [Dt D]. constructor; [|by apply IH].
    intros (u & Eu & Hu)%list_elem_of_fmap. rewrite Forall_forall in D. apply log_name_inj in Eu as ->; [done|done|by apply D].
  - intros t x [H|H]%elem_of_app; [|apply list_elem_of_singleton in H as [= -> ->]; done].
    pose proof (done_name _ _ _ _ _ _ W H) as Nn. rewrite P in Nn. rewrite F by done. by apply (wr_done _ _ _ _ W).
  - intros p Hp. rewrite F; [by apply (wr_other _ _ _ _ W)|]. intros ->. apply Hp, list_elem_of_fmap_2, elem_of_app. right.
    by apply list_elem_of_singleton.
Qed.

End files.
End log.

(** C28: the files of a log. As long as the files can be opened and no write fails, however
    [stdio] takes the bytes and passes them on: no call fails an assertion, nothing is lost, and
    after the destructor the files, in the order of the seconds in their names, which are all
    different, hold exactly the lines, in their order, after what was in them before; no other file
    is touched. *)
Theorem log_files_exact basename_ rollSize_ flushInterval_ checkEveryN_ hostname pid s0 now calls :
  Byte.x00 ∉ basename_ -> chr 47 ∉ basename_ -> Byte.x00 ∉ hostname -> is_i32 pid ->
  (forall t, in_days t -> may_write s0 (log_name basename_ hostname pid t) = true /\ is_dir s0 (log_name basename_ hostname pid t) = false) ->
  0 < now -> in_days now -> Forall call_ok calls ->
  exists l made, (l ← LogFile_new basename_ hostname pid now s0;
                  append_all basename_ rollSize_ flushInterval_ checkEveryN_ hostname pid calls l) = Ok l
    /\ StronglySorted Z.lt (fst <$> made) /\ NoDup (log_name basename_ hostname pid <$> (fst <$> made))
    /\ concat (snd <$> made) = concat (logline <$> calls)
    /\ (forall t x, (t, x) ∈ made ->
         files (LogFile_delete l) !! log_name basename_ hostname pid t
         = Some (default [] (files s0 !! log_name basename_ hostname pid t) ++ x))
    /\ (forall p, p ∉ log_name basename_ hostname pid <$> (fst <$> made) -> files (LogFile_delete l) !! p = files s0 !! p).
Proof.
  intros Nb Hb Nh Hpid Op Hp Hn Hc.
  destruct (new_ok basename_ hostname pid Nb Nh Hpid s0 Op now Hb Hp Hn) as (l0 & f0 & E0 & W0).
  destruct (append_all_ok basename_ rollSize_ flushInterval_ checkEveryN_ hostname pid Nb Nh Hpid s0 Op calls l0 _ _ _ W0 Hc)
    as (l & d & text & f & E & W & C).
  exists l, (d ++ [(lastRoll_ l, text)]). rewrite E0, outcome_bind_ok. split; [done|].
  destruct (delete_ok basename_ hostname pid Nb Nh Hpid s0 l d text f W) as (D1 & D2 & D3).
  split; [rewrite fmap_app; by apply (wr_sorted _ _ _ _ _ _ _ _ W)|]. split; [done|]. split; [|done].
  rewrite fmap_app, concat_app. cbn in *. by rewrite app_nil_r.
Qed.

(** ** At work *)

Definition empty_fs : FS :=
  {| files := ∅; is_dir := fun _ => false; may_read := fun _ => true; may_write := fun _ => true; full := false |}.

Definition all_at_once (x : bytes) (t : Z) : log_call :=
  {| logline := x; answers := [{| taken_ := len x; spilled := 0; error := false |}]; time_check := t; time_roll := t |}.

(** Files of eight bytes; the second line goes out in two parts; the third comes in the second
    in which the file was started. *)
Definition some_calls : list log_call :=
  [all_at_once (bs "first;") 1709296201;
   {| logline := bs "second;";
      answers := [{| taken_ := 3; spilled := 8; error := false |}; {| taken_ := 4; spilled := 2; error := false |}];
      time_check := 1709296202; time_roll := 1709296202 |};
   all_at_once (bs "and a third;") 1709296202; all_at_once (bs "fourth;") 1709296203].

Definition log_end_state : outcome LogFile :=
  l ← LogFile_new (bs "im") (bs "host") 77 1709296200 empty_fs;
  append_all (bs "im") 8 3 1024 (bs "host") 77 some_calls l.

Lemma all_at_once_ok x t : in_days t -> call_ok (all_at_once x t).
Proof.
  intros Ht. split; [|done]. cbn [logline answers all_at_once accepts]. destruct x as [|b x]; [done|]. cbn [accepts taken_].
  rewrite len_to_nat, drop_all. split; [split; [apply len_nonneg|lia]|]. split; [by left|done].
Qed.

Lemma some_calls_ok : Forall call_ok some_calls.
Proof.
  assert (forall t, 1709296200 <= t <= 1709296300 -> in_days t) as D by (intros t Ht; unfold in_days, kJulianDayOf1970_01_01; dlia).
  unfold some_calls. rewrite !Forall_cons. split; [apply all_at_once_ok, D; lia|]. split.
  - split; [|apply D; cbn; lia]. clear D. vm_compute. do 2 (split; [split; discriminate|split; [auto|]]). exact I.
  - split; [apply all_at_once_ok, D; lia|]. split; [apply all_at_once_ok, D; lia|constructor].
Qed.

(** What is in a file after the end. *)
Definition left_in (o : outcome LogFile) (p : bytes) : option bytes :=
  match o with Ok l => files (LogFile_delete l) !! p | _ => None end.

Example log_end_files :
  left_in log_end_state (bs "im.20240301-123000.host.77.log") = Some (bs "first;second;")
  /\ left_in log_end_state (bs "im.20240301-123002.host.77.log") = Some (bs "and a third;fourth;")
  /\ left_in log_end_state (bs "im.20240301-123003.host.77.log") = Some [].
Proof. split; [vm_compute; reflexivity|]. split; vm_compute; reflexivity. Qed.

Lemma log_files_exact_witness :
  exists l (made : list (Z * bytes)), log_end_state = Ok l
    /\ concat (snd <$> made) = bs "first;second;and a third;fourth;"
    /\ left_in log_end_state (bs "other") = None.
Proof.
  destruct (log_files_exact (bs "im") 8 3 1024 (bs "host") 77 empty_fs 1709296200 some_calls) as (l & made & E & _ & _ & C & _).
  - apply (bool_decide_unpack _). vm_compute. exact I.
  - apply (bool_decide_unpack _). vm_compute. exact I.
  - apply (bool_decide_unpack _). vm_compute. exact I.
  - unfold is_i32, INT_MIN, INT_MAX. lia.
  - intros t _. split; reflexivity.
  - lia.
  - unfold in_days. apply (bool_decide_unpack _). vm_compute. exact I.
  - exact some_calls_ok.
  - exists l, made. split; [exact E|]. split; [rewrite C; reflexivity|vm_compute; reflexivity].
Defined.
