(* ===== verification/FileSession.v ===== *)
(** * FileSession (FileServer/FileSession.h, FileServer/FileSession.cpp, FileServer/TcpSession.cpp)

    The handlers of the file protocol: uploads write pieces into filecache/, downloads answer
    with the next half megabyte of an open file. Logging is left out. *)

From S2P Require Import Prelude Bytes Text StdMap BinaryReader Buffer Framing Conn FileManager.

Definition msg_type_upload_req : Z := 1.
Definition msg_type_upload_resp : Z := 2.
Definition msg_type_download_req : Z := 3.
Definition msg_type_download_resp : Z := 4.

Record FileSession := {
  f_conn : Z;                  (* tmpConn_ *)
  m_id : Z;
  f_seq : Z;                   (* m_seq *)
  m_fp : option FILE;
  m_offset : Z;
  m_filesize : Z;
}.

Definition FileSession_new (conn : Z) : FileSession :=
  {| f_conn := conn; m_id := 0; f_seq := 0; m_fp := None; m_offset := 0; m_filesize := 0 |}.

Definition set_f_seq (i : Z) (s : FileSession) : FileSession := {|
  f_conn := f_conn s; m_id := m_id s; f_seq := i; m_fp := m_fp s; m_offset := m_offset s;
  m_filesize := m_filesize s |}.
Definition set_fp (f : option FILE) (s : FileSession) : FileSession := {|
  f_conn := f_conn s; m_id := m_id s; f_seq := f_seq s; m_fp := f; m_offset := m_offset s;
  m_filesize := m_filesize s |}.
Definition set_offset (i : Z) (s : FileSession) : FileSession := {|
  f_conn := f_conn s; m_id := m_id s; f_seq := f_seq s; m_fp := m_fp s; m_offset := i;
  m_filesize := m_filesize s |}.
Definition set_filesize (i : Z) (s : FileSession) : FileSession := {|
  f_conn := f_conn s; m_id := m_id s; f_seq := f_seq s; m_fp := m_fp s; m_offset := m_offset s;
  m_filesize := i |}.

(** [ResetFile]. *)
Definition ResetFile (s : FileSession) : FileSession :=
  match m_fp s with
  | Some _ => {| f_conn := f_conn s; m_id := m_id s; f_seq := f_seq s; m_fp := None; m_offset := 0;
                 m_filesize := 0 |}
  | None => s
  end.

(** ** The world of a session

    Its fields, the files, the table and the connections. *)
Record FileWorld := {
  me : FileSession;
  fs : FS;
  m_listFiles : list bytes;
  fconns : gmap Z Conn;
}.

Definition FW (A : Type) : Type := M FileWorld A.

Definition set_me (s : FileSession) (w : FileWorld) : FileWorld :=
  {| me := s; fs := fs w; m_listFiles := m_listFiles w; fconns := fconns w |}.
Definition set_fs (f : FS) (w : FileWorld) : FileWorld :=
  {| me := me w; fs := f; m_listFiles := m_listFiles w; fconns := fconns w |}.
Definition set_list (l : list bytes) (w : FileWorld) : FileWorld :=
  {| me := me w; fs := fs w; m_listFiles := l; fconns := fconns w |}.
Definition set_fconns (c : gmap Z Conn) (w : FileWorld) : FileWorld :=
  {| me := me w; fs := fs w; m_listFiles := m_listFiles w; fconns := c |}.

Definition change (f : FileSession -> FileSession) : FW unit := modify (fun w => set_me (f (me w)) w).

(** [Send(write)]: to the session's connection, as long as it is alive. *)
Definition FileSend (write : BinaryWriter) : FW unit :=
  c ← gets (fun w => f_conn (me w));
  alive ← gets (fun w => fconns w !! c);
  match alive with
  | None => mret tt
  | Some _ =>
      let out := (file_pack write).1 in
      if decide (len out <= INT_MAX) then
        modify (fun w => set_fconns (alter (conn_send out) c (fconns w)) w)
      else undef OutOfBounds
  end.

(** A writer with the command, the sequence number and the name, as every reply starts. *)
Definition reply_start (cmd seq : Z) (filemd5 : bytes) : BinaryWriter :=
  WriteData_string (WriteData 4 (WriteData 4 BinaryWriter_new (htonl cmd)) (htonl seq)) filemd5.

(** The rest of a reply, and [Send]. *)
Definition reply_rest (writer : BinaryWriter) (a b : Z) (filedata : bytes) : FW unit :=
  FileSend (WriteData_string (WriteData 4 (WriteData 4 writer (htonl a)) (htonl b)) filedata).

Definition exists_file (filemd5 : bytes) : FW bool := fun w =>
  let '(r, l) := IsFileExsit (c_str filemd5) (fs w) (m_listFiles w) in Ok (r, set_list l w).

(** ["filecache/" + filemd5], as [fopen] sees it. *)
Definition cache_path (filemd5 : bytes) : bytes := c_str (bs "filecache/" ++ filemd5).

(** A call on [m_fp], which no [stdio] function accepts null. *)
Definition on_fp {A} (f : FILE -> FS -> A * FILE * FS) : FW A := fun w =>
  match m_fp (me w) with
  | None => Undef NullDeref
  | Some fp =>
      let '(a, fp, s) := f fp (fs w) in
      Ok (a, set_fs s (set_me (set_fp (Some fp) (me w)) w))
  end.

(** [m_fp = fopen(filename.c_str(), "w")]: an open stream is lost, not closed. *)
Definition create (filemd5 : bytes) : FW bool := fun w =>
  let '(f, s) := fopen_w (cache_path filemd5) (fs w) in
  Ok (match f with Some _ => true | None => false end, set_fs s (set_me (set_fp f (me w)) w)).

Definition OnUploadFileResponse (filemd5 : bytes) (offset filesize : Z) (filedata : bytes) : FW unit :=
  if decide (filemd5 = []) then mret tt
  else
    seq ← gets (fun w => f_seq (me w));
    let writer := reply_start msg_type_upload_resp seq filemd5 in
    there ← exists_file filemd5;
    if there : bool then reply_rest writer (-1) (-1) []
    else
      opened ← (if decide (offset = 0) then create filemd5 else mret true);
      if opened : bool then
        _ ← on_fp (fun f s => (tt, fseek_set offset f, s));
        written ← on_fp (fwrite filedata);
        if decide (written = 1) then
          sum ← lift (int_add offset (to_i32 (len filedata)));
          if decide (sum = filesize) then
            _ ← modify (fun w => set_list (addFile (c_str filemd5) (m_listFiles w)) w);
            _ ← change ResetFile;
            reply_rest writer (-1) (-1) []
          else reply_rest writer offset filesize []
        else mret tt
      else mret tt.

(** [m_fp = fopen(filename.c_str(), "r+")] and the size of the file; [false] where the handler
    returns. *)
Definition open_download (filemd5 : bytes) : FW bool :=
  f ← gets (fun w => fopen_rw (cache_path filemd5) (fs w));
  _ ← change (set_fp f);
  match f with
  | None => mret false
  | Some _ =>
      size ← on_fp (fun f s => let f := fseek_end f s in (pos f, f, s));
      _ ← change (set_filesize (to_i32 size));
      if decide (to_i32 size <= 0) then mret false
      else
        _ ← on_fp (fun f s => (tt, fseek_set 0 f, s));
        mret true
  end.

Definition PIECE : Z := 524288.      (* 512 * 1024 *)

(** [buffer] after the [fread]: what was read, and zeros. *)
Definition read_piece (n : Z) : FW bytes :=
  if decide (n <= 0) then mret (replicate (Z.to_nat PIECE) (chr 0))
  else
    got ← on_fp (fun f s => let '(_, got, f) := fread n f s in (got, f, s));
    mret (got ++ replicate (Z.to_nat PIECE - length got) (chr 0)).

Definition OnDownloadFileResponse (filemd5 : bytes) : FW unit :=
  if decide (filemd5 = []) then mret tt
  else
    there ← exists_file filemd5;
    if there : bool then
      fp ← gets (fun w => m_fp (me w));
      ready ← (match fp with None => open_download filemd5 | Some _ => mret true end);
      if ready : bool then
        s ← gets me;
        let writer := reply_start msg_type_download_resp (f_seq s) filemd5 in
        last ← lift (int_add (m_offset s) PIECE);
        currentSendSize ← (if decide (m_filesize s <= last)
                           then lift (int_add (m_filesize s) (- m_offset s)) else mret PIECE);
        buffer ← read_piece currentSendSize;
        let writer := WriteData 4 writer (htonl (m_offset s)) in
        next ← lift (int_add (m_offset s) currentSendSize);
        _ ← change (set_offset next);
        if decide (currentSendSize < 0) then throw LengthError     (* filedata.append *)
        else
          let filedata := take (Z.to_nat currentSendSize) buffer in
          let writer := WriteData 4 writer (htonl (m_filesize s)) in
          _ ← FileSend (WriteData_string writer filedata);
          if decide (next = m_filesize s) then change ResetFile else mret tt
      else mret tt
    else mret tt.

(** [Process]; an [int] that is read only if the ones before it were. *)
Definition FileProcess (buffer : bytes) : FW bool :=
  match ReadData_int (BinaryReader_of buffer) with
  | None => mret false
  | Some (cmd, reader) =>
      match ReadData_int reader with
      | None => mret false
      | Some (seq, reader) =>
          _ ← change (set_f_seq seq);
          '(filemd5, reader) ← lift (ReadData_string reader);
          if decide (filemd5 = []) then mret false
          else
            match ReadData_int reader with
            | None => mret false
            | Some (offset, reader) =>
                match ReadData_int reader with
                | None => mret false
                | Some (filesize, reader) =>
                    '(filedata, _) ← lift (ReadData_string reader);
                    handled ← (if decide (cmd = msg_type_upload_req) then
                                 _ ← OnUploadFileResponse filemd5 offset filesize filedata;
                                 mret true
                               else if decide (cmd = msg_type_download_req) then
                                 if decide (filedata = []) then
                                   _ ← OnDownloadFileResponse filemd5;
                                   mret true
                                 else mret false
                               else mret false);
                    if handled : bool then
                      seq ← gets (fun w => f_seq (me w));
                      seq ← lift (int_add seq 1);
                      _ ← change (set_f_seq seq);
                      mret true
                    else mret false
                end
            end
      end
  end.

(** [conn->forceClose()] *)
Definition file_close (conn : Z) : FW unit :=
  modify (fun w => set_fconns (alter conn_forceClose conn (fconns w)) w).

Definition FileSession_OnRead (conn : Z) (buf : Buffer) : FW Buffer :=
  OnRead file_format FileProcess (file_close conn) buf.
