(* ===== verification/FileTransfer.v ===== *)
(** * Uploads and downloads

    What a whole file transfer does, request by request: the file that is there afterwards, the
    answers the client gets, and what happens to requests out of order. *)

From S2P Require Import Prelude Bytes Text StdMap BinaryReader Buffer Framing Conn.
From S2P Require Import Delivery ChatDelivery FileManager FileSession.

(** ** Messages *)

(** A request and a reply have the same parts. *)
Definition file_message (cmd seq : Z) (filemd5 : bytes) (a b : Z) (filedata : bytes) : bytes :=
  be_bytes 4 cmd ++ be_bytes 4 seq ++ string_bytes filemd5 ++ be_bytes 4 a ++ be_bytes 4 b
  ++ string_bytes filedata.

Definition file_packet (m : bytes) : bytes := frame file_format (send_preamble (len m), m).
Definition file_fits (m : bytes) : Prop := len m + 14 <= INT_MAX.

#[export] Instance file_fits_dec m : Decision (file_fits m).
Proof. unfold file_fits. apply _. Defined.

Lemma len_file_packet m : len (file_packet m) = len m + 14.
Proof.
  unfold file_packet, frame, send_preamble, be_bytes. cbn [fst snd hdr file_format]. len.
  unfold len. rewrite !length_rev, !length_le_bytes. lia.
Qed.

(** Packets put on a connection, one after the other. *)
Definition send_all (ms : list bytes) (c : Conn) : Conn := fold_left (fun c m => conn_send (file_packet m) c) ms c.

Definition deliver_files (c : Z) (ms : list bytes) (w : FileWorld) : FileWorld :=
  set_fconns (alter (send_all ms) c (fconns w)) w.

Lemma deliver_files_app c ms m w : deliver_files c [m] (deliver_files c ms w) = deliver_files c (ms ++ [m]) w.
Proof.
  unfold deliver_files, set_fconns. simpl. f_equal. apply map_eq. intros k.
  destruct (decide (c = k)) as [<-|Hk]; [|by rewrite !lookup_alter_ne].
  rewrite !lookup_alter_eq. destruct (fconns w !! c) as [x|]; [|done]. simpl. f_equal.
  unfold send_all. by rewrite fold_left_app.
Qed.

Lemma no_sends (c : Z) (m : gmap Z Conn) : alter (send_all []) c m = m.
Proof. by apply alter_id. Qed.

Lemma send_all_state ms c : state_ c = kConnected -> state_ (send_all ms c) = kConnected.
Proof.
  revert c. induction ms as [|m ms IH]; intros c E; [done|]. apply IH. unfold conn_send. by rewrite E.
Qed.

Lemma holds_file cmd seq filemd5 a b d : file_fits (file_message cmd seq filemd5 a b d) ->
  holds (WriteData_string (WriteData 4 (WriteData 4 (reply_start cmd seq filemd5) (htonl a)) (htonl b)) d)
    (file_message cmd seq filemd5 a b d).
Proof.
  unfold file_message, file_fits, reply_start. rewrite !app_assoc. len. intros F.
  pose proof (len_nonneg (string_bytes filemd5)). pose proof (len_nonneg (string_bytes d)).
  apply holds_string; [|unfold fits; len; lia].
  repeat (apply holds_int; [|len; unfold INT_MAX in *; lia]).
  apply holds_string; [|unfold fits; len; lia]. apply holds_start.
Qed.

(** [Send] on a session with its connection up. *)
Lemma FileSend_ok wr m w x : holds wr m -> file_fits m -> fconns w !! f_conn (me w) = Some x ->
  FileSend wr w = Ok (tt, deliver_files (f_conn (me w)) [m] w).
Proof.
  intros [_ <-] F E. unfold FileSend. unfold mbind, M_bind, gets at 1. unfold gets. rewrite E.
  unfold file_fits, INT_MAX in F. rewrite file_pack_frame by (unfold toString in *; lia).
  fold (file_packet (toString wr)).
  by rewrite decide_True by (rewrite len_file_packet; unfold INT_MAX; lia).
Qed.

Lemma reply_rest_ok cmd seq filemd5 a b d w x : file_fits (file_message cmd seq filemd5 a b d) ->
  fconns w !! f_conn (me w) = Some x ->
  reply_rest (reply_start cmd seq filemd5) a b d w
  = Ok (tt, deliver_files (f_conn (me w)) [file_message cmd seq filemd5 a b d] w).
Proof. intros F E. unfold reply_rest. eapply FileSend_ok; [by apply holds_file|done..]. Qed.

(** ** Taking a request apart *)

Lemma is_i32_len (s : bytes) : len s <= INT_MAX -> is_i32 (len s).
Proof. pose proof (len_nonneg s). unfold is_i32, INT_MIN. lia. Qed.

Lemma string_bytes_ge s : len s <= len (string_bytes s).
Proof. unfold string_bytes. len. pose proof (len_nonneg (Compress (len s) [])). lia. Qed.

(** A reader that stands after [pre]. *)
Definition at_ (pre rest : bytes) : BinaryReader := {| r_buffer := pre ++ rest; r_index := len pre |}.

Lemma at_int v pre rest : is_i32 v -> len pre + 4 + len rest < 2 ^ 32 ->
  ReadData_int (at_ pre (be_bytes 4 v ++ rest)) = Some (v, at_ (pre ++ be_bytes 4 v) rest).
Proof.
  intros. unfold at_. rewrite ReadData_int_at by done. rewrite <- app_assoc. do 3 f_equal. by len.
Qed.

Lemma at_string s pre rest : len s <= INT_MAX -> len pre + len (string_bytes s) + len rest < 2 ^ 32 ->
  ReadData_string (at_ pre (string_bytes s ++ rest)) = Ok (s, at_ (pre ++ string_bytes s) rest).
Proof.
  intros. unfold at_. rewrite ReadData_string_at by lengths. rewrite <- app_assoc. do 3 f_equal. by len.
Qed.

(** The part of [Process] after the message is read. *)
Definition handle_request (cmd : Z) (filemd5 : bytes) (offset filesize : Z) (filedata : bytes) : FW bool :=
  handled ← (if decide (cmd = msg_type_upload_req) then
               _ ← OnUploadFileResponse filemd5 offset filesize filedata; mret true
             else if decide (cmd = msg_type_download_req) then
               if decide (filedata = []) then _ ← OnDownloadFileResponse filemd5; mret true
               else mret false
             else mret false);
  if handled : bool then
    seq ← gets (fun w => f_seq (me w)); seq ← lift (int_add seq 1); _ ← change (set_f_seq seq); mret true
  else mret false.

Lemma FileProcess_message cmd seq filemd5 a b d w :
  is_i32 cmd -> is_i32 seq -> is_i32 a -> is_i32 b -> filemd5 <> [] ->
  file_fits (file_message cmd seq filemd5 a b d) ->
  FileProcess (file_message cmd seq filemd5 a b d) w
  = handle_request cmd filemd5 a b d (set_me (set_f_seq seq (me w)) w).
Proof.
  intros Hc Hs Ha Hb Hm F. unfold file_fits, file_message, INT_MAX in F.
  pose proof (string_bytes_ge filemd5). pose proof (string_bytes_ge d).
  pose proof (len_nonneg filemd5). pose proof (len_nonneg d).
  revert F. len. intros F. unfold FileProcess, file_message.
  change (BinaryReader_of ?m) with (at_ [] m).
  rewrite at_int by lengths. rewrite at_int by lengths. unfold mbind at 1, M_bind at 1, change, modify.
  match goal with |- context [at_ ?p (string_bytes filemd5 ++ ?r)] =>
    assert (ReadData_string (at_ p (string_bytes filemd5 ++ r)) = Ok (filemd5, at_ (p ++ string_bytes filemd5) r)) as E1
      by (apply at_string; [unfold INT_MAX; lia|lengths]) end.
  unfold mbind at 1, M_bind at 1, lift at 1. rewrite E1, decide_False by done.
  rewrite at_int by lengths. rewrite at_int by lengths.
  rewrite <- (app_nil_r (string_bytes d)).
  match goal with |- context [at_ ?p (string_bytes d ++ [])] =>
    assert (ReadData_string (at_ p (string_bytes d ++ [])) = Ok (d, at_ (p ++ string_bytes d) [])) as E2
      by (apply at_string; [unfold INT_MAX; lia|lengths]) end.
  unfold mbind at 1, M_bind at 1, lift at 1. by rewrite E2.
Qed.

(** ** Uploads *)

Lemma cache_path_app s : cache_path s = bs "filecache/" ++ c_str s.
Proof. reflexivity. Qed.

Lemma cache_path_other s : cache_path s <> c_str s.
Proof. rewrite cache_path_app. intros E%(f_equal length). rewrite length_app in E. simpl in E. lia. Qed.

Section upload.
Context (filemd5 : bytes) (q total : Z) (w0 : FileWorld) (x : Conn).
Let c := f_conn (me w0).
Let p := cache_path filemd5.

Definition upload_reply (a b : Z) : bytes := file_message msg_type_upload_resp q filemd5 a b [].

(** The file is not there and can be made. *)
Record can_upload : Prop := {
  cu_name : filemd5 <> [];
  cu_new : c_str filemd5 ∉ m_listFiles w0;
  cu_elsewhere : fopen_r (c_str filemd5) (fs w0) = false;
  cu_write : may_write (fs w0) p = true /\ is_dir (fs w0) p = false;
  cu_room : full (fs w0) = false;
  cu_conn : fconns w0 !! c = Some x;
}.

(** The files of [w0] with one more. *)
Definition with_file (content : bytes) : FS := set_files (<[p := content]> (files (fs w0))) (fs w0).

(** The upload has got as far as [content]; the answers so far are [ms]. *)
Record uploading (content : bytes) (ms : list bytes) (w : FileWorld) : Prop := {
  up_conn : f_conn (me w) = c;
  up_seq : f_seq (me w) = q;
  up_list : m_listFiles w = m_listFiles w0;
  up_conns : fconns w = alter (send_all ms) c (fconns w0);
  up_file : content = [] /\ fs w = fs w0
            \/ content <> [] /\ fs w = with_file content
               /\ exists i, m_fp (me w) = Some {| path := p; pos := i; readable := false |};
}.

(** It is done: the file is closed and in the table. *)
Record uploaded (data : bytes) (ms : list bytes) (w : FileWorld) : Prop := {
  ud_conn : f_conn (me w) = c;
  ud_seq : f_seq (me w) = q;
  ud_list : m_listFiles w = m_listFiles w0 ++ [c_str filemd5];
  ud_conns : fconns w = alter (send_all ms) c (fconns w0);
  ud_file : fs w = with_file data;
  ud_closed : m_fp (me w) = None;
}.

Lemma exists_file_not content ms w : can_upload -> uploading content ms w ->
  exists_file filemd5 w = Ok (false, w).
Proof.
  intros CU U. unfold exists_file. rewrite (up_list _ _ _ U), IsFileExsit_new.
  - rewrite <- (up_list _ _ _ U). by destruct w.
  - apply (cu_new CU).
  - pose proof (cu_elsewhere CU) as Hr.
    destruct (up_file _ _ _ U) as [[_ ->]|(_ & -> & _)]; [done|].
    unfold fopen_r, with_file, set_files in *. cbn [may_read is_dir files] in *.
    rewrite lookup_insert_ne; [done|apply cache_path_other].
Qed.

(** The file is open at offset [len content], and holds [content]. *)
Definition open_at (s : FileSession) (content : bytes) (l : list bytes) (cs : gmap Z Conn) : FileWorld := {|
  me := set_fp (Some {| path := p; pos := len content; readable := false |}) s;
  fs := with_file content; m_listFiles := l; fconns := cs |}.

Lemma create_ok ms w : can_upload -> uploading [] ms w ->
  create filemd5 w = Ok (true, open_at (me w) [] (m_listFiles w) (fconns w)).
Proof.
  intros CU U. assert (fs w = fs w0) as Ef.
  { by destruct (up_file _ _ _ U) as [[_ ->]|[? _]]. }
  unfold create, fopen_w. rewrite Ef. fold p. destruct (cu_write CU) as [-> ->]. done.
Qed.

Lemma write_ok s content piece l cs : can_upload -> piece <> [] ->
  on_fp (fwrite piece) (open_at s content l cs)
  = Ok (1, open_at s (content ++ piece) l cs).
Proof.
  intros CU Hp. unfold on_fp, open_at. cbn [me m_fp set_fp fs].
  assert (content_of {| path := p; pos := len content; readable := false |} (with_file content) = content) as Ec.
  { unfold content_of, with_file, set_files. cbn [path files]. by rewrite lookup_insert_eq. }
  rewrite fwrite_end; [|done|apply (cu_room CU)|by rewrite Ec].
  rewrite Ec. unfold set_fs, set_me, with_file, set_files, set_pos. cbn. by rewrite insert_insert_eq, len_app.
Qed.
(** One request: the piece is added, and the answer is its offset, or -1 when it was the last. *)
Lemma upload_piece content ms piece w : can_upload -> uploading content ms w -> piece <> [] ->
  0 <= len content -> len content + len piece <= total -> total <= INT_MAX ->
  file_fits (upload_reply (-1) (-1)) -> file_fits (upload_reply (len content) total) ->
  exists w', OnUploadFileResponse filemd5 (len content) total piece w = Ok (tt, w')
    /\ if decide (len content + len piece = total)
       then uploaded (content ++ piece) (ms ++ [upload_reply (-1) (-1)]) w'
       else uploading (content ++ piece) (ms ++ [upload_reply (len content) total]) w'.
Proof.
  intros CU U Hp Hl Ht Hm F1 F2. unfold OnUploadFileResponse. rewrite decide_False by apply (cu_name CU).
  unfold mbind at 1, M_bind at 1, gets at 1. rewrite (up_seq _ _ _ U).
  step (exists_file_not content ms w CU U).
  (* the stream, at the end of what was written *)
  set (w1 := open_at (me w) content (m_listFiles w) (fconns w)).
  assert ((opened ← (if decide (len content = 0) then create filemd5 else mret true);
           if opened : bool then _ ← on_fp (fun f s => (tt, fseek_set (len content) f, s)); mret true else mret false) w
          = Ok (true, w1)) as E1.
  { destruct content as [|b content'].
    - rewrite decide_True by done. step (create_ok ms w CU U). reflexivity.
    - destruct (up_file _ _ _ U) as [[? _]|(_ & Ef & i & Ei)]; [done|].
      rewrite decide_False by (unfold len; simpl; lia). unfold mbind at 1, M_bind at 1, mret at 1, M_ret at 1.
      unfold on_fp at 1, mbind, M_bind. rewrite Ei. unfold fseek_set. rewrite decide_False by lia.
      unfold w1, open_at, set_fs, set_me, set_pos. cbn. by rewrite Ef. }
  revert E1. unfold mbind at 1, M_bind at 1.
  destruct ((if decide (len content = 0) then create filemd5 else mret true) w) as [[[] wa]| |] eqn:Ea; [|done..].
  rewrite (bind_ok _ _ _ _ _ Ea). unfold mbind at 1, M_bind at 1. intros E1.
  destruct (on_fp _ wa) as [[[] wb]| |] eqn:Eb; [|done..]. injection E1 as ->. step Eb.
  step (write_ok (me w) content piece (m_listFiles w) (fconns w) CU Hp). rewrite decide_True by done.
  pose proof (len_nonneg piece).
  rewrite to_i32_id by (unfold is_i32, INT_MIN; lia).
  assert (int_add (len content) (len piece) = Ok (len content + len piece)) as Es
    by (unfold int_add; rewrite decide_True; [done|unfold is_i32, INT_MIN; lia]).
  unfold mbind at 1, M_bind at 1, lift at 1. rewrite Es.
  set (w2 := open_at _ _ _ _).
  assert (fconns w2 !! f_conn (me w2) = Some (send_all ms x)) as Ex.
  { unfold w2, open_at. cbn. rewrite (up_conns _ _ _ U), (up_conn _ _ _ U), lookup_alter_eq.
    by rewrite (cu_conn CU). }
  assert (content ++ piece <> []) as Hne by (by destruct content).
  destruct (decide (len content + len piece = total)) as [Hd|Hd].
  - unfold mbind at 1, M_bind at 1, modify at 1. unfold mbind at 1, M_bind at 1, change, modify at 1.
    match goal with |- context [reply_rest _ _ _ _ ?u] => set (w3 := u) end.
    rewrite (reply_rest_ok _ _ _ _ _ _ w3 (send_all ms x) F1 Ex). eexists. split; [done|].
    split; cbn; [apply (up_conn _ _ _ U)|apply (up_seq _ _ _ U)|by rewrite (up_list _ _ _ U)| |done|done].
    rewrite (up_conn _ _ _ U), (up_conns _ _ _ U).
    exact (f_equal fconns (deliver_files_app c ms _ w0)).
  - rewrite (reply_rest_ok _ _ _ _ _ _ w2 (send_all ms x) F2 Ex). eexists. split; [done|].
    split; cbn; [apply (up_conn _ _ _ U)|apply (up_seq _ _ _ U)|by rewrite (up_list _ _ _ U)| |right; eauto].
    rewrite (up_conn _ _ _ U), (up_conns _ _ _ U).
    exact (f_equal fconns (deliver_files_app c ms _ w0)).
Qed.

(** *** A whole upload *)

Definition upload_request (offset : Z) (piece : bytes) : bytes :=
  file_message msg_type_upload_req q filemd5 offset total piece.

(** The requests for the pieces from [offset] on, and their answers. *)
Fixpoint upload_requests (offset : Z) (pieces : list bytes) : list bytes :=
  match pieces with
  | [] => []
  | d :: l => upload_request offset d :: upload_requests (offset + len d) l
  end.
Fixpoint upload_answers (offset : Z) (pieces : list bytes) : list bytes :=
  match pieces with
  | [] => []
  | d :: l => (if decide (offset + len d = total) then upload_reply (-1) (-1) else upload_reply offset total)
              :: upload_answers (offset + len d) l
  end.

(** The world as the handlers see it, with the request's sequence number. *)
Definition with_seq (w : FileWorld) : FileWorld := set_me (set_f_seq q (me w)) w.

(** [Process] counts the sequence number up after a request. *)
Lemma handle_request_upload offset piece w w' : q < INT_MAX -> is_i32 q -> f_seq (me w') = q ->
  OnUploadFileResponse filemd5 offset total piece w = Ok (tt, w') ->
  handle_request msg_type_upload_req filemd5 offset total piece w
  = Ok (true, set_me (set_f_seq (q + 1) (me w')) w').
Proof.
  intros Hq Hi Es E. unfold handle_request. rewrite decide_True by done. unfold mbind at 1, M_bind at 1.
  step E. unfold mret at 1, M_ret at 1. unfold mbind at 1, M_bind at 1, gets at 1. rewrite Es.
  unfold mbind at 1, M_bind at 1, lift, int_add. unfold is_i32 in *. by rewrite decide_True by lia.
Qed.

Lemma with_seq_again i w : with_seq (set_me (set_f_seq i (me w)) w) = with_seq w.
Proof. done. Qed.

Lemma with_seq_id w : f_seq (me w) = q -> with_seq w = w.
Proof. intros E. unfold with_seq. rewrite <- E. by destruct w as [[] ? ? ?]. Qed.

Lemma len_reply a b a' b' : len (upload_reply a b) = len (upload_reply a' b').
Proof. unfold upload_reply, file_message. by len. Qed.

Lemma len_request offset offset' piece : len (upload_request offset piece) = len (upload_request offset' piece).
Proof. unfold upload_request, file_message. by len. Qed.

(** What the client has to respect: no empty piece, every message within the sizes. *)
Record sendable (pieces : list bytes) : Prop := {
  sn_seq : is_i32 q /\ q < INT_MAX;
  sn_total : total <= INT_MAX;
  sn_pieces : Forall (fun d => d <> [] /\ file_fits (upload_request 0 d)) pieces;
  sn_reply : file_fits (upload_reply 0 0);
}.

Lemma upload_loop pieces content ms w : can_upload -> sendable pieces ->
  uploading content ms (with_seq w) -> pieces <> [] -> total = len content + len (concat pieces) ->
  exists w', for_each (handle FileProcess (file_close c)) (upload_requests (len content) pieces) w = Ok (tt, w')
    /\ uploaded (content ++ concat pieces) (ms ++ upload_answers (len content) pieces) (with_seq w').
Proof.
  intros CU [[Hi Hq] Ht Hps Fr]. revert content ms w.
  induction pieces as [|d l IH]; intros content ms w U Hne Et; [done|].
  apply Forall_cons in Hps as [[Hd Fd] Hps]. cbn [upload_requests upload_answers concat] in *.
  rewrite len_app in Et. pose proof (len_nonneg content). pose proof (len_nonneg (concat l)).
  unfold file_fits in *.
  destruct (upload_piece content ms d (with_seq w) CU U Hd) as (w1 & E1 & P);
    [lia..|unfold file_fits; rewrite (len_reply _ _ 0 0); exact Fr|unfold file_fits; rewrite (len_reply _ _ 0 0); exact Fr|].
  assert (is_i32 (len content) /\ is_i32 total) as [I1 I2]
    by (pose proof (len_nonneg d); unfold is_i32, INT_MIN; lia).
  assert (file_fits (upload_request (len content) d)) as Fq
    by (unfold file_fits; rewrite (len_request _ 0); exact Fd).
  pose proof (FileProcess_message msg_type_upload_req q filemd5 (len content) total d w ltac:(done) Hi I1 I2
    (cu_name CU) Fq) as Ep.
  assert (forall w2, f_seq (me w1) = q ->
    (exists w', for_each (handle FileProcess (file_close c)) (upload_requests (len content + len d) l)
        (set_me (set_f_seq (q + 1) (me w1)) w1) = Ok (tt, w') /\ w2 w') ->
    exists w', for_each (handle FileProcess (file_close c))
      (upload_request (len content) d :: upload_requests (len content + len d) l) w = Ok (tt, w') /\ w2 w') as K.
  { intros w2 Es (w' & E & ?). exists w'. split; [|done]. cbn [for_each]. unfold mbind, M_bind.
    unfold handle, mbind, M_bind. unfold upload_request. rewrite Ep.
    change (set_me (set_f_seq q (me w)) w) with (with_seq w).
    by rewrite (handle_request_upload (len content) d (with_seq w) w1 Hq Hi Es E1). }
  case_decide as Hlast.
  - assert (l = []) as ->.
    { destruct l as [|e l']; [done|]. apply Forall_cons in Hps as [[He _] _]. cbn [concat] in *.
      rewrite len_app in *. pose proof (len_nonneg (concat l')). destruct e; [done|].
      rewrite len_cons in *. pose proof (len_nonneg e). lia. }
    apply K; [apply (ud_seq _ _ _ P)|]. eexists. split; [done|].
    rewrite with_seq_again, with_seq_id by apply (ud_seq _ _ _ P). simpl. by rewrite app_nil_r.
  - apply K; [apply (up_seq _ _ _ P)|].
    destruct (IH Hps (content ++ d) (ms ++ [upload_reply (len content) total])
      (set_me (set_f_seq (q + 1) (me w1)) w1)) as (w' & E & R).
    + by rewrite with_seq_again, with_seq_id by apply (up_seq _ _ _ P).
    + intros ->. simpl in *. rewrite len_nil in *. lia.
    + rewrite len_app. lia.
    + rewrite len_app in E, R. exists w'. split; [done|]. by rewrite <- !app_assoc in R.
Qed.
End upload.

(** ** Downloads *)

Section download.
Context (filemd5 : bytes) (q : Z) (w0 : FileWorld) (x : Conn) (content : bytes).
Let c := f_conn (me w0).
Let p := cache_path filemd5.

(** The file is in the table and in the cache. *)
Record can_download : Prop := {
  cd_name : filemd5 <> [];
  cd_listed : c_str filemd5 ∈ m_listFiles w0;
  cd_file : files (fs w0) !! p = Some content;
  cd_access : may_read (fs w0) p = true /\ may_write (fs w0) p = true /\ is_dir (fs w0) p = false;
  cd_size : 0 < len content /\ len content + PIECE <= INT_MAX;
  cd_conn : fconns w0 !! c = Some x;
}.

(** The answer for the part from offset [o] on. *)
Definition piece_at (o : Z) : bytes := take (Z.to_nat PIECE) (drop (Z.to_nat o) content).
Definition download_reply (o : Z) : bytes :=
  file_message msg_type_download_resp q filemd5 o (len content) (piece_at o).

(** The download has got to offset [o], 0 for none under way; the answers so far are [ms]. *)
Record downloading (o : Z) (ms : list bytes) (w : FileWorld) : Prop := {
  dl_conn : f_conn (me w) = c;
  dl_seq : f_seq (me w) = q;
  dl_fs : fs w = fs w0;
  dl_list : m_listFiles w = m_listFiles w0;
  dl_conns : fconns w = alter (send_all ms) c (fconns w0);
  dl_offset : m_offset (me w) = o;
  dl_file : if decide (o = 0) then m_fp (me w) = None
            else m_fp (me w) = Some {| path := p; pos := o; readable := true |}
                 /\ m_filesize (me w) = len content;
}.

(** The world with the file open at offset [o]. *)
Definition reading (o : Z) (w : FileWorld) : FileWorld :=
  set_me (set_filesize (len content) (set_fp (Some {| path := p; pos := o; readable := true |}) (me w))) w.

Lemma content_of_cached o s : fs s = fs w0 -> can_download ->
  content_of {| path := p; pos := o; readable := true |} (fs s) = content.
Proof. intros -> CD. unfold content_of. cbn [path]. by rewrite (cd_file CD). Qed.

Lemma open_ok ms w : can_download -> downloading 0 ms w -> open_download filemd5 w = Ok (true, reading 0 w).
Proof.
  intros CD D. pose proof (cd_size CD) as [Hs Hm]. unfold PIECE in Hm.
  unfold open_download. unfold mbind at 1, M_bind at 1, gets.
  assert (fopen_rw (cache_path filemd5) (fs w) = Some {| path := p; pos := 0; readable := true |}) as ->.
  { unfold fopen_rw. rewrite (dl_fs _ _ _ D). fold p. destruct (cd_access CD) as (-> & -> & ->).
    by rewrite bool_decide_true by (rewrite (cd_file CD); by eexists). }
  unfold mbind at 1, M_bind at 1, change at 1, modify at 1. unfold mbind at 1, M_bind at 1, on_fp at 1.
  cbn [me set_me m_fp set_fp fs]. unfold fseek_end. rewrite (content_of_cached 0 w (dl_fs _ _ _ D) CD).
  cbn [set_pos pos]. rewrite to_i32_id by (unfold is_i32, INT_MIN, INT_MAX in *; lia).
  unfold mbind at 1, M_bind at 1, change at 1, modify at 1. rewrite decide_False by lia.
  unfold mbind at 1, M_bind at 1, on_fp at 1. cbn [me set_me m_fp set_fp set_filesize set_fs fs].
  unfold fseek_set. rewrite decide_False by lia. unfold reading, set_me, set_fs, set_pos, set_fp, set_filesize. cbn. done.
Qed.

Lemma piece_length o : 0 <= o <= len content ->
  len (piece_at o) = if decide (len content <= o + PIECE) then len content - o else PIECE.
Proof.
  unfold piece_at, len. rewrite length_take, length_drop. assert (0 < PIECE) by done.
  generalize dependent PIECE. intros P HP Ho. case_decide; lia.
Qed.

Lemma read_piece_ok n o w : can_download -> fs w = fs w0 -> 0 <= o -> n = len (piece_at o) -> 0 < n ->
  o + n <= len content ->
  exists buffer, read_piece n (reading o w) = Ok (buffer, reading (o + n) w)
    /\ take (Z.to_nat n) buffer = piece_at o.
Proof.
  intros CD Ef Ho En Hn Hl. unfold read_piece. rewrite decide_False by lia.
  unfold mbind, M_bind, on_fp, reading. cbn [me set_me m_fp set_filesize set_fp fs].
  pose proof (content_of_cached o w Ef CD) as Ec.
  rewrite fread_all; cbn [readable pos]; [|done|lia|lia|by rewrite Ec]. rewrite Ec.
  assert (take (Z.to_nat n) (drop (Z.to_nat o) content) = piece_at o) as ->.
  { rewrite En. unfold len. rewrite Nat2Z.id. unfold piece_at. set (l := drop _ content).
    rewrite length_take. destruct (Nat.le_ge_cases (Z.to_nat PIECE) (length l)).
    - by rewrite Nat.min_l by done.
    - by rewrite Nat.min_r, !take_ge by lia. }
  eexists. split; [done|]. rewrite En. unfold len. rewrite Nat2Z.id. apply take_app_length.
Qed.

(** One request: the next part, and the file is closed after the last one. *)
Lemma download_piece o ms w : can_download -> downloading o ms w -> 0 <= o < len content ->
  file_fits (download_reply o) ->
  exists w', OnDownloadFileResponse filemd5 w = Ok (tt, w')
    /\ downloading (if decide (o + len (piece_at o) = len content) then 0 else o + len (piece_at o))
         (ms ++ [download_reply o]) w'.
Proof.
  intros CD D Ho F. pose proof (cd_size CD) as [Hs Hm]. assert (PIECE = 524288) as EP by done.
  unfold OnDownloadFileResponse. rewrite decide_False by apply (cd_name CD).
  unfold mbind at 1, M_bind at 1, exists_file at 1. rewrite (dl_list _ _ _ D), IsFileExsit_in by apply (cd_listed CD).
  assert (set_list (m_listFiles w0) w = w) as -> by (rewrite <- (dl_list _ _ _ D); by destruct w).
  unfold mbind at 1, M_bind at 1, gets at 1.
  assert ((match m_fp (me w) with None => open_download filemd5 | Some _ => mret true end) w
          = Ok (true, reading o w)) as Eo.
  { pose proof (dl_file _ _ _ D) as Hf. case_decide as H0.
    - subst o. rewrite Hf. by apply (open_ok ms).
    - destruct Hf as [E1 E2]. rewrite E1. unfold mret, M_ret, reading. do 2 f_equal.
      destruct w as [[] ? ? ?]. cbn in *. by subst. }
  rewrite (bind_ok _ _ _ _ _ Eo). unfold mbind at 1, M_bind at 1, gets at 1.
  cbn [me reading set_me f_seq set_filesize set_fp m_offset m_filesize].
  rewrite (dl_seq _ _ _ D), (dl_offset _ _ _ D).
  pose proof (piece_length o ltac:(lia)) as Lp. set (n := len (piece_at o)) in *.
  assert (0 < n /\ o + n <= len content) as [Hn Hl] by (rewrite EP in Lp; case_decide; lia).
  unfold INT_MAX in Hm.
  assert (int_add o PIECE = Ok (o + PIECE)) as E1
    by (unfold int_add; rewrite decide_True; [done|unfold is_i32, INT_MIN, INT_MAX; lia]).
  unfold mbind at 1, M_bind at 1, lift at 1. rewrite E1.
  assert ((if decide (len content <= o + PIECE) then lift (int_add (len content) (- o)) else mret PIECE) (reading o w)
          = Ok (n, reading o w)) as E2.
  { case_decide as Hd.
    - unfold lift, int_add. rewrite decide_True by (unfold is_i32, INT_MIN, INT_MAX; lia).
      do 2 f_equal. lia.
    - by rewrite Lp. }
  rewrite (bind_ok _ _ _ _ _ E2).
  destruct (read_piece_ok n o w CD (dl_fs _ _ _ D) ltac:(lia) eq_refl Hn Hl) as (buffer & E3 & Eb).
  rewrite (bind_ok _ _ _ _ _ E3).
  assert (int_add o n = Ok (o + n)) as E4
    by (unfold int_add; rewrite decide_True; [done|unfold is_i32, INT_MIN, INT_MAX; lia]).
  unfold mbind at 1, M_bind at 1, lift at 1. rewrite E4.
  unfold mbind at 1, M_bind at 1, change at 1, modify at 1. rewrite decide_False by lia. rewrite Eb.
  set (w1 := set_me _ _).
  assert (fconns w1 !! f_conn (me w1) = Some (send_all ms x)) as Ex.
  { unfold w1. cbn. rewrite (dl_conns _ _ _ D), (dl_conn _ _ _ D), lookup_alter_eq. by rewrite (cd_conn CD). }
  pose proof (FileSend_ok _ _ w1 _ (holds_file _ q filemd5 o (len content) (piece_at o) F) F Ex) as E5.
  rewrite (bind_ok _ _ _ _ _ E5).
  assert (fconns (deliver_files (f_conn (me w1)) [download_reply o] w1)
          = alter (send_all (ms ++ [download_reply o])) c (fconns w0)) as Ec.
  { unfold w1. cbn. rewrite (dl_conn _ _ _ D), (dl_conns _ _ _ D). exact (f_equal fconns (deliver_files_app c ms _ w0)). }
  destruct (decide (o + n = len content)) as [Hlast|Hlast].
  - unfold change, modify. eexists. split; [reflexivity|].
    split; [exact (dl_conn _ _ _ D)|exact (dl_seq _ _ _ D)|exact (dl_fs _ _ _ D)|exact (dl_list _ _ _ D)|exact Ec|reflexivity..].
  - eexists. split; [reflexivity|].
    split; [exact (dl_conn _ _ _ D)|exact (dl_seq _ _ _ D)|exact (dl_fs _ _ _ D)|exact (dl_list _ _ _ D)|exact Ec|reflexivity|].
    rewrite decide_False by lia. split; reflexivity.
Qed.

(** *** A whole download *)

Definition download_request (a b : Z) : bytes := file_message msg_type_download_req q filemd5 a b [].

Definition seen (w : FileWorld) : FileWorld := set_me (set_f_seq q (me w)) w.

(** The offsets of [r] parts from [o] on. *)
Fixpoint offsets (r : nat) (o : Z) : list Z :=
  match r with
  | O => []
  | S r' => o :: offsets r' (o + PIECE)
  end.

Lemma offsets_piece r o : 0 <= o <= len content -> len content - o <= Z.of_nat r * PIECE ->
  concat (piece_at <$> offsets r o) = drop (Z.to_nat o) content.
Proof.
  assert (0 < PIECE) as HP by done. revert o. induction r as [|r IH]; intros o Ho Hr.
  - symmetry. apply drop_ge. unfold len in *. lia.
  - cbn [offsets fmap list_fmap concat]. destruct (decide (o + PIECE <= len content)) as [Hc|Hc].
    + rewrite IH by lia. unfold piece_at.
      replace (Z.to_nat (o + PIECE)) with (Z.to_nat o + Z.to_nat PIECE)%nat by lia.
      rewrite <- drop_drop. apply take_drop.
    + assert (forall r o', len content <= o' -> concat (piece_at <$> offsets r o') = []) as Hnil.
      { clear. intros r. induction r as [|r IH]; intros o' Ho; [done|]. cbn [offsets fmap list_fmap concat].
        rewrite IH by (assert (0 < PIECE) by done; lia). unfold piece_at. rewrite drop_ge; [by rewrite take_nil|].
        unfold len in Ho. lia. }
      rewrite Hnil by lia. rewrite app_nil_r. unfold piece_at. apply take_ge. rewrite length_drop.
      unfold len in *. lia.
Qed.

Lemma handle_request_download a b w w' : q < INT_MAX -> is_i32 q -> f_seq (me w') = q ->
  OnDownloadFileResponse filemd5 w = Ok (tt, w') ->
  handle_request msg_type_download_req filemd5 a b [] w = Ok (true, set_me (set_f_seq (q + 1) (me w')) w').
Proof.
  intros Hq Hi Es E. unfold handle_request. rewrite decide_False, !decide_True by done.
  unfold mbind at 1, M_bind at 1. step E. unfold mret at 1, M_ret at 1.
  unfold mbind at 1, M_bind at 1, gets at 1. rewrite Es.
  unfold mbind at 1, M_bind at 1, lift, int_add. unfold is_i32 in *. by rewrite decide_True by lia.
Qed.

Lemma seen_again i w : f_seq (me w) = q -> seen (set_me (set_f_seq i (me w)) w) = w.
Proof. intros E. unfold seen. cbn. rewrite <- E. by destruct w as [[] ? ? ?]. Qed.

Lemma download_loop a b r o ms w : can_download -> is_i32 q -> q < INT_MAX -> is_i32 a -> is_i32 b ->
  file_fits (download_request a b) -> Forall (fun o => file_fits (download_reply o)) (offsets r o) ->
  downloading o ms (seen w) -> 0 <= o < len content ->
  (Z.of_nat r - 1) * PIECE < len content - o <= Z.of_nat r * PIECE ->
  exists w', for_each (handle FileProcess (file_close c)) (replicate r (download_request a b)) w = Ok (tt, w')
    /\ downloading 0 (ms ++ (download_reply <$> offsets r o)) (seen w').
Proof.
  intros CD Hi Hq Ha Hb Fq. revert o ms w. induction r as [|r IH]; intros o ms w Fs D Ho Hr; [lia|].
  cbn [offsets] in Fs. apply Forall_cons in Fs as [F Fs].
  destruct (download_piece o ms (seen w) CD D Ho F) as (w1 & E1 & D1).
  pose proof (piece_length o ltac:(lia)) as Lp. assert (PIECE = 524288) as EP by done.
  pose proof (FileProcess_message msg_type_download_req q filemd5 a b [] w ltac:(done) Hi Ha Hb (cd_name CD) Fq) as Ep.
  change (set_me (set_f_seq q (me w)) w) with (seen w) in Ep.
  pose proof (dl_seq _ _ _ D1) as Es1.
  set (w2 := set_me (set_f_seq (q + 1) (me w1)) w1).
  assert (handle FileProcess (file_close c) (download_request a b) w = Ok (tt, w2)) as Eh.
  { unfold handle, mbind, M_bind. unfold download_request. rewrite Ep.
    by rewrite (handle_request_download a b (seen w) w1 Hq Hi Es1 E1). }
  cbn [replicate for_each offsets fmap list_fmap]. rewrite (bind_ok _ _ _ _ _ Eh).
  assert (seen w2 = w1) as Ew2 by (by apply seen_again).
  destruct (decide (o + len (piece_at o) = len content)) as [Hlast|Hlast].
  - assert (r = 0%nat) as -> by (rewrite Lp in Hlast; case_decide; lia).
    exists w2. split; [done|]. by rewrite Ew2.
  - assert (len (piece_at o) = PIECE) as Ep1 by (rewrite Lp in *; case_decide; lia). rewrite Ep1 in D1, Hlast.
    assert (~ len content <= o + PIECE) as Hgt by (rewrite Lp in Ep1; case_decide; lia).
    destruct (IH (o + PIECE) (ms ++ [download_reply o]) w2 Fs) as (w' & E & R); [by rewrite Ew2|lia|lia|].
    exists w'. split; [exact E|]. by rewrite <- app_assoc in R.
Qed.
End download.

(** ** Properties *)

(** Packets cut anywhere. *)
Lemma packets_delivered close n chunks ms w : Forall (fun m => len m + 6 < 2 ^ 63) ms ->
  concat chunks = concat (file_packet <$> ms) ->
  delivers (for_fold (on_chunk file_format FileProcess close) (Buffer_new n) chunks w)
    (for_each (handle FileProcess close) ms w) [].
Proof.
  intros F E. set (fs := (fun m => (send_preamble (len m), m)) <$> ms).
  assert (snd <$> fs = ms) as Em.
  { unfold fs. rewrite <- list_fmap_compose. apply list_fmap_id. }
  rewrite <- Em. destruct (Buffer_new_wf n) as [W C].
  eapply (chunks_stream file_format); [exact _| |by left|by left|exact W|exact C|].
  - apply Forall_fmap. eapply Forall_impl; [exact F|]. intros m Hm. exact (file_frame_ok (len m) m Hm).
  - rewrite app_nil_r, E. unfold stream, fs. by rewrite <- list_fmap_compose.
Qed.

Lemma len_small (m : bytes) : file_fits m -> len m + 6 < 2 ^ 63.
Proof. unfold file_fits, INT_MAX. change (2 ^ 63) with 9223372036854775808. lia. Qed.

Lemma upload_requests_small filemd5 q total pieces o :
  Forall (fun d => d <> [] /\ file_fits (upload_request filemd5 q total 0 d)) pieces ->
  Forall (fun m => len m + 6 < 2 ^ 63) (upload_requests filemd5 q total o pieces).
Proof.
  intros F. revert o. induction F as [|d l [_ Fd] F IH]; intros o; constructor; [|apply IH].
  apply len_small. unfold file_fits in *. rewrite (len_request filemd5 q total _ 0). exact Fd.
Qed.

(** A whole upload, from the bytes on. *)
Lemma upload_run filemd5 q w0 x pieces n chunks :
  let total := len (concat pieces) in
  can_upload filemd5 w0 x -> sendable filemd5 q total pieces -> pieces <> [] ->
  concat chunks = concat (file_packet <$> upload_requests filemd5 q total 0 pieces) ->
  exists b w, for_fold (on_chunk file_format FileProcess (file_close (f_conn (me w0)))) (Buffer_new n) chunks w0 = Ok (b, w)
    /\ content b = [] /\ uploaded filemd5 q w0 (concat pieces) (upload_answers filemd5 q total 0 pieces) (with_seq q w).
Proof.
  intros total CU SN Hne E.
  assert (uploading filemd5 q w0 [] [] (with_seq q w0)) as U.
  { split; try done; [symmetry; apply no_sends|by left]. }
  destruct (upload_loop filemd5 q total w0 x pieces [] [] w0 CU SN U Hne eq_refl) as (w & El & R).
  pose proof (packets_delivered (file_close (f_conn (me w0))) n chunks _ w0
    (upload_requests_small filemd5 q total pieces 0 (sn_pieces _ _ _ _ SN)) E) as P.
  change (len (@nil byte)) with 0 in El. rewrite El in P. destruct P as (b & Eb & _ & Cb). by exists b, w.
Qed.

(** C16: Whatever pieces a client cuts a new file into, and however the network cuts its packets,
    after the last request the file is in filecache/ under its name with exactly its bytes, the
    table lists it, and the stream is closed. The client gets one answer per piece, the offset
    and the size for each but the last, -1 and -1 for that; behind them every answer has an empty
    string, which the comment on the protocol in FileMsg.h does not mention. *)
Theorem upload_complete filemd5 q w0 x pieces n chunks :
  let total := len (concat pieces) in
  can_upload filemd5 w0 x -> sendable filemd5 q total pieces -> pieces <> [] ->
  concat chunks = concat (file_packet <$> upload_requests filemd5 q total 0 pieces) ->
  exists b w, for_fold (on_chunk file_format FileProcess (file_close (f_conn (me w0)))) (Buffer_new n) chunks w0 = Ok (b, w)
    /\ content b = [] /\ files (fs w) = <[cache_path filemd5 := concat pieces]> (files (fs w0))
    /\ m_listFiles w = m_listFiles w0 ++ [c_str filemd5] /\ m_fp (me w) = None
    /\ fconns w = alter (send_all (upload_answers filemd5 q total 0 pieces)) (f_conn (me w0)) (fconns w0).
Proof.
  intros total CU SN Hne E. destruct (upload_run filemd5 q w0 x pieces n chunks CU SN Hne E) as (b & w & Eb & Cb & R).
  exists b, w. split; [done|]. split; [done|]. destruct R as [_ _ Rl Rc Rf Rp]. cbn in *.
  split; [by rewrite Rf|]. split; [done|]. split; [|done]. done.
Qed.

(** A whole download. *)
Lemma download_run filemd5 q w0 x content a b n chunks :
  let r := Z.to_nat ((len content + PIECE - 1) / PIECE) in
  let os := offsets r 0 in
  can_download filemd5 w0 x content -> m_fp (me w0) = None -> m_offset (me w0) = 0 ->
  is_i32 q -> q < INT_MAX -> is_i32 a -> is_i32 b ->
  file_fits (download_request filemd5 q a b) -> Forall (fun o => file_fits (download_reply filemd5 q content o)) os ->
  concat chunks = concat (file_packet <$> replicate r (download_request filemd5 q a b)) ->
  exists buf w, for_fold (on_chunk file_format FileProcess (file_close (f_conn (me w0)))) (Buffer_new n) chunks w0 = Ok (buf, w)
    /\ downloading filemd5 q w0 content 0 (download_reply filemd5 q content <$> os) (seen q w)
    /\ concat (piece_at content <$> os) = content.
Proof.
  intros r os CD Hp Hz Hi Hq Ha Hb F Fs E. pose proof (cd_size _ _ _ _ CD) as [Hs _].
  assert (PIECE = 524288) as EP by done.
  assert ((Z.of_nat r - 1) * PIECE < len content - 0 <= Z.of_nat r * PIECE) as Hr.
  { unfold r. rewrite EP. rewrite Z2Nat.id by (apply Z.div_pos; lia).
    pose proof (Z.div_mod (len content + 524288 - 1) 524288 ltac:(done)).
    pose proof (Z.mod_pos_bound (len content + 524288 - 1) 524288 ltac:(done)). lia. }
  assert (downloading filemd5 q w0 content 0 [] (seen q w0)) as D.
  { split; try done. symmetry. apply no_sends. }
  destruct (download_loop filemd5 q w0 x content a b r 0 [] w0 CD Hi Hq Ha Hb F Fs D ltac:(lia) Hr) as (w & El & R).
  assert (Forall (fun m => len m + 6 < 2 ^ 63) (replicate r (download_request filemd5 q a b))) as Fr.
  { apply Forall_replicate. by apply len_small. }
  pose proof (packets_delivered (file_close (f_conn (me w0))) n chunks _ w0 Fr E) as P.
  rewrite El in P. destruct P as (buf & Eb & _ & _). exists buf, w. split; [done|]. split; [exact R|].
  unfold os. rewrite (offsets_piece w0 content r 0) by lia. done.
Qed.

(** C17: As many requests as the file has half megabytes, the last one counted whole, download a
    file of the table: the answers carry the consecutive parts, which together are the file, and
    the stream is closed after the last, so that the next request starts over. The files are
    left as they were. An answer is the command, the sequence number of the request, the name, the
    offset of the part, the size of the file and the part, in this order; the comment on the protocol
    in FileMsg.h has the size before the offset, and a sequence number of 0. *)
Theorem download_complete filemd5 q w0 x content a b n chunks :
  let r := Z.to_nat ((len content + PIECE - 1) / PIECE) in
  let os := offsets r 0 in
  can_download filemd5 w0 x content -> m_fp (me w0) = None -> m_offset (me w0) = 0 ->
  is_i32 q -> q < INT_MAX -> is_i32 a -> is_i32 b ->
  file_fits (download_request filemd5 q a b) -> Forall (fun o => file_fits (download_reply filemd5 q content o)) os ->
  concat chunks = concat (file_packet <$> replicate r (download_request filemd5 q a b)) ->
  exists buf w, for_fold (on_chunk file_format FileProcess (file_close (f_conn (me w0)))) (Buffer_new n) chunks w0 = Ok (buf, w)
    /\ fs w = fs w0 /\ m_listFiles w = m_listFiles w0 /\ m_fp (me w) = None /\ m_offset (me w) = 0
    /\ fconns w = alter (send_all (download_reply filemd5 q content <$> os)) (f_conn (me w0)) (fconns w0)
    /\ concat (piece_at content <$> os) = content
    /\ forall o, download_reply filemd5 q content o
         = be_bytes 4 msg_type_download_resp ++ be_bytes 4 q ++ string_bytes filemd5 ++ be_bytes 4 o ++ be_bytes 4 (len content)
           ++ string_bytes (piece_at content o).
Proof.
  intros r os CD Hp Hz Hi Hq Ha Hb F Fs E.
  destruct (download_run filemd5 q w0 x content a b n chunks CD Hp Hz Hi Hq Ha Hb F Fs E) as (buf & w & Eb & R & Ec).
  destruct R as [_ _ Rf Rl Rc Ro Rp]. rewrite decide_True in Rp by done. cbn in *. exists buf, w. by do 7 (split; [done|]).
Qed.

(** A piece that is not the first of an upload, for a file that is not there, on a session
    that has no file open, hands a null [FILE*] to [fseek]: two requests of a client that starts
    in the middle, or goes on after a download reset the session, end the process. *)
Theorem orphan_piece_crashes filemd5 q w0 x offset total piece :
  can_upload filemd5 w0 x -> m_fp (me w0) = None -> offset <> 0 ->
  is_i32 q -> is_i32 offset -> is_i32 total ->
  file_fits (file_message msg_type_upload_req q filemd5 offset total piece) ->
  FileProcess (file_message msg_type_upload_req q filemd5 offset total piece) w0 = Undef NullDeref.
Proof.
  intros CU Hp Ho Hi Hof Ht F. rewrite FileProcess_message by (done || apply (cu_name _ _ _ CU)).
  unfold handle_request. rewrite decide_True by done. unfold mbind at 1, M_bind at 1. unfold mbind at 1, M_bind at 1.
  set (w := set_me _ w0).
  assert (uploading filemd5 q w0 [] [] w) as U.
  { split; try done; [symmetry; apply no_sends|by left]. }
  unfold OnUploadFileResponse. rewrite decide_False by apply (cu_name _ _ _ CU).
  unfold mbind at 1, M_bind at 1, gets at 1. step (exists_file_not filemd5 q w0 x [] [] w CU U).
  rewrite decide_False by done. unfold mbind at 1, M_bind at 1, mret at 1, M_ret at 1.
  unfold mbind at 1, M_bind at 1, on_fp at 1. cbn [me w set_me m_fp set_f_seq]. by rewrite Hp.
Qed.

(** A piece that is not the first goes to whatever stream the session has open: the name in the
    request is only looked up in the table. A client that has a download under way, which opens
    the file for update, can so write into a finished file by a piece of any upload. *)
Theorem piece_ignores_name filemd5 q w0 f x offset total piece :
  filemd5 <> [] -> c_str filemd5 ∉ m_listFiles w0 -> fopen_r (c_str filemd5) (fs w0) = false ->
  m_fp (me w0) = Some f -> full (fs w0) = false -> fconns w0 !! f_conn (me w0) = Some x ->
  is_i32 q -> q < INT_MAX -> 0 < offset -> piece <> [] ->
  offset + len piece <= INT_MAX -> offset + len piece <> total -> is_i32 total ->
  file_fits (file_message msg_type_upload_req q filemd5 offset total piece) ->
  file_fits (file_message msg_type_upload_resp q filemd5 offset total []) ->
  exists w, FileProcess (file_message msg_type_upload_req q filemd5 offset total piece) w0 = Ok (true, w)
    /\ files (fs w) = <[path f := splice (Z.to_nat offset) piece (content_of f (fs w0))]> (files (fs w0)).
Proof.
  intros Hn Hl Hr Hf Hfull Hc Hi Hq Ho Hp Hm Hne Ht F F2.
  pose proof (len_nonneg piece). unfold INT_MAX in Hm.
  assert (is_i32 offset) as Hof by (unfold is_i32, INT_MIN, INT_MAX; lia).
  assert (is_i32 msg_type_upload_req) by done. rewrite FileProcess_message by assumption. set (w := set_me (set_f_seq q (me w0)) w0).
  (* the stream, at the offset and then after the piece *)
  set (g := set_pos offset f). set (w1 := set_fs (fs w0) (set_me (set_fp (Some g) (me w)) w)).
  set (w2 := set_fs (set_files (<[path f := splice (Z.to_nat offset) piece (content_of f (fs w0))]> (files (fs w0))) (fs w0))
               (set_me (set_fp (Some (set_pos (offset + len piece) g)) (me w1)) w1)).
  assert (exists_file filemd5 w = Ok (false, w)) as E1.
  { unfold exists_file. rewrite IsFileExsit_new by done. by destruct w. }
  assert (on_fp (fun f s => (tt, fseek_set offset f, s)) w = Ok (tt, w1)) as E2.
  { unfold on_fp. cbn [me w set_me m_fp set_f_seq]. rewrite Hf. unfold fseek_set.
    by rewrite decide_False by lia. }
  assert (on_fp (fwrite piece) w1 = Ok (1, w2)) as E3.
  { unfold on_fp. cbn [me w1 set_fs set_me m_fp set_fp fs]. unfold fwrite.
    destruct piece as [|b piece]; [done|]. by rewrite Hfull. }
  assert (OnUploadFileResponse filemd5 offset total piece w
          = Ok (tt, deliver_files (f_conn (me w0)) [file_message msg_type_upload_resp q filemd5 offset total []] w2)) as E.
  { unfold OnUploadFileResponse. rewrite decide_False by done. unfold mbind at 1, M_bind at 1, gets at 1.
    step E1. rewrite decide_False by lia. unfold mbind at 1, M_bind at 1, mret at 1, M_ret at 1.
    step E2. step E3. rewrite decide_True by done.
    rewrite to_i32_id by (unfold is_i32, INT_MIN, INT_MAX; lia).
    unfold mbind at 1, M_bind at 1, lift at 1, int_add. rewrite decide_True by (unfold is_i32, INT_MIN, INT_MAX; lia).
    rewrite decide_False by done. exact (reply_rest_ok _ _ _ _ _ _ w2 x F2 Hc). }
  erewrite handle_request_upload; [|exact w0|exact Hq|exact Hi| |exact E]; [|reflexivity].
  eexists. split; [done|]. done.
Qed.

(** ** At work *)

Definition empty_fs : FS :=
  {| files := ∅; is_dir := fun _ => false; may_read := fun _ => true; may_write := fun _ => true; full := false |}.

Definition file_ptr : Z := 0x7f0030.
Definition name : bytes := bs "900150983cd24fb0d6963f7d28e17f72".

Definition idle (f : FS) (l : list bytes) : FileWorld := {|
  me := FileSession_new file_ptr; fs := f; m_listFiles := l;
  fconns := {[file_ptr := {| state_ := kConnected; sent := [] |}]} |}.

Definition two_pieces : list bytes := [bs "ab"; bs "c"].

Lemma upload_complete_witness : exists b w,
  for_fold (on_chunk file_format FileProcess (file_close file_ptr)) (Buffer_new 16)
    (file_packet <$> upload_requests name 0 3 0 two_pieces) (idle empty_fs []) = Ok (b, w)
  /\ files (fs w) = <[cache_path name := bs "abc"]> ∅.
Proof.
  destruct (upload_complete name 0 (idle empty_fs []) {| state_ := kConnected; sent := [] |} two_pieces 16
    (file_packet <$> upload_requests name 0 3 0 two_pieces)) as (b & w & E & _ & F & _).
  - split; try done; [by apply (bool_decide_unpack _); vm_compute].
  - split; [split; [by apply (bool_decide_unpack _); vm_compute|done]|by apply (bool_decide_unpack _); vm_compute| |
      by apply (bool_decide_unpack _); vm_compute].
    repeat constructor; try discriminate; by apply (bool_decide_unpack _); vm_compute.
  - done.
  - done.
  - exists b, w. split; [exact E|exact F].
Defined.

Definition cached_fs : FS := set_files {[cache_path name := bs "abc"]} empty_fs.

Lemma download_complete_witness : exists b w,
  for_fold (on_chunk file_format FileProcess (file_close file_ptr)) (Buffer_new 16)
    [file_packet (download_request name 0 0 0)] (idle cached_fs [name]) = Ok (b, w)
  /\ concat (piece_at (bs "abc") <$> [0]) = bs "abc" /\ m_fp (me w) = None.
Proof.
  destruct (download_complete name 0 (idle cached_fs [name]) {| state_ := kConnected; sent := [] |} (bs "abc") 0 0 16
    [file_packet (download_request name 0 0 0)]) as (b & w & E & _ & _ & Hp & _ & _ & C & _).
  - split; [discriminate|apply (bool_decide_unpack _); vm_compute; exact I|reflexivity|repeat split
           |apply (bool_decide_unpack _); vm_compute; exact I|reflexivity].
  - reflexivity.
  - reflexivity.
  - apply (bool_decide_unpack _); vm_compute; exact I.
  - reflexivity.
  - apply (bool_decide_unpack _); vm_compute; exact I.
  - apply (bool_decide_unpack _); vm_compute; exact I.
  - apply (bool_decide_unpack _); vm_compute; exact I.
  - apply (bool_decide_unpack _); vm_compute; exact I.
  - vm_compute. reflexivity.
  - exists b, w. split; [exact E|]. split; [exact C|exact Hp].
Defined.

Lemma orphan_piece_crashes_witness :
  FileProcess (file_message msg_type_upload_req 0 name 2 3 (bs "c")) (idle empty_fs []) = Undef NullDeref.
Proof.
  apply (orphan_piece_crashes name 0 (idle empty_fs []) {| state_ := kConnected; sent := [] |} 2 3 (bs "c"));
    try done; try (by apply (bool_decide_unpack _); vm_compute).
  split; try done; by apply (bool_decide_unpack _); vm_compute.
Defined.

(** A download of a file of more than half a megabyte leaves it open; here the second half of
    its name's file is written by a piece of another upload. *)
Definition reader_at (i : Z) (f : FS) (l : list bytes) : FileWorld :=
  set_me (set_filesize 3 (set_offset i (set_fp (Some {| path := cache_path name; pos := i; readable := true |})
    (FileSession_new file_ptr)))) (idle f l).

Lemma piece_ignores_name_witness : exists w,
  FileProcess (file_message msg_type_upload_req 0 (bs "other") 1 9 (bs "XY")) (reader_at 2 cached_fs [name]) = Ok (true, w)
  /\ files (fs w) !! cache_path name = Some (bs "aXY").
Proof.
  destruct (piece_ignores_name (bs "other") 0 (reader_at 2 cached_fs [name])
    {| path := cache_path name; pos := 2; readable := true |} {| state_ := kConnected; sent := [] |} 1 9 (bs "XY"))
    as (w & E & F); try discriminate; try reflexivity; try (apply (bool_decide_unpack _); vm_compute; exact I).
  exists w. split; [exact E|]. rewrite F. vm_compute. reflexivity.
Defined.
