(* ===== verification/FileServer.v ===== *)
(** * FileServer (FileServer/FileServer.h, FileServer/FileServer.cpp)

    The file server as a machine driven by its connections, like the chat server: they come up,
    deliver bytes and go down. The sessions share the files and the table of files. *)

From S2P Require Import Prelude Bytes Text StdMap BinaryReader Buffer Framing Conn Sessions.
From S2P Require Import FileManager FileSession FileTransfer.

(** ** State *)

(** [m_sessions], with what sessions reach: the files, the table, the connections and their
    input buffers. *)
Record FileServer := {
  m_sessions : list (bytes * FileSession);
  store : FS;
  table : list bytes;
  peers : gmap Z Conn;
  pending : gmap Z Buffer;
}.

Definition file_server_Init (f : FS) (l : list bytes) : FileServer :=
  {| m_sessions := []; store := f; table := l; peers := ∅; pending := ∅ |}.

Definition set_m_sessions (l : list (bytes * FileSession)) (s : FileServer) : FileServer :=
  {| m_sessions := l; store := store s; table := table s; peers := peers s; pending := pending s |}.
Definition set_peers (c : gmap Z Conn) (s : FileServer) : FileServer :=
  {| m_sessions := m_sessions s; store := store s; table := table s; peers := c; pending := pending s |}.
Definition set_pending (b : gmap Z Buffer) (s : FileServer) : FileServer :=
  {| m_sessions := m_sessions s; store := store s; table := table s; peers := peers s; pending := b |}.

(** ** Callbacks *)

(** [OnClose]; the session's [FILE*], if it has one, is not closed. *)
Definition file_server_OnClose (p : Z) (s : FileServer) : outcome FileServer :=
  Ok (set_m_sessions (merase (ptr_text p) (m_sessions s)) s).

(** [OnConnection]: the new session's [OnRead] becomes the message callback by a plain pointer,
    which would dangle if [insert] found the key. *)
Definition file_server_OnConnection (p : Z) (s : FileServer) : outcome FileServer :=
  match state_ <$> peers s !! p with
  | Some kConnected =>
      match mfind (ptr_text p) (m_sessions s) with
      | Some _ => Undef Dangling
      | None => Ok (set_m_sessions (minsert (ptr_text p) (FileSession_new p) (m_sessions s)) s)
      end
  | _ => file_server_OnClose p s
  end.

(** The message callback: the session that was created for the connection. *)
Definition file_server_OnRead (p : Z) (b : Buffer) (s : FileServer) : outcome (Buffer * FileServer) :=
  match mfind (ptr_text p) (m_sessions s) with
  | None => Undef Dangling
  | Some c =>
      '(b, w) ← FileSession_OnRead p b
                  {| me := c; fs := store s; m_listFiles := table s; fconns := peers s |};
      mret (b, {| m_sessions := mset (ptr_text p) (me w) (m_sessions s); store := fs w;
                  table := m_listFiles w; peers := fconns w; pending := pending s |})
  end.

(** ** Events *)

Inductive file_event :=
| FConnect (p : Z)
| FReceive (p : Z) (d : bytes)
| FDisconnect (p : Z).

Definition peer_open (s : FileServer) (p : Z) : Prop :=
  match state_ <$> peers s !! p with
  | Some kConnected | Some kDisconnecting => True
  | _ => False
  end.

Definition file_enabled (e : file_event) (s : FileServer) : Prop :=
  match e with
  | FConnect p => 0 <= p < 2 ^ 64 /\ peers s !! p = None
  | FReceive p d => d <> [] /\ peer_open s p
  | FDisconnect p => peer_open s p
  end.

Definition file_handle (e : file_event) (s : FileServer) : outcome FileServer :=
  match e with
  | FConnect p =>
      s ← file_server_OnConnection p (set_peers (<[p := {| state_ := kConnected; sent := [] |}]> (peers s)) s);
      mret (set_pending (<[p := Buffer_new kInitialSize]> (pending s)) s)
  | FReceive p d =>
      match pending s !! p with
      | None => Undef Dangling
      | Some b =>
          '(_, b) ← readFd b (Some d);
          '(b, s) ← file_server_OnRead p b s;
          mret (set_pending (<[p := b]> (pending s)) s)
      end
  | FDisconnect p =>
      s ← file_server_OnConnection p
            (set_peers (alter (fun c => {| state_ := kDisconnected; sent := sent c |}) p (peers s)) s);
      mret (set_pending (delete p (pending s)) (set_peers (delete p (peers s)) s))
  end.

Inductive file_reachable (s0 : FileServer) : FileServer -> Prop :=
| file_reach_start : file_reachable s0 s0
| file_reach_event s e s' : file_reachable s0 s -> file_enabled e s -> file_handle e s = Ok s' ->
    file_reachable s0 s'.

(** ** What a message can touch *)

(** [w'] after a session handled something in [w]. *)
Record file_evolves (w w' : FileWorld) : Prop := {
  fev_conn : f_conn (me w') = f_conn (me w);
  fev_conns : conns_grow (fconns w) (fconns w');
}.

#[export] Instance file_evolves_pre : PreOrder file_evolves.
Proof.
  split; [by split|]. intros a b c [C1 G1] [C2 G2]. split; [congruence|by etransitivity].
Qed.

Definition fkeeps {A} (m : FW A) : Prop := forall w a w', m w = Ok (a, w') -> file_evolves w w'.

Lemma fkeeps_ret {A} (a : A) : fkeeps (mret a).
Proof. by intros w b w' [= <- <-]. Qed.
Lemma fkeeps_bind {A B} (m : FW A) (k : A -> FW B) : fkeeps m -> (forall a, fkeeps (k a)) -> fkeeps (m ≫= k).
Proof. intros Hm Hk w b w' (a & w1 & E1 & E2)%bind_inv. etransitivity; [by eapply Hm|by eapply Hk]. Qed.
Lemma fkeeps_lift {A} (o : outcome A) : fkeeps (lift o).
Proof. intros w a w'. unfold lift. destruct o; [|done..]. by intros [= <- <-]. Qed.
Lemma fkeeps_undef {A} u : fkeeps (undef u : FW A).
Proof. by intros w a w'. Qed.
Lemma fkeeps_throw {A} e : fkeeps (throw e : FW A).
Proof. by intros w a w'. Qed.
Lemma fkeeps_gets {A} (f : FileWorld -> A) : fkeeps (gets f).
Proof. by intros w a w' [= <- <-]. Qed.
Lemma fkeeps_modify f : (forall w, file_evolves w (f w)) -> fkeeps (modify f).
Proof. by intros Hf w a w' [= <- <-]. Qed.
Lemma fkeeps_change f : (forall s, f_conn (f s) = f_conn s) -> fkeeps (change f).
Proof. intros Hf. apply fkeeps_modify. intros w. split; [apply Hf|done]. Qed.
Lemma fkeeps_exists n : fkeeps (exists_file n).
Proof. intros w a w'. unfold exists_file. destruct (IsFileExsit _ _ _). intros [= <- <-]. by split. Qed.
Lemma fkeeps_on_fp {A} (f : FILE -> FS -> A * FILE * FS) : fkeeps (on_fp f).
Proof.
  intros w a w'. unfold on_fp. destruct (m_fp (me w)); [|done].
  destruct (f _ _) as [[x fp] s]. intros [= <- <-]. by split.
Qed.
Lemma fkeeps_create n : fkeeps (create n).
Proof. intros w a w'. unfold create. destruct (fopen_w _ _) as [f s]. intros [= <- <-]. by split. Qed.

Lemma fkeeps_on_conn f c : (forall x, conn_grows x (f x)) ->
  fkeeps (modify (fun w => set_fconns (alter f c (fconns w)) w)).
Proof. intros Hf. apply fkeeps_modify. intros w. split; [done|]. by apply conns_grow_alter. Qed.

Create HintDb fkeeps discriminated.
#[local] Hint Resolve fkeeps_ret fkeeps_lift fkeeps_undef fkeeps_throw fkeeps_gets fkeeps_exists
  fkeeps_on_fp fkeeps_create : fkeeps.

Ltac fkeeps := repeat first
  [ progress auto with fkeeps
  | apply fkeeps_on_conn; first [apply conn_send_grows | apply conn_forceClose_grows]
  | apply fkeeps_change; intros []; done
  | apply fkeeps_modify; intros; split; done
  | apply fkeeps_bind; [|intros ?]
  | case_match ].

Lemma ResetFile_conn s : f_conn (ResetFile s) = f_conn s.
Proof. unfold ResetFile. by destruct (m_fp s). Qed.

Lemma fkeeps_reset : fkeeps (change ResetFile).
Proof. apply fkeeps_change. apply ResetFile_conn. Qed.
#[local] Hint Resolve fkeeps_reset : fkeeps.

Lemma fkeeps_upload n o z d : fkeeps (OnUploadFileResponse n o z d).
Proof. unfold OnUploadFileResponse, reply_rest, FileSend. fkeeps. Qed.
Lemma fkeeps_open n : fkeeps (open_download n).
Proof. unfold open_download. fkeeps. Qed.
Lemma fkeeps_read n : fkeeps (read_piece n).
Proof. unfold read_piece. fkeeps. Qed.
#[local] Hint Resolve fkeeps_upload fkeeps_open fkeeps_read : fkeeps.
Lemma fkeeps_download n : fkeeps (OnDownloadFileResponse n).
Proof. unfold OnDownloadFileResponse, FileSend. fkeeps. Qed.
#[local] Hint Resolve fkeeps_download : fkeeps.

Lemma fkeeps_handle c msg : fkeeps (handle FileProcess (file_close c) msg).
Proof. unfold handle, FileProcess, file_close. fkeeps. Qed.

Lemma file_OnRead_evolves c b w b' w' : wf b -> FileSession_OnRead c b w = Ok (b', w') ->
  wf b' /\ file_evolves w w'.
Proof.
  apply (OnRead_invariant file_format FileProcess (file_close c) file_evolves).
  intros msg x y. apply fkeeps_handle.
Qed.

(** ** The server's invariant *)

(** A session on connection [p]. *)
Definition file_session_of (p : Z) (c : FileSession) : Prop := f_conn c = p.

Definition file_server_ok (s : FileServer) : Prop :=
  matched file_session_of (m_sessions s) (peers s) (pending s).

Lemma peer_open_is_open s p : peer_open s p <-> exists c, peers s !! p = Some c /\ is_open c.
Proof.
  unfold peer_open, is_open. destruct (peers s !! p) as [c|]; simpl.
  - split.
    + intros Hc. exists c. split; [done|]. destruct (state_ c); tauto.
    + intros (c' & [= <-] & [-> | ->]); done.
  - split; [done|]. by intros (c & ? & _).
Qed.

(** The events, spelled out. *)
Lemma file_connect_eq s p : file_server_ok s -> file_enabled (FConnect p) s ->
  file_handle (FConnect p) s = Ok {|
    m_sessions := minsert (ptr_text p) (FileSession_new p) (m_sessions s); store := store s; table := table s;
    peers := <[p := {| state_ := kConnected; sent := [] |}]> (peers s);
    pending := <[p := Buffer_new kInitialSize]> (pending s) |}.
Proof.
  intros O [Hp Hn]. pose proof (matched_fresh _ _ _ _ _ O Hp Hn) as Em.
  simpl. unfold file_server_OnConnection. cbn [peers set_peers m_sessions].
  rewrite lookup_insert_eq. cbn. by rewrite Em.
Qed.

Lemma file_disconnect_eq s p : file_enabled (FDisconnect p) s ->
  exists f, file_handle (FDisconnect p) s = Ok {|
    m_sessions := merase (ptr_text p) (m_sessions s); store := store s; table := table s;
    peers := delete p (alter f p (peers s)); pending := delete p (pending s) |}.
Proof.
  intros (c & Ec & _)%peer_open_is_open. eexists. simpl. unfold file_server_OnConnection.
  cbn [peers set_peers m_sessions]. by rewrite lookup_alter_eq, Ec.
Qed.

(** Input for an open connection: its session handles it. *)
Lemma file_receive_eq s p d : file_server_ok s -> file_enabled (FReceive p d) s ->
  exists c b0 b, mfind (ptr_text p) (m_sessions s) = Some c /\ f_conn c = p
    /\ pending s !! p = Some b0 /\ wf b /\ content b = content b0 ++ d
    /\ file_handle (FReceive p d) s
       = '(b, w) ← FileSession_OnRead p b
                     {| me := c; fs := store s; m_listFiles := table s; fconns := peers s |};
         mret {| m_sessions := mset (ptr_text p) (me w) (m_sessions s); store := fs w;
                 table := m_listFiles w; peers := fconns w; pending := <[p := b]> (pending s) |}.
Proof.
  intros O [_ (x & Ex & _)%peer_open_is_open].
  destruct (mt_session _ _ _ _ O p) as (c & Ec & Hc); [by rewrite Ex|].
  destruct (mt_input _ _ _ _ O p) as (b & Eb & Wb); [by rewrite Ex|].
  destruct (readFd_ok b d Wb) as (b1 & Er & W1 & C1).
  exists c, b, b1. do 5 (split; [done|]). cbn [file_handle]. rewrite Eb, Er. cbn [mbind outcome_bind].
  unfold file_server_OnRead. rewrite Ec. by destruct (FileSession_OnRead _ _ _) as [[b2 w]| |].
Qed.

Lemma file_event_ok s e s' : file_server_ok s -> file_enabled e s -> file_handle e s = Ok s' -> file_server_ok s'.
Proof.
  intros O He E. destruct e as [p|p d|p].
  - rewrite file_connect_eq in E by done. injection E as <-. destruct He. by apply matched_connect.
  - destruct (file_receive_eq s p d O He) as (c & _ & b & Ec & Hc & _ & Wb & _ & Er). rewrite Er in E.
    destruct (FileSession_OnRead p b _) as [[b2 w]| |] eqn:Eo; [|done..]. injection E as <-.
    apply file_OnRead_evolves in Eo as [W2 [Ev Eg]]; [|done]. cbn in Ev, Eg.
    assert (ptr_text p ∈ mkeys (m_sessions s)) as Hk by (apply mfind_key; by rewrite Ec).
    eapply matched_receive; [exact O|done|..]; cbn [m_sessions].
    + apply sorted_mset, (mt_sorted _ _ _ _ O).
    + apply mkeys_mset_in; [done|]. apply (mt_sorted _ _ _ _ O).
    + intros k x Ek. destruct (decide (k = ptr_text p)) as [->|Hne].
      * exists (me w). split; [apply mfind_mset_eq|]. intros q <-. unfold file_session_of. congruence.
      * exists x. by rewrite mfind_mset_ne.
    + done.
  - destruct (file_disconnect_eq _ _ He) as [f Ef]. rewrite Ef in E. injection E as <-.
    apply peer_open_is_open in He as (c & Ec & _). apply matched_disconnect; [done|by rewrite Ec].
Qed.

Lemma file_reachable_ok f l s : file_reachable (file_server_Init f l) s -> file_server_ok s.
Proof. induction 1 as [|s e s' _ IH He E]; [apply matched_empty|by eapply file_event_ok]. Qed.

(** In every run of the file server each connection has its own session and there is no other:
    a new connection gets a session, a closed one loses it, and input is handled by the session
    that was made for its connection, never through a dangling pointer. *)
Theorem file_sessions_match f l s : file_reachable (file_server_Init f l) s ->
  (forall k, k ∈ mkeys (m_sessions s) <-> exists p, k = ptr_text p /\ is_Some (peers s !! p))
  /\ (forall p, file_enabled (FConnect p) s -> exists s', file_handle (FConnect p) s = Ok s'
        /\ mfind (ptr_text p) (m_sessions s') = Some (FileSession_new p))
  /\ (forall p, file_enabled (FDisconnect p) s -> exists s', file_handle (FDisconnect p) s = Ok s'
        /\ mfind (ptr_text p) (m_sessions s') = None /\ store s' = store s)
  /\ (forall p d, file_enabled (FReceive p d) s -> exists c b0 b,
        mfind (ptr_text p) (m_sessions s) = Some c /\ f_conn c = p
        /\ pending s !! p = Some b0 /\ content b = content b0 ++ d
        /\ forall s', file_handle (FReceive p d) s = Ok s' <->
             exists b' w, FileSession_OnRead p b
                 {| me := c; fs := store s; m_listFiles := table s; fconns := peers s |} = Ok (b', w)
               /\ s' = {| m_sessions := mset (ptr_text p) (me w) (m_sessions s); store := fs w;
                          table := m_listFiles w; peers := fconns w; pending := <[p := b']> (pending s) |}).
Proof.
  intros R%file_reachable_ok. pose proof (mt_sorted _ _ _ _ R) as So. split; [|split; [|split]].
  - intros k. by eapply matched_keys.
  - intros p Hp. eexists. split; [by apply file_connect_eq|]. destruct Hp as [Hp Hn]. cbn.
    rewrite mfind_minsert by done. by rewrite decide_True, (matched_fresh _ _ _ _ _ R Hp Hn).
  - intros p Hp. destruct (file_disconnect_eq _ _ Hp) as [g Eg]. eexists. split; [exact Eg|]. cbn.
    rewrite mfind_merase by done. by rewrite decide_True.
  - intros p d Hp. destruct (file_receive_eq s p d R Hp) as (c & b0 & b & Ec & Hc & Eb & _ & Cb & ->).
    exists c, b0, b. do 4 (split; [done|]). intros s'. destruct (FileSession_OnRead p b _) as [[b' w]| |]; cbn.
    + split; [intros [= <-]; by exists b', w|]. by intros (b1 & w1 & [= <- <-] & ->).
    + split; [done|]. by intros (? & ? & ? & _).
    + split; [done|]. by intros (? & ? & ? & _).
Qed.

(** ** At work *)

Definition file_ptr' : Z := 0x7f0060.

Fixpoint file_run (es : list file_event) (s : FileServer) : outcome FileServer :=
  match es with
  | [] => Ok s
  | e :: es => s ← file_handle e s; file_run es s
  end.

Definition upload_event (p offset : Z) (piece : bytes) : file_event :=
  FReceive p (file_packet (upload_request name 0 4 offset piece)).

(** Two clients that upload under one name at the same time: the second start empties the file
    under the first client's stream, which then goes on behind the other's bytes, ends the
    upload and is told that it is complete. The table lists a file neither client sent. *)
Example uploads_mixed :
  (s ← file_run [FConnect file_ptr; FConnect file_ptr'; upload_event file_ptr 0 (bs "ab");
                 upload_event file_ptr' 0 (bs "XY"); upload_event file_ptr 2 (bs "cd")]
         (file_server_Init empty_fs []);
   Ok (table s, files (store s) !! cache_path name))
  = Ok ([name], Some (bs "XYcd")).
Proof. vm_compute. reflexivity. Qed.

Lemma file_sessions_match_witness : exists s,
  file_reachable (file_server_Init empty_fs []) s
  /\ mfind (ptr_text file_ptr) (m_sessions s) = Some (FileSession_new file_ptr).
Proof.
  destruct (file_sessions_match empty_fs [] (file_server_Init empty_fs []) (file_reach_start _)) as (_ & C & _).
  assert (file_enabled (FConnect file_ptr) (file_server_Init empty_fs [])) as En
    by (split; [by apply (bool_decide_unpack _); vm_compute|done]).
  destruct (C file_ptr En) as (s' & E & F). exists s'. split; [|exact F].
  eapply file_reach_event; [apply file_reach_start|exact En|exact E].
Defined.
