(* ===== verification/FileShare.v ===== *)
(** * A file, from one client to another

    The file server end to end: two clients connect, one uploads a file, the other downloads it. *)

From S2P Require Import Prelude Bytes Text StdMap BinaryReader Buffer Framing Conn Sessions.
From S2P Require Import FileManager FileSession FileTransfer FileServer.

(** ** A session's world in the server *)

Definition world_of (s : FileServer) (c : FileSession) : FileWorld :=
  {| me := c; fs := store s; m_listFiles := table s; fconns := peers s |}.

(** The server when the session of [p] has come to [w], with [b] in its input buffer. *)
Definition server_of (s : FileServer) (p : Z) (b : Buffer) (w : FileWorld) : FileServer := {|
  m_sessions := mset (ptr_text p) (me w) (m_sessions s); store := fs w; table := m_listFiles w; peers := fconns w;
  pending := <[p := b]> (pending s) |}.

Lemma receive_first p d s b c : pending s !! p = Some b -> mfind (ptr_text p) (m_sessions s) = Some c ->
  file_handle (FReceive p d) s
  = '(b, w) ← on_chunk file_format FileProcess (file_close p) b d (world_of s c); Ok (server_of s p b w).
Proof.
  intros Eb Ec. cbn [file_handle]. rewrite Eb. unfold file_server_OnRead, FileSession_OnRead, on_chunk.
  destruct (readFd b (Some d)) as [[n b1]| |] eqn:Er; [|by unfold mbind, M_bind, lift, outcome_bind..].
  rewrite outcome_bind_ok, Ec. fold (world_of s c).
  match goal with |- context [(lift (Ok (n, b1)) ≫= ?k) (world_of s c)] =>
    change ((lift (Ok (n, b1)) ≫= k) (world_of s c)) with (k (n, b1) (world_of s c)) end. cbv beta iota.
  by destruct (OnRead file_format FileProcess (file_close p) b1 (world_of s c)) as [[b2 w]| |].
Qed.

Lemma receive_next p d s b w :
  file_handle (FReceive p d) (server_of s p b w)
  = '(b', w') ← on_chunk file_format FileProcess (file_close p) b d w; Ok (server_of s p b' w').
Proof.
  rewrite (receive_first p d (server_of s p b w) b (me w)); [|apply lookup_insert_eq|apply mfind_mset_eq].
  assert (world_of (server_of s p b w) (me w) = w) as -> by (by destruct w).
  destruct (on_chunk _ _ _ b d w) as [[b' w']| |]; [|done..]. rewrite !outcome_bind_ok. unfold server_of. cbn.
  by rewrite mset_mset, insert_insert_eq.
Qed.

(** Input for one connection is its session's work. *)
Lemma receive_run p chunks s b w :
  file_run (FReceive p <$> chunks) (server_of s p b w)
  = '(b', w') ← for_fold (on_chunk file_format FileProcess (file_close p)) b chunks w; Ok (server_of s p b' w').
Proof.
  revert b w. induction chunks as [|d chunks IH]; intros b w; [done|]. rewrite fmap_cons. cbn [file_run for_fold].
  rewrite receive_next. unfold mbind, M_bind, outcome_bind. destruct (on_chunk _ _ _ b d w) as [[b1 w1]| |]; [|done..]. apply IH.
Qed.

Lemma file_run_app l l' s : file_run (l ++ l') s = (s ← file_run l s; file_run l' s).
Proof.
  revert s. induction l as [|e l IH]; intros s; [done|]. cbn [app file_run]. destruct (file_handle e s); [|done..]. apply IH.
Qed.

Lemma receive_session p chunks s b c : chunks <> [] -> pending s !! p = Some b -> mfind (ptr_text p) (m_sessions s) = Some c ->
  file_run (FReceive p <$> chunks) s
  = '(b', w') ← for_fold (on_chunk file_format FileProcess (file_close p)) b chunks (world_of s c); Ok (server_of s p b' w').
Proof.
  intros Hc Eb Ec. destruct chunks as [|d chunks]; [done|]. rewrite fmap_cons. cbn [file_run for_fold].
  rewrite (receive_first p d s b c Eb Ec). unfold mbind, M_bind, outcome_bind.
  destruct (on_chunk _ _ _ b d (world_of s c)) as [[b1 w1]| |]; [|done..]. apply receive_run.
Qed.

Lemma sent_all ms c : state_ c = kConnected -> sent (send_all ms c) = sent c ++ concat (file_packet <$> ms).
Proof.
  revert c. induction ms as [|m ms IH]; intros c E; [by rewrite app_nil_r|].
  change (send_all (m :: ms) c) with (send_all ms (conn_send (file_packet m) c)). unfold conn_send. rewrite E, IH by done.
  cbn [sent fmap list_fmap concat]. by rewrite <- app_assoc.
Qed.

Lemma packets_chunks (chunks ms : list bytes) : ms <> [] -> concat chunks = concat (file_packet <$> ms) -> chunks <> [].
Proof.
  intros Hm E ->. destruct ms as [|m ms]; [done|]. rewrite fmap_cons in E. cbn [concat] in E. apply (f_equal len) in E.
  rewrite len_app, len_file_packet, len_nil in E. pose proof (len_nonneg m). pose proof (len_nonneg (concat (file_packet <$> ms))). lia.
Qed.

Lemma concat_pos (P : bytes -> Prop) l : l <> [] -> Forall (fun d => d <> [] /\ P d) l -> 0 < len (concat l).
Proof.
  intros N F. destruct F as [|d l [Hd _] _]; [done|]. cbn [concat]. rewrite len_app. pose proof (len_nonneg (concat l)).
  destruct d as [|x d]; [done|]. rewrite len_cons. pose proof (len_nonneg d). lia.
Qed.

Lemma requests_some filemd5 q total o l : l <> [] -> upload_requests filemd5 q total o l <> [].
Proof. by destruct l. Qed.

Lemma length_offsets r o : length (offsets r o) = r.
Proof. revert o. induction r as [|r IH]; intros o; [done|]. cbn. by rewrite IH. Qed.

(** ** The two clients *)

Section share.
Context (filemd5 : bytes) (q q' a b : Z) (pieces : list bytes) (p p' : Z) (s : FileServer).
Let data := concat pieces.
Let os := offsets (Z.to_nat ((len data + PIECE - 1) / PIECE)) 0.

(** A new name, in a place where files can be made. *)
Record can_share : Prop := {
  sh_name : filemd5 <> [];
  sh_new : c_str filemd5 ∉ table s;
  sh_elsewhere : fopen_r (c_str filemd5) (store s) = false;
  sh_access : may_read (store s) (cache_path filemd5) = true /\ may_write (store s) (cache_path filemd5) = true
              /\ is_dir (store s) (cache_path filemd5) = false;
  sh_room : full (store s) = false;
}.

(** What the clients have to respect. *)
Record clients_ok : Prop := {
  cl_sendable : sendable filemd5 q (len data) pieces;
  cl_pieces : pieces <> [];
  cl_size : len data + PIECE <= INT_MAX;
  cl_numbers : is_i32 q' /\ q' < INT_MAX /\ is_i32 a /\ is_i32 b;
  cl_fits : file_fits (download_request filemd5 q' a b) /\ Forall (fun o => file_fits (download_reply filemd5 q' data o)) os;
}.

Definition connected : Conn := {| state_ := kConnected; sent := [] |}.

(** Both connected, nothing sent. *)
Definition two_there (s2 : FileServer) : Prop :=
  mfind (ptr_text p) (m_sessions s2) = Some (FileSession_new p) /\ mfind (ptr_text p') (m_sessions s2) = Some (FileSession_new p')
  /\ pending s2 !! p = Some (Buffer_new kInitialSize) /\ pending s2 !! p' = Some (Buffer_new kInitialSize)
  /\ peers s2 !! p = Some connected /\ peers s2 !! p' = Some connected /\ store s2 = store s /\ table s2 = table s.

Lemma both_connect : file_server_ok s -> file_enabled (FConnect p) s -> file_enabled (FConnect p') s -> p <> p' ->
  exists s2, file_run [FConnect p; FConnect p'] s = Ok s2 /\ two_there s2.
Proof.
  intros O E1 [Hp' Hn'] Ne. pose proof E1 as [Hp Hn]. cbn [file_run]. pose proof (file_connect_eq s p O E1) as C1. rewrite C1, outcome_bind_ok.
  pose proof (file_event_ok _ _ _ O E1 C1) as O1. set (s1 := {| m_sessions := minsert _ _ _ |}) in *.
  assert (file_enabled (FConnect p') s1) as E2 by (split; [done|cbn; by rewrite lookup_insert_ne]).
  rewrite (file_connect_eq s1 p' O1 E2), outcome_bind_ok. eexists. split; [reflexivity|].
  pose proof (mt_sorted _ _ _ _ O) as S0. pose proof (mt_sorted _ _ _ _ O1) as S1.
  pose proof (matched_fresh _ _ _ _ _ O Hp Hn) as F. pose proof (matched_fresh _ _ _ _ _ O1 Hp' (proj2 E2)) as F'.
  assert (ptr_text p <> ptr_text p') as Nt by (intros E; by apply ptr_text_inj in E).
  unfold two_there. cbn [m_sessions pending peers store table].
  rewrite !mfind_minsert by done. rewrite decide_False, decide_True, F' by done. unfold s1 at 1. cbn [m_sessions].
  rewrite mfind_minsert, decide_True, F by done. cbn [default from_option id].
  rewrite !lookup_insert_eq, !lookup_insert_ne by done. cbn [s1 pending peers store table]. by rewrite !lookup_insert_eq.
Qed.
Lemma data_pos : clients_ok -> 0 < len data.
Proof. intros K. eapply concat_pos; [apply K|exact (sn_pieces _ _ _ _ (cl_sendable K))]. Qed.

(** The first client's part. *)
Lemma first_uploads s2 chunks : can_share -> clients_ok -> two_there s2 -> ptr_text p <> ptr_text p' ->
  concat chunks = concat (file_packet <$> upload_requests filemd5 q (len data) 0 pieces) ->
  exists s3, file_run (FReceive p <$> chunks) s2 = Ok s3
    /\ store s3 = set_files (<[cache_path filemd5 := data]> (files (store s))) (store s)
    /\ table s3 = table s ++ [c_str filemd5]
    /\ peers s3 = alter (send_all (upload_answers filemd5 q (len data) 0 pieces)) p (peers s2)
    /\ mfind (ptr_text p') (m_sessions s3) = mfind (ptr_text p') (m_sessions s2) /\ pending s3 !! p' = pending s2 !! p'.
Proof.
  intros Sh K (M & M' & B & B' & P & P' & St & Tb) Ne E.
  assert (chunks <> []) as Hc.
  { eapply packets_chunks; [|exact E]. apply requests_some, (cl_pieces K). }
  assert (can_upload filemd5 (world_of s2 (FileSession_new p)) connected) as CU.
  { split; cbn; rewrite ?St, ?Tb; try done; try apply Sh. }
  destruct (upload_run filemd5 q _ connected pieces kInitialSize chunks CU (cl_sendable K) (cl_pieces K) E) as (bf & w & Er & _ & R).
  rewrite (receive_session p chunks s2 _ _ Hc B M). change (f_conn (me (world_of s2 (FileSession_new p)))) with p in Er.
  rewrite Er, outcome_bind_ok. exists (server_of s2 p bf w). split; [done|]. destruct R as [_ _ Rl Rc Rf _].
  cbn [with_seq set_me me fs m_listFiles fconns server_of store table peers m_sessions pending] in *.
  rewrite Rf, Rl, Rc. unfold with_file. cbn. rewrite St, Tb. do 3 (split; [done|]).
  split; [|rewrite lookup_insert_ne; [done|congruence]]. apply mfind_mset_ne. congruence.
Qed.

(** The second client's part. *)
Lemma second_downloads s3 chunks : can_share -> clients_ok ->
  store s3 = set_files (<[cache_path filemd5 := data]> (files (store s))) (store s) -> table s3 = table s ++ [c_str filemd5] ->
  mfind (ptr_text p') (m_sessions s3) = Some (FileSession_new p') -> pending s3 !! p' = Some (Buffer_new kInitialSize) ->
  peers s3 !! p' = Some connected ->
  concat chunks = concat (file_packet <$> replicate (length os) (download_request filemd5 q' a b)) ->
  exists s4, file_run (FReceive p' <$> chunks) s3 = Ok s4 /\ store s4 = store s3
    /\ peers s4 = alter (send_all (download_reply filemd5 q' data <$> os)) p' (peers s3) /\ concat (piece_at data <$> os) = data.
Proof.
  intros Sh K St Tb M B P E. destruct (cl_numbers K) as (Q1 & Q2 & A1 & B1). destruct (cl_fits K) as [F1 F2]. pose proof (data_pos K) as D.
  assert (length os = Z.to_nat ((len data + PIECE - 1) / PIECE)) as L by apply length_offsets.
  assert (chunks <> []) as Hc.
  { eapply packets_chunks; [|exact E]. intros N. apply (f_equal length) in N. rewrite length_replicate, L in N. cbn [length] in N.
    assert (0 < (len data + PIECE - 1) / PIECE) by (unfold PIECE; dlia). lia. }
  assert (can_download filemd5 (world_of s3 (FileSession_new p')) connected data) as CD.
  { split; cbn; rewrite ?St, ?Tb; try done; try apply Sh.
    - apply elem_of_app. right. by apply list_elem_of_singleton.
    - apply lookup_insert_eq.
    - split; [done|apply K]. }
  destruct (download_run filemd5 q' _ connected data a b kInitialSize chunks CD eq_refl eq_refl Q1 Q2 A1 B1 F1 F2)
    as (bf & w & Er & R & C); [by rewrite <- L|].
  rewrite (receive_session p' chunks s3 _ _ Hc B M). change (f_conn (me (world_of s3 (FileSession_new p')))) with p' in Er.
  rewrite Er, outcome_bind_ok. exists (server_of s3 p' bf w). split; [done|]. destruct R as [_ _ Rf _ Rc _ _].
  cbn in Rf, Rc |- *. done.
Qed.

End share.

(** C10: A file from one client to another, through the whole server. Whatever else has happened
    before: two clients connect, the first sends a new file in pieces of its choice, the second
    asks for it as often as the file has half megabytes, and the network cuts what they send in
    any way. Then the server runs without a fault; the first gets its answers; the parts in the
    answers to the second, in their order, are the bytes that the first has sent; and the file
    is there for the next. An answer to the second has the name, the offset of the part, the size
    of the file and the part, in the order in which the code writes them (the comment on the
    protocol in FileMsg.h has the size before the offset). *)
Theorem file_shared filemd5 q q' a b pieces p p' f l s chunks chunks' :
  let data := concat pieces in
  let os := offsets (Z.to_nat ((len data + PIECE - 1) / PIECE)) 0 in
  file_reachable (file_server_Init f l) s -> file_enabled (FConnect p) s -> file_enabled (FConnect p') s -> p <> p' ->
  can_share filemd5 s -> clients_ok filemd5 q q' a b pieces ->
  concat chunks = concat (file_packet <$> upload_requests filemd5 q (len data) 0 pieces) ->
  concat chunks' = concat (file_packet <$> replicate (length os) (download_request filemd5 q' a b)) ->
  exists s', file_run ([FConnect p; FConnect p'] ++ (FReceive p <$> chunks) ++ (FReceive p' <$> chunks')) s = Ok s'
    /\ sent <$> peers s' !! p = Some (concat (file_packet <$> upload_answers filemd5 q (len data) 0 pieces))
    /\ sent <$> peers s' !! p' = Some (concat (file_packet <$> (download_reply filemd5 q' data <$> os)))
    /\ (forall o, download_reply filemd5 q' data o
         = be_bytes 4 msg_type_download_resp ++ be_bytes 4 q' ++ string_bytes filemd5 ++ be_bytes 4 o ++ be_bytes 4 (len data)
           ++ string_bytes (piece_at data o))
    /\ concat (piece_at data <$> os) = data
    /\ store s' = set_files (<[cache_path filemd5 := data]> (files (store s))) (store s).
Proof.
  intros data os R E1 E2 Ne Sh K U D. pose proof (file_reachable_ok _ _ _ R) as O.
  destruct (both_connect p p' s O E1 E2 Ne) as (s2 & C2 & T2).
  assert (ptr_text p <> ptr_text p') as Nt by (intros E; apply ptr_text_inj in E; [done|apply E1|apply E2]).
  destruct (first_uploads filemd5 q q' a b pieces p p' s s2 chunks Sh K T2 Nt U) as (s3 & C3 & St3 & Tb3 & P3 & M3 & B3).
  destruct T2 as (_ & M' & _ & B' & P & P' & _ & _).
  destruct (second_downloads filemd5 q q' a b pieces p' s s3 chunks' Sh K St3 Tb3) as (s4 & C4 & St4 & P4 & Pc);
    [congruence|congruence|by rewrite P3, lookup_alter_ne|done|].
  exists s4. rewrite file_run_app, C2, outcome_bind_ok, file_run_app, C3, outcome_bind_ok. split; [done|].
  rewrite P4, P3, lookup_alter_ne, lookup_alter_eq, P, lookup_alter_eq, lookup_alter_ne, P' by done. cbn [fmap option_fmap option_map].
  rewrite !sent_all by done. split; [done|]. split; [done|]. split; [done|]. split; [done|]. by rewrite St4.
Qed.

(** ** At work *)

Definition share_events : list file_event :=
  [FConnect file_ptr; FConnect file_ptr']
  ++ (FReceive file_ptr <$> (file_packet <$> upload_requests name 0 3 0 two_pieces))
  ++ (FReceive file_ptr' <$> [file_packet (download_request name 0 0 0)]).

Lemma file_shared_witness : exists s, file_run share_events (file_server_Init empty_fs []) = Ok s
  /\ sent <$> peers s !! file_ptr' = Some (file_packet (download_reply name 0 (bs "abc") 0))
  /\ concat (piece_at (bs "abc") <$> [0]) = bs "abc".
Proof.
  destruct (file_shared name 0 0 0 0 two_pieces file_ptr file_ptr' empty_fs [] (file_server_Init empty_fs [])
    (file_packet <$> upload_requests name 0 3 0 two_pieces) [file_packet (download_request name 0 0 0)]) as (s & E & _ & F & _ & C & _).
  - apply file_reach_start.
  - split; [apply (bool_decide_unpack _); vm_compute; exact I|reflexivity].
  - split; [apply (bool_decide_unpack _); vm_compute; exact I|reflexivity].
  - discriminate.
  - split; [discriminate|apply (bool_decide_unpack _); vm_compute; exact I|reflexivity|repeat split|reflexivity].
  - split; [|discriminate|apply (bool_decide_unpack _); vm_compute; exact I| |].
    + split; [split; [apply (bool_decide_unpack _); vm_compute; exact I|reflexivity]|apply (bool_decide_unpack _); vm_compute; exact I| |
        apply (bool_decide_unpack _); vm_compute; exact I].
      repeat apply Forall_cons_2; try apply Forall_nil_2; (split; [discriminate|apply (bool_decide_unpack _); vm_compute; exact I]).
    + split; [apply (bool_decide_unpack _); vm_compute; exact I|]. split; [reflexivity|].
      split; apply (bool_decide_unpack _); vm_compute; exact I.
    + split; apply (bool_decide_unpack _); vm_compute; exact I.
  - reflexivity.
  - vm_compute. reflexivity.
  - exists s. split; [exact E|]. split; [rewrite F; vm_compute; reflexivity|exact C].
Defined.
