(* ===== verification/Startup.v ===== *)
(** * Starting up (EdoyumIMServer.cpp, FileServer/main.cpp)

    [main] of the two servers, from the options to the loop: what is set up in which order and
    where it gives up. With it the chat server's runs have a beginning, and what [Init] and the
    handlers keep holds in all of them. Signals, the daemon's fork and the redirection of its
    standard streams are left out; they do not touch the servers' state. *)

From S2P Require Import Prelude Bytes Text StdMap QueryResult MySQLTool MySqlManager Database.
From S2P Require Import UserManager UserManagerProofs UserManagerLoad MsgCacheManager Json.
From S2P Require Import Conn World Buffer ClientSession Frame IMServer Sessions FileManager FileSession FileServer.
From S2P Require Import JsonReader JsonWriter Isolation.

(** What [main] comes to: the process's exit status, or the state its loop runs on. *)
Inductive started {S : Type} :=
| Exits (status : Z)
| Loops (s : S).
#[global] Arguments started : clear implicits.

(** The options, as [getopt] returns them one after another: whether to be a daemon. Of those in
    the option string all but [-d] end in the usage text. *)
Fixpoint parse_options (l : list byte) (is_daemon : bool) : option bool :=
  match l with
  | [] => Some is_daemon
  | ch :: l' => if decide (ch = Byte.x64) then parse_options l' true else None      (* 'd' *)
  end.

(** The file server's: what is not [-d] is ignored. *)
Fixpoint parse_file_options (l : list byte) (bdaemon : bool) : bool :=
  match l with
  | [] => bdaemon
  | ch :: l' => parse_file_options l' (if decide (ch = Byte.x64) then true else bdaemon)
  end.

Section main.
Context {D : Type} `{MySQL D} `{JsonText}.

Abbreviation Manager := (MySqlManager (D := D)).
Abbreviation ChatServer := (Server (D := Manager)).

(** The chat server's [main]; [fuel] is for the loop of [CheckTable]. *)
Definition main (fuel : nat) (options : list byte) (d : D) : outcome (started ChatServer) :=
  match parse_options options false with
  | None => mret (Exits (-1))
  | Some _ =>
      '(ok, m) ← MySqlManager.Init fuel (bs "127.0.0.1") (bs "debian-sys-maint") (bs "0ZaRwExruKSQPWuV") (bs "myim") 3306
                   (MySqlManager_new d);
      match ok with
      | None => Undef Diverges
      | Some false => mret (Exits (-2))
      | Some true =>
          '(ok, (u, m)) ← UserManager.Init (UserManager_new, m);
          if ok : bool then mret (Loops (initial u m)) else mret (Exits (-3))
      end
  end.
End main.

(** The file server's [main]. *)
Definition file_main (options : list byte) (listing : option (list bytes)) (made : bool) (f : FS) : started FileServer :=
  let bdaemon := parse_file_options options false in
  let '(ok, l) := FileManager_Init listing made [] in
  if ok : bool then Loops (file_server_Init f l) else Exits (-1).

(** ** What loading leaves *)

Section load.
Context {D : Type} `{Database D}.

(** The manager after the rows: the counter is the largest id, friends are sets. *)
Definition loaded (m : UserManager) : Prop :=
  m_baseGrupID m = GROUPID_BOUBDARY /\ 0 <= m_baseUserID m
  /\ (forall i, i ∈ ids (m_cachedUsers m) -> i <= m_baseUserID m)
  /\ (m_baseUserID m = 0 \/ m_baseUserID m ∈ ids (m_cachedUsers m))
  /\ Forall (fun u => sorted_set (friends u)) (m_cachedUsers m).

Lemma loaded_new : loaded UserManager_new.
Proof. split; [done|]. split; [done|]. split; [by intros i ?%elem_of_nil|]. split; [by left|constructor]. Qed.

Lemma read_user_friends q u : read_user q = Ok u -> friends u = [].
Proof.
  unfold read_user, mbind, outcome_bind. repeat (destruct (field_at q _); [|done..]). by intros [= <-].
Qed.

Lemma load_user_loaded q b (s : UserManager.UserManager * D) b' s' : loaded s.1 -> load_user q b s = Ok (b', s') -> loaded s'.1.
Proof.
  intros (G & B & M & A & F). unfold load_user. intros (u & s1 & E & E2)%bind_inv.
  unfold lift in E. destruct (read_user q) as [u'| |] eqn:Eu; [|done..]. injection E as -> <-.
  apply read_user_friends in Eu as Fu.
  destruct s as [m d]. apply bind_inv in E2 as (? & ? & [= <- <-] & E2). injection E2 as _ <-. cbn [fst snd] in *.
  assert (forall m', m_cachedUsers m' = m_cachedUsers m ++ [u] -> Forall (fun u => sorted_set (friends u)) (m_cachedUsers m')) as F'.
  { intros m' ->. apply Forall_app. split; [done|]. constructor; [|done]. rewrite Fu. constructor. }
  case_decide as Hu; cbn in Hu |- *; (split; [done|]); (split; [cbn; lia|]); cbn; rewrite ids_app.
  - split; [|split; [right; apply elem_of_app; right; by left|by apply (F' (set_users (m_cachedUsers m ++ [u]) m))]].
    intros i [Hi| ->%list_elem_of_singleton]%elem_of_app; [specialize (M i Hi)|]; lia.
  - split; [|split; [|by apply (F' (set_users (m_cachedUsers m ++ [u]) m))]].
    + intros i [Hi| ->%list_elem_of_singleton]%elem_of_app; [specialize (M i Hi)|]; lia.
    + destruct A as [|A]; [by left|]. right. apply elem_of_app. by left.
Qed.

Lemma load_relationship_sorted id fs s r s' : sorted_set fs -> LoadRelationshipFromDB id fs s = Ok (r, s') ->
  sorted_set r.2 /\ s'.1 = s.1.
Proof.
  intros S. unfold LoadRelationshipFromDB. destruct s as [m d]. intros (q & s1 & E1 & E)%bind_inv.
  apply db_inv in E1 as (d1 & _ & ->). destruct q as [q|]; [|by injection E as <- <-].
  apply bind_inv in E as (fs' & s2 & E & [= <- <-]). cbn [fst snd].
  apply (while_rows_keeps (load_friend id) (fun fs s => sorted_set fs /\ s.1 = m) fs q (m, d1) fs' s2); [|done|done].
  clear. intros q fs s fs' s' [S Em]. unfold load_friend. intros (c0 & s1 & E1 & (c1 & s2 & E2 & E)%bind_inv)%bind_inv.
  unfold lift in E1, E2. destruct (field_at q 0), (field_at q 1); try done. injection E1 as <- <-. injection E2 as <- <-.
  injection E as <- <-. split; [|done]. case_decide; by apply sorted_sinsert.
Qed.

Lemma load_friends_sorted l s l' s' : Forall (fun u => sorted_set (friends u)) l -> load_friends l s = Ok (l', s') ->
  ids l' = ids l /\ Forall (fun u => sorted_set (friends u)) l' /\ s'.1 = s.1.
Proof.
  intros F. revert s l' s'. induction F as [|u l Hu F IH]; intros s l' s'; simpl; [by intros [= <- <-]|].
  intros ([ok fs] & s1 & E1 & (l1 & s2 & E2 & [= <- <-])%bind_inv)%bind_inv. apply IH in E2 as (I2 & F2 & ->).
  apply load_relationship_sorted in E1 as [S1 ->]; [|done]. rewrite !ids_cons, I2. split; [done|]. split; [by constructor|done].
Qed.

Lemma Init_loaded d m d' : UserManager.Init (UserManager_new, d) = Ok (true, (m, d')) -> loaded m.
Proof.
  unfold UserManager.Init. intros (ok & [m1 d1] & E & E2)%bind_inv. destruct ok; [|done].
  assert (loaded m1) as (G & B & M & A & F).
  { unfold LoadUserFromDB in E. apply bind_inv in E as (q & [m0 d0] & E0 & E). apply db_inv in E0 as (d2 & _ & [= -> ->]).
    destruct q as [q|]; [|done]. apply bind_inv in E as (x & [m3 d3] & E & [= <- <-]).
    apply (while_rows_keeps load_user (fun _ s => loaded s.1) tt q (UserManager_new, d2) x (m3, d3)); [|apply loaded_new|done].
    intros q' b s b' s'. apply load_user_loaded. }
  apply bind_inv in E2 as (l & s & [= <- <-] & E2). apply bind_inv in E2 as (l' & [m2 d2] & E2 & E3).
  apply bind_inv in E3 as (? & ? & [= <- <-] & [= <- <-]).
  apply load_friends_sorted in E2 as (I2 & F2 & E3); [|done]. cbn [fst] in *. subst.
  split; [done|]. split; [done|]. cbn. by rewrite I2.
Qed.

(** Ids that are users' ids make it the invariant. *)
Lemma loaded_ok m : loaded m -> NoDup (ids (m_cachedUsers m)) ->
  Forall (fun i => 1 <= i <= GROUPID_BOUBDARY) (ids (m_cachedUsers m)) -> users_ok m.
Proof.
  intros (G & B & M & A & F) N R. rewrite Forall_forall in R. split; [done| |done| |].
  - apply Forall_forall. intros i Hi. left. split; [apply (R i Hi)|by apply M].
  - split; [done|]. destruct A as [->|A]; [unfold GROUPID_BOUBDARY; lia|apply (R _ A)].
  - rewrite G. unfold GROUPID_BOUBDARY, INT_MAX. lia.
Qed.
End load.

(** ** The users in every run *)

Section users.
Context {D : Type} `{Database D} `{JsonText}.

Definition users_kept (w w' : World (D := D)) : Prop :=
  m_baseUserID (users w) <= m_baseUserID (users w')
  /\ (m_baseUserID (users w') <= GROUPID_BOUBDARY -> users_ok (users w) -> users_ok (users w')).

#[export] Instance users_kept_pre : PreOrder users_kept.
Proof.
  split; [done|]. intros a b c [L1 K1] [L2 K2]. split; [lia|]. intros Hc O. apply K2; [done|]. apply K1; [lia|done].
Qed.

Lemma users_kept_same (w w' : World (D := D)) : users w' = users w -> users_kept w w'.
Proof. intros E. unfold users_kept. rewrite E. done. Qed.

#[export] Instance users_frame sid : Frame sid users_kept.
Proof.
  split; [apply _| |intros; by apply users_kept_same..].
  intros A f w a s Hc E. assert (call_step (users w) s.1) as (? & _ & K); [|split; [simpl; lia|exact K]].
  destruct Hc; eauto using AddUser_step, AddGroup_step, Make_step, Release_step, Update_step, Password_step.
  - unfold SaveChatMsgToDb in E. apply bind_inv in E as (ok & s1 & E & [= <- <-]). apply db_inv in E as (d & _ & ->).
    apply call_step_refl.
  - injection E as <- <-. apply call_step_refl.
  - injection E as <- <-. apply call_step_refl.
  - injection E as <- <-. apply call_step_refl.
Qed.

Lemma OnConnection_users p (w w' : World (D := D)) x : OnConnection p w = Ok (x, w') -> users w' = users w.
Proof.
  unfold OnConnection. intros (c & w1 & [= <- <-] & E)%bind_inv.
  destruct (state_ <$> _) as [[]|]; try by (injection E as _ <-).
  apply bind_inv in E as (l & w1 & [= <- <-] & E). destruct (mfind _ _); [done|]. by injection E as _ <-.
Qed.

Lemma step_users (s s' : Server (D := D)) : server_ok s -> step s s' -> users_kept (world s) (world s').
Proof.
  intros O St. destruct St as [e s0 s1 He E]. destruct e as [p|p d|p]; cbn [handle_event] in E.
  - destruct (OnConnection _ _) as [[x w]| |] eqn:Eo; [|done..]. injection E as <-. apply OnConnection_users in Eo.
    by apply users_kept_same.
  - destruct (inputs s0 !! p) as [b|] eqn:Eb; [|done]. destruct He as [_ (c & Ec & _)%open_is_open].
    destruct (mt_input _ _ _ _ O p) as (b0 & Eb0 & Wb); [by rewrite Ec|]. rewrite Eb in Eb0. injection Eb0 as <-.
    destruct (readFd_ok b d Wb) as (b1 & Er & W1 & _). rewrite Er in E. cbn [mbind outcome_bind] in E.
    destruct (ClientSession_OnRead _ _ _ _) as [[b2 w2]| |] eqn:Eo; [|done..]. injection E as <-.
    by apply (keeps_OnRead (fun _ => users_kept)) in Eo as [_ K].
  - destruct (OnConnection _ _) as [[x w]| |] eqn:Eo; [|done..]. injection E as <-. apply OnConnection_users in Eo.
    by apply users_kept_same.
Qed.

Lemma reachable_users u d (s : Server (D := D)) : reachable (initial u d) s -> users_kept (world (initial u d)) (world s).
Proof.
  induction 1 as [|s s' R IH St]; [done|]. etransitivity; [exact IH|]. apply step_users; [|done].
  by eapply reachable_ok.
Qed.
End users.

(** ** Properties *)

Section properties.
Context {D : Type} `{MySQL D} `{JsonText}.

Lemma main_starts fuel options (d : D) s0 : main fuel options d = Ok (Loops s0) ->
  exists u m, s0 = initial u m /\ loaded u /\ is_Some (parse_options options false).
Proof.
  unfold main. destruct (parse_options options false); [|done].
  destruct (MySqlManager.Init _ _ _ _ _ _ _) as [[[[]|] m]| |]; try done. cbn.
  destruct (UserManager.Init (UserManager_new, m)) as [[[] [u m']]| |] eqn:E; try done. intros [= <-].
  exists u, m'. split; [done|]. split; [by apply (Init_loaded m u m')|done].
Qed.

(** C14: the users of the running server. Start the chat server on any database that it comes up
    on, with any answers of the MySQL library from then on, where the ids read from the user
    table are distinct and in the range of users; and let any clients connect, send any bytes
    and go away. As long as the user counter has not passed the boundary to the group ids, the
    users in memory are in order after every event: ids are distinct, users below the boundary
    and groups above, none above its counter, and every friend set is a set. *)
Theorem server_users_valid fuel options (d : D) s0 s :
  main fuel options d = Ok (Loops s0) -> NoDup (ids (m_cachedUsers (users (world s0)))) ->
  Forall (fun i => 1 <= i <= GROUPID_BOUBDARY) (ids (m_cachedUsers (users (world s0)))) ->
  reachable s0 s -> m_baseUserID (users (world s)) <= GROUPID_BOUBDARY -> users_ok (users (world s)).
Proof.
  intros (u & m & -> & L & _)%main_starts N R Rc Hb. destruct (reachable_users u m s Rc) as [_ K].
  apply K; [done|]. by apply loaded_ok.
Qed.

(** A database that cannot be set up, users that cannot be read, and an option other than [-d]
    end the process before anyone is served, each with its status. *)
Lemma main_gives_up fuel options (d : D) status : main fuel options d = Ok (Exits status) ->
  (status = -1 <-> parse_options options false = None) /\ (status = -1 \/ status = -2 \/ status = -3).
Proof.
  unfold main. destruct (parse_options options false); [|intros [= <-]; split; [by split|auto]].
  destruct (MySqlManager.Init _ _ _ _ _ _ _) as [[[[]|] m]| |]; try done; cbn.
  - destruct (UserManager.Init _) as [[[] [u m']]| |]; try done. intros [= <-]. split; [by split|auto].
  - intros [= <-]. split; [by split|auto].
Qed.
End properties.

(** ** A start *)

(** The tables as the schema has them. *)
Definition described_as (l : list (bytes * sFieldInfo)) : MYSQL_RES :=
  desc_result ((fun p => desc_row (sName p.2) (sDesc p.2)) <$> l).
Definition databases : MYSQL_RES :=
  {| res_fields := [(bs "Database", FIELD_TYPE_VAR_STRING)]; res_rows := [[Some (bs "mysql")]; [Some (bs "myim")]] |}.
Definition friends_result : MYSQL_RES := {| res_fields := pair_fields; res_rows := [[Some (bs "1"); Some (bs "2")]] |}.

(** A server with two users who are friends. *)
Definition two_friends : replay := replaying
  ([ok_reply; result_reply databases]
   ++ ((fun p => result_reply (described_as (mapField p.2))) <$> tables)
   ++ [result_reply {| res_fields := user_fields;
                       res_rows := [user_row (bs "2") (bs "bob") (bs "pw"); user_row (bs "1") (bs "ann") (bs "pw")] |};
       result_reply friends_result; result_reply friends_result]).

Definition first_state : Server (D := MySqlManager (D := replay)) :=
  match main 20 [] two_friends with Ok (Loops s) => s | _ => initial UserManager_new (MySqlManager_new two_friends) end.

Lemma server_users_valid_witness :
  main 20 [Byte.x64] two_friends = Ok (Loops first_state) /\ users_ok (users (world first_state))
  /\ (userid <$> m_cachedUsers (users (world first_state))) = [2; 1].
Proof.
  assert (main 20 [Byte.x64] two_friends = Ok (Loops first_state)) as E by (vm_compute; reflexivity).
  split; [exact E|]. split; [|vm_compute; reflexivity].
  apply (server_users_valid 20 [Byte.x64] two_friends first_state first_state E).
  - apply (bool_decide_unpack _). vm_compute. exact I.
  - apply (bool_decide_unpack _). vm_compute. exact I.
  - apply reach_refl.
  - apply (bool_decide_unpack _). vm_compute. exact I.
Defined.
