(* ===== verification/Network.v ===== *)
(** * The servers on the network

    The chat server and the file server are users of the network library's loop. What the
    library proves of its connections and what is proved of the servers as machines on events
    meet here: every run of the loop that hosts a server is a run of the machine, and what the
    machine thinks it sent is what the kernel was given and what still waits. *)

From S2P Require Import Prelude Bytes Text StdMap BinaryReader Buffer Framing MsgCacheManager Json.
From S2P Require Import Database UserManager UserManagerProofs UserManagerLoad Conn World Sessions ClientSession Frame.
From S2P Require Import IMServer Isolation Room JsonReader JsonWriter Delivery FileManager FileSession FileTransfer FileServer.
From S2P Require Import Channel TcpConnection TcpServer TcpProofs TcpRefinement Hosted.

(** ** The chat server *)

Section chat.
Context {D : Type} `{Database D} `{JsonText}.

Abbreviation Server := (Server (D := D)).

#[export] Instance chat_hosted : Hosted Server := {
  its_conns s := conns (world s);
  its_inputs s := inputs s;
  comes_up p s := handle_event (Connect p) s;
  gets_input p d s := handle_event (Receive p d) s;
  goes_down p s := handle_event (Disconnect p) s;
}.

#[export] Program Instance chat_hosted_spec : HostedSpec Server := {| its_ok := server_ok |}.
Next Obligation.
  intros p s s' O Hp Hn E. cbn [its_conns its_inputs comes_up gets_input goes_down chat_hosted] in *. pose proof (conj Hp Hn : enabled (Connect p) s) as En.
  split; [by eapply step_ok, step_event|]. pose proof (connect_eq s p O En) as Ec.
  rewrite Ec in E. injection E as <-.
  split; [done|]. exists (Buffer_new kInitialSize). split; [vm_compute|]; done.
Qed.
Next Obligation.
  intros p d s s' c O Hd Ec Op E. cbn [its_conns its_inputs comes_up gets_input goes_down chat_hosted] in *.
  assert (enabled (Receive p d) s) as En by (split; [done|apply open_is_open; by exists c]).
  split; [by eapply receive_ok|]. clear En. destruct (mt_input _ _ _ _ O p) as (b & Eb & Wb); [by rewrite Ec|].
  cbn [handle_event] in E. rewrite Eb in E. destruct (readFd_ok b d Wb) as (b1 & Er & W1 & C1). rewrite Er in E. cbn [mbind outcome_bind] in E.
  destruct (ClientSession_OnRead (ptr_text p) p b1 (world s)) as [[b2 w2]| |] eqn:Eo; [|done..]. injection E as <-.
  pose proof (OnRead_suffix _ _ _ _ _ _ _ W1 Eo) as Sf. apply (keeps_OnRead evolves) in Eo as [W2 Ev]; [|done].
  split; [apply (ev_conns _ _ _ Ev)|]. exists b, b2. split; [done|]. split; [done|]. by rewrite <- C1.
Qed.
Next Obligation.
  intros p s s' c O Ec Op E. cbn [its_conns its_inputs comes_up gets_input goes_down chat_hosted] in *.
  assert (enabled (Disconnect p) s) as En by (apply open_is_open; by exists c).
  split; [by eapply step_ok, step_event|]. destruct (disconnect_eq _ _ En) as [f Ef].
  rewrite Ef in E. injection E as <-. cbn. split; [by rewrite delete_alter_eq|done].
Qed.

Lemma chat_runs (s0 s : Server) : rtc hosted_step s0 s -> reachable s0 s.
Proof.
  revert s. apply rtc_ind_r; [apply reach_refl|]. intros s s1 _ St IH. eapply reach_step; [exact IH|].
  destruct St as [p s s' Hp Hn E|p d c s s' Hd Ec Op E|p c s s' Ec Op E]; (eapply step_event; [|exact E]);
    [done|split; [done|]|]; apply open_is_open; by exists c.
Qed.

(** C6: The chat server on the network. In every run of the network library's loop that hosts it,
    whatever the kernel does, the server's state, as long as its process lives, is one that it
    reaches on its own events, so that all that is proved of those runs holds of this one. A
    connection it knows is an open one of the library in the same state, whose input buffer
    holds what the server's session has not consumed yet; of what the server sent on it, the
    kernel got a part and the rest waits in the output buffer, in order, unless the kernel
    reported that the peer is gone. A connection it does not know is closed. *)
Theorem chat_over_network name_ ipPort_ complete ans u d n s : len ipPort_ <= 50 ->
  net_reach hosted_react name_ ipPort_ complete (net_start ans (Ok (initial u d))) n -> user n = Ok s ->
  reachable (initial u d) s
  /\ forall p, match conns (world s) !! p with
       | Some x => exists c b, heap n !! p = Some c /\ inputs s !! p = Some b
           /\ c_open c /\ state_ x = c_state c /\ connections_ n !! c_name c = Some p
           /\ content (inputBuffer_ c) = content b
           /\ (wire c ++ content (outputBuffer_ c)) `sublist_of` sent x
           /\ (Forall (fun r => fatal r = false) ans -> wire c ++ content (outputBuffer_ c) = sent x)
       | None => forall c, heap n !! p = Some c -> c_state c = kDisconnected
       end.
Proof.
  intros Ip R Es.
  assert (its_ok (initial u d)) as O by exact (matched_empty session_of).
  destruct (hosted_loop name_ ipPort_ complete ans (initial u d) n s O eq_refl eq_refl Ip R Es) as [T V].
  split; [by apply chat_runs|exact V].
Qed.
End chat.

(** ** The file server *)

#[export] Instance files_hosted : Hosted FileServer := {
  its_conns := peers;
  its_inputs := pending;
  comes_up p s := file_handle (FConnect p) s;
  gets_input p d s := file_handle (FReceive p d) s;
  goes_down p s := file_handle (FDisconnect p) s;
}.

#[export] Program Instance files_hosted_spec : HostedSpec FileServer := {| its_ok := file_server_ok |}.
Next Obligation.
  intros p s s' O Hp Hn E. cbn [its_conns its_inputs comes_up gets_input goes_down files_hosted] in *. pose proof (conj Hp Hn : file_enabled (FConnect p) s) as En.
  split; [by eapply file_event_ok|]. pose proof (file_connect_eq s p O En) as Ec.
  rewrite Ec in E. injection E as <-. split; [done|]. exists (Buffer_new kInitialSize). split; [vm_compute|]; done.
Qed.
Next Obligation.
  intros p d s s' c O Hd Ec Op E. cbn [its_conns its_inputs comes_up gets_input goes_down files_hosted] in *.
  assert (file_enabled (FReceive p d) s) as En by (split; [done|apply peer_open_is_open; by exists c]).
  split; [by eapply file_event_ok|]. destruct (file_receive_eq s p d O En) as (x & b & b1 & _ & _ & Eb & W1 & C1 & Er).
  rewrite Er in E. destruct (FileSession_OnRead p b1 _) as [[b2 w]| |] eqn:Eo; [|done..].
  injection E as <-. pose proof (OnRead_suffix _ _ _ _ _ _ _ W1 Eo) as Sf.
  apply file_OnRead_evolves in Eo as [_ [_ G]]; [|done]. split; [exact G|]. exists b, b2. split; [done|].
  split; [done|]. by rewrite <- C1.
Qed.
Next Obligation.
  intros p s s' c O Ec Op E. cbn [its_conns its_inputs comes_up gets_input goes_down files_hosted] in *.
  assert (file_enabled (FDisconnect p) s) as En by (apply peer_open_is_open; by exists c).
  split; [by eapply file_event_ok|]. destruct (file_disconnect_eq _ _ En) as [f Ef].
  rewrite Ef in E. injection E as <-. cbn. split; [by rewrite delete_alter_eq|done].
Qed.

Lemma files_runs (s0 s : FileServer) : rtc hosted_step s0 s -> file_reachable s0 s.
Proof.
  revert s. apply rtc_ind_r; [apply file_reach_start|]. intros s s1 _ St IH.
  destruct St as [p s s' Hp Hn E|p d c s s' Hd Ec Op E|p c s s' Ec Op E]; (eapply file_reach_event; [exact IH| |exact E]);
    [done|split; [done|]|]; apply peer_open_is_open; by exists c.
Qed.

(** C7: The file server on the network, in the same way: every run of the loop that hosts it is a
    run of the machine, and the connections it knows are the library's open ones, with the
    bytes it has yet to read and the bytes it sent. *)
Theorem files_over_network name_ ipPort_ complete ans f l n s : len ipPort_ <= 50 ->
  net_reach hosted_react name_ ipPort_ complete (net_start ans (Ok (file_server_Init f l))) n -> user n = Ok s ->
  file_reachable (file_server_Init f l) s
  /\ forall p, match peers s !! p with
       | Some x => exists c b, heap n !! p = Some c /\ pending s !! p = Some b
           /\ c_open c /\ state_ x = c_state c /\ connections_ n !! c_name c = Some p
           /\ content (inputBuffer_ c) = content b
           /\ (wire c ++ content (outputBuffer_ c)) `sublist_of` sent x
           /\ (Forall (fun r => fatal r = false) ans -> wire c ++ content (outputBuffer_ c) = sent x)
       | None => forall c, heap n !! p = Some c -> c_state c = kDisconnected
       end.
Proof.
  intros Ip R Es.
  assert (its_ok (file_server_Init f l)) as O by exact (matched_empty file_session_of).
  destruct (hosted_loop name_ ipPort_ complete ans (file_server_Init f l) n s O eq_refl eq_refl Ip R Es) as [T V].
  split; [by apply files_runs|exact V].
Qed.

(** ** At work *)

(** Ann comes, logs in in two pieces, with the kernel taking 10 bytes of the answer at once. *)
Definition network_start : Net (U := outcome (Server (D := journal))) :=
  net_start [Wrote 10%nat; Wrote 5%nat] (Ok (initial two_users.1 journal_new)).
Definition login_turns : list loop_event :=
  [Turn [Accept ptr_a 7];
   Turn [Ready ptr_a POLLIN (Some (take 9 (packet login_request_bytes)))];
   Turn [Ready ptr_a POLLIN (Some (drop 9 (packet login_request_bytes)))];
   Turn [Ready ptr_a POLLOUT None]].
Definition network_now : Net (U := outcome (Server (D := journal))) :=
  default network_start (net_run hosted_react (bs "chat") (bs "0.0.0.0:20000") false login_turns network_start).

Lemma chat_over_network_witness : exists s c x, user network_now = Ok s /\ reachable (initial two_users.1 journal_new) s
  /\ heap network_now !! ptr_a = Some c /\ length (wire c) = 15%nat
  /\ conns (world s) !! ptr_a = Some x /\ sent x = wire c ++ content (outputBuffer_ c) /\ length (sent x) = 93%nat.
Proof.
  destruct (user network_now) as [s| |] eqn:Es; [|vm_compute in Es; discriminate..].
  destruct (heap network_now !! ptr_a) as [c|] eqn:Ec; [|vm_compute in Ec; discriminate].
  destruct (chat_over_network (bs "chat") (bs "0.0.0.0:20000") false [Wrote 10%nat; Wrote 5%nat] two_users.1 journal_new
    network_now s) as [R V].
  - by apply (bool_decide_unpack _); vm_compute.
  - eapply (net_run_reach _ _ _ _ login_turns _ network_start); [apply net_refl|vm_compute; reflexivity].
  - exact Es.
  - specialize (V ptr_a). destruct (conns (world s) !! ptr_a) as [x|] eqn:Ex.
    + destruct V as (c' & b & Ec' & _ & _ & _ & _ & _ & _ & V). rewrite Ec in Ec'. injection Ec' as <-.
      exists s, c, x. split; [reflexivity|]. split; [exact R|]. split; [reflexivity|].
      rewrite <- V by (repeat constructor). vm_compute in Ec. injection Ec as <-.
      split; [vm_compute; reflexivity|]. split; [exact Ex|]. split; vm_compute; reflexivity.
    + specialize (V c Ec). vm_compute in Ec. injection Ec as <-. vm_compute in V. discriminate.
Defined.

(** A client uploads the first piece of a file, and the answer is on its way. *)
Definition files_start : Net (U := outcome FileServer) := net_start [Wrote 20%nat] (Ok (file_server_Init empty_fs [])).
Definition upload_turns : list loop_event :=
  [Turn [Accept file_ptr 7];
   Turn [Ready file_ptr POLLIN (Some (file_packet (upload_request name 0 4 0 (bs "ab"))))]].
Definition files_now : Net (U := outcome FileServer) :=
  default files_start (net_run hosted_react (bs "file") (bs "0.0.0.0:20001") false upload_turns files_start).

Lemma files_over_network_witness : exists s c x, user files_now = Ok s /\ file_reachable (file_server_Init empty_fs []) s
  /\ heap files_now !! file_ptr = Some c /\ length (wire c) = 20%nat
  /\ peers s !! file_ptr = Some x /\ sent x = wire c ++ content (outputBuffer_ c).
Proof.
  destruct (user files_now) as [s| |] eqn:Es; [|vm_compute in Es; discriminate..].
  destruct (heap files_now !! file_ptr) as [c|] eqn:Ec; [|vm_compute in Ec; discriminate].
  destruct (files_over_network (bs "file") (bs "0.0.0.0:20001") false [Wrote 20%nat] empty_fs [] files_now s) as [R V].
  - by apply (bool_decide_unpack _); vm_compute.
  - eapply (net_run_reach _ _ _ _ upload_turns _ files_start); [apply net_refl|vm_compute; reflexivity].
  - exact Es.
  - specialize (V file_ptr). destruct (peers s !! file_ptr) as [x|] eqn:Ex.
    + destruct V as (c' & b & Ec' & _ & _ & _ & _ & _ & _ & V). rewrite Ec in Ec'. injection Ec' as <-.
      exists s, c, x. split; [reflexivity|]. split; [exact R|]. split; [reflexivity|].
      rewrite <- V by (repeat constructor). vm_compute in Ec. injection Ec as <-.
      split; [vm_compute; reflexivity|]. split; [exact Ex|]. reflexivity.
    + specialize (V c Ec). vm_compute in Ec. injection Ec as <-. vm_compute in V. discriminate.
Defined.
